(* ===== verification/_CoqProject ===== *)
-Q . S2P
Overview.v
Prelude.v
PyText.v
PyDict.v
IpAddress.v
Addresses.v
Networks.v
Models.v
Exceptions.v
Security.v
LeaseSpec.v
TaskLeases.v
Collectors.v
LinuxCollector.v
LinuxTheorems.v
WindowsCollector.v
ServiceObservations.v
Scans.v
ScanQueue.v
ScanLeases.v
ScanTheorems.v
ScanEnqueue.v
ImportTestLeases.v
ImportTesting.v
ImportTheorems.v
ObservationTheorems.v
CollectTheorems.v
Resolver.v
TopologyCache.v
DatabaseTransactions.v
DeviceListing.v
Retention.v
TopologyHistory.v
HistoryTheorems.v
HistoryEquivalence.v
Topology.v
TopologyServices.v
TopologyGraph.v
TopologyTheorems.v
TopologyRestriction.v
TopologyStable.v
TopologyViews.v
TopologyDemo.v
Scheduler.v
Clusters.v
ScanBatchFailures.v
ImportFiles.v
ImportFileTheorems.v
Imports.v
ImportDeviceTheorems.v
ImportOutcomes.v
ImportAlone.v
ImportCounts.v
ImportTesters.v
ImportDemo.v
Schemas.v
Api.v
Registry.v
RequestTheorems.v
Uploads.v
RequestOutcomes.v
RequestDemo.v
ApiReads.v
ReadTheorems.v
ReadDemo.v
Ddl.v
Migrations.v
Metadata.v
MigrationTheorems.v
WorkerPool.v
WorkerPoolTheorems.v
ScanWorker.v
ScanWorkerTheorems.v
ImportWorker.v
PostgresLeader.v
Notifications.v
Config.v
Startup.v
UrlEncode.v
Pages.v
