(* ===== verification/Overview.v ===== *)
(** * Connection Atlas: a verification library

    Connection Atlas (src/app) is a web service that logs into a fleet of Linux and
    Windows hosts, collects their open network connections, stores them in PostgreSQL and
    draws which cluster talks to which.  Several web processes run against one database;
    they coordinate through it only.  This library models the service in Rocq and proves
    what makes it correct.  This file is its guide; every other file opens with what it
    holds.

    ** How the program works

    - Requests (routes/api.py, routes/pages.py) register clusters, networks and devices,
      start scans, upload workbooks of devices, and read graphs.
    - Scans: a request or the scheduler enqueues a task (services/scan_queue.py).  The
      worker threads of any process claim tasks under a lease (services/task_leases.py),
      collect the host's connections (collectors/), persist the outcome and release the
      lease.  A heartbeat renews leases; an expired lease is taken back by the next claim.
    - Each outcome is stored as raw rows and as one observation per service
      (services/scans.py, service_observations.py); the topology aggregates observations
      (topology_history.py) and builds graphs (topology.py), cached per process
      (topology_cache.py) and invalidated over LISTEN/NOTIFY (postgres_notifications.py).
    - Imports (services/imports.py) create devices from workbooks, and a second leased
      queue tests their connections (import_testing.py, import_test_leases.py).
    - One process, elected by an advisory lock (postgres_leader.py), runs the periodic
      jobs and the purges (scheduler.py, retention.py).
    - Migrations (src/migrations) bring a database to the schema of models.py; a process
      refuses to start on another schema (main.py).

    ** Conventions

    A [str] is a list of code points ([PyText.text]), a [dict] the list of its items in
    insertion order (PyDict.v), a timestamp an integer of microseconds.  The database is a
    record of finite maps ([Models.Db]).  A service function that works in a session is a
    transaction: a function of the database, the transaction's timestamp [now]
    ([func.now()]), the process clock [wall] and the rows that others hold locked
    ([SKIP LOCKED] passes over them), answering a result or an exception
    (Exceptions.v) and a database; an exception rolls back.  What several transactions do
    is a sequence of steps between which any other process may act.  Threads are step
    relations, one step per statement, locked section or call.

    What is not under src/ is a parameter.  Parameters with laws are interfaces
    (type classes or records), each with a concrete instance that its witnesses use:
    name lookup ([Resolver]), set iteration order ([SetOrder]), PostgreSQL's row order,
    string aggregation, [lower] and collation ([PgOrder], [PgAggregates], [PgLower],
    [Collation]), Unicode case tables ([UnicodeCase]), APScheduler
    ([BackgroundScheduler]), what a worker runs ([Jobs]).  Parameters without laws are
    plain functions: [decrypt] and [encrypt] (Fernet), the collectors of a scan,
    [json_loads], the decoding of bytes, paramiko's and pywinrm's calls, openpyxl's
    reader, and SQLAlchemy's [make_url].

    ** Files and the code they model

    Text and data:
    - Prelude.v: notation scope, tactics, hint databases, generic lemmas.
    - PyText.v, PyDict.v, UrlEncode.v, IpAddress.v, Networks.v: the parts of Python's
      [str], [dict], [urllib.parse] and [ipaddress] the sources use.
    - Models.v, Exceptions.v: models.py and the exceptions.
    - Addresses.v: collectors/base.py [normalize_ip] and its neighbours.
    - Security.v: security.py.

    Queues and workers:
    - LeaseSpec.v: the abstract queue: hand out, renew, expire, settle.
    - TaskLeases.v, ScanQueue.v: task_leases.py and scan_queue.py as transactions;
      ScanLeases.v: the simulation of LeaseSpec by them; ScanTheorems.v, ScanEnqueue.v:
      what every execution guarantees.
    - ImportTestLeases.v, ImportTesting.v, ImportTheorems.v: the same for
      import_test_leases.py and import_testing.py.
    - WorkerPool.v: the threads both services run (dispatcher, executor, heartbeat,
      shutdown) over the interface [Jobs]; WorkerPoolTheorems.v: invariants proved
      against the interface; ScanWorker.v, ScanWorkerTheorems.v, ImportWorker.v: the two
      instances and the composition of their pools with the queues of all processes.

    Collecting and storing:
    - Collectors.v, LinuxCollector.v, LinuxTheorems.v, WindowsCollector.v: collectors/.
    - Scans.v, ServiceObservations.v, ObservationTheorems.v, CollectTheorems.v:
      services/scans.py and service_observations.py.
    - Retention.v: retention.py and the purges of scheduler.py.

    Topology:
    - TopologyHistory.v: topology_history.py; HistoryTheorems.v, HistoryEquivalence.v:
      its agreement with the raw records.
    - Resolver.v, Topology.v: topology.py; TopologyServices.v, TopologyGraph.v,
      TopologyTheorems.v, TopologyRestriction.v, TopologyStable.v, TopologyViews.v: the
      graphs, their edges and differences; TopologyDemo.v: a concrete database.
    - TopologyCache.v, Notifications.v: topology_cache.py, postgres_notifications.py.

    Registry, requests and imports:
    - Clusters.v, DeviceListing.v, ScanBatchFailures.v, DatabaseTransactions.v: the
      services of these names.
    - ImportFiles.v, ImportFileTheorems.v: the workbook side of imports.py; Imports.v:
      [import_devices]; ImportDeviceTheorems.v, ImportOutcomes.v, ImportAlone.v,
      ImportCounts.v, ImportTesters.v, ImportDemo.v: its theorems.
    - Schemas.v: the payloads of schemas.py; Api.v, Uploads.v, ApiReads.v: routes/api.py;
      Registry.v, RequestTheorems.v, RequestOutcomes.v, ReadTheorems.v, RequestDemo.v,
      ReadDemo.v: their theorems.
    - Pages.v: routes/pages.py.

    Processes and schema:
    - Scheduler.v, PostgresLeader.v: scheduler.py and postgres_leader.py.
    - Config.v: config.py, runtime.py, preflight.py, logging_config.py; Startup.v: main.py and the health check.
    - Ddl.v, Migrations.v, Metadata.v, MigrationTheorems.v: the migrations against
      models.py.

    ** What the theorems show

    C<n> is the theorem whose comment carries that identifier.

    - The queues.  No interleaving of claims, renewals, results, failures, enqueues and
      cancellations by any number of processes exceeds the limit of running scans, gives
      one task two live owners, or leaves a batch whose counters disagree with its tasks
      (C2, C3, C5, C17); both queues refine LeaseSpec (C9).  The threads of a
      process keep these invariants whatever fails, and never overbook their executor
      (C6, C15); an execution ends and settles its task at most once (C7), and a healthy
      one is stored (C8).
    - The history.  What the pages aggregate from observations is what the raw records
      say (C1); outcomes are recorded completely (C21), old scans are observed by the
      backfill (C22), purges delete exactly what the policies say and keep baselines
      (C26, C27).
    - The graphs.  Edges, lists of connections and the graph of a cluster agree (C34,
      C35), graphs are well formed (C36), never older than the cache may be (C20), computed
      by one thread at a time (C24) and invalidated by notifications (C18).
    - The requests.  They keep the registry (C4), change nothing when refused (C12),
      announce what they change (C11), and update exactly the row they were asked to (C13);
      a batch is created whole or not at all (C10); a transaction is retried and leaves
      no trace when it fails (C25); the device page redirects at most once (C39).
    - Imports account for every row of a file (C14) and read back the workbooks the
      program writes (C37).
    - The processes.  One scheduler fires (C16), its jobs follow the devices (C29), a
      process that serves is ready (C19), the connection budget is kept (C30), and the
      migrations lead from every revision to the models (C23).
    - The collectors.  Printed sockets and reports are read back (C33, C38), reading a
      command's output is complete and bounded in time (C28).  Normal forms of addresses
      and networks are canonical (C31, C32).  A log message is
      redacted (C40), and every log record passes the filter once it has reached a handler.

    Some theorems record behaviour that a comment, a document or the evident intent
    contradicts (for instance [ScanWorkerTheorems.reclaimed_scan_fails],
    [PostgresLeader.handover_runs_two_schedulers], [Startup.first_start_race],
    [LinuxTheorems.endless_output_has_no_deadline], [Security.second_word_survives]).
    They hold of the code as it is.

    ** Fuel and bounds

    Loops that are not structural take fuel, and the theorems about them show that it is
    enough: a purge runs at most once per scan and once more ([Retention]), the backfill
    once per batch of identifiers ([ServiceObservations]), redaction once per character
    of the message ([Security]), a transaction at most once per delay and once more
    ([DatabaseTransactions]), the reading of a channel at most a hundred times per second
    of the timeout ([LinuxCollector], where every drain ends).  Integers are Python's and
    unbounded; the bounds of columns and payloads are checked where the code checks them.

    ** Assumptions of the model

    - A transaction is atomic at the isolation its locks give: the rows it reads for
      update are those it changes.  [now] is one value per transaction.
    - Lease lengths are whole seconds.  A cached value is not changed after it is stored.
    - The chunks of a purge run one after another with nothing between them.
    - [int] has no limit on the number of digits; a float division rounded up is exact
      below 2^45.
    - Sessions do not flush by themselves ([autoflush=False]) and keep their objects after
      a commit ([expire_on_commit=False]): an import works on the batch object it holds,
      and an update writes the columns it changed.
    - The theorems that compare two graph requests read one state of the database.
    - Batch bookkeeping that another thread of the same process does while a scan is
      executed counts as a step of the other processes.
    - The PostgreSQL semantics of the data definition statements are those of Ddl.v.

    ** Not modelled

    - database.py's engine and session factory, and the session of a request: opening
      and closing connections; transactions begin with an open session.
    - timezone.py and the formats of times in pages: presentation of what is stored.
    - Opening, rotating and writing log files, and the times in front of their lines:
      the logging module's work.  Which handlers there are and what they write is in
      Config.v.
    - The templates, scripts and styles of the pages; Pages.v stops at the context a
      template receives.
    - FastAPI and pydantic: routing, JSON, the headers of downloads, and explicit nulls in
      the host, port, user and system of an update.
    - The [executor] argument of [ImportTestService] that only tests pass.
    - A second start of the same pool, elector or listener object after it was stopped;
      the program stops each once, when its process ends.
    - scripts/benchmark_topology_history.py: a measuring script; the aggregations
      it compares are compared by C1.
    - Fernet's cryptography, SSH and WinRM themselves, APScheduler's timing.  *)

From Stdlib Require Import ZArith.
