(* ===== verification/Prelude.v ===== *)
(** * Connection Atlas: verification library

    Shared vocabulary of the development. *)

From stdpp Require Export prelude gmap sorting list list_numbers.
From Stdlib Require Export ZArith Lia.

#[export] Set Default Goal Selector "!".
#[export] Set Warnings "-clear-no-such-hyp".

Declare Scope atlas_scope.
Delimit Scope atlas_scope with atlas.
#[global] Open Scope atlas_scope.
#[global] Open Scope Z_scope.

Create HintDb atlas.

(** ** Results: a Python call returns a value or raises an exception *)

Inductive result (E A : Type) : Type :=
| Ok (val : A)
| Raise (exn : E).
Arguments Ok {E A} val.
Arguments Raise {E A} exn.

#[export] Instance result_ret {E} : MRet (result E) := fun A a => Ok a.
#[export] Instance result_bind {E} : MBind (result E) := fun A B f r =>
  match r with Ok a => f a | Raise e => Raise e end.
#[export] Instance result_fmap {E} : FMap (result E) := fun A B f r =>
  match r with Ok a => Ok (f a) | Raise e => Raise e end.
#[export] Instance result_throw {E} : MThrow E (result E) := fun A e => Raise e.

#[export] Instance result_eq_dec {E A} `{EqDecision E, EqDecision A} :
  EqDecision (result E A).
Proof. solve_decision. Defined.

Definition is_ok {E A} (r : result E A) : bool :=
  match r with Ok _ => true | Raise _ => false end.

Lemma bind_Ok {E A B} (f : A -> result E B) (r : result E A) b :
  r ≫= f = Ok b <-> exists a, r = Ok a /\ f a = Ok b.
Proof. destruct r as [a|e]; cbn; naive_solver. Qed.

Lemma bind_Raise {E A B} (f : A -> result E B) (r : result E A) e :
  r ≫= f = Raise e <-> r = Raise e \/ exists a, r = Ok a /\ f a = Raise e.
Proof. destruct r as [a|e']; cbn; naive_solver. Qed.

(** ** Record update

    [r <| field := v |>] is the record [r] with one field replaced, the shape
    of an attribute assignment on a mapped object.  A record opts in with an
    [Eta] instance that spells out its constructor over its projections. *)

Class Eta (R : Type) := eta : R -> R.
Class Setter {R E : Type} (proj : R -> E) := set_field : (E -> E) -> R -> R.
Arguments set_field {R E} proj {Setter} f r.

Ltac head_of t := lazymatch t with ?f _ => head_of f | _ => t end.

Ltac build_setter :=
  lazymatch goal with
  | |- @Setter ?R ?E ?proj =>
      let f := fresh "f" in
      let r := fresh "r" in
      intros f r;
      let inst := constr:(ltac:(typeclasses eauto) : Eta R) in
      let inst := lazymatch inst with (?i : _) => i end in
      let h := head_of inst in
      let body := eval cbv beta delta [h] in (inst r) in
      lazymatch body with
      | context C [proj r] =>
          let body' := context C [f (proj r)] in exact body'
      end
  end.

#[export] Hint Extern 1 (Setter _) => build_setter : typeclass_instances.

Notation "r <| proj := v |>" := (set_field proj (fun _ => v) r)
  (at level 12, proj at level 9, left associativity) : atlas_scope.

(** ** Lists without duplicates, in ascending order: [sorted(set(xs))] *)

Definition sorted_ids (X : gset Z) : list Z := merge_sort Z.le (elements X).

Lemma elem_of_sorted_ids (X : gset Z) i : i ∈ sorted_ids X <-> i ∈ X.
Proof.
  unfold sorted_ids. rewrite (merge_sort_Permutation Z.le (elements X)).
  apply elem_of_elements.
Qed.

Lemma NoDup_sorted_ids (X : gset Z) : NoDup (sorted_ids X).
Proof.
  unfold sorted_ids. rewrite (merge_sort_Permutation Z.le (elements X)).
  apply NoDup_elements.
Qed.

Lemma list_to_set_sorted_ids (X : gset Z) : list_to_set (sorted_ids X) = X.
Proof. apply set_eq. intros i. by rewrite elem_of_list_to_set, elem_of_sorted_ids. Qed.

(** ** Tables: rows updated where a condition holds *)

Definition update_where {A} (P : Z -> A -> bool) (f : A -> A) (m : gmap Z A) : gmap Z A :=
  map_imap (fun i x => Some (if P i x then f x else x)) m.

Lemma lookup_update_where {A} (P : Z -> A -> bool) (f : A -> A) (m : gmap Z A) i :
  update_where P f m !! i = (fun x => if P i x then f x else x) <$> m !! i.
Proof. unfold update_where. rewrite map_lookup_imap. by destruct (m !! i). Qed.

Lemma dom_update_where {A} (P : Z -> A -> bool) (f : A -> A) (m : gmap Z A) :
  dom (update_where P f m) = dom m.
Proof.
  apply set_eq. intros i. rewrite !elem_of_dom, lookup_update_where.
  by rewrite fmap_is_Some.
Qed.

Lemma update_where_none {A} (P : Z -> A -> bool) (f : A -> A) (m : gmap Z A) :
  (forall i x, m !! i = Some x -> P i x = false) -> update_where P f m = m.
Proof.
  intros H. apply map_eq. intros i. rewrite lookup_update_where.
  destruct (m !! i) as [x|] eqn:E; cbn; [|done]. by rewrite (H i x E).
Qed.

Lemma alter_update_where {A} (f : A -> A) i (m : gmap Z A) :
  alter f i m = update_where (fun j (_ : A) => bool_decide (j = i)) f m.
Proof.
  apply map_eq. intros j. rewrite lookup_update_where, lookup_alter.
  case_decide; subst.
  - destruct (m !! j); cbn; [|done]. by rewrite bool_decide_true.
  - destruct (m !! j); cbn; [|done]. by rewrite bool_decide_false.
Qed.

Lemma map_Forall_update_where {A} (Q : Z -> A -> Prop) (P : Z -> A -> bool) (f : A -> A) (m : gmap Z A) :
  map_Forall (fun i x => Q i (if P i x then f x else x)) m <->
  map_Forall Q (update_where P f m).
Proof.
  split.
  - intros H i y. rewrite lookup_update_where.
    intros [x [Hx ->]]%fmap_Some. by apply H.
  - intros H i x Hx. apply H. rewrite lookup_update_where. by rewrite Hx.
Qed.

(** Rows selected by a boolean condition. *)
Definition where_ {A} (P : Z -> A -> bool) (m : gmap Z A) : gmap Z A :=
  filter (fun p => P p.1 p.2 = true) m.

Lemma lookup_where {A} (P : Z -> A -> bool) (m : gmap Z A) i x :
  where_ P m !! i = Some x <-> m !! i = Some x /\ P i x = true.
Proof. unfold where_. apply map_lookup_filter_Some. Qed.

Definition select_ids {A} (P : Z -> A -> bool) (m : gmap Z A) : gset Z := dom (where_ P m).

Lemma elem_of_select_ids {A} (P : Z -> A -> bool) (m : gmap Z A) i :
  i ∈ select_ids P m <-> exists x, m !! i = Some x /\ P i x = true.
Proof.
  unfold select_ids. rewrite elem_of_dom. unfold is_Some.
  by setoid_rewrite lookup_where.
Qed.

(** [SELECT count( * ) FROM m WHERE P]. *)
Definition count_where {A} (P : Z -> A -> bool) (m : gmap Z A) : Z :=
  Z.of_nat (size (select_ids P m)).

Lemma count_where_nonneg {A} (P : Z -> A -> bool) (m : gmap Z A) : 0 <= count_where P m.
Proof. unfold count_where. lia. Qed.

Lemma count_where_le {A B} (P : Z -> A -> bool) (Q : Z -> B -> bool) (m : gmap Z A) (m' : gmap Z B) :
  (forall i x, m !! i = Some x -> P i x = true -> exists y, m' !! i = Some y /\ Q i y = true) ->
  count_where P m <= count_where Q m'.
Proof.
  intros H. unfold count_where. apply inj_le. apply subseteq_size. intros i.
  rewrite !elem_of_select_ids. intros (x & Hx & HP). eauto.
Qed.

Lemma count_where_ext {A B} (P : Z -> A -> bool) (Q : Z -> B -> bool) (m : gmap Z A) (m' : gmap Z B) :
  (forall i, (exists x, m !! i = Some x /\ P i x = true) <->
             (exists y, m' !! i = Some y /\ Q i y = true)) ->
  count_where P m = count_where Q m'.
Proof.
  intros H. unfold count_where. do 2 f_equal. apply set_eq. intros i.
  by rewrite !elem_of_select_ids.
Qed.

#[export] Hint Resolve count_where_nonneg : atlas.

Lemma size_union_le (X Y : gset Z) : (size (X ∪ Y) <= size X + size Y)%nat.
Proof.
  rewrite size_union_alt. pose proof (subseteq_size (Y ∖ X) Y ltac:(set_solver)). lia.
Qed.

Lemma size_map_to_set {A} (f : A -> Z) (m : gmap Z A) :
  (forall i j x y, m !! i = Some x -> m !! j = Some y -> f x = f y -> i = j) ->
  size (map_to_set (fun _ x => f x) m : gset Z) = size m.
Proof.
  intros Hinj. unfold map_to_set. rewrite size_list_to_set.
  - by rewrite length_fmap, length_map_to_list.
  - apply NoDup_fmap_2_strong; [|apply NoDup_map_to_list].
    intros [i x] [j y] Hx%elem_of_map_to_list Hy%elem_of_map_to_list E. cbn in *.
    assert (i = j) as -> by eauto. by simplify_eq.
Qed.

Lemma select_ids_insert {A} (P : Z -> A -> bool) (m : gmap Z A) i x :
  m !! i = None ->
  select_ids P (<[i := x]> m) = (if P i x then {[i]} else ∅) ∪ select_ids P m.
Proof.
  intros Hi. apply set_eq. intros j. rewrite elem_of_union, !elem_of_select_ids.
  destruct (decide (i = j)) as [->|Hne].
  - rewrite lookup_insert_eq, Hi. split.
    + intros (y & [= <-] & Hy). rewrite Hy. left. by apply elem_of_singleton.
    + intros [Hj|(y & ? & _)]; [|done]. destruct (P j x) eqn:E; [eauto|by apply elem_of_empty in Hj].
  - rewrite lookup_insert_ne by done. split; [by right|]. intros [Hj|?]; [|done].
    destruct (P i x); [apply elem_of_singleton in Hj|apply elem_of_empty in Hj]; done.
Qed.

Lemma count_where_insert {A} (P : Z -> A -> bool) (m : gmap Z A) i x :
  m !! i = None -> count_where P (<[i := x]> m) = (if P i x then 1 else 0) + count_where P m.
Proof.
  intros Hi. unfold count_where. rewrite select_ids_insert by done.
  destruct (P i x); [|by rewrite union_empty_l_L].
  rewrite size_union, size_singleton; [lia|]. apply disjoint_singleton_l.
  rewrite elem_of_select_ids. intros (y & Hy & _). congruence.
Qed.

Lemma count_where_empty {A} (P : Z -> A -> bool) : count_where P ∅ = 0.
Proof.
  unfold count_where. replace (select_ids P ∅) with (∅ : gset Z); [done|].
  apply set_eq. intros i. rewrite elem_of_select_ids, elem_of_empty. split; [done|].
  intros (x & Hx & _). by rewrite lookup_empty in Hx.
Qed.

Lemma pair_fst {A B} (p : A * B) a : p.1 = a -> p = (a, p.2).
Proof. destruct p. by intros <-. Qed.

(** ** Sorted lists *)

Lemma Sorted_impl {A} (R R' : A -> A -> Prop) l : (forall x y, R x y -> R' x y) -> Sorted R l -> Sorted R' l.
Proof.
  intros HR. induction 1 as [|x l _ IH Hhd]; [constructor|]. constructor; [done|].
  destruct Hhd; constructor; auto.
Qed.

(** Transitivity is needed on the elements of the list only. *)
Lemma Sorted_StronglySorted_on {A} (R : A -> A -> Prop) (P : A -> Prop) l :
  (forall x y z, P x -> P y -> P z -> R x y -> R y z -> R x z) ->
  Forall P l -> Sorted R l -> StronglySorted R l.
Proof.
  intros Htr. induction l as [|x l IH]; intros HP Hs; [constructor|].
  apply Sorted_inv in Hs as [Hs Hhd]. apply Forall_cons in HP as [Hx HP]. constructor; [auto|].
  specialize (IH HP Hs). destruct l as [|y l]; [constructor|].
  apply HdRel_inv in Hhd. inversion IH as [|? ? _ Hall]; subst. apply Forall_cons in HP as [Hy HP].
  constructor; [done|]. rewrite Forall_forall in Hall, HP |- *. intros z Hz. by apply (Htr x y z); auto.
Qed.

Lemma sorted_ids_StronglySorted (X : gset Z) : StronglySorted Z.lt (sorted_ids X).
Proof.
  pose proof (NoDup_sorted_ids X) as Hnd.
  assert (Hs : StronglySorted Z.le (sorted_ids X)).
  { apply Sorted_StronglySorted; [intros ????; lia|]. apply (Sorted_merge_sort Z.le). }
  revert Hnd Hs. generalize (sorted_ids X). intros l.
  induction l as [|q l IH]; intros Hnd Hs; [constructor|]. apply NoDup_cons in Hnd as [Hq Hnd].
  inversion Hs as [|? ? Hs' Hle]; subst. constructor; [auto|].
  rewrite Forall_forall in Hle |- *. intros r Hr. specialize (Hle r Hr).
  assert (q ≠ r) by (intros ->; done). lia.
Qed.

(** ** Paging *)

(** [OFFSET k LIMIT n] *)
Definition offset_limit {A} (offset limit : Z) (l : list A) : list A :=
  take (Z.to_nat limit) (drop (Z.to_nat offset) l).

Definition ceil_div (a b : Z) : Z := (a + b - 1) / b.

Lemma ceil_div_bounds a b : 0 < b -> b * (ceil_div a b - 1) < a <= b * ceil_div a b.
Proof. unfold ceil_div. intros Hb. pose proof (Z.div_mod (a + b - 1) b). pose proof (Z.mod_pos_bound (a + b - 1) b Hb). nia. Qed.

Lemma concat_offset_limit {A} (s : Z) (l : list A) (n : nat) :
  0 < s -> concat ((fun k => offset_limit ((k - 1) * s) s l) <$> seqZ 1 (Z.of_nat n)) = take (n * Z.to_nat s) l.
Proof.
  intros Hs. induction n as [|n IH]; [done|].
  rewrite seqZ_S, fmap_app, concat_app, IH. cbn. rewrite app_nil_r. unfold offset_limit.
  replace (Z.to_nat ((1 + Z.of_nat n - 1) * s)) with (n * Z.to_nat s)%nat by lia.
  rewrite take_take_drop. f_equal. lia.
Qed.

Definition page_count (n page_size : Z) : Z := if negb (n =? 0) then ceil_div n page_size else 0.

Lemma page_count_0 n s : 0 < s -> 0 <= n -> page_count n s = 0 <-> n = 0.
Proof.
  intros Hs Hn. unfold page_count. destruct (Z.eqb_spec n 0); cbn [negb]; [done|].
  pose proof (ceil_div_bounds n s Hs). split; [nia|done].
Qed.

(** The pages of a list, one after the other, are the list. *)
Lemma concat_pages {A} (s : Z) (l : list A) :
  0 < s ->
  concat ((fun k => offset_limit ((k - 1) * s) s l) <$> seqZ 1 (page_count (Z.of_nat (length l)) s)) = l.
Proof.
  intros Hpos. assert (Hn : 0 <= page_count (Z.of_nat (length l)) s).
  { unfold page_count. destruct (negb _); [|done]. pose proof (ceil_div_bounds (Z.of_nat (length l)) s Hpos). nia. }
  rewrite <- (Z2Nat.id (page_count _ _)) by done. rewrite concat_offset_limit by done.
  apply take_ge. unfold page_count in *. destruct (Z.eqb_spec (Z.of_nat (length l)) 0); cbn [negb] in *; [lia|].
  pose proof (ceil_div_bounds (Z.of_nat (length l)) s Hpos). nia.
Qed.

Lemma omap_concat {A B} (f : A -> option B) (ls : list (list A)) : omap (M:=list) f (concat ls) = concat (fmap (M:=list) (omap (M:=list) f) ls).
Proof. induction ls as [|l ls IH]; [done|]. rewrite fmap_cons. cbn [concat]. by rewrite omap_app, IH. Qed.

Lemma omap_all {A B} (f : A -> option B) (l : list A) :
  (forall x, x ∈ l -> is_Some (f x)) -> length (omap (M:=list) f l) = length l.
Proof.
  induction l as [|x l IH]; intros Hall; [done|]. destruct (Hall x) as [y Hy]; [left|]. cbn. rewrite Hy. cbn.
  f_equal. apply IH. intros z Hz. apply Hall. by right.
Qed.
