(* ===== verification/PyText.v ===== *)
(** * Python text

    A Python [str] is the list of its Unicode code points.  This file holds the
    text type, literals, and the [str] operations the sources use.  Case mapping
    outside ASCII is a table of the Python build ([UnicodeCase]); everything
    else is exact. *)

From Stdlib Require Import Ascii String.
Export StringSyntax.
From S2P Require Import Prelude.

Abbreviation text := (list N) (only parsing).

(** ** Literals: a Rocq string holds the UTF-8 bytes of the source literal *)

Fixpoint string_bytes (s : string) : list N :=
  match s with
  | EmptyString => []
  | String c s' => N_of_ascii c :: string_bytes s'
  end.

Definition cont (b : N) : N := N.land b 63.

Fixpoint utf8_decode (bs : list N) : text :=
  match bs with
  | [] => []
  | b0 :: rest0 =>
      if (b0 <? 192)%N then b0 :: utf8_decode rest0 else
      match rest0 with
      | [] => [b0]
      | b1 :: rest1 =>
          if (b0 <? 224)%N
          then (N.land b0 31 * 64 + cont b1)%N :: utf8_decode rest1 else
          match rest1 with
          | [] => [b0; b1]
          | b2 :: rest2 =>
              if (b0 <? 240)%N
              then (N.land b0 15 * 4096 + cont b1 * 64 + cont b2)%N :: utf8_decode rest2
              else
              match rest2 with
              | [] => [b0; b1; b2]
              | b3 :: rest3 =>
                  (N.land b0 7 * 262144 + cont b1 * 4096 + cont b2 * 64 + cont b3)%N
                  :: utf8_decode rest3
              end
          end
      end
  end.

(** [u "abc"] is the Python literal "abc". *)
Definition u (s : string) : text := utf8_decode (string_bytes s).
Arguments u s%_string.

(** ** Characters *)

Definition ascii_char (c : N) : bool := (c <? 128)%N.
Definition ascii_lower_char (c : N) : N :=
  if (65 <=? c)%N && (c <=? 90)%N then (c + 32)%N else c.
Definition ascii_upper_char (c : N) : N :=
  if (97 <=? c)%N && (c <=? 122)%N then (c - 32)%N else c.
Definition is_digit (c : N) : bool := (48 <=? c)%N && (c <=? 57)%N.

(** [str.isspace] of one character: Unicode white space and the separators
    28 to 31. *)
Definition is_space (c : N) : bool :=
  ((9 <=? c)%N && (c <=? 13)%N) || ((28 <=? c)%N && (c <=? 32)%N) ||
  bool_decide (c ∈ [133; 160; 5760; 8232; 8233; 8239; 8287; 12288]%N) ||
  ((8192 <=? c)%N && (c <=? 8202)%N).

(** ** Case mapping *)

Class UnicodeCase := {
  unicode_lower : text -> text;
  unicode_upper : text -> text
}.

Definition isascii (s : text) : bool := forallb ascii_char s.

Definition lower `{UnicodeCase} (s : text) : text :=
  if isascii s then ascii_lower_char <$> s else unicode_lower s.
Definition upper `{UnicodeCase} (s : text) : text :=
  if isascii s then ascii_upper_char <$> s else unicode_upper s.

(** A table for examples: characters outside ASCII are left alone. *)
Definition ascii_only : UnicodeCase := {| unicode_lower s := s; unicode_upper s := s |}.

(** ** Operations *)

Fixpoint strip_prefix (p s : text) : option text :=
  match p, s with
  | [], _ => Some s
  | c :: p', c' :: s' => if (c =? c')%N then strip_prefix p' s' else None
  | _ :: _, [] => None
  end.

Lemma strip_prefix_app p s : strip_prefix p (p ++ s) = Some s.
Proof. induction p as [|c p IH]; [done|]. cbn. by rewrite N.eqb_refl. Qed.

Definition startswith (p s : text) : bool :=
  match strip_prefix p s with Some _ => true | None => false end.

Definition lstrip : text -> text :=
  fix go s := match s with c :: s' => if is_space c then go s' else s | [] => [] end.
Definition rstrip (s : text) : text := rev (lstrip (rev s)).
Definition strip (s : text) : text := rstrip (lstrip s).

(** [s.split(sep)] for a one-character separator. *)
Fixpoint split_on (sep : N) (s : text) : list text :=
  match s with
  | [] => [[]]
  | c :: s' =>
      if (c =? sep)%N then [] :: split_on sep s'
      else match split_on sep s' with
           | [] => [[c]]
           | x :: xs => (c :: x) :: xs
           end
  end.

(** [s.split(sep, 1)[0]] for a one-character separator. *)
Fixpoint before (sep : N) (s : text) : text :=
  match s with
  | [] => []
  | c :: s' => if (c =? sep)%N then [] else c :: before sep s'
  end.

(** [sep.join(xs)] for a one-character separator. *)
Fixpoint join (sep : N) (xs : list text) : text :=
  match xs with
  | [] => []
  | [x] => x
  | x :: xs' => x ++ sep :: join sep xs'
  end.

(** [s.replace(old, new)] for a non-empty [old]: left to right, the scan resumes
    after a replaced occurrence.  [skip] counts the characters of the occurrence
    still to pass over. *)
Fixpoint replace_from (old new : text) (skip : nat) (s : text) : text :=
  match s with
  | [] => []
  | c :: s' =>
      match skip with
      | S k => replace_from old new k s'
      | O => if startswith old s
             then new ++ replace_from old new (length old - 1) s'
             else c :: replace_from old new 0 s'
      end
  end.

Definition replace (old new s : text) : text :=
  match old with [] => s | _ => replace_from old new 0 s end.

(** [needle in haystack] *)
Fixpoint contains (needle s : text) : bool :=
  startswith needle s || match s with [] => false | _ :: s' => contains needle s' end.

(** ** Numerals *)

Fixpoint nat_digits (fuel : nat) (n : N) (acc : text) : text :=
  match fuel with
  | O => acc
  | S fuel' =>
      let acc := (48 + n mod 10)%N :: acc in
      if (n <? 10)%N then acc else nat_digits fuel' (n / 10)%N acc
  end.

(** [str(n)]: a number below 2^k has at most k decimal digits. *)
Definition str_of_N (n : N) : text := nat_digits (S (N.to_nat (N.size n))) n [].
Definition str_of_Z (z : Z) : text :=
  if z <? 0 then 45%N :: str_of_N (Z.to_N (- z)) else str_of_N (Z.to_N z).

(** The value of a text of ASCII digits. *)
Definition digits_value (s : text) : Z :=
  foldl (fun acc c => acc * 10 + (Z.of_N c - 48)) 0 s.

(** A numeral reads back as the number it was written from. *)
Lemma nat_digits_value fuel n acc :
  (n < 2 ^ N.of_nat fuel)%N ->
  exists ds, nat_digits fuel n acc = ds ++ acc /\ digits_value ds = Z.of_N n /\
    Forall (fun c => is_digit c = true) ds /\ (n = 0%N \/ head ds ≠ Some 48%N) /\ (fuel ≠ 0%nat -> ds ≠ []).
Proof.
  revert n acc. induction fuel as [|fuel IH]; intros n acc Hn.
  { assert (n = 0%N) as -> by (cbn in Hn; lia). exists []. split_and!; auto; done. }
  assert (Hd : forall m, (m < 10)%N -> is_digit (48 + m) = true).
  { intros m Hm. unfold is_digit. rewrite andb_true_iff, !N.leb_le. lia. }
  pose proof (N.div_mod n 10 ltac:(done)) as Hdm. pose proof (N.mod_lt n 10 ltac:(done)) as Hm.
  cbn [nat_digits]. destruct (N.ltb_spec n 10) as [Hlt|Hge].
  - exists [(48 + n mod 10)%N]. rewrite N.mod_small in * by done. split_and!; try done.
    + unfold digits_value. cbn [foldl]. lia.
    + repeat constructor. by apply Hd.
    + destruct (decide (n = 0%N)); [by left|right]. cbn [head]. intros [= E]. lia.
  - destruct (IH (n / 10)%N ((48 + n mod 10)%N :: acc)) as (ds & -> & Hv & Hall & Hh & _).
    { apply N.Div0.div_lt_upper_bound.
      replace (N.of_nat (S fuel)) with (N.succ (N.of_nat fuel)) in Hn by lia. rewrite N.pow_succ_r' in Hn. lia. }
    exists (ds ++ [(48 + n mod 10)%N]). rewrite <- app_assoc. split_and!; [done| | | |].
    + unfold digits_value in *. rewrite foldl_snoc, Hv. lia.
    + apply Forall_app. split; [done|]. repeat constructor. by apply Hd.
    + right. destruct Hh as [H0|Hh]; [lia|]. destruct ds; [cbn in Hv; lia|done].
    + intros _. by destruct ds.
Qed.

Lemma str_of_N_spec n :
  digits_value (str_of_N n) = Z.of_N n /\ Forall (fun c => is_digit c = true) (str_of_N n) /\
  (n = 0%N \/ head (str_of_N n) ≠ Some 48%N) /\ str_of_N n ≠ [].
Proof.
  unfold str_of_N. destruct (nat_digits_value (S (N.to_nat (N.size n))) n []) as (ds & -> & ? & ? & ? & ?).
  - replace (N.of_nat (S (N.to_nat (N.size n)))) with (N.succ (N.size n)) by lia. rewrite N.pow_succ_r'.
    pose proof (N.size_gt n). lia.
  - rewrite app_nil_r. auto.
Qed.

#[export] Instance str_of_N_inj : Inj (=) (=) str_of_N.
Proof.
  intros m n E. apply N2Z.inj. rewrite <- (proj1 (str_of_N_spec m)), E. apply str_of_N_spec.
Qed.

#[export] Instance str_of_Z_inj : Inj (=) (=) str_of_Z.
Proof.
  intros x y. unfold str_of_Z.
  assert (Hd : forall n t, str_of_N n ≠ 45%N :: t).
  { intros n t E. destruct (str_of_N_spec n) as (_ & Hall & _). rewrite E in Hall.
    by apply Forall_cons in Hall as [? _]. }
  destruct (Z.ltb_spec x 0), (Z.ltb_spec y 0); intros E.
  - injection E as E%str_of_N_inj. lia.
  - by apply symmetry, Hd in E.
  - by apply Hd in E.
  - apply str_of_N_inj in E. lia.
Qed.

(** ** Stripping *)

Lemma lstrip_spec s : exists p, s = p ++ lstrip s /\ match lstrip s with c :: _ => is_space c = false | [] => True end.
Proof.
  induction s as [|c s IH]; [by exists []|]. change (lstrip (c :: s)) with (if is_space c then lstrip s else c :: s).
  destruct (is_space c) eqn:E; [|exists []; split; [done|exact E]].
  destruct IH as (p & Hp & Hh). exists (c :: p). split; [|done]. cbn. by f_equal.
Qed.

Lemma lstrip_head s : match s with c :: _ => is_space c = false | [] => True end -> lstrip s = s.
Proof. destruct s as [|c s]; [done|]. cbn. by intros ->. Qed.

Lemma strip_idempotent s : strip (strip s) = strip s.
Proof.
  unfold strip, rstrip. destruct (lstrip_spec s) as (p & _ & Hh). set (t := lstrip s) in *.
  destruct (lstrip_spec (rev t)) as (q & Hq & Hr). set (r := lstrip (rev t)) in *.
  assert (Ht : t = rev r ++ rev q) by (rewrite <- rev_app_distr, <- Hq; symmetry; apply rev_involutive).
  rewrite (lstrip_head (rev r)).
  - rewrite rev_involutive, (lstrip_head r); [done|exact Hr].
  - destruct (rev r) as [|c l] eqn:E; [done|]. rewrite Ht in Hh. exact Hh.
Qed.

(** ** Lines, words, slices and integers *)

Definition is_linebreak (c : N) : bool := bool_decide (c ∈ [10; 11; 12; 13; 28; 29; 30; 133; 8232; 8233]%N).

(** [s.splitlines()] *)
Fixpoint splitlines (s : text) : list text :=
  match s with
  | [] => []
  | c :: s' =>
      if (c =? 13)%N then
        match s' with
        | c' :: s'' => if (c' =? 10)%N then [] :: splitlines s'' else [] :: splitlines s'
        | [] => [[]]
        end
      else if is_linebreak c then [] :: splitlines s'
      else match splitlines s' with [] => [[c]] | x :: xs => (c :: x) :: xs end
  end.

(** The leading characters that are not white space, and the rest. *)
Fixpoint word (s : text) : text * text :=
  match s with
  | [] => ([], [])
  | c :: s' => if is_space c then ([], s) else let '(w, rest) := word s' in (c :: w, rest)
  end.

(** [s.split(maxsplit=n)] *)
Fixpoint split_words (n : nat) (s : text) : list text :=
  match lstrip s with
  | [] => []
  | s =>
      match n with
      | O => [s]
      | S n => let '(w, rest) := word s in w :: split_words n rest
      end
  end.

(** [s.rfind(c)] *)
Fixpoint rfind_from (i last : Z) (c : N) (s : text) : Z :=
  match s with
  | [] => last
  | c' :: s' => rfind_from (i + 1) (if (c' =? c)%N then i else last) c s'
  end.

Definition rfind (c : N) (s : text) : Z := rfind_from 0 (-1) c s.

(** [s[start:stop]]: a negative index counts from the end. *)
Definition slice_index (s : text) (i : Z) : nat :=
  let n := Z.of_nat (length s) in
  Z.to_nat (if i <? 0 then Z.max 0 (n + i) else Z.min i n).

Definition slice_from (start : Z) (s : text) : text := drop (slice_index s start) s.
Definition slice (start stop : Z) (s : text) : text :=
  drop (slice_index s start) (take (slice_index s stop) s).

(** [s.rpartition(c)]: the parts around the last [c], if there is one. *)
Definition rpartition (c : N) (s : text) : option (text * text) :=
  let i := rfind c s in
  if i <? 0 then None else Some (take (Z.to_nat i) s, drop (Z.to_nat i + 1) s).

(** [s.rsplit(sep, n)] for a one-character separator: the last [n] separators split. *)
Definition rsplit (n : nat) (sep : N) (s : text) : list text :=
  let parts := split_on sep s in
  let k := (length parts - n)%nat in
  if (k <=? 1)%nat then parts else join sep (take k parts) :: drop k parts.

(** [s.split(sep, 1)[1]], when there is one. *)
Fixpoint after (sep : N) (s : text) : option text :=
  match s with
  | [] => None
  | c :: s' => if (c =? sep)%N then Some s' else after sep s'
  end.

(** PostgreSQL's [lpad(s, n, c)]. *)
Definition lpad (n : nat) (c : N) (s : text) : text :=
  if (length s <? n)%nat then replicate (n - length s) c ++ s else take n s.

(** Decimal digits outside ASCII. *)
Class UnicodeDigits := unicode_digit : N -> option Z.

Definition digit_value `{UnicodeDigits} (c : N) : option Z :=
  if is_digit c then Some (Z.of_N c - 48) else if (c <? 128)%N then None else unicode_digit c.

(** Digits, single underscores between them; [prev] tells that a digit came before. *)
Fixpoint int_digits `{UnicodeDigits} (acc : Z) (prev : bool) (s : text) : option Z :=
  match s with
  | [] => if prev then Some acc else None
  | c :: s' =>
      match digit_value c with
      | Some d => int_digits (acc * 10 + d) true s'
      | None => if (c =? 95)%N && prev then int_digits acc false s' else None
      end
  end.

(** [int(s)]; [None] is [ValueError]. *)
Definition py_int `{UnicodeDigits} (s : text) : option Z :=
  match strip s with
  | c :: s' =>
      if (c =? 43)%N then int_digits 0 false s'
      else if (c =? 45)%N then Z.opp <$> int_digits 0 false s'
      else int_digits 0 false (c :: s')
  | [] => None
  end.

(** For examples: no digits outside ASCII. *)
Definition no_unicode_digits : UnicodeDigits := fun _ => None.

(** ** Words put together *)

Definition no_space (s : text) : Prop := Forall (fun c => is_space c = false) s.

Lemma lstrip_no_space s t : s ≠ [] -> no_space s -> lstrip (s ++ t) = s ++ t.
Proof. intros Hne Hs. destruct Hs as [|c s Hc _]; [done|]. cbn. by rewrite Hc. Qed.

Lemma strip_no_space s : no_space s -> strip s = s.
Proof.
  intros Hs. unfold strip, rstrip.
  assert (E : lstrip s = s) by (destruct Hs as [|c s Hc _]; [done|]; cbn; by rewrite Hc). rewrite E.
  assert (Hr : no_space (rev s)) by by apply Forall_rev. revert Hr. destruct (rev s) as [|c t] eqn:Er.
  - intros _. rewrite <- (rev_involutive s), Er. done.
  - intros Hr. apply Forall_cons in Hr as [Hc _]. cbn [lstrip]. rewrite Hc, <- Er. apply rev_involutive.
Qed.

Lemma word_app s t :
  no_space s -> match t with c :: _ => is_space c = true | [] => True end -> word (s ++ t) = (s, t).
Proof.
  intros Hs Ht. induction Hs as [|c s Hc _ IH]; cbn.
  - destruct t as [|c t]; [done|]. cbn. by rewrite Ht.
  - rewrite Hc, IH. done.
Qed.

Lemma split_words_word n w rest :
  w ≠ [] -> no_space w -> split_words (S n) (w ++ 32%N :: rest) = w :: split_words n rest.
Proof.
  intros Hne Hw. cbn [split_words]. rewrite lstrip_no_space by done. destruct w as [|c w]; [done|].
  cbn [app]. change (c :: w ++ 32%N :: rest) with ((c :: w) ++ 32%N :: rest). rewrite word_app by done.
  f_equal. by destruct n.
Qed.

Lemma split_words_last n w : w ≠ [] -> no_space w -> split_words n w = [w].
Proof.
  intros Hne Hw. pose proof (lstrip_no_space w [] Hne Hw) as E. rewrite app_nil_r in E.
  destruct n; cbn [split_words]; rewrite E; destruct w as [|c w]; try done.
  pose proof (word_app (c :: w) [] Hw I) as Ew. rewrite app_nil_r in Ew. rewrite Ew. f_equal. by destruct n.
Qed.

Lemma split_words_rest c s : is_space c = false -> split_words 0 (c :: s) = [c :: s].
Proof. intros Hc. cbn. by rewrite Hc. Qed.

(** ** Integers written in decimal *)

Lemma is_digit_bounds c : is_digit c = true -> (48 <= c <= 57)%N.
Proof. unfold is_digit. rewrite andb_true_iff, !N.leb_le. done. Qed.

Lemma digits_no_space s : Forall (fun c => is_digit c = true) s -> no_space s.
Proof.
  intros Hs. eapply Forall_impl; [exact Hs|]. cbn. intros c Hc%is_digit_bounds.
  assert (H : c ∈ [48; 49; 50; 51; 52; 53; 54; 55; 56; 57]%N) by (rewrite !elem_of_cons; lia).
  repeat (apply elem_of_cons in H as [->|H]; [by vm_compute|]). by apply elem_of_nil in H.
Qed.

Lemma str_of_N_no_space n : no_space (str_of_N n).
Proof. apply digits_no_space, str_of_N_spec. Qed.

Lemma int_digits_digits `{UnicodeDigits} s acc prev :
  Forall (fun c => is_digit c = true) s -> s ≠ [] \/ prev = true ->
  int_digits acc prev s = Some (foldl (fun acc c => acc * 10 + (Z.of_N c - 48)) acc s).
Proof.
  intros Hs. revert acc prev. induction Hs as [|c s Hc _ IH]; intros acc prev Hne; cbn.
  - destruct Hne as [Hne|Hne]; [done|by rewrite Hne].
  - unfold digit_value. rewrite Hc. apply IH. by right.
Qed.

Lemma py_int_str `{UnicodeDigits} n : py_int (str_of_N n) = Some (Z.of_N n).
Proof.
  destruct (str_of_N_spec n) as (Hv & Hall & _ & Hne). unfold py_int.
  rewrite strip_no_space by apply str_of_N_no_space. destruct (str_of_N n) as [|c s]; [done|].
  pose proof Hall as Hall'. apply Forall_cons in Hall' as [Hc%is_digit_bounds _].
  destruct (N.eqb_spec c 43); [lia|]. destruct (N.eqb_spec c 45); [lia|].
  rewrite int_digits_digits by (done || by left). unfold digits_value in Hv. by rewrite Hv.
Qed.
