(* ===== verification/PyDict.v ===== *)
(** * Python dictionaries, text order and [repr]

    A [dict] keeps its keys in insertion order, so it is the list of its items.  The
    grouping idiom of the sources (one pass, each row updates the entry of its key)
    has its own fold and its characterisation: the entry of a key is the fold over the
    rows with that key. *)

From S2P Require Import Prelude PyText.

Abbreviation dict K V := (list (K * V)) (only parsing).

Lemma elem_of_concat {A} (x : A) (ls : list (list A)) : x ∈ concat ls <-> exists l, x ∈ l /\ l ∈ ls.
Proof.
  induction ls as [|l ls IH]; cbn; [set_solver|]. rewrite elem_of_app, IH. setoid_rewrite elem_of_cons. naive_solver.
Qed.

Lemma elem_of_concat_fmap {A B} (f : A -> list B) (xs : list A) b :
  b ∈ concat (f <$> xs) <-> exists x, x ∈ xs /\ b ∈ f x.
Proof. rewrite elem_of_concat. setoid_rewrite list_elem_of_fmap. naive_solver. Qed.

Lemma NoDup_concat_fmap {A B} (f : A -> list B) (l : list A) :
  NoDup l -> (forall x, x ∈ l -> NoDup (f x)) ->
  (forall x y b, x ∈ l -> y ∈ l -> b ∈ f x -> b ∈ f y -> x = y) -> NoDup (concat (f <$> l)).
Proof.
  induction 1 as [|x l Hx Hl IH]; intros Hf Hdis; [constructor|]. cbn. apply NoDup_app. split_and!.
  - apply Hf. left.
  - intros b Hb (y & Hy & Hby)%elem_of_concat_fmap. destruct Hx.
    rewrite (Hdis x y b); [done|left|by right|done|done].
  - apply IH; [intros y Hy; apply Hf; by right|]. intros y z b Hy Hz. apply Hdis; by right.
Qed.

Lemma StronglySorted_concat_fmap {A B} (R : A -> A -> Prop) (S : B -> B -> Prop) (f : A -> list B) (l : list A) :
  StronglySorted R l -> (forall x, x ∈ l -> StronglySorted S (f x)) ->
  (forall x y a b, x ∈ l -> y ∈ l -> R x y -> a ∈ f x -> b ∈ f y -> S a b) ->
  StronglySorted S (concat (f <$> l)).
Proof.
  induction 1 as [|x l _ IH Hx]; intros Hf HR; [constructor|]. cbn. rewrite Forall_forall in Hx.
  apply StronglySorted_app_2.
  - intros a b Ha (y & Hy & Hb)%elem_of_concat_fmap. apply (HR x y); [left|by right|auto|done|done].
  - apply Hf. left.
  - apply IH; [intros y Hy; apply Hf; by right|]. intros y z a b Hy Hz. apply HR; by right.
Qed.

Lemma filter_fmap {A B} (P : B -> Prop) `{forall x, Decision (P x)} (f : A -> B) (l : list A) :
  filter P (f <$> l) = f <$> filter (fun x => P (f x)) l.
Proof.
  induction l as [|x l IH]; [done|]. rewrite fmap_cons, !filter_cons.
  destruct (decide (P (f x))); [by rewrite fmap_cons, IH|done].
Qed.

(** ** Dictionaries *)

Section dict.
Context {K V : Type} `{EqDecision K}.

(** [d.get(k)] *)
Fixpoint dict_get (k : K) (d : dict K V) : option V :=
  match d with
  | [] => None
  | (k', v) :: d' => if decide (k = k') then Some v else dict_get k d'
  end.

(** The entry of [k] becomes [f] of what it was; a new key goes last. *)
Fixpoint dict_upsert (f : option V -> V) (k : K) (d : dict K V) : dict K V :=
  match d with
  | [] => [(k, f None)]
  | (k', v) :: d' => if decide (k = k') then (k', f (Some v)) :: d' else (k', v) :: dict_upsert f k d'
  end.

(** [d[k] = v] and [d.setdefault(k, v)] *)
Definition dict_set (k : K) (v : V) : dict K V -> dict K V := dict_upsert (fun _ => v) k.
Definition dict_setdefault (k : K) (v : V) : dict K V -> dict K V := dict_upsert (fun o => default v o) k.

Lemma dict_get_upsert f k k' d :
  dict_get k' (dict_upsert f k d) = if decide (k' = k) then Some (f (dict_get k d)) else dict_get k' d.
Proof.
  induction d as [|[k0 v] d IH]; cbn; [done|].
  destruct (decide (k = k0)) as [->|Hne]; cbn.
  - by destruct (decide (k' = k0)).
  - rewrite IH. destruct (decide (k' = k0)) as [->|]; [|done]. by rewrite decide_False.
Qed.

Lemma elem_of_upsert_keys f k d k' : k' ∈ (dict_upsert f k d).*1 <-> k' = k \/ k' ∈ d.*1.
Proof.
  induction d as [|[k0 v] d IH]; cbn; [set_solver|].
  destruct (decide (k = k0)) as [->|]; cbn; rewrite ?elem_of_cons, ?IH; naive_solver.
Qed.

Lemma NoDup_upsert_keys f k d : NoDup d.*1 -> NoDup (dict_upsert f k d).*1.
Proof.
  induction d as [|[k0 v] d IH]; cbn; [intros _; apply NoDup_singleton|].
  intros [H0 Hd]%NoDup_cons. destruct (decide (k = k0)) as [->|]; cbn; apply NoDup_cons; [done|].
  split; [|auto]. rewrite elem_of_upsert_keys. naive_solver.
Qed.

Lemma dict_get_Some k v d : NoDup d.*1 -> dict_get k d = Some v <-> (k, v) ∈ d.
Proof.
  induction d as [|[k0 w] d IH]; cbn; [by rewrite elem_of_nil|].
  intros [H0 Hd]%NoDup_cons. rewrite elem_of_cons. destruct (decide (k = k0)) as [->|Hne].
  - split; [by intros [= ->]; left|]. intros [[= ->]|Hin]; [done|]. destruct H0.
    by apply (list_elem_of_fmap_2 fst _ (k0, v)).
  - rewrite IH by done. split; [by right|]. intros [[= -> ->]|]; done.
Qed.

Lemma dict_get_None k d : dict_get k d = None <-> k ∉ d.*1.
Proof.
  induction d as [|[k0 w] d IH]; cbn; [set_solver|]. rewrite not_elem_of_cons.
  destruct (decide (k = k0)); [naive_solver|]. rewrite IH. naive_solver.
Qed.

Lemma dict_get_keys d k : is_Some (dict_get k d) <-> k ∈ d.*1.
Proof. rewrite <- not_eq_None_Some, dict_get_None. destruct (decide (k ∈ d.*1)); naive_solver. Qed.

(** A dictionary is its keys with their entries. *)
Lemma dict_items d : NoDup d.*1 -> d = omap (fun k => pair k <$> dict_get k d) d.*1.
Proof.
  intros Hd. assert (Hgen : forall l, (forall p, p ∈ l -> dict_get p.1 d = Some p.2) ->
    l = omap (fun k => pair k <$> dict_get k d) l.*1).
  { induction l as [|[k v] l IH]; intros Hl; [done|]. pose proof (Hl (k, v) ltac:(left)) as E. cbn in E |- *. rewrite E. cbn.
    f_equal. apply IH. intros p Hp. apply Hl. by right. }
  apply Hgen. intros [k v] Hp. by apply dict_get_Some.
Qed.
End dict.

(** ** Grouping *)

Section group.
Context {A K V : Type} `{EqDecision K} (key : A -> K) (step : A -> option V -> V).

(** [for x in xs: d[key(x)] = step(x, d.get(key(x)))] *)
Definition group_by (xs : list A) (d : dict K V) : dict K V :=
  foldl (fun d x => dict_upsert (step x) (key x) d) d xs.

Lemma group_by_cons x xs d : group_by (x :: xs) d = group_by xs (dict_upsert (step x) (key x) d).
Proof. done. Qed.

Definition with_key (k : K) (xs : list A) : list A := filter (fun x => key x = k) xs.

Lemma group_by_get xs d k :
  dict_get k (group_by xs d) = foldl (fun o x => Some (step x o)) (dict_get k d) (with_key k xs).
Proof.
  revert d. induction xs as [|x xs IH]; intros d; [done|]. rewrite group_by_cons, IH, dict_get_upsert.
  unfold with_key. rewrite filter_cons. destruct (decide (key x = k)) as [<-|Hne].
  - by rewrite decide_True.
  - by rewrite decide_False.
Qed.

Lemma group_by_keys xs d k : k ∈ (group_by xs d).*1 <-> k ∈ d.*1 \/ k ∈ key <$> xs.
Proof.
  revert d. induction xs as [|x xs IH]; intros d; [set_solver|].
  rewrite group_by_cons, IH, elem_of_upsert_keys, fmap_cons, elem_of_cons. naive_solver.
Qed.

Lemma group_by_NoDup xs d : NoDup d.*1 -> NoDup (group_by xs d).*1.
Proof.
  revert d. induction xs as [|x xs IH]; intros d Hd; [done|].
  rewrite group_by_cons. by apply IH, NoDup_upsert_keys.
Qed.
End group.

(** ** Grouping into lists: [defaultdict(list)] *)

Section collect.
Context {A K : Type} `{EqDecision K} (key : A -> K).

Definition append_to {B} (v : A -> B) : A -> option (list B) -> list B := fun x o => default [] o ++ [v x].

Lemma foldl_append {B} (v : A -> B) xs acc :
  foldl (fun o x => Some (append_to v x o)) (Some acc) xs = Some (acc ++ (v <$> xs)).
Proof.
  revert acc. induction xs as [|x xs IH]; intros acc; [by rewrite app_nil_r|]. cbn. rewrite IH.
  by rewrite <- app_assoc.
Qed.

(** The list of a key holds the values of the rows with that key, in order. *)
Lemma collect_get {B} (v : A -> B) xs k :
  default [] (dict_get k (group_by key (append_to v) xs [])) = v <$> with_key key k xs.
Proof.
  rewrite group_by_get. cbn. destruct (with_key key k xs) as [|x l]; [done|]. cbn.
  by rewrite foldl_append.
Qed.

Lemma collect_get_Some {B} (v : A -> B) xs k l :
  dict_get k (group_by key (append_to v) xs []) = Some l <-> l = v <$> with_key key k xs /\ l ≠ [].
Proof.
  rewrite group_by_get. cbn. destruct (with_key key k xs) as [|x l0]; [naive_solver|]. cbn.
  rewrite foldl_append. naive_solver.
Qed.

(** Nothing is lost and nothing is repeated. *)
Lemma upsert_append_concat {B} (v : A -> B) x k (d : dict K (list B)) :
  concat (dict_upsert (append_to v x) k d).*2 ≡ₚ v x :: concat d.*2.
Proof.
  induction d as [|[k0 l] d IH]; cbn; [done|]. destruct (decide (k = k0)); cbn.
  - unfold append_to. cbn. rewrite <- app_assoc. cbn. by rewrite <- Permutation_middle.
  - rewrite IH. by rewrite <- Permutation_middle.
Qed.

Lemma collect_concat {B} (v : A -> B) xs (d : dict K (list B)) :
  concat (group_by key (append_to v) xs d).*2 ≡ₚ concat d.*2 ++ (v <$> xs).
Proof.
  revert d. induction xs as [|x xs IH]; intros d; [by rewrite app_nil_r|].
  rewrite group_by_cons, IH, upsert_append_concat. cbn. by rewrite Permutation_middle.
Qed.
End collect.

(** ** The order of texts *)

(** [s <= t]: by code point. *)
Fixpoint codepoint_le (s t : text) : bool :=
  match s, t with
  | [], _ => true
  | _ :: _, [] => false
  | a :: s', b :: t' => if (a =? b)%N then codepoint_le s' t' else (a <? b)%N
  end.

Definition text_le (s t : text) : Prop := codepoint_le s t = true.

#[export] Instance text_le_dec : RelDecision text_le.
Proof. intros s t. unfold text_le. apply _. Defined.

Lemma codepoint_le_total s t : codepoint_le s t = true \/ codepoint_le t s = true.
Proof.
  revert t. induction s as [|a s IH]; intros [|b t]; cbn [codepoint_le]; auto.
  destruct (N.eqb_spec a b) as [->|]; [rewrite N.eqb_refl; apply IH|].
  destruct (N.eqb_spec b a); [congruence|]. rewrite !N.ltb_lt. lia.
Qed.

Lemma codepoint_le_trans s t v : codepoint_le s t = true -> codepoint_le t v = true -> codepoint_le s v = true.
Proof.
  revert t v. induction s as [|a s IH]; intros [|b t] [|c v]; cbn [codepoint_le]; try done.
  destruct (N.eqb_spec a b) as [->|]; destruct (N.eqb_spec b c) as [->|].
  - apply IH.
  - by intros _ ?.
  - destruct (N.eqb_spec a c); [congruence|]. by intros ? _.
  - rewrite !N.ltb_lt. intros. destruct (N.eqb_spec a c); [lia|]. apply N.ltb_lt. lia.
Qed.

Lemma codepoint_le_antisymm s t : codepoint_le s t = true -> codepoint_le t s = true -> s = t.
Proof.
  revert t. induction s as [|a s IH]; intros [|b t]; cbn [codepoint_le]; try done.
  rewrite (N.eqb_sym b a). destruct (N.eqb_spec a b) as [->|].
  - intros ? ?. f_equal. auto.
  - rewrite !N.ltb_lt. lia.
Qed.

#[export] Instance text_le_total : Total text_le.
Proof. intros s t. apply codepoint_le_total. Qed.
#[export] Instance text_le_trans : Transitive text_le.
Proof. intros s t v. apply codepoint_le_trans. Qed.
#[export] Instance text_le_antisymm : AntiSymm (=) text_le.
Proof. intros s t. apply codepoint_le_antisymm. Qed.

(** [sorted(xs, key=f)] for a key that is a text. *)
Definition by_text {A} (f : A -> text) (x y : A) : Prop := text_le (f x) (f y).

#[export] Instance by_text_dec {A} (f : A -> text) : RelDecision (by_text f).
Proof. intros x y. unfold by_text. apply _. Defined.

Definition sorted_by_text {A} (f : A -> text) (xs : list A) : list A := merge_sort (by_text f) xs.

Lemma sorted_by_text_Permutation {A} (f : A -> text) xs : sorted_by_text f xs ≡ₚ xs.
Proof. apply merge_sort_Permutation. Qed.

Lemma sorted_by_text_sorted {A} (f : A -> text) xs : StronglySorted (by_text f) (sorted_by_text f xs).
Proof.
  apply StronglySorted_merge_sort; [intros x y z; apply (transitivity (R := text_le))|intros x y; apply (total text_le)].
Qed.

(** The order of tuples: the first components that differ decide. *)
Section lex.
Context {A B : Type} `{EqDecision A} (RA : A -> A -> Prop) (RB : B -> B -> Prop).

Definition lex_le (a b : A * B) : Prop := if decide (a.1 = b.1) then RB a.2 b.2 else RA a.1 b.1.

#[export] Instance lex_le_dec `{!RelDecision RA, !RelDecision RB} : RelDecision lex_le.
Proof. intros a b. unfold lex_le. destruct (decide (a.1 = b.1)); apply _. Defined.

#[export] Instance lex_le_total `{!Total RA, !Total RB} : Total lex_le.
Proof.
  intros [a b] [a' b']. unfold lex_le. cbn. destruct (decide (a = a')) as [->|Hne].
  - rewrite decide_True by done. apply (total RB).
  - rewrite decide_False by congruence. apply (total RA).
Qed.

#[export] Instance lex_le_antisymm `{!AntiSymm (=) RA, !AntiSymm (=) RB} : AntiSymm (=) lex_le.
Proof.
  intros [a b] [a' b']. unfold lex_le. cbn. destruct (decide (a = a')) as [->|Hne].
  - rewrite decide_True by done. intros ? ?. f_equal. by apply (anti_symm RB).
  - rewrite decide_False by congruence. intros ? ?. destruct Hne. by apply (anti_symm RA).
Qed.

#[export] Instance lex_le_trans `{!AntiSymm (=) RA, !Transitive RA, !Transitive RB} : Transitive lex_le.
Proof.
  intros [a b] [a' b'] [a'' b'']. unfold lex_le. cbn.
  repeat case_decide; subst; try congruence; try done; try apply (transitivity (R := RB)); try apply (transitivity (R := RA)).
  intros H3 H4. match goal with Hn : _ ≠ _ |- _ => destruct Hn end. by apply (anti_symm RA).
Qed.
End lex.

(** [sorted(set of texts)] *)
Definition sorted_texts (X : gset text) : list text := merge_sort text_le (elements X).

Lemma elem_of_sorted_texts X s : s ∈ sorted_texts X <-> s ∈ X.
Proof. unfold sorted_texts. rewrite merge_sort_Permutation. apply elem_of_elements. Qed.

(** [min(set of texts)] *)
Definition min_text (X : gset text) : option text := head (sorted_texts X).

Lemma min_text_elem X s : min_text X = Some s -> s ∈ X.
Proof.
  unfold min_text. intros H. apply elem_of_sorted_texts. destruct (sorted_texts X); [done|].
  injection H as ->. left.
Qed.

(** ** [repr], for [str] of a tuple *)

(** [str.isprintable] outside ASCII: a table of the Python build. *)
Class UnicodePrintable := unicode_printable : N -> bool.

Definition hex_char (d : N) : N := if (d <? 10)%N then (48 + d)%N else (87 + d)%N.

Fixpoint hex_digits (width : nat) (n : N) : text :=
  match width with O => [] | S w => hex_digits w (n / 16)%N ++ [hex_char (n mod 16)%N] end.

Definition repr_char `{UnicodePrintable} (quote c : N) : text :=
  if (c =? quote)%N || (c =? 92)%N then [92; c]%N
  else if (c =? 9)%N then [92; 116]%N
  else if (c =? 10)%N then [92; 110]%N
  else if (c =? 13)%N then [92; 114]%N
  else if (c <? 32)%N || (c =? 127)%N then [92; 120]%N ++ hex_digits 2 c
  else if (c <? 127)%N || unicode_printable c then [c]
  else if (c <? 256)%N then [92; 120]%N ++ hex_digits 2 c
  else if (c <? 65536)%N then [92; 117]%N ++ hex_digits 4 c
  else [92; 85]%N ++ hex_digits 8 c.

(** Single quotes, unless the text has one and no double quote. *)
Definition repr_text `{UnicodePrintable} (s : text) : text :=
  let quote := if bool_decide (39%N ∈ s) && negb (bool_decide (34%N ∈ s)) then 34%N else 39%N in
  quote :: concat (repr_char quote <$> s) ++ [quote].

Definition repr_option {A} (r : A -> text) (o : option A) : text :=
  match o with Some x => r x | None => u "None" end.

(** [str(t)] of a tuple with two or more parts, from the [repr] of its parts. *)
Fixpoint repr_parts (parts : list text) : text :=
  match parts with
  | [] => []
  | [p] => p
  | p :: parts => p ++ u ", " ++ repr_parts parts
  end.

Definition repr_tuple (parts : list text) : text := u "(" ++ repr_parts parts ++ u ")".

(** For examples: nothing outside ASCII is printable. *)
Definition ascii_printable : UnicodePrintable := fun _ => false.

Example repr_plain : @repr_text ascii_printable (u "a'b") = 34%N :: u "a'b" ++ [34%N].
Proof. reflexivity. Qed.

Example repr_key : repr_tuple [str_of_Z 7; @repr_text ascii_printable (u "tcp"); repr_option str_of_Z None] = u "(7, 'tcp', None)".
Proof. reflexivity. Qed.
