(* ===== verification/IpAddress.v ===== *)
(** * IP addresses (Python's [ipaddress], as the sources use it)

    Parsing and printing of IPv4 and IPv6 addresses and of IPv4 networks, after the
    module of CPython 3.10.  An address is its integer.  The theorems are the round
    trips: a printed address parses as itself. *)

From S2P Require Import Prelude PyText.

Local Open Scope N_scope.

Definition DOT : N := 46.
Definition COLON : N := 58.
Definition SLASH : N := 47.
Definition PERCENT : N := 37.

(** ** IPv4 *)

Definition isdigits (s : text) : bool := match s with [] => false | _ => forallb is_digit s end.

Definition _parse_octet (s : text) : option N :=
  if negb (isdigits s) then None
  else if (3 <? length s)%nat then None
  else if negb (bool_decide (s = u "0")) && bool_decide (head s = Some 48) then None
  else
    let n := Z.to_N (digits_value s) in
    if 255 <? n then None else Some n.

Definition ipv4_of_text (s : text) : option N :=
  match split_on DOT s with
  | [a; b; c; d] =>
      match _parse_octet a, _parse_octet b, _parse_octet c, _parse_octet d with
      | Some a, Some b, Some c, Some d => Some (((a * 256 + b) * 256 + c) * 256 + d)
      | _, _, _, _ => None
      end
  | _ => None
  end.

Definition octets (n : N) : list N :=
  [n / 16777216 mod 256; n / 65536 mod 256; n / 256 mod 256; n mod 256].

(** [str(IPv4Address(n))] *)
Definition text_of_ipv4 (n : N) : text := join DOT (str_of_N <$> octets n).

(** ** IPv6 *)

Definition hex_value (c : N) : option N :=
  if is_digit c then Some (c - 48)
  else if (97 <=? c) && (c <=? 102) then Some (c - 87)
  else if (65 <=? c) && (c <=? 70) then Some (c - 55)
  else None.

Definition hex_char (n : N) : N := if n <? 10 then 48 + n else 87 + n.

Fixpoint hex_fold (acc : N) (s : text) : option N :=
  match s with
  | [] => Some acc
  | c :: s' => match hex_value c with Some h => hex_fold (acc * 16 + h) s' | None => None end
  end.

Definition _parse_hextet (s : text) : option N :=
  match s with
  | [] => None
  | _ => if (4 <? length s)%nat then None else hex_fold 0 s
  end.

(** ['%x' % h] for a 16-bit [h]. *)
Definition hex (h : N) : text :=
  if h <? 16 then [hex_char h]
  else if h <? 256 then [hex_char (h / 16); hex_char (h mod 16)]
  else if h <? 4096 then [hex_char (h / 256); hex_char (h / 16 mod 16); hex_char (h mod 16)]
  else [hex_char (h / 4096); hex_char (h / 256 mod 16); hex_char (h / 16 mod 16); hex_char (h mod 16)].

(** The parts with an IPv4 suffix written as two hextets. *)
Definition expand_suffix (parts : list text) : option (list text) :=
  match rev parts with
  | [] => Some parts
  | last :: rest =>
      if bool_decide (DOT ∈ last) then
        match ipv4_of_text last with
        | Some n => Some (rev rest ++ [hex (n / 65536 mod 65536); hex (n mod 65536)])
        | None => None
        end
      else Some parts
  end.

(** The indices, from 1 to [len(parts) - 2], of the empty parts. *)
Definition empty_indices (parts : list text) : list nat :=
  filter (fun i => parts !! i = Some []) (seq 1 (length parts - 2)).

Fixpoint hextets (acc : N) (parts : list text) : option N :=
  match parts with
  | [] => Some acc
  | p :: parts => match _parse_hextet p with Some h => hextets (acc * 65536 + h) parts | None => None end
  end.

(** From the split parts to the integer: [::] stands for [parts_skipped] zero hextets. *)
Definition ipv6_of_parts (parts : list text) : option N :=
  let n := length parts in
  if (9 <? n)%nat then None
  else
    match empty_indices parts with
    | _ :: _ :: _ => None
    | [skip_index] =>
        let first_empty := bool_decide (head parts = Some []) in
        let last_empty := bool_decide (last parts = Some []) in
        let parts_hi := if first_empty then (skip_index - 1)%nat else skip_index in
        let parts_lo := if last_empty then (n - skip_index - 2)%nat else (n - skip_index - 1)%nat in
        if first_empty && negb (parts_hi =? 0)%nat then None
        else if last_empty && negb (parts_lo =? 0)%nat then None
        else if (8 - (parts_hi + parts_lo) <? 1)%nat then None
        else
          match hextets 0 (take parts_hi parts) with
          | Some hi => hextets (hi * 65536 ^ N.of_nat (8 - (parts_hi + parts_lo))) (drop (n - parts_lo) parts)
          | None => None
          end
    | [] => if negb (n =? 8)%nat then None else hextets 0 parts
    end.

Definition ipv6_of_text (s : text) : option N :=
  let parts := split_on COLON s in
  if (length parts <? 3)%nat then None
  else match expand_suffix parts with Some parts => ipv6_of_parts parts | None => None end.

Definition hextets_of (n : N) : list N :=
  (fun k => n / 65536 ^ k mod 65536) <$> [7; 6; 5; 4; 3; 2; 1; 0].

(** The loop of [_compress_hextets]: the start and length of the first longest run. *)
Record zero_run := mkRun { best_start : nat; best_len : nat; cur_start : nat; cur_len : nat }.

Definition run_step (r : zero_run) (p : nat * text) : zero_run :=
  if bool_decide (p.2 = u "0") then
    let start := if (cur_len r =? 0)%nat then p.1 else cur_start r in
    let len := S (cur_len r) in
    if (best_len r <? len)%nat then mkRun start len start len
    else mkRun (best_start r) (best_len r) start len
  else mkRun (best_start r) (best_len r) 0 0.

Definition longest_run (hs : list text) : zero_run :=
  foldl run_step (mkRun 0 0 0 0) (imap (fun i h => (i, h)) hs).

Definition _compress_hextets (hs : list text) : list text :=
  let r := longest_run hs in
  if (1 <? best_len r)%nat then
    let stop := (best_start r + best_len r)%nat in
    (if (best_start r =? 0)%nat then [[]] else []) ++ take (best_start r) hs ++ [[]]
    ++ drop stop hs ++ (if (stop =? length hs)%nat then [[]] else [])
  else hs.

(** [str(IPv6Address(n))] *)
Definition text_of_ipv6 (n : N) : text := join COLON (_compress_hextets (hex <$> hextets_of n)).

(** ** Addresses *)

Inductive ip := IPv4 (n : N) | IPv6 (n : N).

#[export] Instance ip_eq_dec : EqDecision ip.
Proof. solve_decision. Defined.

Definition ip_version (a : ip) : Z := match a with IPv4 _ => 4 | IPv6 _ => 6 end.

(** [IPv6Address(s)]: a scope after [%] must be there and hold no other [%]. *)
Definition ipv6_scoped (s : text) : option N :=
  if bool_decide (SLASH ∈ s) then None
  else
    match split_on PERCENT s with
    | [addr] => ipv6_of_text addr
    | [addr; scope] => if bool_decide (scope = []) then None else ipv6_of_text addr
    | _ => None
    end.

(** [ipaddress.ip_address(s)]; the scope of an IPv6 address is not kept. *)
Definition ip_address (s : text) : option ip :=
  match ipv4_of_text s with
  | Some n => Some (IPv4 n)
  | None => IPv6 <$> ipv6_scoped s
  end.

Definition text_of_ip (a : ip) : text :=
  match a with IPv4 n => text_of_ipv4 n | IPv6 n => text_of_ipv6 n end.

(** [IPv6Address.ipv4_mapped] *)
Definition ipv4_mapped (n : N) : option N :=
  if n / 4294967296 =? 65535 then Some (n mod 4294967296) else None.

Definition is_loopback (a : ip) : bool :=
  match a with IPv4 n => n / 16777216 =? 127 | IPv6 n => n =? 1 end.

(** ** Splitting what was joined *)

Lemma split_on_not_nil sep s : split_on sep s ≠ [].
Proof. destruct s as [|c s]; cbn; [done|]. destruct (c =? sep); [done|]. by destruct (split_on sep s). Qed.

Lemma split_on_app sep x s : sep ∉ x -> split_on sep (x ++ sep :: s) = x :: split_on sep s.
Proof.
  induction x as [|c x IH]; intros Hx; cbn.
  - by rewrite N.eqb_refl.
  - apply not_elem_of_cons in Hx as [Hc Hx]. destruct (N.eqb_spec c sep); [done|]. by rewrite IH.
Qed.

Lemma split_on_none sep x : sep ∉ x -> split_on sep x = [x].
Proof.
  induction x as [|c x IH]; intros Hx; cbn; [done|].
  apply not_elem_of_cons in Hx as [Hc Hx]. destruct (N.eqb_spec c sep); [done|]. by rewrite IH.
Qed.

Lemma split_join sep xs : xs ≠ [] -> Forall (fun x => sep ∉ x) xs -> split_on sep (join sep xs) = xs.
Proof.
  induction xs as [|x xs IH]; intros Hne Hall; [done|]. apply Forall_cons in Hall as [Hx Hxs].
  destruct xs as [|y ys]; [by apply split_on_none|].
  change (join sep (x :: y :: ys)) with (x ++ sep :: join sep (y :: ys)).
  rewrite split_on_app by done. f_equal. by apply IH.
Qed.

Lemma join_split sep s : join sep (split_on sep s) = s.
Proof.
  induction s as [|c s IH]; cbn; [done|]. destruct (N.eqb_spec c sep) as [->|].
  - destruct (split_on sep s) as [|x xs] eqn:E; [by apply split_on_not_nil in E|].
    change (join sep ([] :: x :: xs)) with (sep :: join sep (x :: xs)). by rewrite IH.
  - destruct (split_on sep s) as [|x xs] eqn:E; [by apply split_on_not_nil in E|].
    destruct xs as [|y ys]; cbn in *; by rewrite <- IH.
Qed.

Lemma split_on_parts sep s x : x ∈ split_on sep s -> sep ∉ x.
Proof.
  revert x. induction s as [|c s IH]; intros x; cbn [split_on].
  - intros ->%list_elem_of_singleton. apply not_elem_of_nil.
  - destruct (N.eqb_spec c sep).
    + intros [->|Hx]%elem_of_cons; [apply not_elem_of_nil|by apply IH].
    + destruct (split_on sep s) as [|y ys] eqn:E; [by apply split_on_not_nil in E|].
      intros [->|Hx]%elem_of_cons.
      * rewrite not_elem_of_cons. split; [done|]. apply IH. left.
      * apply IH. by right.
Qed.

(** ** Checks over all small numbers *)

Definition below (n : nat) (P : N -> bool) : bool := forallb (fun i => P (N.of_nat i)) (seq 0 n).

Lemma below_spec n P : below n P = true -> forall i, i < N.of_nat n -> P i = true.
Proof.
  unfold below. rewrite forallb_forall. intros H i Hi. rewrite <- (N2Nat.id i). apply H. apply in_seq. lia.
Qed.

(** ** IPv4 round trips *)

Lemma parse_octet_str n : n < 256 -> _parse_octet (str_of_N n) = Some n.
Proof.
  intros Hn.
  pose proof (below_spec 256 (fun n => bool_decide (_parse_octet (str_of_N n) = Some n))) as H.
  specialize (H ltac:(vm_compute; reflexivity) n Hn). by apply bool_decide_eq_true in H.
Qed.

Lemma str_of_N_no c n : is_digit c = false -> c ∉ str_of_N n.
Proof.
  intros Hc Hin. destruct (str_of_N_spec n) as (_ & Hall & _). rewrite Forall_forall in Hall.
  specialize (Hall c Hin). cbn in Hall. congruence.
Qed.

Lemma octets_spec n : n < 2 ^ 32 -> exists a b c d, octets n = [a; b; c; d] /\
  a < 256 /\ b < 256 /\ c < 256 /\ d < 256 /\ ((a * 256 + b) * 256 + c) * 256 + d = n.
Proof.
  intros Hn. do 4 eexists. split; [reflexivity|].
  pose proof (N.div_mod n 256 ltac:(done)). pose proof (N.mod_lt n 256 ltac:(done)).
  pose proof (N.div_mod (n / 256) 256 ltac:(done)). pose proof (N.mod_lt (n / 256) 256 ltac:(done)).
  pose proof (N.div_mod (n / 256 / 256) 256 ltac:(done)). pose proof (N.mod_lt (n / 256 / 256) 256 ltac:(done)).
  assert (E1 : n / 65536 = n / 256 / 256) by (by rewrite N.Div0.div_div).
  assert (E2 : n / 16777216 = n / 256 / 256 / 256) by (by rewrite !N.Div0.div_div).
  rewrite E1, E2. assert (n / 256 / 256 / 256 < 256) by (rewrite !N.Div0.div_div; apply N.Div0.div_lt_upper_bound; lia).
  rewrite (N.mod_small (n / 256 / 256 / 256)) by done. split_and!; lia.
Qed.

Lemma ipv4_of_text_of_ipv4 n : n < 2 ^ 32 -> ipv4_of_text (text_of_ipv4 n) = Some n.
Proof.
  intros Hn. destruct (octets_spec n Hn) as (a & b & c & d & E & Ha & Hb & Hc & Hd & Hv).
  unfold ipv4_of_text, text_of_ipv4. rewrite E. rewrite split_join; [|done|].
  - cbn [fmap list_fmap]. rewrite !parse_octet_str by done. by rewrite Hv.
  - repeat constructor; by apply str_of_N_no.
Qed.

(** The parser is strict: only the printed form of an octet parses. *)
Lemma parse_octet_Some s n : _parse_octet s = Some n -> s = str_of_N n /\ n < 256.
Proof.
  assert (Hd : forall c, is_digit c = true -> exists i, c = 48 + i /\ i < N.of_nat 10).
  { intros c Hc. unfold is_digit in Hc. rewrite andb_true_iff, !N.leb_le in Hc. exists (c - 48). lia. }
  set (P := fun s => match _parse_octet s with Some n => bool_decide (s = str_of_N n) && (n <? 256) | None => true end).
  intros Hs. assert (HP : P s = true); [|unfold P in HP; rewrite Hs in HP; rewrite andb_true_iff, bool_decide_eq_true, N.ltb_lt in HP; done].
  unfold _parse_octet in Hs. destruct (isdigits s) eqn:Hdig; [|done]. cbn [negb] in Hs.
  destruct (Nat.ltb_spec 3 (length s)) as [|Hlen]; [done|]. clear Hs.
  destruct s as [|a [|b [|c [|e s]]]]; cbn [length] in Hlen; [done| | | |lia];
    unfold isdigits in Hdig; cbn [forallb] in Hdig; rewrite ?andb_true_iff in Hdig.
  - destruct Hdig as [(i & -> & Hi)%Hd _].
    apply (below_spec 10 (fun i => P [48 + i])); [vm_compute; reflexivity|done].
  - destruct Hdig as [(i & -> & Hi)%Hd [(j & -> & Hj)%Hd _]]. revert j Hj. apply below_spec.
    apply (below_spec 10 (fun i => below 10 (fun j => P [48 + i; 48 + j]))); [vm_compute; reflexivity|done].
  - destruct Hdig as [(i & -> & Hi)%Hd [(j & -> & Hj)%Hd [(k & -> & Hk)%Hd _]]]. revert k Hk. apply below_spec.
    revert j Hj. apply (below_spec 10 (fun j => below 10 (fun k => P [48 + i; 48 + j; 48 + k]))).
    apply (below_spec 10 (fun i => below 10 (fun j => below 10 (fun k => P [48 + i; 48 + j; 48 + k]))));
      [vm_compute; reflexivity|done].
Qed.

Lemma div_mod_unique_256 q r : r < 256 -> (q * 256 + r) / 256 = q /\ (q * 256 + r) mod 256 = r.
Proof. intros Hr. rewrite N.add_comm, N.div_add, N.Div0.mod_add by done. rewrite N.div_small, N.mod_small by done. lia. Qed.

Lemma text_of_ipv4_of_text s n : ipv4_of_text s = Some n -> text_of_ipv4 n = s /\ n < 2 ^ 32.
Proof.
  unfold ipv4_of_text. intros H. destruct (split_on DOT s) as [|sa [|sb [|sc [|sd [|]]]]] eqn:E; try done.
  destruct (_parse_octet sa) as [a|] eqn:Ea; [|done]. destruct (_parse_octet sb) as [b|] eqn:Eb; [|done].
  destruct (_parse_octet sc) as [c|] eqn:Ec; [|done]. destruct (_parse_octet sd) as [d|] eqn:Ed; [|done].
  injection H as <-. apply parse_octet_Some in Ea as [-> Ha], Eb as [-> Hb], Ec as [-> Hc], Ed as [-> Hd].
  split; [|lia]. rewrite <- (join_split DOT s), E. unfold text_of_ipv4, octets.
  replace 16777216 with (256 * 256 * 256) by done. replace 65536 with (256 * 256) by done.
  rewrite <- !N.Div0.div_div.
  destruct (div_mod_unique_256 ((a * 256 + b) * 256 + c) d Hd) as [-> ->].
  destruct (div_mod_unique_256 (a * 256 + b) c Hc) as [-> ->].
  destruct (div_mod_unique_256 a b Hb) as [-> ->]. by rewrite (N.mod_small a).
Qed.

(** ** IPv6 round trip *)

Definition hex_ok (h : N) : bool :=
  match hex h with
  | [] => false
  | c :: t =>
      bool_decide (_parse_hextet (c :: t) = Some h) && bool_decide (Forall (fun c => is_Some (hex_value c)) (c :: t)) &&
      Bool.eqb (bool_decide (c :: t = u "0")) (h =? 0)
  end.

Lemma hex_spec h : h < 65536 ->
  exists c t, hex h = c :: t /\ _parse_hextet (c :: t) = Some h /\
    Forall (fun c => is_Some (hex_value c)) (c :: t) /\ (c :: t = u "0" <-> h = 0).
Proof.
  intros Hh. assert (H : hex_ok h = true).
  { rewrite (N.div_mod h 256), (N.mul_comm 256) by done. pose proof (N.mod_lt h 256 ltac:(done)) as Hm.
    assert (Hd : h / 256 < 256) by (apply N.Div0.div_lt_upper_bound; lia). revert Hm. generalize (h mod 256).
    apply (below_spec 256 (fun j => hex_ok (h / 256 * 256 + j))). revert Hd. generalize (h / 256).
    apply (below_spec 256 (fun i => below 256 (fun j => hex_ok (i * 256 + j)))). vm_compute. reflexivity. }
  unfold hex_ok in H. destruct (hex h) as [|c t]; [done|]. exists c, t. split; [done|].
  rewrite !andb_true_iff, !bool_decide_eq_true in H. destruct H as [[H1 H2] H3]. split_and!; [done|done|].
  apply Bool.eqb_prop in H3. rewrite <- N.eqb_eq, <- H3. by rewrite bool_decide_eq_true.
Qed.

Lemma longest_run_ext hs hs' :
  Forall2 (fun x y => x = u "0" <-> y = u "0") hs hs' -> longest_run hs = longest_run hs'.
Proof.
  unfold longest_run. intros H.
  assert (G : forall j r, foldl run_step r (imap (fun i h => ((j + i)%nat, h)) hs) =
    foldl run_step r (imap (fun i h => ((j + i)%nat, h)) hs')).
  { induction H as [|x y hs hs' Hxy _ IH]; intros j r; [done|]. cbn.
    assert (Hstep : run_step r ((j + 0)%nat, x) = run_step r ((j + 0)%nat, y)).
    { unfold run_step. cbn [fst snd]. by rewrite (bool_decide_ext _ _ Hxy). }
    rewrite Hstep. specialize (IH (S j) (run_step r ((j + 0)%nat, y))).
    rewrite !(imap_ext (fun i h => ((S j + i)%nat, h)) ((fun i h => ((j + i)%nat, h)) ∘ S)) in IH
      by (intros; cbn; f_equal; lia).
    exact IH. }
  apply (G 0%nat).
Qed.

Definition zero_text (z : bool) : text := if z then u "0" else u "1".

Definition run_ok (zs : list bool) : bool :=
  let r := longest_run (zero_text <$> zs) in
  (best_start r + best_len r <=? 8)%nat &&
  bool_decide (take (best_len r) (drop (best_start r) zs) = replicate (best_len r) true).

Lemma run_spec_8 zs : length zs = 8%nat -> run_ok zs = true.
Proof.
  intros Hl. do 8 (destruct zs as [|? zs]; [done|]). destruct zs; [|done]. clear Hl.
  repeat match goal with b : bool |- _ => destruct b end; vm_compute; reflexivity.
Qed.

Lemma longest_run_hex vs :
  Forall (fun h => h < 65536) vs ->
  longest_run (hex <$> vs) = longest_run (zero_text <$> ((fun h => h =? 0) <$> vs)).
Proof.
  intros Hall. apply longest_run_ext. rewrite <- list_fmap_compose.
  apply Forall2_fmap_2. apply Forall_Forall2_diag. eapply Forall_impl; [exact Hall|].
  intros h Hh. cbn. destruct (hex_spec h Hh) as (c & t & -> & _ & _ & ->).
  destruct (N.eqb_spec h 0); cbn; split; try done.
Qed.

(** The compressed form: either all hextets, or a run of zeros left out between two
    parts that are not both needed. *)
Lemma compress_cases vs :
  length vs = 8%nat -> Forall (fun h => h < 65536) vs ->
  _compress_hextets (hex <$> vs) = hex <$> vs \/
  exists a k b, vs = a ++ replicate k 0 ++ b /\ (2 <= k)%nat /\
    _compress_hextets (hex <$> vs) =
      (match a with [] => [[]] | _ => hex <$> a end) ++ [[]] ++ (match b with [] => [[]] | _ => hex <$> b end).
Proof.
  intros Hlen Hall. unfold _compress_hextets. rewrite longest_run_hex by done.
  set (zs := (fun h => h =? 0) <$> vs).
  assert (Hz : run_ok zs = true) by (apply run_spec_8; unfold zs; by rewrite length_fmap).
  unfold run_ok in Hz. rewrite andb_true_iff, bool_decide_eq_true, Nat.leb_le in Hz.
  set (r := longest_run (zero_text <$> zs)) in *. destruct Hz as [Hle Hrun].
  destruct (Nat.ltb_spec 1 (best_len r)) as [Hgt|]; [right|by left].
  exists (take (best_start r) vs), (best_len r), (drop (best_start r + best_len r) vs).
  assert (Hrep : take (best_len r) (drop (best_start r) vs) = replicate (best_len r) 0).
  { unfold zs in Hrun. rewrite <- fmap_drop, <- fmap_take in Hrun. symmetry. apply replicate_as_elem_of.
    split; [rewrite length_take, length_drop; lia|]. intros h Hh.
    assert (Ht : (h =? 0) ∈ replicate (best_len r) true).
    { rewrite <- Hrun. apply list_elem_of_fmap. by exists h. }
    apply elem_of_replicate in Ht as [Ht _]. by apply N.eqb_eq in Ht. }
  split_and!; [|lia|].
  - rewrite <- Hrep, <- drop_drop. by rewrite !take_drop.
  - rewrite fmap_take, fmap_drop, length_fmap, Hlen. clearbody r. clear Hrun Hrep zs Hall.
    assert (Ha : take (best_start r) vs = [] <-> best_start r = 0%nat).
    { rewrite <- length_zero_iff_nil, length_take. lia. }
    assert (Hb : drop (best_start r + best_len r) vs = [] <-> (best_start r + best_len r = 8)%nat).
    { rewrite <- length_zero_iff_nil, length_drop. lia. }
    assert (Hsuffix : drop (best_start r + best_len r) (hex <$> vs) ++
        (if (best_start r + best_len r =? 8)%nat then [[]] else []) =
      match drop (best_start r + best_len r) vs with
      | [] => [[]] | _ :: _ => drop (best_start r + best_len r) (hex <$> vs) end).
    { destruct (Nat.eqb_spec (best_start r + best_len r) 8) as [E|E].
      - rewrite (proj2 Hb E). by rewrite drop_ge by (rewrite length_fmap; lia).
      - rewrite app_nil_r. destruct (drop (best_start r + best_len r) vs); [by destruct E; apply Hb|done]. }
    rewrite Hsuffix. destruct (Nat.eqb_spec (best_start r) 0) as [E|E].
    + by rewrite E.
    + destruct (take (best_start r) vs) eqn:Et; [by destruct E; apply Ha|]. done.
Qed.

(** The value of eight hextets. *)
Definition value_of (vs : list N) : N := foldl (fun acc h => acc * 65536 + h) 0 vs.

Lemma hextets_hex acc vs :
  Forall (fun h => h < 65536) vs -> hextets acc (hex <$> vs) = Some (foldl (fun acc h => acc * 65536 + h) acc vs).
Proof.
  intros Hall. revert acc. induction Hall as [|h vs Hh _ IH]; intros acc; [done|]. cbn.
  destruct (hex_spec h Hh) as (c & t & -> & -> & _). apply IH.
Qed.

Lemma filter_none {A} (P : A -> Prop) `{!forall x, Decision (P x)} l : (forall x, x ∈ l -> ¬ P x) -> filter P l = [].
Proof.
  induction l as [|x l IH]; intros Hno; [done|]. rewrite filter_cons, decide_False by (apply Hno; left).
  apply IH. intros y Hy. apply Hno. by right.
Qed.

Lemma filter_one {A} (P : A -> Prop) `{!forall x, Decision (P x)} l x :
  NoDup l -> x ∈ l -> P x -> (forall y, y ∈ l -> P y -> y = x) -> filter P l = [x].
Proof.
  induction 1 as [|y l Hy Hnd IH]; intros Hx HP Hu; [by apply elem_of_nil in Hx|].
  rewrite filter_cons. destruct (decide (P y)) as [Hpy|Hpy].
  - assert (y = x) as -> by (apply Hu; [left|done]). f_equal. apply filter_none. intros z Hz Hpz.
    assert (z = x) as -> by (apply Hu; [by right|done]). done.
  - apply elem_of_cons in Hx as [->|Hx]; [done|]. apply IH; [done|done|]. intros z Hz. apply Hu. by right.
Qed.

Lemma empty_indices_hex vs : Forall (fun h => h < 65536) vs -> empty_indices (hex <$> vs) = [].
Proof.
  intros Hall. unfold empty_indices. apply filter_none. intros i _.
  rewrite list_lookup_fmap. destruct (vs !! i) as [h|] eqn:E; cbn; [|done]. intros [= Eh].
  rewrite Forall_forall in Hall. destruct (hex_spec h) as (c & t & E' & _); [|congruence].
  apply Hall. by eapply list_elem_of_lookup_2.
Qed.

Lemma hex_not_empty vs i : Forall (fun h => h < 65536) vs -> (hex <$> vs) !! i ≠ Some [].
Proof.
  intros Hall. rewrite list_lookup_fmap. destruct (vs !! i) as [h|] eqn:E; cbn; [|done]. intros [= Eh].
  rewrite Forall_forall in Hall. destruct (hex_spec h) as (c & t & E' & _); [|congruence].
  apply Hall. by eapply list_elem_of_lookup_2.
Qed.

(** The parts of a compressed address around its empty part. *)
Definition side (vs : list N) : list text := match vs with [] => [[]] | _ => hex <$> vs end.

Lemma length_side vs : length (side vs) = Nat.max 1 (length vs).
Proof. destruct vs; [done|]. unfold side. rewrite length_fmap. cbn. lia. Qed.

Lemma empty_indices_compressed a b :
  Forall (fun h => h < 65536) a -> Forall (fun h => h < 65536) b ->
  empty_indices (side a ++ [[]] ++ side b) = [Nat.max 1 (length a)].
Proof.
  intros Ha Hb. unfold empty_indices. rewrite !length_app, !length_side. cbn [length].
  apply filter_one; [apply NoDup_seq|rewrite elem_of_seq; lia| |].
  - rewrite lookup_app_r by (rewrite length_side; lia). by rewrite length_side, Nat.sub_diag.
  - intros i. rewrite elem_of_seq. intros Hi Hemp.
    destruct (Nat.lt_trichotomy i (Nat.max 1 (length a))) as [Hlt|[->|Hgt]]; [|done|]; exfalso.
    + rewrite lookup_app_l in Hemp by (rewrite length_side; lia). unfold side in Hemp.
      destruct a as [|h a]; [cbn in Hlt; lia|]. by apply hex_not_empty in Hemp.
    + rewrite lookup_app_r in Hemp by (rewrite length_side; lia). rewrite length_side in Hemp.
      rewrite lookup_app_r in Hemp by (cbn; lia). cbn [length] in Hemp. unfold side in Hemp.
      destruct b as [|h b]; [cbn in *; lia|]. by apply hex_not_empty in Hemp.
Qed.

Lemma head_side vs l : Forall (fun h => h < 65536) vs -> head (side vs ++ l) = Some [] <-> vs = [].
Proof.
  intros Hall. destruct vs as [|h vs]; [done|]. cbn. apply Forall_cons in Hall as [Hh _].
  destruct (hex_spec h Hh) as (c & t & -> & _). split; done.
Qed.

Lemma last_side l vs : Forall (fun h => h < 65536) vs -> last (l ++ side vs) = Some [] <-> vs = [].
Proof.
  intros Hall. destruct (decide (vs = [])) as [->|Hne]; [cbn [side]; by rewrite last_snoc|].
  assert (Es : side vs = hex <$> vs) by (by destruct vs). rewrite Es, last_app.
  destruct (last (hex <$> vs)) as [x|] eqn:El.
  - split; [|done]. intros [= ->]. rewrite last_lookup in El. by apply hex_not_empty in El.
  - apply last_None in El. by destruct vs.
Qed.

Lemma foldl_zeros k acc : foldl (fun acc h => acc * 65536 + h) acc (replicate k 0) = acc * 65536 ^ N.of_nat k.
Proof.
  revert acc. induction k as [|k IH]; intros acc; [cbn; lia|]. cbn [replicate foldl]. rewrite IH.
  rewrite Nat2N.inj_succ, N.pow_succ_r'. lia.
Qed.

Lemma ipv6_of_compressed a k b :
  Forall (fun h => h < 65536) a -> Forall (fun h => h < 65536) b -> (2 <= k)%nat ->
  (length a + k + length b = 8)%nat ->
  ipv6_of_parts (side a ++ [[]] ++ side b) = Some (value_of (a ++ replicate k 0 ++ b)).
Proof.
  intros Ha Hb Hk Hlen. unfold ipv6_of_parts. rewrite empty_indices_compressed by done.
  rewrite !length_app, !length_side. cbn [length].
  rewrite (bool_decide_ext _ _ (head_side a ([[]] ++ side b) Ha)).
  rewrite app_assoc, (bool_decide_ext _ _ (last_side (side a ++ [[]]) b Hb)), <- app_assoc.
  destruct (Nat.ltb_spec 9 (Nat.max 1 (length a) + (1 + Nat.max 1 (length b)))); [lia|].
  assert (Hhi : (if bool_decide (a = []) then Nat.max 1 (length a) - 1 else Nat.max 1 (length a))%nat = length a).
  { case_bool_decide; [subst; cbn [length]; lia|]. destruct a; [done|]. cbn [length]. lia. }
  assert (Hlo : (if bool_decide (b = [])
      then Nat.max 1 (length a) + (1 + Nat.max 1 (length b)) - Nat.max 1 (length a) - 2
      else Nat.max 1 (length a) + (1 + Nat.max 1 (length b)) - Nat.max 1 (length a) - 1)%nat = length b).
  { clear Hhi. case_bool_decide; [subst; cbn [length]; lia|]. destruct b; [done|]. cbn [length]. lia. }
  rewrite Hhi, Hlo.
  assert (Ea : bool_decide (a = []) && negb (length a =? 0)%nat = false) by (by destruct a).
  assert (Eb : bool_decide (b = []) && negb (length b =? 0)%nat = false) by (by destruct b).
  rewrite Ea, Eb. destruct (Nat.ltb_spec (8 - (length a + length b)) 1); [lia|].
  assert (Htake : take (length a) (side a ++ [[]] ++ side b) = hex <$> a).
  { destruct a as [|h a]; [done|]. apply take_app_length'. unfold side. by rewrite length_fmap. }
  assert (Hdrop : drop (Nat.max 1 (length a) + (1 + Nat.max 1 (length b)) - length b) (side a ++ [[]] ++ side b) = hex <$> b).
  { rewrite app_assoc. destruct b as [|h b].
    - rewrite drop_ge; [done|]. rewrite !length_app, !length_side. cbn [length]. lia.
    - apply (drop_app_length' _ (side (h :: b))). rewrite !length_app, !length_side. cbn [length]. lia. }
  rewrite Htake, Hdrop, !hextets_hex by done. unfold value_of. rewrite !foldl_app, foldl_zeros.
  do 4 f_equal. lia.
Qed.

(** ** Printed addresses parse as themselves *)

Lemma hextets_of_spec n : n < 2 ^ 128 ->
  length (hextets_of n) = 8%nat /\ Forall (fun h => h < 65536) (hextets_of n) /\ value_of (hextets_of n) = n.
Proof.
  intros Hn. split; [done|]. split.
  { apply Forall_forall. intros h (k & -> & _)%list_elem_of_fmap. by apply N.mod_lt. }
  assert (Hstep : forall k acc, k ≠ 0 -> acc = n / 65536 ^ k ->
    acc * 65536 + (n / 65536 ^ (k - 1) mod 65536) = n / 65536 ^ (k - 1)).
  { intros k acc Hk ->. replace (65536 ^ k) with (65536 ^ (k - 1) * 65536).
    - rewrite <- N.Div0.div_div. pose proof (N.div_mod (n / 65536 ^ (k - 1)) 65536 ltac:(done)). lia.
    - rewrite N.mul_comm, <- N.pow_succ_r'. f_equal. lia. }
  assert (H0 : 0 = n / 65536 ^ 8) by (symmetry; apply N.div_small; exact Hn).
  unfold value_of, hextets_of. cbn [fmap list_fmap foldl].
  rewrite (Hstep 8), (Hstep 7), (Hstep 6), (Hstep 5), (Hstep 4), (Hstep 3), (Hstep 2), (Hstep 1); try done.
  cbn. by rewrite N.div_1_r.
Qed.

(** The characters of a printed IPv6 address are hexadecimal digits and colons. *)
Lemma hex_no c h : hex_value c = None -> h < 65536 -> c ∉ hex h.
Proof.
  intros Hc Hh Hin. destruct (hex_spec h Hh) as (c' & t & E & _ & Hall & _). rewrite E in Hin.
  rewrite Forall_forall in Hall. destruct (Hall c Hin). congruence.
Qed.

Lemma compress_no c vs :
  hex_value c = None -> length vs = 8%nat -> Forall (fun h => h < 65536) vs ->
  Forall (fun p => c ∉ p) (_compress_hextets (hex <$> vs)).
Proof.
  intros Hc Hlen Hall.
  assert (Hhex : forall l, Forall (fun h => h < 65536) l -> Forall (fun p => c ∉ p) (hex <$> l)).
  { intros l Hl. apply Forall_fmap. eapply Forall_impl; [exact Hl|]. intros h Hh. by apply hex_no. }
  assert (Hside : forall l, Forall (fun h => h < 65536) l -> Forall (fun p => c ∉ p) (side l)).
  { intros [|h l] Hl; [repeat constructor; apply not_elem_of_nil|by apply Hhex]. }
  destruct (compress_cases vs Hlen Hall) as [->|(a & k & b & -> & _ & ->)]; [by apply Hhex|].
  apply Forall_app in Hall as [Ha [_ Hb]%Forall_app].
  apply Forall_app. split; [by apply Hside|]. apply Forall_app.
  split; [repeat constructor; apply not_elem_of_nil|by apply Hside].
Qed.

Lemma length_compress vs :
  length vs = 8%nat -> Forall (fun h => h < 65536) vs -> (3 <= length (_compress_hextets (hex <$> vs)))%nat.
Proof.
  intros Hlen Hall. destruct (compress_cases vs Hlen Hall) as [->|(a & k & b & -> & _ & ->)].
  - rewrite length_fmap. lia.
  - rewrite !length_app. fold (side a) (side b). rewrite !length_side. cbn [length]. lia.
Qed.

Lemma expand_suffix_none parts : Forall (fun p => DOT ∉ p) parts -> expand_suffix parts = Some parts.
Proof.
  intros Hall. unfold expand_suffix. destruct (rev parts) as [|x l] eqn:E; [done|].
  rewrite bool_decide_false; [done|]. rewrite Forall_forall in Hall. apply Hall.
  apply list_elem_of_In, in_rev. rewrite E. by left.
Qed.

Lemma ipv6_of_compress vs :
  length vs = 8%nat -> Forall (fun h => h < 65536) vs ->
  ipv6_of_parts (_compress_hextets (hex <$> vs)) = Some (value_of vs).
Proof.
  intros Hlen Hall. destruct (compress_cases vs Hlen Hall) as [->|(a & k & b & Evs & Hk & ->)].
  - unfold ipv6_of_parts. rewrite empty_indices_hex, length_fmap, Hlen by done. cbn [Nat.ltb Nat.leb Nat.eqb negb].
    by apply hextets_hex.
  - rewrite Evs in Hall, Hlen |- *. apply Forall_app in Hall as [Ha [_ Hb]%Forall_app].
    fold (side a) (side b). apply ipv6_of_compressed; try done.
    rewrite !length_app, length_replicate in Hlen. lia.
Qed.

Lemma ipv6_of_text_of_ipv6 n : n < 2 ^ 128 -> ipv6_of_text (text_of_ipv6 n) = Some n.
Proof.
  intros Hn. destruct (hextets_of_spec n Hn) as (Hlen & Hall & Hv).
  unfold ipv6_of_text, text_of_ipv6. pose proof (length_compress _ Hlen Hall) as H3.
  rewrite split_join; [|by intros E; rewrite E in H3; cbn in H3; lia|by apply compress_no].
  destruct (Nat.ltb_spec (length (_compress_hextets (hex <$> hextets_of n))) 3); [lia|].
  rewrite expand_suffix_none by (by apply compress_no). rewrite ipv6_of_compress by done. by rewrite Hv.
Qed.

Lemma elem_of_join sep c parts : c ∈ join sep parts -> c = sep \/ exists p, p ∈ parts /\ c ∈ p.
Proof.
  induction parts as [|p parts IH]; [by intros ?%elem_of_nil|]. destruct parts as [|q parts].
  - intros Hc. right. exists p. split; [left|done].
  - change (join sep (p :: q :: parts)) with (p ++ sep :: join sep (q :: parts)).
    rewrite elem_of_app, elem_of_cons. intros [Hc|[->|Hc]]; [right; exists p; split; [left|done]|by left|].
    destruct (IH Hc) as [?|(p' & ? & ?)]; [by left|]. right. exists p'. split; [by right|done].
Qed.

Lemma text_of_ipv6_no c n : hex_value c = None -> c ≠ COLON -> n < 2 ^ 128 -> c ∉ text_of_ipv6 n.
Proof.
  intros Hc Hne Hn [?|(p & Hp & Hcp)]%elem_of_join; [done|].
  destruct (hextets_of_spec n Hn) as (Hlen & Hall & _).
  pose proof (compress_no c _ Hc Hlen Hall) as H. rewrite Forall_forall in H. by apply (H p).
Qed.

Lemma text_of_ipv4_no c n : is_digit c = false -> c ≠ DOT -> c ∉ text_of_ipv4 n.
Proof.
  intros Hc Hne [?|(p & (k & -> & _)%list_elem_of_fmap & Hcp)]%elem_of_join; [done|]. by apply str_of_N_no in Hcp.
Qed.

(** A text with a colon is no IPv4 address. *)
Lemma ipv4_of_text_colon s : COLON ∈ s -> ipv4_of_text s = None.
Proof.
  intros Hc. destruct (ipv4_of_text s) as [n|] eqn:E; [|done].
  apply text_of_ipv4_of_text in E as [<- _]. by apply text_of_ipv4_no in Hc.
Qed.

Lemma colon_in_text_of_ipv6 n : n < 2 ^ 128 -> COLON ∈ text_of_ipv6 n.
Proof.
  intros Hn. destruct (hextets_of_spec n Hn) as (Hlen & Hall & _). pose proof (length_compress _ Hlen Hall) as H3.
  unfold text_of_ipv6. destruct (_compress_hextets _) as [|p [|q l]]; cbn [length] in H3; [lia|lia|].
  change (join COLON (p :: q :: l)) with (p ++ COLON :: join COLON (q :: l)).
  rewrite elem_of_app. right. left.
Qed.

Definition ip_wf (a : ip) : Prop := match a with IPv4 n => n < 2 ^ 32 | IPv6 n => n < 2 ^ 128 end.

Lemma ip_address_of_text a : ip_wf a -> ip_address (text_of_ip a) = Some a.
Proof.
  destruct a as [n|n]; intros Hn; cbn in Hn; unfold ip_address, text_of_ip.
  - by rewrite ipv4_of_text_of_ipv4.
  - rewrite ipv4_of_text_colon by (by apply colon_in_text_of_ipv6).
    unfold ipv6_scoped. rewrite bool_decide_false by (by apply text_of_ipv6_no).
    rewrite split_on_none by (by apply text_of_ipv6_no). by rewrite ipv6_of_text_of_ipv6.
Qed.

(** Printing and parsing agree: every IPv4 and IPv6 address parses back from its
    printed form, the longest run of zeros left out or not, and every text that parses
    as an IPv4 address is the printed form of that address. *)
Theorem ip_address_roundtrip a :
  ip_wf a ->
  ip_address (text_of_ip a) = Some a /\
  forall s n, ip_address s = Some (IPv4 n) -> s = text_of_ip (IPv4 n).
Proof.
  intros Ha. split; [by apply ip_address_of_text|]. intros s n. unfold ip_address.
  destruct (ipv4_of_text s) as [m|] eqn:E; [|by destruct (ipv6_scoped s)].
  intros [= <-]. symmetry. by apply text_of_ipv4_of_text.
Qed.

Lemma ip_address_roundtrip_witness :
  text_of_ip (IPv6 (2 ^ 125 + 1)) = u "2000::1" /\
  ip_address (text_of_ip (IPv6 (2 ^ 125 + 1))) = Some (IPv6 (2 ^ 125 + 1)).
Proof. split; [vm_compute; reflexivity|]. apply (ip_address_roundtrip (IPv6 (2 ^ 125 + 1))). vm_compute. reflexivity. Defined.

(** ** Parsed addresses are in range *)

Lemma hex_fold_bound s acc h : hex_fold acc s = Some h -> h < (acc + 1) * 16 ^ N.of_nat (length s).
Proof.
  revert acc. induction s as [|c s IH]; intros acc; cbn [hex_fold length].
  { intros [= ->]. cbn. lia. }
  destruct (hex_value c) as [v|] eqn:E; [|done]. intros H%IH.
  assert (v < 16).
  { unfold hex_value, is_digit in E. repeat case_match; simplify_eq;
      rewrite ?andb_true_iff, ?N.leb_le in *; lia. }
  rewrite Nat2N.inj_succ, N.pow_succ_r'. nia.
Qed.

Lemma parse_hextet_bound s h : _parse_hextet s = Some h -> h < 65536.
Proof.
  unfold _parse_hextet. destruct s as [|c s]; [done|]. destruct (Nat.ltb_spec 4 (length (c :: s))); [done|].
  intros Hp%hex_fold_bound. eapply N.lt_le_trans; [exact Hp|]. rewrite N.mul_1_l.
  change 65536 with (16 ^ 4). apply N.pow_le_mono_r; [done|]. lia.
Qed.

Lemma hextets_bound acc parts n : hextets acc parts = Some n -> n < (acc + 1) * 65536 ^ N.of_nat (length parts).
Proof.
  revert acc. induction parts as [|p parts IH]; intros acc; cbn [hextets length].
  { intros [= ->]. cbn. lia. }
  destruct (_parse_hextet p) as [h|] eqn:E; [|done]. intros H%IH. apply parse_hextet_bound in E.
  rewrite Nat2N.inj_succ, N.pow_succ_r'. nia.
Qed.

Lemma pow_le_8 k : (k <= 8)%nat -> 65536 ^ N.of_nat k <= 2 ^ 128.
Proof. intros Hk. change (2 ^ 128) with (65536 ^ 8). apply N.pow_le_mono_r; [done|]. lia. Qed.

Lemma ipv6_of_parts_bound parts n : ipv6_of_parts parts = Some n -> n < 2 ^ 128.
Proof.
  unfold ipv6_of_parts. destruct (9 <? length parts)%nat; [done|].
  destruct (empty_indices parts) as [|skip [|]]; [| |done].
  - destruct (Nat.eqb_spec (length parts) 8) as [E|]; [|done]. cbn [negb]. intros H%hextets_bound.
    rewrite E, N.mul_1_l in H. eapply N.lt_le_trans; [exact H|]. by apply pow_le_8.
  - set (hi := if bool_decide (head parts = Some []) then _ else _).
    set (lo := if bool_decide (last parts = Some []) then _ else _).
    destruct (_ && negb (hi =? 0)%nat); [done|]. destruct (_ && negb (lo =? 0)%nat); [done|].
    destruct (Nat.ltb_spec (8 - (hi + lo)) 1); [done|].
    destruct (hextets 0 (take hi parts)) as [h|] eqn:Eh; [|done]. apply hextets_bound in Eh.
    intros H'%hextets_bound. rewrite length_take in Eh. rewrite length_drop in H'. rewrite N.mul_1_l in Eh.
    assert (Hh : h + 1 <= 65536 ^ N.of_nat hi).
    { apply N.le_succ_l in Eh. rewrite N.add_1_r. etransitivity; [exact Eh|]. apply N.pow_le_mono_r; [done|lia]. }
    assert (Hlo : 65536 ^ N.of_nat (length parts - (length parts - lo)) <= 65536 ^ N.of_nat lo)
      by (apply N.pow_le_mono_r; [done|lia]).
    assert (Hs : 1 <= 65536 ^ N.of_nat (8 - (hi + lo))) by (apply (N.pow_le_mono_r 65536 0); [done|lia]).
    assert (E8 : 65536 ^ N.of_nat hi * 65536 ^ N.of_nat (8 - (hi + lo)) * 65536 ^ N.of_nat lo = 2 ^ 128).
    { rewrite <- !N.pow_add_r. change (2 ^ 128) with (65536 ^ 8). f_equal. lia. }
    rewrite <- E8. eapply N.lt_le_trans; [exact H'|]. apply N.mul_le_mono; [|exact Hlo].
    clear - Hh Hs. set (X := 65536 ^ N.of_nat hi) in *. set (S := 65536 ^ N.of_nat (8 - (hi + lo))) in *.
    clearbody X S. nia.
Qed.

Lemma ip_address_wf s a : ip_address s = Some a -> ip_wf a.
Proof.
  unfold ip_address. destruct (ipv4_of_text s) as [n|] eqn:E; [intros [= <-]; exact (proj2 (text_of_ipv4_of_text _ _ E))|].
  destruct (ipv6_scoped s) as [n|] eqn:E6; [|done]. intros [= <-]. cbn.
  assert (H : forall t, ipv6_of_text t = Some n -> n < 2 ^ 128).
  { intros t. unfold ipv6_of_text. destruct (_ <? _)%nat; [done|]. destruct (expand_suffix _); [|done].
    apply ipv6_of_parts_bound. }
  unfold ipv6_scoped in E6. destruct (bool_decide (SLASH ∈ s)); [done|].
  destruct (split_on PERCENT s) as [|x [|y [|]]]; try done; [by apply (H x)|].
  destruct (bool_decide (y = [])); [done|]. by apply (H x).
Qed.
