(* ===== verification/Addresses.v ===== *)
(** * Address normalization (src/app/collectors/base.py)

    The canonical form of an address, with the module's cache as explicit state, the
    loopback test and the address family. *)

From S2P Require Import Prelude PyText IpAddress.

Local Open Scope N_scope.

Definition canonical_part (part : text) : bool :=
  negb (negb (isascii part) || negb (isdigits part) || (3 <? length part)%nat ||
        ((1 <? length part)%nat && bool_decide (head part = Some 48)) || (255 <? digits_value part)%Z).

Definition _is_canonical_ipv4 (candidate : text) : bool :=
  match split_on DOT candidate with
  | [a; b; c; d] => forallb canonical_part [a; b; c; d]
  | _ => false
  end.

Definition _normalize_ip_address_uncached (address : text) : text :=
  let candidate := before PERCENT address in
  if _is_canonical_ipv4 candidate then candidate
  else
    match ip_address candidate with
    | None => address
    | Some (IPv4 n) => text_of_ip (IPv4 n)
    | Some (IPv6 n) =>
        match ipv4_mapped n with
        | Some m => text_of_ip (IPv4 m)
        | None => text_of_ip (IPv6 n)
        end
    end.

(** [_normalize_cache] maps an address to its result. *)
Definition NormalizeCache : Type := gmap text (option text).

Definition cached_normalize (address : option text) (cache : NormalizeCache) : option text * NormalizeCache :=
  match address with
  | None => (None, cache)
  | Some address =>
      match cache !! address with
      | Some cached => (cached, cache)
      | None =>
          let result := Some (_normalize_ip_address_uncached address) in
          (result, <[address := result]> cache)
      end
  end.

(** What the cached function returns from any cache it can have built
    ([cache_transparent] below). *)
Definition normalize_ip_address (address : option text) : option text :=
  _normalize_ip_address_uncached <$> address.

Definition is_loopback_address (address : option text) : bool :=
  match normalize_ip_address address with
  | None => false
  | Some normalized =>
      if _is_canonical_ipv4 normalized then bool_decide (before DOT normalized = u "127")
      else if negb (bool_decide (COLON ∈ normalized)) then false
      else match ip_address normalized with Some a => is_loopback a | None => false end
  end.

(** [True] for "ipv6". *)
Definition address_family (address : text) : text :=
  let normalized := _normalize_ip_address_uncached address in
  match ip_address normalized with
  | Some a => if (ip_version a =? 6)%Z then u "ipv6" else u "ipv4"
  | None => if bool_decide (COLON ∈ normalized) then u "ipv6" else u "ipv4"
  end.

(** ** The fast path accepts exactly what the parser accepts *)

Lemma isdigits_ascii s : isdigits s = true -> isascii s = true.
Proof.
  unfold isdigits, isascii. destruct s as [|c s]; [done|]. rewrite !forallb_forall.
  intros H x Hx. specialize (H x Hx). unfold is_digit, ascii_char in *.
  rewrite andb_true_iff, !N.leb_le in H. apply N.ltb_lt. lia.
Qed.

Lemma digits_value_nonneg s : isdigits s = true -> (0 <= digits_value s)%Z.
Proof.
  unfold isdigits. destruct s as [|c s]; [done|]. rewrite forallb_forall. intros H.
  unfold digits_value. assert (Hgen : forall t acc, (forall x, In x t -> is_digit x = true) -> (0 <= acc)%Z ->
    (0 <= foldl (fun acc c => acc * 10 + (Z.of_N c - 48)) acc t)%Z).
  { induction t as [|x t IH]; intros acc Ht Hacc; [done|]. cbn [foldl]. apply IH; [intros y Hy; apply Ht; by right|].
    specialize (Ht x (or_introl eq_refl)). unfold is_digit in Ht. rewrite andb_true_iff, !N.leb_le in Ht. lia. }
  by apply Hgen.
Qed.

Lemma canonical_part_octet s : canonical_part s = true <-> is_Some (_parse_octet s).
Proof.
  unfold canonical_part, _parse_octet. destruct (isdigits s) eqn:Hd; cbn [negb orb].
  2:{ rewrite orb_true_r. cbn. split; [done|]. by intros []. }
  rewrite (isdigits_ascii s Hd). cbn [negb orb]. pose proof (digits_value_nonneg s Hd) as Hv.
  destruct (3 <? length s)%nat eqn:Hl; cbn [negb orb]; [split; [done|by intros []]|].
  assert (Hz : (1 <? length s)%nat && bool_decide (head s = Some 48) =
    negb (bool_decide (s = u "0")) && bool_decide (head s = Some 48)).
  { destruct s as [|a [|b s]]; [done| |].
    - cbn [length Nat.ltb Nat.leb andb head]. destruct (bool_decide_reflect (Some a = Some 48)) as [[= ->]|]; [done|].
      by rewrite andb_false_r.
    - rewrite (bool_decide_false (a :: b :: s = u "0")) by discriminate. done. }
  rewrite Hz. destruct (negb (bool_decide (s = u "0")) && _); cbn [negb orb]; [split; [done|by intros []]|].
  destruct (Z.ltb_spec 255 (digits_value s)), (N.ltb_spec 255 (Z.to_N (digits_value s))); cbn; try lia.
  - split; [done|by intros []].
  - split; eauto.
Qed.

Lemma canonical_iff s : _is_canonical_ipv4 s = true <-> is_Some (ipv4_of_text s).
Proof.
  unfold _is_canonical_ipv4, ipv4_of_text.
  destruct (split_on DOT s) as [|a [|b [|c [|d [|]]]]]; try (split; [done|by intros []]).
  cbn [forallb]. rewrite !andb_true_iff, !canonical_part_octet.
  destruct (_parse_octet a), (_parse_octet b), (_parse_octet c), (_parse_octet d);
    split; try (by intros []); intros (Ha & Hb & Hc & Hd & _); solve [eauto|by destruct Ha|by destruct Hb|by destruct Hc|by destruct Hd].
Qed.

Lemma canonical_text_of_ipv4 n : n < 2 ^ 32 -> _is_canonical_ipv4 (text_of_ipv4 n) = true.
Proof. intros Hn. apply canonical_iff. by rewrite ipv4_of_text_of_ipv4. Qed.

(** ** The canonical form *)

(** The address a text denotes for the program: zone ignored, an IPv4-mapped IPv6
    address being that IPv4 address. *)
Definition denoted (address : text) : option ip :=
  match ip_address (before PERCENT address) with
  | Some (IPv6 n) => match ipv4_mapped n with Some m => Some (IPv4 m) | None => Some (IPv6 n) end
  | a => a
  end.

Lemma normalize_denoted address :
  _normalize_ip_address_uncached address =
    match denoted address with Some a => text_of_ip a | None => address end.
Proof.
  unfold _normalize_ip_address_uncached, denoted. set (candidate := before PERCENT address).
  destruct (_is_canonical_ipv4 candidate) eqn:E.
  - apply canonical_iff in E as [n E]. unfold ip_address. rewrite E.
    change (text_of_ip (IPv4 n)) with (text_of_ipv4 n). by destruct (text_of_ipv4_of_text _ _ E) as [-> _].
  - destruct (ip_address candidate) as [[n|n]|]; [done| |done]. by destruct (ipv4_mapped n).
Qed.

Lemma before_none sep s : sep ∉ s -> before sep s = s.
Proof.
  induction s as [|c s IH]; [done|]. intros [Hc Hs]%not_elem_of_cons. cbn.
  destruct (N.eqb_spec c sep); [done|]. by rewrite IH.
Qed.

(** Addresses in the form the program compares: in range and not IPv4-mapped. *)
Definition canonical_ip (a : ip) : Prop :=
  ip_wf a /\ match a with IPv4 _ => True | IPv6 n => ipv4_mapped n = None end.

Lemma denoted_canonical address a : denoted address = Some a -> canonical_ip a.
Proof.
  unfold denoted. destruct (ip_address (before PERCENT address)) as [[n|n]|] eqn:E; [| |done].
  - intros [= <-]. by apply ip_address_wf in E.
  - apply ip_address_wf in E. destruct (ipv4_mapped n) as [m|] eqn:Em; intros [= <-]; [|done].
    unfold ipv4_mapped in Em. destruct (_ =? _); [|done]. injection Em as <-. split; [|done].
    by apply N.mod_lt.
Qed.

Lemma denoted_text_of_ip a : canonical_ip a -> denoted (text_of_ip a) = Some a.
Proof.
  intros [Hwf Hm]. unfold denoted. rewrite before_none.
  - rewrite ip_address_of_text by done. destruct a as [n|n]; [done|]. by rewrite Hm.
  - destruct a as [n|n]; [by apply text_of_ipv4_no|by apply text_of_ipv6_no].
Qed.

Lemma normalize_text_of_ip a : canonical_ip a -> _normalize_ip_address_uncached (text_of_ip a) = text_of_ip a.
Proof. intros Ha. by rewrite normalize_denoted, denoted_text_of_ip. Qed.

(** ** The guarantees *)

(** C31. Normalization is a canonical form: normalizing twice is normalizing once, two
    texts that denote the same address (with any zone, or written as an IPv4-mapped
    IPv6 address) have the same normal form, texts that denote different addresses do
    not, and a text that is no address is left alone. *)
Theorem normalize_canonical s t :
  normalize_ip_address (normalize_ip_address s) = normalize_ip_address s /\
  match s, t with
  | Some s, Some t =>
      match denoted s, denoted t with
      | Some a, Some b => normalize_ip_address (Some s) = normalize_ip_address (Some t) <-> a = b
      | None, _ => normalize_ip_address (Some s) = Some s
      | _, _ => True
      end
  | _, _ => True
  end.
Proof.
  split.
  - destruct s as [s|]; [|done]. cbn. f_equal. rewrite (normalize_denoted s).
    destruct (denoted s) as [a|] eqn:E; [|by rewrite normalize_denoted, E].
    apply normalize_text_of_ip. by eapply denoted_canonical.
  - destruct s as [s|], t as [t|]; try done. cbn. rewrite !normalize_denoted.
    destruct (denoted s) as [a|] eqn:Ea; [|done]. destruct (denoted t) as [b|] eqn:Eb; [|done].
    split; [|by intros ->]. intros [= E]. apply denoted_canonical in Ea, Eb.
    apply (inj Some). by rewrite <- (denoted_text_of_ip a Ea), <- (denoted_text_of_ip b Eb), E.
Qed.

(** A sequence of calls, each with the cache the previous one left. *)
Fixpoint cached_calls (cache : NormalizeCache) (addresses : list (option text)) : list (option text) :=
  match addresses with
  | [] => []
  | address :: rest => let '(r, cache) := cached_normalize address cache in r :: cached_calls cache rest
  end.

Definition cache_ok (cache : NormalizeCache) : Prop :=
  map_Forall (fun address r => r = Some (_normalize_ip_address_uncached address)) cache.

Lemma cached_calls_ok cache addresses :
  cache_ok cache -> cached_calls cache addresses = normalize_ip_address <$> addresses.
Proof.
  revert cache. induction addresses as [|address rest IH]; intros cache Hok; [done|]. cbn.
  destruct address as [address|]; cbn; [|by rewrite IH].
  destruct (cache !! address) as [r|] eqn:E; cbn.
  - rewrite (Hok _ _ E). by rewrite IH.
  - rewrite IH; [done|]. by apply map_Forall_insert_2.
Qed.

(** The cache is transparent: whatever the sequence of calls since the module was
    loaded, every call returns what the function without the cache returns. *)
Theorem normalize_cache_transparent addresses :
  cached_calls ∅ addresses = normalize_ip_address <$> addresses.
Proof. apply cached_calls_ok, map_Forall_empty. Qed.

Lemma before_split sep s : head (split_on sep s) = Some (before sep s).
Proof.
  induction s as [|c s IH]; [done|]. cbn [split_on before]. destruct (c =? sep); [done|].
  destruct (split_on sep s) as [|x xs] eqn:E; [by apply split_on_not_nil in E|]. cbn in *. by injection IH as ->.
Qed.

Lemma parsed_denoted s a : ip_address s = Some a -> is_Some (denoted s).
Proof.
  intros H. assert (Hb : is_Some (ip_address (before PERCENT s))).
  { unfold ip_address in H. destruct (ipv4_of_text s) as [n|] eqn:E.
    - destruct (text_of_ipv4_of_text _ _ E) as [Es _]. rewrite before_none.
      + unfold ip_address. rewrite E. eauto.
      + rewrite <- Es. by apply text_of_ipv4_no.
    - destruct (ipv6_scoped s) as [n|] eqn:E6; [|done]. unfold ip_address.
      destruct (ipv4_of_text (before PERCENT s)); [eauto|].
      assert (Hsc : ipv6_scoped (before PERCENT s) = Some n); [|rewrite Hsc; eauto].
      unfold ipv6_scoped in E6. case_bool_decide as Hslash; [done|]. pose proof (before_split PERCENT s) as Hbs.
      assert (Hparts : forall x, x ∈ split_on PERCENT s -> (SLASH ∉ x) /\ (PERCENT ∉ x)).
      { intros x Hx. split; [|by eapply split_on_parts]. intros Hin. apply Hslash. rewrite <- (join_split PERCENT s).
        revert Hx. generalize (split_on PERCENT s). intros l. induction l as [|y l IH]; [by intros ?%elem_of_nil|].
        destruct l as [|z l]; [by intros ->%list_elem_of_singleton|].
        change (join PERCENT (y :: z :: l)) with (y ++ PERCENT :: join PERCENT (z :: l)).
        intros [->|Hx]%elem_of_cons; rewrite elem_of_app, elem_of_cons; [by left|]. right. right. by apply IH. }
      destruct (split_on PERCENT s) as [|x [|y [|]]]; try done; injection Hbs as Hx; rewrite <- Hx;
        destruct (Hparts x ltac:(left)) as [Hsx Hpx]; unfold ipv6_scoped;
        rewrite bool_decide_false, split_on_none by done; [done|]. by destruct (bool_decide (y = [])). }
  destruct Hb as [b Hb]. unfold denoted. rewrite Hb. destruct b as [n|n]; [eauto|].
  destruct (ipv4_mapped n); eauto.
Qed.

Lemma before_app sep x s : sep ∉ x -> before sep (x ++ sep :: s) = x.
Proof.
  induction x as [|c x IH]; intros Hx; cbn; [by rewrite N.eqb_refl|].
  apply not_elem_of_cons in Hx as [Hc Hx]. destruct (N.eqb_spec c sep); [done|]. by rewrite IH.
Qed.

Lemma first_octet n : n < 2 ^ 32 -> before DOT (text_of_ipv4 n) = str_of_N (n / 16777216).
Proof.
  intros Hn. unfold text_of_ipv4, octets. cbn [fmap list_fmap]. rewrite (N.mod_small (n / 16777216)).
  - change (join DOT [?a; ?b; ?c; ?d]) with (a ++ DOT :: join DOT [b; c; d]).
    apply before_app. by apply str_of_N_no.
  - by apply N.Div0.div_lt_upper_bound.
Qed.

Lemma loopback_family_of a :
  canonical_ip a ->
  is_loopback_address (Some (text_of_ip a)) = is_loopback a /\
  match a with IPv4 _ => u "ipv4" | IPv6 _ => u "ipv6" end = address_family (text_of_ip a).
Proof.
  intros Ha. unfold is_loopback_address, address_family, normalize_ip_address. cbn [fmap option_fmap option_map].
  rewrite normalize_text_of_ip by done. destruct Ha as [Hwf Hm]. rewrite ip_address_of_text by done.
  destruct a as [n|n]; cbn [text_of_ip ip_version is_loopback].
  - split; [|done]. rewrite canonical_text_of_ipv4, first_octet by done. change (u "127") with (str_of_N 127).
    destruct (N.eqb_spec (n / 16777216) 127) as [->|Hne]; [by apply bool_decide_true|].
    apply bool_decide_false. intros Heq. by apply (inj str_of_N) in Heq.
  - split; [|done]. destruct (_is_canonical_ipv4 (text_of_ipv6 n)) eqn:Ec.
    { apply canonical_iff in Ec as [m Ec]. rewrite ipv4_of_text_colon in Ec; [done|by apply colon_in_text_of_ipv6]. }
    by rewrite bool_decide_true by (by apply colon_in_text_of_ipv6).
Qed.

(** The loopback test and the address family mean what they say: a text is loopback
    exactly when it denotes an address of 127.0.0.0/8 or ::1 (so also when it is
    written as an IPv4-mapped IPv6 address or has a zone), and the family is that of
    the address it denotes. *)
Theorem loopback_and_family s :
  is_loopback_address None = false /\
  is_loopback_address (Some s) =
    match denoted s with
    | Some (IPv4 n) => n / 2 ^ 24 =? 127
    | Some (IPv6 n) => n =? 1
    | None => false
    end /\
  match denoted s with
  | Some (IPv4 _) => address_family s = u "ipv4"
  | Some (IPv6 _) => address_family s = u "ipv6"
  | None => True
  end.
Proof.
  split; [done|]. destruct (denoted s) as [a|] eqn:E.
  - apply denoted_canonical in E as Ha. destruct (loopback_family_of a Ha) as [Hloop Hfam].
    assert (Hn : _normalize_ip_address_uncached s = _normalize_ip_address_uncached (text_of_ip a))
      by (rewrite (normalize_text_of_ip a Ha), normalize_denoted, E; done).
    unfold is_loopback_address, address_family, normalize_ip_address in *. cbn [fmap option_fmap option_map] in *.
    rewrite Hn, Hloop. split; [by destruct a|]. rewrite <- Hfam. by destruct a.
  - split; [|done]. assert (Hnone : ip_address s = None).
    { destruct (ip_address s) eqn:Ei; [|done]. apply parsed_denoted in Ei as [? ?]. congruence. }
    unfold is_loopback_address, normalize_ip_address. cbn [fmap option_fmap option_map].
    rewrite normalize_denoted, E, Hnone. destruct (_is_canonical_ipv4 s) eqn:Ec; [|by destruct (negb _)].
    apply canonical_iff in Ec as [m Ec]. unfold ip_address in Hnone. by rewrite Ec in Hnone.
Qed.

(** The hand-written test for canonical IPv4 texts accepts exactly what the
    library's parser accepts, so taking the fast path never changes a result. *)
Theorem canonical_fast_path s :
  (_is_canonical_ipv4 s = true <-> exists n, ip_address s = Some (IPv4 n)) /\
  (_is_canonical_ipv4 s = true -> exists a, ip_address s = Some a /\ text_of_ip a = s).
Proof.
  rewrite canonical_iff. unfold ip_address. split.
  - destruct (ipv4_of_text s) as [n|]; [by split; eauto|]. destruct (ipv6_scoped s); split; try (by intros []); intros [? [=]].
  - intros [n E]. rewrite E. exists (IPv4 n). split; [done|]. by apply text_of_ipv4_of_text.
Qed.

(** Both sides of the implication occur. *)
Lemma canonical_fast_path_witness :
  _is_canonical_ipv4 (u "10.0.0.255") = true /\ exists a, ip_address (u "10.0.0.255") = Some a /\ text_of_ip a = u "10.0.0.255".
Proof.
  assert (E : _is_canonical_ipv4 (u "10.0.0.255") = true) by (vm_compute; reflexivity).
  split; [exact E|]. exact (proj2 (canonical_fast_path (u "10.0.0.255")) E).
Defined.
