(* ===== verification/Networks.v ===== *)
(** * IP networks (Python's [ipaddress.ip_network] with [strict=False])

    An IPv4 network is its address, host bits cleared, and its prefix length; of an
    IPv6 network the sources use only that it is one. *)

From S2P Require Import Prelude PyText IpAddress.

Local Open Scope N_scope.

Record network := mkNet { network_address : N; prefixlen : N }.

#[export] Instance network_eq_dec : EqDecision network.
Proof. solve_decision. Defined.

(** [_ip_int_from_prefix]: the netmask of a prefix length. *)
Definition netmask (p : N) : N := N.lxor (N.ones 32) (N.shiftr (N.ones 32) p).

(** [_prefix_from_prefix_string] *)
Definition prefix_from_prefix_string (max : N) (s : text) : option N :=
  if negb (isascii s && isdigits s) then None
  else
    let p := Z.to_N (digits_value s) in
    if max <? p then None else Some p.

(** [_count_righthand_zero_bits]: [min(bits, (~number & (number - 1)).bit_length())] *)
Definition righthand_zero_bits (number bits : N) : N :=
  if number =? 0 then bits else N.min bits (N.size (N.ldiff (number - 1) number)).

(** [_prefix_from_ip_int] *)
Definition prefix_from_ip_int (n : N) : option N :=
  let trailing := righthand_zero_bits n 32 in
  let p := 32 - trailing in
  if N.shiftr n trailing =? N.ones p then Some p else None.

(** [_prefix_from_ip_string]: a netmask or a hostmask. *)
Definition prefix_from_ip_string (s : text) : option N :=
  match ipv4_of_text s with
  | None => None
  | Some n =>
      match prefix_from_ip_int n with
      | Some p => Some p
      | None => prefix_from_ip_int (N.lxor n (N.ones 32))
      end
  end.

Definition make_netmask (mask : text) : option N :=
  match prefix_from_prefix_string 32 mask with
  | Some p => Some p
  | None => prefix_from_ip_string mask
  end.

(** [IPv4Network(s, strict=False)] *)
Definition ipv4_network (s : text) : option network :=
  let with_mask addr p :=
    match ipv4_of_text addr, p with
    | Some n, Some p => Some (mkNet (N.land n (netmask p)) p)
    | _, _ => None
    end in
  match split_on SLASH s with
  | [addr] => with_mask addr (Some 32)
  | [addr; mask] => with_mask addr (make_netmask mask)
  | _ => None
  end.

(** Whether [IPv6Network(s, strict=False)] succeeds. *)
Definition is_ipv6_network (s : text) : bool :=
  match split_on SLASH s with
  | [addr] => bool_decide (is_Some (ipv6_scoped addr))
  | [addr; mask] => bool_decide (is_Some (ipv6_scoped addr)) && bool_decide (is_Some (prefix_from_prefix_string 128 mask))
  | _ => false
  end.

Inductive ip_net := Net4 (n : network) | Net6.

(** [ipaddress.ip_network(s, strict=False)] *)
Definition ip_network (s : text) : option ip_net :=
  match ipv4_network s with
  | Some n => Some (Net4 n)
  | None => if is_ipv6_network s then Some Net6 else None
  end.

(** [network.with_prefixlen] *)
Definition with_prefixlen (n : network) : text :=
  text_of_ipv4 (network_address n) ++ SLASH :: str_of_N (prefixlen n).

(** [address in network] *)
Definition in_network (address : N) (n : network) : bool :=
  N.land address (netmask (prefixlen n)) =? network_address n.

(** ** Networks in range *)

Definition network_wf (n : network) : Prop :=
  prefixlen n <= 32 /\ network_address n < 2 ^ 32 /\
  N.land (network_address n) (netmask (prefixlen n)) = network_address n.

Lemma land_bound a m k : a < 2 ^ k -> N.land a m < 2 ^ k.
Proof.
  intros Ha. assert (E : N.land a m = N.land a m mod 2 ^ k).
  { rewrite <- N.land_ones, <- N.land_assoc, (N.land_comm m), N.land_assoc, N.land_ones. by rewrite N.mod_small. }
  rewrite E. apply N.mod_lt. apply N.pow_nonzero. done.
Qed.

Lemma ipv4_network_wf s n : ipv4_network s = Some n -> network_wf n.
Proof.
  assert (Hmask : forall addr p, (match p with Some p => p <= 32 | None => True end) ->
    match ipv4_of_text addr, p with
    | Some n, Some p => Some (mkNet (N.land n (netmask p)) p)
    | _, _ => None
    end = Some n -> network_wf n).
  { intros addr p Hp H. destruct (ipv4_of_text addr) as [a|] eqn:E; [|done]. destruct p as [p|]; [|done].
    injection H as <-. apply text_of_ipv4_of_text in E as [_ Ha]. split_and!; cbn; [done|by apply land_bound|].
    by rewrite <- N.land_assoc, N.land_diag. }
  unfold ipv4_network. destruct (split_on SLASH s) as [|addr [|mask [|]]]; try done; [by apply (Hmask addr (Some 32))|].
  apply (Hmask addr (make_netmask mask)). unfold make_netmask.
  assert (Hint : forall n, match prefix_from_ip_int n with Some p => p <= 32 | None => True end).
  { intros m. unfold prefix_from_ip_int. destruct (_ =? _); [lia|done]. }
  destruct (prefix_from_prefix_string 32 mask) as [p|] eqn:E.
  - unfold prefix_from_prefix_string in E. destruct (negb _); [done|].
    destruct (N.ltb_spec 32 (Z.to_N (digits_value mask))); [done|]. by injection E as <-.
  - unfold prefix_from_ip_string. destruct (ipv4_of_text mask) as [m|]; [|done].
    pose proof (Hint m). destruct (prefix_from_ip_int m); [done|apply Hint].
Qed.

Lemma prefix_of_str p max : p <= max -> prefix_from_prefix_string max (str_of_N p) = Some p.
Proof.
  intros Hp. destruct (str_of_N_spec p) as (Hv & Hall & _ & Hne). unfold prefix_from_prefix_string.
  assert (Hd : isdigits (str_of_N p) = true).
  { unfold isdigits. destruct (str_of_N p) as [|c t]; [done|]. rewrite forallb_forall. intros x Hx.
    rewrite Forall_forall in Hall. apply Hall. by apply list_elem_of_In. }
  assert (Ha : isascii (str_of_N p) = true).
  { unfold isascii. rewrite forallb_forall. intros x Hx. rewrite Forall_forall in Hall.
    specialize (Hall x). rewrite list_elem_of_In in Hall. specialize (Hall Hx). cbn in Hall.
    unfold is_digit, ascii_char in *. rewrite andb_true_iff, !N.leb_le in Hall. apply N.ltb_lt. lia. }
  rewrite Ha, Hd, Hv. cbn [andb negb]. rewrite N2Z.id. destruct (N.ltb_spec max p); [lia|done].
Qed.

Lemma slash_not_in_ipv4 n : SLASH ∉ text_of_ipv4 n.
Proof. by apply text_of_ipv4_no. Qed.

Lemma ipv4_network_of_text n : network_wf n -> ipv4_network (with_prefixlen n) = Some n.
Proof.
  intros (Hp & Ha & Hland). unfold ipv4_network, with_prefixlen.
  rewrite split_on_app by apply slash_not_in_ipv4. rewrite split_on_none by (by apply str_of_N_no).
  unfold make_netmask. rewrite ipv4_of_text_of_ipv4, prefix_of_str by done. rewrite Hland. by destruct n.
Qed.

Lemma with_prefixlen_inj m n : network_wf m -> network_wf n -> with_prefixlen m = with_prefixlen n -> m = n.
Proof.
  intros Hm Hn E. apply (inj Some). by rewrite <- (ipv4_network_of_text m Hm), <- (ipv4_network_of_text n Hn), E.
Qed.
