(* ===== verification/Models.v ===== *)
(** * The database (src/app/models.py)

    One record per mapped class, with the columns of the class, and the
    database as one finite map per table from primary key to row.  Timestamps
    are integers (microseconds since the epoch, UTC). *)

From S2P Require Import Prelude PyText.

(** ** Enumerations *)

Inductive OSType := LINUX | WINDOWS.
Inductive ScanTrigger := TRIGGER_MANUAL | TRIGGER_SCHEDULED | TRIGGER_IMPORT | TRIGGER_BATCH.
Inductive ScanStatus := SCAN_RUNNING | SCAN_SUCCESS | SCAN_FAILED.
Inductive ScanTaskStatus :=
  TASK_PENDING | TASK_RUNNING | TASK_SUCCESS | TASK_FAILED | TASK_CANCELLED.
Inductive ScanBatchStatus := BATCH_PENDING | BATCH_RUNNING | BATCH_COMPLETED.
Inductive ScanBatchType := BATCH_ALL | BATCH_CLUSTER | BATCH_IMPORT | BATCH_RETRY.
Inductive ImportBatchStatus :=
  IMPORT_IMPORTING | IMPORT_TESTING | IMPORT_COMPLETED | IMPORT_FAILED.
Inductive ImportStatus := ROW_IMPORTED | ROW_SKIPPED | ROW_ERROR.
Inductive ImportTestStatus :=
  TEST_PENDING | TEST_RUNNING | TEST_SUCCESS | TEST_FAILED | TEST_NOT_APPLICABLE.

#[export] Instance OSType_eq_dec : EqDecision OSType.
Proof. solve_decision. Defined.
#[export] Instance ScanTrigger_eq_dec : EqDecision ScanTrigger.
Proof. solve_decision. Defined.
#[export] Instance ScanStatus_eq_dec : EqDecision ScanStatus.
Proof. solve_decision. Defined.
#[export] Instance ScanTaskStatus_eq_dec : EqDecision ScanTaskStatus.
Proof. solve_decision. Defined.
#[export] Instance ScanBatchStatus_eq_dec : EqDecision ScanBatchStatus.
Proof. solve_decision. Defined.
#[export] Instance ScanBatchType_eq_dec : EqDecision ScanBatchType.
Proof. solve_decision. Defined.
#[export] Instance ImportBatchStatus_eq_dec : EqDecision ImportBatchStatus.
Proof. solve_decision. Defined.
#[export] Instance ImportStatus_eq_dec : EqDecision ImportStatus.
Proof. solve_decision. Defined.
#[export] Instance ImportTestStatus_eq_dec : EqDecision ImportTestStatus.
Proof. solve_decision. Defined.

(** ** Rows *)

Record Cluster := mkCluster {
  cluster_name : text;
  cluster_description : option text;
  cluster_history_retention_days : option Z;
  cluster_scan_interval_minutes : Z;
  cluster_scheduled_enabled : bool;
  cluster_created_at : Z;
  cluster_updated_at : Z
}.

Record ClusterInternalNetwork := mkNetwork {
  network_cluster_id : Z;
  network_cidr : text
}.

Record Device := mkDevice {
  device_name : text;
  device_host : text;
  device_os_type : OSType;
  device_port : Z;
  device_username : text;
  device_encrypted_password : text;
  device_cluster_id : option Z;
  device_scan_interval_minutes : Z;
  device_scheduled_enabled : bool;
  device_collection_enabled : bool;
  device_history_retention_days : option Z;
  device_last_scan_status : option ScanStatus;
  device_last_scan_at : option Z;
  device_created_at : Z;
  device_updated_at : Z
}.

Record ScanRun := mkScanRun {
  run_device_id : Z;
  run_trigger_type : ScanTrigger;
  run_status : ScanStatus;
  run_started_at : Z;
  run_finished_at : option Z;
  run_connection_count : Z;
  run_warning_message : option text;
  run_error_code : option text;
  run_error_message : option text
}.

Record ScanBatch := mkScanBatch {
  batch_type : ScanBatchType;
  batch_status : ScanBatchStatus;
  batch_cluster_id : option Z;
  batch_source_import_batch_id : option Z;
  batch_total_tasks : Z;
  batch_pending_tasks : Z;
  batch_running_tasks : Z;
  batch_success_tasks : Z;
  batch_failed_tasks : Z;
  batch_created_at : Z;
  batch_finished_at : option Z
}.

Record ScanTask := mkScanTask {
  task_device_id : Z;
  task_trigger_type : ScanTrigger;
  task_priority : Z;
  task_status : ScanTaskStatus;
  task_scan_run_id : option Z;
  task_error_message : option text;
  task_created_at : Z;
  task_started_at : option Z;
  task_finished_at : option Z;
  task_worker_id : option text;
  task_lease_expires_at : option Z;
  task_heartbeat_at : option Z;
  task_attempt_count : Z
}.

Record ScanBatchItem := mkScanBatchItem {
  item_batch_id : Z;
  item_task_id : Z;
  item_device_id : Z;
  item_status : ScanTaskStatus
}.

Record ConnectionRecord := mkConnectionRecord {
  conn_scan_run_id : Z;
  conn_protocol : text;
  conn_address_family : text;
  conn_local_ip : text;
  conn_local_port : Z;
  conn_remote_ip : option text;
  conn_remote_port : option Z;
  conn_state : option text;
  conn_pid : option Z;
  conn_process_name : option text;
  conn_remote_hostname : option text
}.

Record ConnectionServiceObservation := mkObservation {
  obs_scan_run_id : Z;
  obs_device_id : Z;
  obs_started_at : Z;
  obs_protocol : text;
  obs_remote_ip : text;
  obs_remote_port : Z;
  obs_process_name : text;
  obs_sample_connection_id : Z;
  obs_remote_hostname : option text;
  obs_local_ips : text;
  obs_local_ports : text;
  obs_pids : option text
}.

Record ImportBatch := mkImportBatch {
  import_filename : text;
  import_status : ImportBatchStatus;
  import_total_rows : Z;
  import_imported_rows : Z;
  import_skipped_rows : Z;
  import_error_rows : Z;
  import_test_pending_rows : Z;
  import_test_running_rows : Z;
  import_test_success_rows : Z;
  import_test_failed_rows : Z;
  import_created_at : Z;
  import_finished_at : option Z;
  import_fatal_error : option text;
  import_scan_batch_id : option Z
}.

Record ImportRowResult := mkImportRow {
  row_batch_id : Z;
  row_row_number : Z;
  row_device_name : option text;
  row_host : option text;
  row_device_id : option Z;
  row_import_status : ImportStatus;
  row_import_message : text;
  row_test_status : ImportTestStatus;
  row_test_message : option text;
  row_test_worker_id : option text;
  row_test_lease_expires_at : option Z;
  row_test_heartbeat_at : option Z;
  row_test_attempt_count : Z
}.

(** ** Record update instances *)

#[export] Instance Cluster_eta : Eta Cluster := fun r =>
  mkCluster (cluster_name r) (cluster_description r) (cluster_history_retention_days r)
    (cluster_scan_interval_minutes r) (cluster_scheduled_enabled r)
    (cluster_created_at r) (cluster_updated_at r).
#[export] Instance ClusterInternalNetwork_eta : Eta ClusterInternalNetwork := fun r =>
  mkNetwork (network_cluster_id r) (network_cidr r).
#[export] Instance Device_eta : Eta Device := fun r =>
  mkDevice (device_name r) (device_host r) (device_os_type r) (device_port r)
    (device_username r) (device_encrypted_password r) (device_cluster_id r)
    (device_scan_interval_minutes r) (device_scheduled_enabled r)
    (device_collection_enabled r) (device_history_retention_days r)
    (device_last_scan_status r) (device_last_scan_at r) (device_created_at r)
    (device_updated_at r).
#[export] Instance ScanRun_eta : Eta ScanRun := fun r =>
  mkScanRun (run_device_id r) (run_trigger_type r) (run_status r) (run_started_at r)
    (run_finished_at r) (run_connection_count r) (run_warning_message r) (run_error_code r)
    (run_error_message r).
#[export] Instance ScanBatch_eta : Eta ScanBatch := fun r =>
  mkScanBatch (batch_type r) (batch_status r) (batch_cluster_id r)
    (batch_source_import_batch_id r) (batch_total_tasks r) (batch_pending_tasks r)
    (batch_running_tasks r) (batch_success_tasks r) (batch_failed_tasks r)
    (batch_created_at r) (batch_finished_at r).
#[export] Instance ScanTask_eta : Eta ScanTask := fun r =>
  mkScanTask (task_device_id r) (task_trigger_type r) (task_priority r) (task_status r)
    (task_scan_run_id r) (task_error_message r) (task_created_at r) (task_started_at r)
    (task_finished_at r) (task_worker_id r) (task_lease_expires_at r) (task_heartbeat_at r)
    (task_attempt_count r).
#[export] Instance ScanBatchItem_eta : Eta ScanBatchItem := fun r =>
  mkScanBatchItem (item_batch_id r) (item_task_id r) (item_device_id r) (item_status r).
#[export] Instance ConnectionRecord_eta : Eta ConnectionRecord := fun r =>
  mkConnectionRecord (conn_scan_run_id r) (conn_protocol r) (conn_address_family r)
    (conn_local_ip r) (conn_local_port r) (conn_remote_ip r) (conn_remote_port r)
    (conn_state r) (conn_pid r) (conn_process_name r) (conn_remote_hostname r).
#[export] Instance ConnectionServiceObservation_eta : Eta ConnectionServiceObservation
    := fun r =>
  mkObservation (obs_scan_run_id r) (obs_device_id r) (obs_started_at r) (obs_protocol r)
    (obs_remote_ip r) (obs_remote_port r) (obs_process_name r)
    (obs_sample_connection_id r) (obs_remote_hostname r) (obs_local_ips r)
    (obs_local_ports r) (obs_pids r).
#[export] Instance ImportBatch_eta : Eta ImportBatch := fun r =>
  mkImportBatch (import_filename r) (import_status r) (import_total_rows r)
    (import_imported_rows r) (import_skipped_rows r) (import_error_rows r)
    (import_test_pending_rows r) (import_test_running_rows r)
    (import_test_success_rows r) (import_test_failed_rows r) (import_created_at r) (import_finished_at r)
    (import_fatal_error r) (import_scan_batch_id r).
#[export] Instance ImportRowResult_eta : Eta ImportRowResult := fun r =>
  mkImportRow (row_batch_id r) (row_row_number r) (row_device_name r) (row_host r)
    (row_device_id r) (row_import_status r) (row_import_message r) (row_test_status r)
    (row_test_message r) (row_test_worker_id r) (row_test_lease_expires_at r)
    (row_test_heartbeat_at r) (row_test_attempt_count r).

(** ** The database

    [next_id] holds the primary-key sequences: the next identifier a table
    hands out.  [system_setting] is the retention of the single row 1.
    [topology_notifications] counts the notifications sent on the topology
    channel: PostgreSQL delivers a NOTIFY when its transaction commits, so it
    belongs to the state a rollback discards. *)

Inductive TableName :=
  T_clusters | T_networks | T_devices | T_scan_runs | T_scan_batches | T_scan_tasks
| T_scan_batch_items | T_connection_records | T_observations | T_import_batches
| T_import_row_results.

#[export] Instance TableName_eq_dec : EqDecision TableName.
Proof. solve_decision. Defined.

Record Db := mkDb {
  next_id : TableName -> Z;
  clusters : gmap Z Cluster;
  cluster_internal_networks : gmap Z ClusterInternalNetwork;
  devices : gmap Z Device;
  scan_runs : gmap Z ScanRun;
  scan_batches : gmap Z ScanBatch;
  scan_tasks : gmap Z ScanTask;
  scan_batch_items : gmap Z ScanBatchItem;
  connection_records : gmap Z ConnectionRecord;
  observations : gmap Z ConnectionServiceObservation;
  system_setting : option Z;
  import_batches : gmap Z ImportBatch;
  import_row_results : gmap Z ImportRowResult;
  topology_notifications : Z
}.

#[export] Instance Db_eta : Eta Db := fun d =>
  mkDb (next_id d) (clusters d) (cluster_internal_networks d) (devices d) (scan_runs d)
    (scan_batches d) (scan_tasks d) (scan_batch_items d) (connection_records d)
    (observations d) (system_setting d) (import_batches d) (import_row_results d)
    (topology_notifications d).

(** Databases with the same tables are equal; a proof about updates goes table by table. *)
Lemma Db_ext (d d' : Db) :
  next_id d = next_id d' -> clusters d = clusters d' ->
  cluster_internal_networks d = cluster_internal_networks d' -> devices d = devices d' ->
  scan_runs d = scan_runs d' -> scan_batches d = scan_batches d' -> scan_tasks d = scan_tasks d' ->
  scan_batch_items d = scan_batch_items d' -> connection_records d = connection_records d' ->
  observations d = observations d' -> system_setting d = system_setting d' ->
  import_batches d = import_batches d' -> import_row_results d = import_row_results d' ->
  topology_notifications d = topology_notifications d' -> d = d'.
Proof. destruct d, d'. cbn. intros. by subst. Qed.

Definition empty_db : Db := mkDb (fun _ => 1) ∅ ∅ ∅ ∅ ∅ ∅ ∅ ∅ ∅ None ∅ ∅ 0.

(** Taking the next identifier of a table's sequence. *)
Definition take_id (T : TableName) (d : Db) : Z * Db :=
  (next_id d T,
   d <| next_id := fun T' => if decide (T' = T) then next_id d T + 1 else next_id d T' |>).

Lemma take_id_next T d :
  next_id (take_id T d).2 T = next_id d T + 1.
Proof. cbn. by rewrite decide_True. Qed.

Lemma take_id_next_ne T T' d : T' ≠ T -> next_id (take_id T d).2 T' = next_id d T'.
Proof. intros ?. cbn. by rewrite decide_False. Qed.

(** Every key of a table is below its sequence, so a taken identifier is new. *)
Definition ids_below {A} (m : gmap Z A) (n : Z) : Prop := map_Forall (fun i _ => i < n) m.

Lemma ids_below_fresh {A} (m : gmap Z A) n : ids_below m n -> m !! n = None.
Proof.
  intros H. destruct (m !! n) as [x|] eqn:E; [|done]. specialize (H n x E). cbn in H. lia.
Qed.

Lemma ids_below_insert {A} (m : gmap Z A) n x :
  ids_below m n -> ids_below (<[n := x]> m) (n + 1).
Proof.
  intros H. apply map_Forall_insert_2; [lia|].
  eapply map_Forall_impl; [exact H|]. cbn. intros. lia.
Qed.

#[export] Hint Resolve ids_below_fresh ids_below_insert : atlas.

(** [notify_topology_changed(session)] (src/app/services/postgres_notifications.py) *)
Definition notify_topology_changed (d : Db) : Db :=
  d <| topology_notifications := topology_notifications d + 1 |>.
