(* ===== verification/Exceptions.v ===== *)
(** * Exceptions

    The exceptions the modelled code raises and handles, by class.  A message is
    kept where a caller reads it. *)

From S2P Require Import Prelude PyText.

Inductive exn :=
| ValueError (message : text)
| LookupError (message : text)
| AssertionError
| TaskLeaseLost (task_id : Z)
| ImportTestLeaseLost (row_id : Z)
| ScanQueueFull
| DeviceCollectionDisabled
| ScanAlreadyRunning
| DeviceNotFound (device_id : Z)
| CollectionDisabled
| ClusterNotFound
| ClusterConflict
| ImportValidationError (message : text)
| CollectorError (code message : text)
| CredentialError (message : text)
| IntegrityError
| TransactionConflict
| DatabaseUnavailable
| NestedTransactionError
| OtherError (message : text).

#[export] Instance exn_eq_dec : EqDecision exn.
Proof. solve_decision. Defined.

(** [str(exc)]: the message a handler or a client reads.  The text of an
    [IntegrityError] comes from the driver and is never read. *)
Definition exn_message (e : exn) : text :=
  match e with
  | ValueError m | LookupError m | ImportValidationError m | CollectorError _ m
  | CredentialError m | OtherError m => m
  | AssertionError | IntegrityError => []
  | TaskLeaseLost i => u "scan task lease lost: " ++ str_of_Z i
  | ImportTestLeaseLost i => u "import test lease lost: " ++ str_of_Z i
  | ScanQueueFull => u "扫描队列已满，请稍后重试"
  | DeviceCollectionDisabled | CollectionDisabled => u "该设备仅用于集群标注，未配置采集凭据"
  | ScanAlreadyRunning => u "该设备已有采集任务正在运行"
  | DeviceNotFound i => u "设备 " ++ str_of_Z i ++ u " 不存在"
  | ClusterNotFound => u "所选集群不存在"
  | ClusterConflict => u "同名集群已存在"
  | TransactionConflict => u "数据库事务冲突，请重试"
  | DatabaseUnavailable => u "数据库暂时不可用，请稍后重试"
  | NestedTransactionError =>
      u "Cannot start an independent database session inside transaction guard"
  end.

(** ** Transactions

    One session operation: the value it returns with the database it leaves, or
    the exception that rolls it back. *)

From S2P Require Import Models.

Definition Tx (A : Type) := Db -> result exn (A * Db).

Definition tx_ret {A} (a : A) : Tx A := fun d => Ok (a, d).
Definition tx_bind {A B} (m : Tx A) (k : A -> Tx B) : Tx B := fun d =>
  match m d with Ok (a, d') => k a d' | Raise e => Raise e end.
Definition tx_raise {A} (e : exn) : Tx A := fun _ => Raise e.
Definition tx_get {A} (f : Db -> A) : Tx A := fun d => Ok (f d, d).
Definition tx_modify (f : Db -> Db) : Tx () := fun d => Ok ((), f d).

(** [with session: result = operation(session); session.commit()] *)
Definition commit {A} (m : Tx A) (d : Db) : result exn A * Db :=
  match m d with Ok (a, d') => (Ok a, d') | Raise e => (Raise e, d) end.

Notation "'let*' x := m 'in' k" := (tx_bind m (fun x => k))
  (at level 10, x name, m at level 100, k at level 200) : atlas_scope.
Notation "'do*' m 'then' k" := (tx_bind m (fun _ => k))
  (at level 10, m at level 100, k at level 200) : atlas_scope.

Lemma tx_bind_Ok {A B} (m : Tx A) (k : A -> Tx B) d r :
  tx_bind m k d = Ok r <-> exists a d', m d = Ok (a, d') /\ k a d' = Ok r.
Proof. unfold tx_bind. destruct (m d) as [[a d']|e]; naive_solver. Qed.

Lemma commit_Raise {A} (m : Tx A) d e d' : commit m d = (Raise e, d') -> d' = d.
Proof. unfold commit. destruct (m d) as [[a d'']|e']; naive_solver. Qed.
