(* ===== verification/Security.v ===== *)
(** * Messages without credentials (src/app/security.py)

    The error messages a request may read, and the filter every log handler has.
    Encryption is Fernet and a parameter of its users ([decrypt], [encrypt]). *)

From S2P Require Import Prelude PyText.

Definition REDACTED : text := u "[REDACTED]".

Definition redact (cleaned secret : text) : text :=
  if decide (secret = []) then cleaned else replace secret REDACTED cleaned.

Definition safe_error_message (message : text) (secrets : list text) : text :=
  take 500 (foldl redact message secrets).

(** ** Redaction *)

Lemma startswith_app (p s : text) : startswith p (p ++ s) = true.
Proof.
  unfold startswith. enough (strip_prefix p (p ++ s) = Some s) as -> by done.
  induction p as [|c p IH]; cbn; [done|]. by rewrite N.eqb_refl.
Qed.

Lemma startswith_cons a p c s :
  startswith (a :: p) (c :: s) = true <-> a = c /\ startswith p s = true.
Proof.
  unfold startswith. cbn. destruct (N.eqb_spec a c); naive_solver.
Qed.

Lemma startswith_nil_r a p : startswith (a :: p) [] = false.
Proof. done. Qed.

(** Nothing that avoids the first character of the replacement can reach into it. *)
Lemma startswith_replaced (old new p : text) k s n :
  new = n :: k -> n ∉ p ->
  startswith p (replace_from old new 0 s) = true -> startswith p s = true.
Proof.
  intros ->. revert s. induction p as [|a p IH]; intros s Hn; [done|].
  destruct s as [|c s]; [done|]. cbn [replace_from].
  destruct (startswith old (c :: s)).
  - cbn [app]. rewrite startswith_cons. intros [-> _]. set_solver.
  - rewrite !startswith_cons. intros [-> Hs]. split; [done|]. apply IH; [set_solver|done].
Qed.

Lemma contains_app_l (a : N) p new s :
  a ∉ new -> contains (a :: p) (new ++ s) = true -> contains (a :: p) s = true.
Proof.
  induction new as [|c new IH]; intros Ha; [done|]. cbn [app contains].
  rewrite orb_true_iff, startswith_cons. intros [[-> _]|Hc]; [set_solver|].
  apply IH; [set_solver|done].
Qed.

Lemma replace_from_skip old new k s :
  replace_from old new k s = replace_from old new 0 (drop k s).
Proof.
  revert s. induction k as [|k IH]; intros s; [by rewrite drop_0|].
  destruct s as [|c s]; [done|]. cbn. apply IH.
Qed.

Lemma contains_replaced (a : N) p n k s :
  a ∉ n :: k -> n ∉ a :: p ->
  contains (a :: p) (replace_from (a :: p) (n :: k) 0 s) = false.
Proof.
  intros Ha Hn. apply not_true_iff_false.
  induction s as [s IH] using (induction_ltof1 _ (@length N)); unfold ltof in IH.
  destruct s as [|c s]; [done|]. cbn [replace_from].
  destruct (startswith (a :: p) (c :: s)) eqn:E.
  - intros Hc. apply contains_app_l in Hc; [|done]. rewrite replace_from_skip in Hc.
    revert Hc. apply IH. rewrite length_drop. cbn. lia.
  - cbn [contains]. rewrite orb_true_iff. intros [Hs|Hc].
    + apply startswith_cons in Hs as [-> Hs].
      apply (startswith_replaced _ _ _ k _ n) in Hs; [|done|set_solver].
      rewrite <- not_true_iff_false, startswith_cons in E. by apply E.
    + revert Hc. apply IH. cbn. lia.
Qed.

Lemma startswith_take p n s : startswith p (take n s) = true -> startswith p s = true.
Proof.
  revert n s. induction p as [|a p IH]; intros n s; [done|].
  destruct n, s; cbn [take]; try done. rewrite !startswith_cons. intros [-> ?]. eauto.
Qed.

Lemma contains_take p n s : p ≠ [] -> contains p (take n s) = true -> contains p s = true.
Proof.
  intros Hp. revert n. induction s as [|c s IH]; intros n; [by rewrite take_nil|].
  destruct n; cbn [take].
  - cbn. destruct p; [done|]. done.
  - cbn [contains]. rewrite !orb_true_iff. intros [Hs|Hc]; [left|right; eauto].
    by apply (startswith_take p (S n) (c :: s)).
Qed.

(** A secret the redaction hides: non-empty, not starting with a character of
    "[REDACTED]", and without an opening bracket. *)
Definition hidden_secret (secret : text) : bool :=
  match secret with
  | [] => false
  | a :: _ => bool_decide (a ∉ REDACTED) && bool_decide (91%N ∉ secret)
  end.

Lemma safe_error_message_hides message secret :
  hidden_secret secret = true -> contains secret (safe_error_message message [secret]) = false.
Proof.
  unfold hidden_secret, safe_error_message. destruct secret as [|a p]; [done|].
  intros [Ha%bool_decide_eq_true Hn%bool_decide_eq_true]%andb_true_iff.
  apply not_true_iff_false. intros Hc. apply contains_take in Hc; [|done].
  cbn [foldl] in Hc. unfold redact in Hc. rewrite decide_False in Hc by done.
  unfold replace in Hc. change REDACTED with (91%N :: drop 1 REDACTED) in *.
  by rewrite contains_replaced in Hc.
Qed.

Lemma safe_error_message_length message secrets : (length (safe_error_message message secrets) <= 500)%nat.
Proof. unfold safe_error_message. rewrite length_take. lia. Qed.

(** ** The logging filter

    [SecretRedactingFilter] replaces what follows a keyword and an equals sign or a colon,
    up to a space, a comma or a semicolon. *)

(** A literal of a pattern under [(?i)]: besides its own two cases, "s" matches the long
    s, and "i" the dotted and the dotless one. *)
Definition same_letter (l c : N) : bool :=
  (ascii_lower_char c =? l)%N ||
  ((l =? 115)%N && (c =? 383)%N) || ((l =? 105)%N && ((c =? 304)%N || (c =? 305)%N)).

Fixpoint match_word (word s : text) : option (text * text) :=
  match word, s with
  | [], _ => Some ([], s)
  | l :: word, c :: s =>
      if same_letter l c then '(m, rest) ← match_word word s; Some (c :: m, rest) else None
  | _ :: _, [] => None
  end.

Fixpoint first_word (words : list text) (s : text) : option (text * text) :=
  match words with
  | [] => None
  | word :: words => match match_word word s with Some r => Some r | None => first_word words s end
  end.

Fixpoint span (P : N -> bool) (s : text) : text * text :=
  match s with
  | [] => ([], [])
  | c :: rest => if P c then let '(a, b) := span P rest in (c :: a, b) else ([], s)
  end.

(** Anything but a space, a comma or a semicolon. *)
Definition value_char (c : N) : bool := negb (is_space c) && negb (c =? 44)%N && negb (c =? 59)%N.

Definition separator (c : N) : bool := (c =? 61)%N || (c =? 58)%N.

(** A pattern at the start of a text: one of the words and a separator between optional
    spaces (its first two groups), the value (the third, of one character at least), and
    the rest.  No group can give characters back, so there is no backtracking. *)
Definition match_secret (words : list text) (s : text) : option (text * text * text) :=
  '(word, s1) ← first_word words s;
  let '(before, s2) := span is_space s1 in
  match s2 with
  | c :: s3 =>
      if separator c then
        let '(after, s4) := span is_space s3 in
        let '(value, rest) := span value_char s4 in
        match value with
        | [] => None
        | _ => Some (word ++ before ++ c :: after, value, rest)
        end
      else None
  | [] => None
  end.

(** [pattern.sub]: the value becomes [REDACTED]; the fuel is the length of the text. *)
Fixpoint sub_secrets (fuel : nat) (words : list text) (s : text) : text :=
  match fuel, s with
  | S fuel, c :: s' =>
      match match_secret words s with
      | Some (kept, _, rest) => kept ++ REDACTED ++ sub_secrets fuel words rest
      | None => c :: sub_secrets fuel words s'
      end
  | _, _ => s
  end.

Definition secret_words : list text := [u "password"; u "passwd"; u "authorization"].

Definition redact_log (message : text) : text :=
  let message := sub_secrets (length message) secret_words message in
  sub_secrets (length message) [u "encrypted_password"] message.

(** *** What is left of a secret *)

Lemma span_spec P s : s = (span P s).1 ++ (span P s).2 /\ Forall (fun c => P c = true) (span P s).1 /\
  match (span P s).2 with c :: _ => P c = false | [] => True end.
Proof.
  induction s as [|c s IH]; cbn; [by repeat constructor|]. destruct (P c) eqn:E; [|by split_and!].
  destruct (span P s) as [a b]. cbn in *. destruct IH as (-> & Ha & Hb). split_and!; [done|by constructor|done].
Qed.

Lemma span_app P a b :
  Forall (fun c => P c = true) a -> match b with c :: _ => P c = false | [] => True end -> span P (a ++ b) = (a, b).
Proof.
  intros Hf Hb. induction Hf as [|y a Hy _ IH]; cbn; [destruct b as [|y b]; cbn; [done|by rewrite Hb]|]. by rewrite Hy, IH.
Qed.

(** [t] with some of its values replaced: what stands before a replaced value is a copy. *)
Inductive replaced : text -> text -> Prop :=
| replaced_nil : replaced [] []
| replaced_copy c t t' : replaced t t' -> replaced (c :: t) (c :: t')
| replaced_value v w t t' : value_char v = true -> replaced t t' -> replaced (v :: w ++ t) (REDACTED ++ t').

Lemma match_word_app word s m rest : match_word word s = Some (m, rest) -> s = m ++ rest.
Proof.
  revert s m rest. induction word as [|l word IH]; intros s m rest; cbn; [by intros [= <- <-]|].
  destruct s as [|c s]; [done|]. destruct (same_letter l c); [|done].
  destruct (match_word word s) as [[m' r']|] eqn:E; [|done]. cbn. intros [= <- <-]. cbn. f_equal. by apply IH.
Qed.

Definition lower_letters (word : text) : Prop := Forall (fun l => (97 <= l <= 122)%N \/ l = 95%N) word.

Lemma same_letter_bracket l : (97 <= l <= 122)%N \/ l = 95%N -> same_letter l 91 = false /\ same_letter l 93 = false.
Proof.
  intros Hl. unfold same_letter. change (ascii_lower_char 91) with 91%N. change (ascii_lower_char 93) with 93%N.
  destruct (N.eqb_spec 91 l), (N.eqb_spec 93 l); try lia. by destruct (l =? 115)%N, (l =? 105)%N.
Qed.

(** A keyword does not reach into a replacement. *)
Lemma match_word_replaced word t t' m rest' :
  lower_letters word -> replaced t t' -> match_word word t' = Some (m, rest') ->
  exists rest, match_word word t = Some (m, rest) /\ replaced rest rest'.
Proof.
  intros Hw. revert t t' m. induction Hw as [|l word Hl Hw IH]; intros t t' m Hr; cbn; [intros [= <- <-]; eauto|].
  destruct Hr as [|c t t' Hr|v w t t' Hv Hr]; [done| |].
  - destruct (same_letter l c); [|done]. destruct (match_word word t') as [[m' r']|] eqn:E; [|done]. cbn. intros [= <- <-].
    destruct (IH t t' m' Hr E) as (rest & -> & Hrest). cbn. eauto.
  - change REDACTED with (91%N :: drop 1 REDACTED). cbn [app]. by rewrite (proj1 (same_letter_bracket l Hl)).
Qed.

Lemma span_replaced P t t' :
  P 91%N = false -> replaced t t' ->
  exists rest, t = (span P t').1 ++ rest /\ replaced rest (span P t').2 /\ Forall (fun c => P c = true) (span P t').1.
Proof.
  intros Hp. induction 1 as [|c t t' Hr IH|v w t t' Hv Hr _]; cbn [span].
  - exists []. by repeat constructor.
  - destruct IH as (rest & Ht & Hrest & Hall). destruct (P c) eqn:E; [|exists (c :: t); split_and!; [done|by constructor|constructor]].
    destruct (span P t') as [a b]. cbn in *. exists rest. split_and!; [by f_equal|done|by constructor].
  - change REDACTED with (91%N :: drop 1 REDACTED). cbn [app span]. rewrite Hp. exists (v :: w ++ t). split_and!; [done| |constructor].
    cbn [snd]. change (91%N :: drop 1 REDACTED ++ t') with (REDACTED ++ t'). by constructor.
Qed.

Lemma same_letter_inj l l' c :
  (97 <= l <= 122)%N \/ l = 95%N -> (97 <= l' <= 122)%N \/ l' = 95%N -> same_letter l c = true -> same_letter l' c = true -> l = l'.
Proof.
  intros Hl Hl'. unfold same_letter. rewrite !orb_true_iff, !andb_true_iff, !orb_true_iff, !N.eqb_eq.
  assert (Hc : forall x, (97 <= x <= 122)%N \/ x = 95%N -> ascii_lower_char 383 <> x /\ ascii_lower_char 304 <> x /\ ascii_lower_char 305 <> x)
    by (intros x Hx; change (ascii_lower_char 383) with 383%N; change (ascii_lower_char 304) with 304%N;
        change (ascii_lower_char 305) with 305%N; lia).
  destruct (Hc l Hl) as (A1 & A2 & A3), (Hc l' Hl') as (B1 & B2 & B3).
  intros [[H|[E1 E2]]|[E1 [E2|E2]]] [[H'|[E1' E2']]|[E1' [E2'|E2']]]; congruence.
Qed.

Lemma match_both w1 w2 s r1 r2 :
  lower_letters w1 -> lower_letters w2 -> match_word w1 s = Some r1 -> match_word w2 s = Some r2 ->
  w1 `prefix_of` w2 \/ w2 `prefix_of` w1.
Proof.
  intros H1. revert w2 s r1 r2. induction H1 as [|l1 w1 Hl1 _ IH]; intros w2 s r1 r2 H2 E1 E2; [left; apply prefix_nil|].
  destruct H2 as [|l2 w2 Hl2 H2]; [right; apply prefix_nil|]. destruct s as [|c s]; [done|]. cbn in E1, E2.
  destruct (same_letter l1 c) eqn:S1; [|done]. destruct (same_letter l2 c) eqn:S2; [|done].
  rewrite (same_letter_inj l1 l2 c Hl1 Hl2 S1 S2) in *.
  destruct (match_word w1 s) as [q1|] eqn:M1; [|done]. destruct (match_word w2 s) as [q2|] eqn:M2; [|done].
  destruct (IH w2 s q1 q2 H2 M1 M2); [left|right]; by apply prefix_cons.
Qed.

(** Words of lower letters, none of which begins another. *)
Record keywords (W : list text) : Prop := {
  keyword_letters : Forall lower_letters W;
  keyword_exclusive w1 w2 : w1 ∈ W -> w2 ∈ W -> w1 `prefix_of` w2 -> w1 = w2
}.

Lemma first_word_Some W s r : first_word W s = Some r -> exists w, w ∈ W /\ match_word w s = Some r.
Proof.
  induction W as [|w W IH]; cbn; [done|]. destruct (match_word w s) eqn:E; [intros [= <-]; exists w; set_solver|].
  intros Hr. destruct (IH Hr) as (w' & ? & ?). exists w'. set_solver.
Qed.

Lemma first_word_in W w s r : keywords W -> w ∈ W -> match_word w s = Some r -> first_word W s = Some r.
Proof.
  intros [HL HX] Hw E. destruct (first_word W s) as [r'|] eqn:F.
  - apply first_word_Some in F as (w' & Hw' & E'). rewrite Forall_forall in HL.
    destruct (match_both w w' s r r' (HL w Hw) (HL w' Hw') E E') as [Hp|Hp];
      [rewrite (HX w w' Hw Hw' Hp) in E|rewrite (HX w' w Hw' Hw Hp) in E']; congruence.
  - clear HL HX. induction W as [|w' W IH]; [by apply not_elem_of_nil in Hw|]. cbn in F.
    destruct (match_word w' s) eqn:E'; [done|]. apply elem_of_cons in Hw as [->|Hw]; [congruence|by apply IH].
Qed.

(** A pattern that matched, taken apart. *)
Lemma match_secret_Some W s k v r :
  match_secret W s = Some (k, v, r) ->
  exists word s1 before c s3 after, first_word W s = Some (word, s1) /\ span is_space s1 = (before, c :: s3) /\ separator c = true /\
    span is_space s3 = (after, v ++ r) /\ span value_char (v ++ r) = (v, r) /\ v <> [] /\ k = word ++ before ++ c :: after.
Proof.
  unfold match_secret. destruct (first_word W s) as [[word s1]|]; [|done]. cbn.
  destruct (span is_space s1) as [before [|c s3]] eqn:E1; [done|]. destruct (separator c) eqn:Ec; [|done].
  destruct (span is_space s3) as [after s4] eqn:E3. destruct (span value_char s4) as [value rest] eqn:E4.
  destruct value as [|x value]; [done|]. intros [= <- <- <-].
  pose proof (span_spec value_char s4) as (Hs & _). rewrite E4 in Hs. cbn [fst snd] in Hs. subst s4.
  exists word, s1, before, c, s3, after. by split_and!.
Qed.

Lemma match_secret_app W s k v r : match_secret W s = Some (k, v, r) -> s = k ++ v ++ r.
Proof.
  intros (word & s1 & before & c & s3 & after & Hw & Hb & _ & Ha & _ & _ & ->)%match_secret_Some.
  apply first_word_Some in Hw as (w & _ & Hw). apply match_word_app in Hw as ->.
  pose proof (span_spec is_space s1) as (H1 & _). rewrite Hb in H1. cbn [fst snd] in H1.
  pose proof (span_spec is_space s3) as (H3 & _). rewrite Ha in H3. cbn [fst snd] in H3.
  rewrite H1, H3. by rewrite <- !app_assoc.
Qed.

Lemma span_value_bracket : value_char 91 = true.
Proof. reflexivity. Qed.

(** Where the replaced text matches, the text it comes from did. *)
Lemma match_secret_replaced W t t' :
  keywords W -> replaced t t' -> match_secret W t = None -> match_secret W t' = None.
Proof.
  intros HW Hr Hn. destruct (match_secret W t') as [[[k v] r]|] eqn:E; [exfalso|done].
  apply match_secret_Some in E as (word & s1 & before & c & s3 & after & Hw & Hb & Hc & Ha & Hv & Hne & _).
  apply first_word_Some in Hw as (w & Hin & Hw). pose proof (keyword_letters W HW) as HL. rewrite Forall_forall in HL.
  destruct (match_word_replaced w t t' word s1 (HL w Hin) Hr Hw) as (t1 & Hw1 & Hr1).
  destruct (span_replaced is_space t1 s1 eq_refl Hr1) as (t2 & Ht1 & Hr2 & Hall). rewrite Hb in Ht1, Hr2, Hall. cbn [fst snd] in *.
  assert (Hcopy : exists t3, t2 = c :: t3 /\ replaced t3 s3).
  { inversion Hr2 as [|c0 t3 t3' Hr3|x w' t3 t3' Hx Hr3 E]; subst; [eauto|discriminate Hc]. }
  destruct Hcopy as (t3 & -> & Hr3). subst t1.
  destruct (span_replaced is_space t3 s3 eq_refl Hr3) as (t4 & Ht3 & Hr4 & Hall3). rewrite Ha in Ht3, Hr4, Hall3. cbn [fst snd] in *.
  assert (Hval : exists x t5, t4 = x :: t5 /\ value_char x = true).
  { destruct v as [|y v]; [done|]. pose proof (span_spec value_char ((y :: v) ++ r)) as (_ & Hvs & _). rewrite Hv in Hvs.
    apply Forall_cons in Hvs as [Hy _]. inversion Hr4; subst; eauto. }
  destruct Hval as (x & t5 & -> & Hx). subst t3.
  unfold match_secret in Hn. rewrite (first_word_in W w t _ HW Hin Hw1) in Hn. cbn in Hn.
  rewrite span_app in Hn; [|done|]. 2:{ unfold separator in Hc. destruct (N.eqb_spec c 61) as [->|]; [done|]. by destruct (N.eqb_spec c 58) as [->|]. }
  rewrite Hc in Hn. rewrite span_app in Hn; [|done|]. 2:{ unfold value_char in Hx. by destruct (is_space x). }
  cbn [span] in Hn. rewrite Hx in Hn. by destruct (span value_char t5).
Qed.

Lemma sub_replaced fuel W s : (length s <= fuel)%nat -> replaced s (sub_secrets fuel W s).
Proof.
  revert s. induction fuel as [|fuel IH]; intros s Hf; [destruct s; [constructor|cbn in Hf; lia]|].
  destruct s as [|c s]; [constructor|]. cbn [sub_secrets]. destruct (match_secret W (c :: s)) as [[[k v] r]|] eqn:E.
  - pose proof (match_secret_app W _ k v r E) as Es.
    apply match_secret_Some in E as (word & s1 & before & x & s3 & after & _ & _ & _ & _ & Hv & Hne & Hk).
    destruct v as [|y v]; [done|]. pose proof (span_spec value_char ((y :: v) ++ r)) as (_ & Hall & _). rewrite Hv in Hall. cbn in Hall.
    apply Forall_cons in Hall as [Hy _].
    assert (Hr : replaced r (sub_secrets fuel W r)).
    { apply IH. assert (Hl : length (c :: s) = length (k ++ (y :: v) ++ r)) by (by rewrite Es).
      rewrite !length_app in Hl. cbn in Hl, Hf. lia. }
    rewrite Es. clear - Hr Hy. induction k as [|a k IHk]; cbn [app]; [by apply replaced_value|by constructor].
  - constructor. apply IH. cbn in Hf. lia.
Qed.

Lemma replaced_head t t' : replaced t t' -> match t with c :: _ => value_char c = false | [] => True end ->
  match t' with c :: _ => value_char c = false | [] => True end.
Proof. intros [] Hh; [done|done|congruence]. Qed.

Lemma span_redacted t : match t with c :: _ => value_char c = false | [] => True end -> span value_char (REDACTED ++ t) = (REDACTED, t).
Proof. apply span_app. repeat constructor. Qed.

(** The separator of a matched text is the only one. *)
Lemma only_separator (a1 a2 b1 b2 : text) c1 c2 :
  a1 ++ c1 :: b1 = a2 ++ c2 :: b2 -> separator c1 = true ->
  Forall (fun c => separator c = false) a2 -> Forall (fun c => separator c = false) b2 -> b1 = b2.
Proof.
  intros E H1 Ha Hb. revert a1 E. induction Ha as [|x a2 Hx _ IH]; intros a1 E.
  - destruct a1 as [|y a1]; cbn in E; [by injection E|]. injection E as _ E. rewrite <- E in Hb.
    apply Forall_app in Hb as [_ Hb]. apply Forall_cons in Hb as [Hb _]. congruence.
  - destruct a1 as [|y a1]; cbn in E; [injection E as -> _; congruence|]. injection E as _ E. by apply (IH a1).
Qed.

Lemma match_word_letters word s m r : lower_letters word -> match_word word s = Some (m, r) -> Forall (fun c => separator c = false /\ c <> 91%N) m.
Proof.
  intros Hw. revert s m r. induction Hw as [|l word Hl _ IH]; intros s m r; cbn; [intros [= <- _]; constructor|].
  destruct s as [|c s]; [done|]. destruct (same_letter l c) eqn:E; [|done]. destruct (match_word word s) as [[m' r']|] eqn:Em; [|done].
  cbn. intros [= <- <-]. constructor; [|by apply (IH s m' r')].
  assert (Hc : c <> 61%N /\ c <> 58%N /\ c <> 91%N).
  { unfold same_letter in E. split_and!; intros ->; revert E; rewrite !orb_true_iff, !andb_true_iff, !orb_true_iff, !N.eqb_eq;
      change (ascii_lower_char 61) with 61%N; change (ascii_lower_char 58) with 58%N; change (ascii_lower_char 91) with 91%N; lia. }
  destruct Hc as (H1 & H2 & H3). split; [|done]. unfold separator. apply N.eqb_neq in H1, H2. by rewrite H1, H2.
Qed.

Lemma space_no_separator c : is_space c = true -> separator c = false /\ c <> 91%N.
Proof.
  intros Hc. unfold separator. destruct (N.eqb_spec c 61) as [->|]; [done|]. destruct (N.eqb_spec c 58) as [->|]; [done|].
  split; [done|]. by intros ->.
Qed.

(** The first two groups: no separator but one, spaces after it, no bracket. *)
Lemma match_secret_kept W s k v r :
  keywords W -> match_secret W s = Some (k, v, r) ->
  exists a c b, k = a ++ c :: b /\ separator c = true /\ Forall (fun c => separator c = false /\ c <> 91%N) a /\
    Forall (fun c => is_space c = true) b /\ span value_char (v ++ r) = (v, r) /\ v <> [].
Proof.
  intros HW (word & s1 & before & c & s3 & after & Hw & Hb & Hc & Ha & Hv & Hne & ->)%match_secret_Some.
  apply first_word_Some in Hw as (w & Hin & Hw). pose proof (keyword_letters W HW) as HL. rewrite Forall_forall in HL.
  exists (word ++ before), c, after. split_and!; [by rewrite <- app_assoc|done| | |done|done].
  - apply Forall_app. split; [by apply (match_word_letters w s _ s1 (HL w Hin) Hw)|].
    pose proof (span_spec is_space s1) as (_ & Hall & _). rewrite Hb in Hall. eapply Forall_impl; [exact Hall|]. apply space_no_separator.
  - pose proof (span_spec is_space s3) as (_ & Hall & _). by rewrite Ha in Hall.
Qed.

Lemma before_bracket (k k' t t' : text) : k ++ t = k' ++ 91%N :: t' -> 91%N ∉ k -> exists w, k' = k ++ w.
Proof.
  revert k'. induction k as [|x k IH]; intros k' E Hk; [by exists k'|]. apply not_elem_of_cons in Hk as [Hx Hk].
  destruct k' as [|y k']; cbn in E; injection E as -> E; [by destruct Hx|]. destruct (IH k' E Hk) as [w ->]. by exists w.
Qed.

(** A match that starts in the first two groups of a replacement finds the replacement. *)
Lemma match_in_kept W p k s v0 r0 t k' v r :
  keywords W -> match_secret W s = Some (p ++ k, v0, r0) ->
  match t with c :: _ => value_char c = false | [] => True end ->
  match_secret W (k ++ REDACTED ++ t) = Some (k', v, r) -> v = REDACTED.
Proof.
  intros HW H0 Ht H1. pose proof (match_secret_app W _ k' v r H1) as E.
  apply (match_secret_kept W _ _ _ _ HW) in H0 as (a & c & b & Ek & Hc & Ha & Hb & _).
  apply (match_secret_kept W _ _ _ _ HW) in H1 as (a' & c' & b' & -> & Hc' & Ha' & Hb' & Hv & Hne).
  destruct (before_bracket (a' ++ c' :: b') k (v ++ r) (drop 1 REDACTED ++ t)) as [w ->].
  { rewrite <- E. reflexivity. }
  { rewrite elem_of_app, elem_of_cons. intros [Hin|[<-|Hin]].
    - rewrite Forall_forall in Ha'. by destruct (Ha' _ Hin).
    - discriminate Hc'.
    - rewrite Forall_forall in Hb'. by destruct (space_no_separator _ (Hb' _ Hin)). }
  rewrite <- !app_assoc in E. apply app_inv_head in E. cbn [app] in E. apply (f_equal (drop 1)) in E. cbn [drop] in E. apply app_inv_head in E.
  assert (Hw : b' ++ w = b).
  { apply (only_separator (p ++ a') a (b' ++ w) b c' c); [rewrite <- Ek, <- !app_assoc; done|done| |].
    - eapply Forall_impl; [exact Ha|]. by intros ? [? _].
    - eapply Forall_impl; [exact Hb|]. by intros ? [? _]%space_no_separator. }
  destruct w as [|x w].
  - rewrite app_nil_l in E. rewrite <- E, span_redacted in Hv by done. by injection Hv.
  - exfalso. rewrite <- Hw in Hb. apply Forall_app in Hb as [_ Hb]. apply Forall_cons in Hb as [Hx _].
    destruct v as [|y v]; [done|]. cbn [app] in E. pose proof (f_equal head E) as Exy. cbn [head] in Exy. injection Exy as <-.
    pose proof (span_spec value_char ((x :: v) ++ r)) as (_ & Hall & _). rewrite Hv in Hall. apply Forall_cons in Hall as [Hy _].
    unfold value_char in Hy. by rewrite Hx in Hy.
Qed.

(** No keyword starts inside a replacement. *)
Lemma match_in_redacted t x p q : REDACTED = x :: p ++ q -> q <> [] -> match_secret secret_words (q ++ t) = None.
Proof.
  intros E Hq. assert (Hl : 10%nat = S (length p + length q)) by (rewrite <- length_app; exact (f_equal length E)).
  assert (Hs : q = drop (10 - length q) REDACTED).
  { rewrite E. replace (10 - length q)%nat with (S (length p)) by lia. cbn [drop]. by rewrite drop_app_length. }
  assert (Hlen : (length q <= 9)%nat) by lia.
  clear E Hl. rewrite Hs. destruct q as [|c q]; [done|]. clear Hs Hq. cbn [length] in *. set (n := length q) in *. clearbody n.
  do 9 (destruct n as [|n]; [vm_compute; reflexivity|]). lia.
Qed.

Lemma secret_words_keywords : keywords secret_words.
Proof.
  constructor.
  - unfold secret_words, lower_letters. repeat constructor; vm_compute; intuition discriminate.
  - intros w1 w2 H1 H2 [s ->]. unfold secret_words in *. rewrite !elem_of_cons in H1, H2.
    destruct H1 as [->|[->|[->|H1%not_elem_of_nil]]]; [..|done];
      (destruct H2 as [H2|[H2|[H2|H2%not_elem_of_nil]]]; [..|done]); try discriminate H2;
      rewrite <- (app_nil_r (u _)) in H2 at 2; apply app_inv_head in H2 as ->; by rewrite app_nil_r.
Qed.

(** Every match of the pattern in the result has its value replaced. *)
Definition all_redacted (words : list text) (s : text) : Prop :=
  forall p q k v r, s = p ++ q -> match_secret words q = Some (k, v, r) -> v = REDACTED.

Lemma sub_all_redacted fuel s : (length s <= fuel)%nat -> all_redacted secret_words (sub_secrets fuel secret_words s).
Proof.
  pose proof secret_words_keywords as HW.
  revert s. induction fuel as [|fuel IH]; intros s Hf; [destruct s; [|cbn in Hf; lia]|destruct s as [|c s]].
  1-2: intros p q k v r E%eq_sym%app_nil Hm; destruct E as [_ ->]; discriminate Hm.
  cbn [sub_secrets]. destruct (match_secret secret_words (c :: s)) as [[[k0 v0] r0]|] eqn:E0.
  - pose proof (match_secret_app _ _ k0 v0 r0 E0) as Es.
    destruct (match_secret_kept _ _ k0 v0 r0 HW E0) as (_ & _ & _ & _ & _ & _ & _ & Hv0 & Hne0).
    assert (Hr0 : (length r0 <= fuel)%nat).
    { apply (f_equal length) in Es. rewrite !length_app in Es. destruct v0; [done|]. cbn in Es, Hf. lia. }
    pose proof (span_spec value_char (v0 ++ r0)) as (_ & _ & Hhead). rewrite Hv0 in Hhead. cbn [snd] in Hhead.
    set (t := sub_secrets fuel secret_words r0). pose proof (replaced_head r0 t (sub_replaced fuel _ r0 Hr0) Hhead) as Ht.
    intros p q k v r E Hm. apply app_eq_inv in E as [(w & -> & Eq)|(w & -> & Eq)].
    + rewrite Eq in Hm. by apply (match_in_kept secret_words p w (c :: s) v0 r0 t k v r HW E0 Ht).
    + apply app_eq_inv in Eq as [(w' & ER & ->)|(w' & -> & Eq')].
      * destruct w as [|x w]; cbn [app] in ER; [|].
        -- subst w'. apply (match_in_kept secret_words k0 [] (c :: s) v0 r0 t k v r); [done|by rewrite app_nil_r|done|exact Hm].
        -- destruct w' as [|y w']; [by apply (IH r0 Hr0 [] t k v r eq_refl)|]. exfalso.
           by rewrite (match_in_redacted t x w (y :: w') ER) in Hm.
      * by apply (IH r0 Hr0 w' q k v r Eq').
  - intros p q k v r E Hm. destruct p as [|y p]; cbn in E.
    + subst q. exfalso. assert (Hr : replaced (c :: s) (c :: sub_secrets fuel secret_words s)).
      { constructor. apply sub_replaced. cbn in Hf. lia. }
      by rewrite (match_secret_replaced _ _ _ HW Hr E0) in Hm.
    + injection E as -> E. apply (IH s ltac:(cbn in Hf; lia) p q k v r E Hm).
Qed.

(** A text whose matches are redacted already stays as it is. *)
Lemma sub_identity fuel W s : (length s <= fuel)%nat -> all_redacted W s -> sub_secrets fuel W s = s.
Proof.
  revert s. induction fuel as [|fuel IH]; intros s Hf Hs; [done|]. destruct s as [|c s]; [done|]. cbn [sub_secrets].
  destruct (match_secret W (c :: s)) as [[[k v] r]|] eqn:E.
  - pose proof (match_secret_app W _ k v r E) as Es. pose proof (Hs [] (c :: s) k v r eq_refl E) as ->.
    rewrite IH; [done| |intros p q k' v' r' Ep; apply (Hs (k ++ REDACTED ++ p)); by rewrite Es, Ep, <- !app_assoc].
    apply (f_equal length) in Es. rewrite !length_app in Es. change (length REDACTED) with 10%nat in Es. cbn in Es, Hf. lia.
  - f_equal. apply IH; [cbn in Hf; lia|]. intros p q k v r Ep. apply (Hs (c :: p)). by rewrite Ep.
Qed.

Lemma match_word_split w1 w2 s m rest :
  match_word (w1 ++ w2) s = Some (m, rest) ->
  exists m1 m2 s2, match_word w1 s = Some (m1, s2) /\ match_word w2 s2 = Some (m2, rest).
Proof.
  revert s m. induction w1 as [|l w1 IH]; intros s m; cbn; [eauto|]. destruct s as [|c s]; [done|].
  destruct (same_letter l c); [|done]. destruct (match_word (w1 ++ w2) s) as [[m' r']|] eqn:E; [|done]. cbn. intros [= <- <-].
  destruct (IH s m' E) as (m1 & m2 & s2 & E1 & E2). rewrite E1. cbn. eauto.
Qed.

(** The second pattern finds nothing the first left. *)
Lemma encrypted_redacted s : all_redacted secret_words s -> all_redacted [u "encrypted_password"] s.
Proof.
  intros Hs p q k v r -> (word & s1 & before & c & s3 & after & Hw & Hb & Hc & Ha & Hv & Hne & _)%match_secret_Some.
  apply first_word_Some in Hw as (w & ->%list_elem_of_singleton & Hw).
  change (u "encrypted_password") with (u "encrypted_" ++ u "password") in Hw.
  apply match_word_split in Hw as (m1 & m2 & s2 & H1 & H2). pose proof (match_word_app _ _ _ _ H1) as ->.
  apply (Hs (p ++ m1) s2 (m2 ++ before ++ c :: after) v r); [by rewrite app_assoc|].
  unfold match_secret. rewrite (first_word_in _ (u "password") s2 _ secret_words_keywords ltac:(set_solver) H2). cbn [mbind option_bind].
  rewrite Hb, Hc, Ha, Hv. by destruct v.
Qed.

(** The second pattern has nothing left to do, and neither has a second filter. *)
Lemma redact_log_first message :
  redact_log message = sub_secrets (length message) secret_words message /\
  all_redacted secret_words (redact_log message).
Proof.
  assert (Hm : all_redacted secret_words (sub_secrets (length message) secret_words message)) by by apply sub_all_redacted.
  assert (E : redact_log message = sub_secrets (length message) secret_words message)
    by (apply sub_identity; [done|by apply encrypted_redacted]).
  by rewrite E.
Qed.

Lemma redact_log_idempotent message : redact_log (redact_log message) = redact_log message.
Proof.
  pose proof (proj2 (redact_log_first message)) as Hm. set (m := redact_log message) in *.
  rewrite (proj1 (redact_log_first m)). by apply sub_identity.
Qed.


(** A value is one word, and a quote between the keyword and the colon hides both. *)
Lemma second_word_survives :
  redact_log (u "Authorization: Bearer abc123") = u "Authorization: [REDACTED] abc123" /\
  redact_log (u "{'password': 'abc123'}") = u "{'password': 'abc123'}".
Proof. split; vm_compute; reflexivity. Qed.
