(* ===== verification/LeaseSpec.v ===== *)
(** * Leases: the abstract work queue

    Both background queues of the program, scan tasks and import connection
    tests, promise the same thing: work items are handed out under leases, at
    most [limit] live leases exist at any time over all processes, an expired
    item is taken back, and only the holder of a live lease settles an item.
    This file states that promise as a transition system and proves its safety;
    the two implementations are shown to refine it in their own files. *)

From S2P Require Import Prelude PyText.

(** ** Items *)

Inductive lease :=
| Waiting
| Held (owner : option text) (expires : option Z)
| Settled.

#[export] Instance lease_eq_dec : EqDecision lease.
Proof. solve_decision. Defined.

Definition live (now : Z) (l : lease) : bool :=
  match l with Held _ (Some e) => now <? e | _ => false end.

Definition stale (now : Z) (l : lease) : bool :=
  match l with Held _ (Some e) => e <=? now | Held _ None => true | _ => false end.

Definition held_by (w : text) (l : lease) : bool :=
  match l with Held o _ => bool_decide (o = Some w) | _ => false end.

Definition running_count (now : Z) (T : gmap Z lease) : Z :=
  count_where (fun _ => live now) T.

(** ** Operations *)

Inductive lease_op :=
| Submit (id : Z)
| Claim (w : text) (reclaimed claimed : gset Z) (expires : Z)
| Renew (w : text) (renewed : gset Z) (expires : Z)
| Settle (w : text) (id : Z)
| Withdraw (id : Z).

Definition claim_result (w : text) (R C : gset Z) (e : Z) (i : Z) (l : lease) : lease :=
  if bool_decide (i ∈ C) then Held (Some w) (Some e)
  else if bool_decide (i ∈ R) then Waiting else l.

Inductive lease_step (limit now : Z) : gmap Z lease -> lease_op -> gmap Z lease -> Prop :=
| Step_submit T id :
    T !! id = None ->
    lease_step limit now T (Submit id) (<[id := Waiting]> T)
| Step_claim T w R C e :
    (forall i, i ∈ R -> exists l, T !! i = Some l /\ stale now l = true) ->
    (forall i, i ∈ C -> i ∈ R \/ T !! i = Some Waiting) ->
    (C ≠ ∅ -> running_count now T + Z.of_nat (size C) <= limit) ->
    lease_step limit now T (Claim w R C e) (map_imap (fun i l => Some (claim_result w R C e i l)) T)
| Step_renew T w X e :
    (forall i, i ∈ X -> exists l, T !! i = Some l /\ held_by w l = true /\ live now l = true) ->
    lease_step limit now T (Renew w X e)
      (update_where (fun i _ => bool_decide (i ∈ X)) (fun _ => Held (Some w) (Some e)) T)
| Step_settle T w id l :
    T !! id = Some l -> held_by w l = true -> live now l = true ->
    lease_step limit now T (Settle w id) (<[id := Settled]> T)
| Step_withdraw T id :
    T !! id = Some Waiting ->
    lease_step limit now T (Withdraw id) (<[id := Settled]> T).

(** ** Safety *)

Lemma live_mono now now' l : now <= now' -> live now' l = true -> live now l = true.
Proof. intros ?. destruct l as [|o [e|]|]; cbn; try done. lia. Qed.

Lemma stale_not_live now l : stale now l = true -> live now l = false.
Proof. destruct l as [|o [e|]|]; cbn; try done. lia. Qed.

(** Time alone only ends leases. *)
Lemma running_count_mono now now' T :
  now <= now' -> running_count now' T <= running_count now T.
Proof.
  intros Hle. apply count_where_le. intros i l Hl Hlive.
  exists l. split; [done|]. by eapply live_mono.
Qed.

(** Replacing one item by one that is not live does not add a live lease. *)
Lemma running_count_insert now T i l :
  live now l = false -> running_count now (<[i := l]> T) <= running_count now T.
Proof.
  intros Hl. apply count_where_le. intros j x.
  destruct (decide (i = j)) as [->|Hne].
  - rewrite lookup_insert_eq. intros [= <-]. congruence.
  - rewrite lookup_insert_ne by done. eauto.
Qed.

Lemma running_count_claim now T w R C e :
  running_count now (map_imap (fun i l => Some (claim_result w R C e i l)) T)
  <= running_count now T + Z.of_nat (size C).
Proof.
  unfold running_count, count_where. rewrite <- Nat2Z.inj_add. apply inj_le.
  etrans; [|apply size_union_le]. apply subseteq_size. intros i.
  rewrite elem_of_union, !elem_of_select_ids, map_lookup_imap.
  intros (l' & Hl' & Hlive). destruct (T !! i) as [l|]; cbn in Hl'; [|done].
  injection Hl' as <-. revert Hlive. unfold claim_result.
  case_bool_decide; [by right|]. case_bool_decide; [done|]. left. eauto.
Qed.

Lemma lease_step_bounded limit now T op T' :
  lease_step limit now T op T' -> running_count now T <= limit -> running_count now T' <= limit.
Proof.
  destruct 1 as [T id Hid|T w R C e HR HC Hlim|T w X e HX|T w id l Hl Hw Hlive|T id Hid];
    intros Hb.
  - etrans; [by apply running_count_insert|done].
  - destruct (decide (C = ∅)) as [->|Hne].
    + pose proof (running_count_claim now T w R ∅ e) as H. rewrite size_empty in H. lia.
    + pose proof (running_count_claim now T w R C e). specialize (Hlim Hne). lia.
  - etrans; [|exact Hb]. apply count_where_le. intros i l.
    rewrite lookup_update_where. intros (l0 & Hl0 & ->)%fmap_Some.
    case_bool_decide as Hi; [|eauto].
    destruct (HX i Hi) as (l1 & Hl1 & _ & Hlive1). intros _. eauto.
  - etrans; [by apply running_count_insert|done].
  - etrans; [by apply running_count_insert|done].
Qed.

(** ** What one step may do to an item *)

Definition op_worker (op : lease_op) : option text :=
  match op with Claim w _ _ _ | Renew w _ _ | Settle w _ => Some w | _ => None end.

Lemma lookup_claim w (R C : gset Z) e (T : gmap Z lease) i :
  map_imap (fun i l => Some (claim_result w R C e i l)) T !! i = claim_result w R C e i <$> T !! i.
Proof. rewrite map_lookup_imap. by destruct (T !! i). Qed.

(** A live lease is changed by its holder alone. *)
Lemma lease_step_exclusive limit now T op T' i l w :
  lease_step limit now T op T' ->
  T !! i = Some l -> live now l = true -> held_by w l = true ->
  op_worker op ≠ Some w -> T' !! i = Some l.
Proof.
  intros Hstep Hi Hlive Hw Hop.
  assert (Hother : forall w', held_by w' l = true -> w' = w).
  { intros w' Hw'. destruct l as [|o e|]; try done. cbn in *.
    apply bool_decide_eq_true in Hw, Hw'. congruence. }
  destruct Hstep as [T id Hid|T w' R C e HR HC _|T w' X e HX|T w' id l' Hl' Hw' _|T id Hid].
  - rewrite lookup_insert_ne by congruence. done.
  - rewrite lookup_claim, Hi. cbn. f_equal. unfold claim_result.
    assert (Hnot : forall k, k ∈ R -> k = i -> False).
    { intros k Hk ->. destruct (HR i Hk) as (l' & Hl' & Hs%stale_not_live). congruence. }
    rewrite bool_decide_false; [rewrite bool_decide_false; naive_solver|].
    intros Hc. destruct (HC i Hc) as [?|Hwait]; [naive_solver|]. simplify_eq.
  - rewrite lookup_update_where, Hi. cbn. rewrite bool_decide_false; [done|].
    intros Hx. destruct (HX i Hx) as (l' & Hl' & Hw' & _). simplify_eq.
    apply Hop. cbn. f_equal. auto.
  - destruct (decide (id = i)) as [->|]; [|by rewrite lookup_insert_ne by done].
    simplify_eq. exfalso. apply Hop. cbn. f_equal. auto.
  - rewrite lookup_insert_ne; [done|]. intros ->. simplify_eq.
Qed.

(** A settled item is never touched again. *)
Lemma lease_step_settled limit now T op T' i :
  lease_step limit now T op T' -> T !! i = Some Settled -> T' !! i = Some Settled.
Proof.
  intros Hstep Hi.
  destruct Hstep as [T id Hid|T w R C e HR HC _|T w X e HX|T w id l Hl Hw _|T id Hid].
  - rewrite lookup_insert_ne by congruence. done.
  - rewrite lookup_claim, Hi. cbn. f_equal. unfold claim_result.
    assert (Hnot : i ∉ R). { intros Hk. destruct (HR i Hk) as (l' & Hl' & ?). by simplify_eq. }
    rewrite bool_decide_false; [by rewrite bool_decide_false|].
    intros Hc. destruct (HC i Hc) as [?|Hwait]; congruence.
  - rewrite lookup_update_where, Hi. cbn. rewrite bool_decide_false; [done|].
    intros Hx. destruct (HX i Hx) as (l' & Hl' & Hw & _). by simplify_eq.
  - rewrite lookup_insert_ne; [done|]. intros ->. simplify_eq.
  - rewrite lookup_insert_ne; [done|]. intros ->. simplify_eq.
Qed.

(** ** Sequences of steps at one time *)

Inductive lease_steps (limit now : Z) : gmap Z lease -> list lease_op -> gmap Z lease -> Prop :=
| steps_nil T : lease_steps limit now T [] T
| steps_cons T op T1 ops T' :
    lease_step limit now T op T1 -> lease_steps limit now T1 ops T' ->
    lease_steps limit now T (op :: ops) T'.

Lemma lease_steps_one limit now T op T' :
  lease_step limit now T op T' -> lease_steps limit now T [op] T'.
Proof. intros. econstructor; [done|constructor]. Qed.

Lemma lease_steps_app limit now T ops T1 ops' T' :
  lease_steps limit now T ops T1 -> lease_steps limit now T1 ops' T' ->
  lease_steps limit now T (ops ++ ops') T'.
Proof. induction 1; [done|]. intros. cbn. econstructor; eauto. Qed.

Lemma lease_steps_bounded limit now T ops T' :
  lease_steps limit now T ops T' -> running_count now T <= limit -> running_count now T' <= limit.
Proof. induction 1; eauto using lease_step_bounded. Qed.

Lemma lease_steps_exclusive limit now T ops T' i l w :
  lease_steps limit now T ops T' ->
  T !! i = Some l -> live now l = true -> held_by w l = true ->
  Forall (fun op => op_worker op ≠ Some w) ops -> T' !! i = Some l.
Proof.
  intros Hs. induction Hs as [|T op T1 ops T' Hop _ IH]; intros Hi Hlive Hw Hf; [done|].
  inversion Hf; subst. apply IH; [|done..]. by eapply lease_step_exclusive.
Qed.

Lemma lease_steps_settled limit now T ops T' i :
  lease_steps limit now T ops T' -> T !! i = Some Settled -> T' !! i = Some Settled.
Proof. induction 1; eauto using lease_step_settled. Qed.

(** ** The interface of a queue

    A queue has states, operations and the worker that performs an operation; it
    implements the specification when every operation preserves the queue's
    invariant and is a sequence of lease steps, by that worker or by nobody. *)

Class LeaseQueue (St Op : Type) (limit : Z) := {
  lq_view : St -> gmap Z lease;
  lq_inv : St -> Prop;
  lq_worker : Op -> option text;
  lq_step : Z -> Op -> St -> St -> Prop;
  lq_step_inv now op s s' : lq_inv s -> lq_step now op s s' -> lq_inv s';
  lq_refines now op s s' : lq_inv s -> lq_step now op s s' ->
    exists ops, lease_steps limit now (lq_view s) ops (lq_view s') /\
      Forall (fun o => op_worker o = None \/ op_worker o = lq_worker op) ops
}.

(** Executions: operations of any workers, interleaved with the passage of time. *)
Inductive lq_exec `{LeaseQueue St Op limit} : Z * St -> Z * St -> Prop :=
| exec_refl c : lq_exec c c
| exec_op t op s s1 c : lq_step t op s s1 -> lq_exec (t, s1) c -> lq_exec (t, s) c
| exec_tick t t' s c : t <= t' -> lq_exec (t', s) c -> lq_exec (t, s) c.

Section queue_theorems.
Context `{LeaseQueue St Op limit}.

Lemma lq_exec_inv c c' : lq_exec c c' -> lq_inv c.2 -> lq_inv c'.2.
Proof. induction 1; cbn in *; eauto using lq_step_inv. Qed.

Lemma lq_exec_bounded c c' :
  lq_exec c c' -> lq_inv c.2 ->
  running_count c.1 (lq_view c.2) <= limit -> running_count c'.1 (lq_view c'.2) <= limit.
Proof.
  induction 1 as [c|t op s s1 c Hop _ IH|t t' s c Hle _ IH]; cbn in *; intros Hinv Hb; [done| |].
  - destruct (lq_refines t op s s1 Hinv Hop) as (ops & Hs & _).
    apply IH; [by eapply lq_step_inv|by eapply lease_steps_bounded].
  - apply IH; [done|]. etrans; [by apply running_count_mono|done].
Qed.

Lemma lq_exec_settled c c' i :
  lq_exec c c' -> lq_inv c.2 ->
  lq_view c.2 !! i = Some Settled -> lq_view c'.2 !! i = Some Settled.
Proof.
  induction 1 as [c|t op s s1 c Hop _ IH|t t' s c Hle _ IH]; cbn in *; intros Hinv Hi; [done| |].
  - destruct (lq_refines t op s s1 Hinv Hop) as (ops & Hs & _).
    apply IH; [by eapply lq_step_inv|by eapply lease_steps_settled].
  - by apply IH.
Qed.

Lemma lq_step_exclusive now op s s' i l w :
  lq_inv s -> lq_step now op s s' ->
  lq_view s !! i = Some l -> live now l = true -> held_by w l = true ->
  lq_worker op ≠ Some w -> lq_view s' !! i = Some l.
Proof.
  intros Hinv Hop Hi Hlive Hw Hne. destruct (lq_refines now op s s' Hinv Hop) as (ops & Hs & Hf).
  eapply lease_steps_exclusive; [done..|]. eapply Forall_impl; [exact Hf|].
  intros o [->| ->]; [done|exact Hne].
Qed.
End queue_theorems.
