(* ===== verification/TaskLeases.v ===== *)
(** * Scan task leases (src/app/services/task_leases.py)

    Claiming, renewing and expiring the leases of scan tasks, and the counters
    of the batches the tasks belong to.

    Every definition is the effect of one call inside one transaction.  [now] is
    [func.now()], the transaction's timestamp; [wall] is [datetime.now]; [locked]
    are the task rows other transactions hold, which [SKIP LOCKED] passes over. *)

From S2P Require Import Prelude PyText Models LeaseSpec.

(** ** Batch counters *)

Definition item_in_batch (b : Z) (st : ScanTaskStatus) (it : ScanBatchItem) : bool :=
  (item_batch_id it =? b) && bool_decide (item_status it = st).

(** The [GROUP BY status] query of one batch. *)
Definition batch_counts (items : gmap Z ScanBatchItem) (b : Z) (st : ScanTaskStatus) : Z :=
  count_where (fun _ => item_in_batch b st) items.

Definition refreshed_batch (wall : Z) (items : gmap Z ScanBatchItem) (b : Z)
    (batch : ScanBatch) : ScanBatch :=
  let counts := batch_counts items b in
  let pending := counts TASK_PENDING in
  let running := counts TASK_RUNNING in
  let success := counts TASK_SUCCESS in
  let failed := counts TASK_FAILED + counts TASK_CANCELLED in
  let batch := batch
    <| batch_total_tasks := counts TASK_PENDING + counts TASK_RUNNING + counts TASK_SUCCESS
                            + counts TASK_FAILED + counts TASK_CANCELLED |>
    <| batch_pending_tasks := pending |>
    <| batch_running_tasks := running |>
    <| batch_success_tasks := success |>
    <| batch_failed_tasks := failed |> in
  if negb (pending =? 0) || negb (running =? 0) then
    batch
      <| batch_status :=
           if negb (running =? 0) || negb (success =? 0) || negb (failed =? 0)
           then BATCH_RUNNING else BATCH_PENDING |>
      <| batch_finished_at := None |>
  else
    batch
      <| batch_status := BATCH_COMPLETED |>
      <| batch_finished_at := Some wall |>.

Definition refresh_scan_batch (wall : Z) (d : Db) (b : Z) : Db :=
  match scan_batches d !! b with
  | None => d
  | Some batch =>
      d <| scan_batches := <[b := refreshed_batch wall (scan_batch_items d) b batch]>
             (scan_batches d) |>
  end.

Definition refresh_scan_batches (wall : Z) (batch_ids : gset Z) (d : Db) : Db :=
  foldl (refresh_scan_batch wall) d (sorted_ids batch_ids).

(** ** A task and its batch items change together *)

Definition task_batch_ids (tid : Z) (d : Db) : gset Z :=
  map_to_set (fun _ it => item_batch_id it)
    (where_ (fun _ it => item_task_id it =? tid) (scan_batch_items d)).

(** [for item in task.items: item.status = st; batch_ids.add(item.batch_id)] *)
Definition mark_items (st : ScanTaskStatus) (tid : Z) (d : Db) : gset Z * Db :=
  (task_batch_ids tid d,
   d <| scan_batch_items :=
          update_where (fun _ it => item_task_id it =? tid)
            (fun it => it <| item_status := st |>) (scan_batch_items d) |>).

Definition reset_fields (t : ScanTask) : ScanTask :=
  t <| task_status := TASK_PENDING |>
    <| task_worker_id := None |>
    <| task_lease_expires_at := None |>
    <| task_heartbeat_at := None |>.

Definition _reset_expired_scan_task (tid : Z) (d : Db) : gset Z * Db :=
  mark_items TASK_PENDING tid (d <| scan_tasks := alter reset_fields tid (scan_tasks d) |>).

Definition _mark_scan_task_running (tid : Z) (d : Db) : gset Z * Db :=
  mark_items TASK_RUNNING tid d.

(** ** Claiming *)

Definition lease_live (now : Z) (t : ScanTask) : bool :=
  bool_decide (task_status t = TASK_RUNNING) &&
  match task_lease_expires_at t with Some e => now <? e | None => false end.

Definition lease_expired (now : Z) (t : ScanTask) : bool :=
  bool_decide (task_status t = TASK_RUNNING) &&
  match task_lease_expires_at t with None => true | Some e => e <=? now end.

Definition task_pending (t : ScanTask) : bool := bool_decide (task_status t = TASK_PENDING).

Definition expired_scan_tasks (now : Z) (locked : gset Z) (d : Db) : list Z :=
  sorted_ids (select_ids (fun i t => lease_expired now t && bool_decide (i ∉ locked))
    (scan_tasks d)).

(** [ORDER BY priority DESC, created_at, id] *)
Definition claim_le (a b : Z * ScanTask) : Prop :=
  task_priority b.2 < task_priority a.2 \/
  (task_priority a.2 = task_priority b.2 /\
   (task_created_at a.2 < task_created_at b.2 \/
    (task_created_at a.2 = task_created_at b.2 /\ a.1 <= b.1))).

#[export] Instance claim_le_dec a b : Decision (claim_le a b).
Proof. unfold claim_le. apply _. Defined.

Definition claimable_scan_tasks (locked : gset Z) (d : Db) : list (Z * ScanTask) :=
  merge_sort claim_le
    (map_to_list (where_ (fun i t => task_pending t && bool_decide (i ∉ locked))
      (scan_tasks d))).

Definition claim_fields (worker_id : text) (now lease_until : Z) (t : ScanTask) : ScanTask :=
  t <| task_status := TASK_RUNNING |>
    <| task_worker_id := Some worker_id |>
    <| task_started_at := match task_started_at t with Some s => Some s | None => Some now end |>
    <| task_heartbeat_at := Some now |>
    <| task_lease_expires_at := Some lease_until |>
    <| task_attempt_count := task_attempt_count t + 1 |>.

Definition claim_task (worker_id : text) (now lease_until tid : Z) (d : Db) : gset Z * Db :=
  _mark_scan_task_running tid
    (d <| scan_tasks := alter (claim_fields worker_id now lease_until) tid (scan_tasks d) |>).

(** [for task in tasks: changed_batch_ids.update(step(task))] *)
Definition for_tasks (step : Z -> Db -> gset Z * Db) (ids : list Z) (acc : gset Z * Db) :
    gset Z * Db :=
  foldl (fun acc tid => let '(bs, d) := step tid acc.2 in (acc.1 ∪ bs, d)) acc ids.

Definition second : Z := 1000000.

Definition claim_scan_tasks (worker_id : text) (local_capacity global_limit lease_seconds : Z)
    (now wall : Z) (locked : gset Z) (d : Db) : list Z * Db :=
  if local_capacity <=? 0 then ([], d) else
  let expired_tasks := expired_scan_tasks now locked d in
  let '(changed_batch_ids, d1) := for_tasks _reset_expired_scan_task expired_tasks (∅, d) in
  let active_count := count_where (fun _ => lease_live now) (scan_tasks d1) in
  let claim_limit := Z.min local_capacity (Z.max (global_limit - active_count) 0) in
  let tasks :=
    if claim_limit =? 0 then []
    else take (Z.to_nat claim_limit) (claimable_scan_tasks locked d1) in
  let lease_until := now + lease_seconds * second in
  let '(changed_batch_ids, d2) :=
    for_tasks (claim_task worker_id now lease_until) tasks.*1 (changed_batch_ids, d1) in
  (tasks.*1, refresh_scan_batches wall changed_batch_ids d2).

(** ** Renewing *)

Definition renewable (worker_id : text) (now : Z) (task_ids : gset Z) (i : Z) (t : ScanTask) :
    bool :=
  bool_decide (i ∈ task_ids) && lease_live now t &&
  bool_decide (task_worker_id t = Some worker_id).

Definition renew_scan_leases (worker_id : text) (task_ids : gset Z) (lease_seconds now : Z)
    (d : Db) : gset Z * Db :=
  if decide (task_ids = ∅) then (∅, d) else
  let renewed_ids := select_ids (renewable worker_id now task_ids) (scan_tasks d) in
  (task_ids ∖ renewed_ids,
   d <| scan_tasks :=
          update_where (renewable worker_id now task_ids)
            (fun t => t <| task_heartbeat_at := Some now |>
                        <| task_lease_expires_at := Some (now + lease_seconds * second) |>)
            (scan_tasks d) |>).

(** * The invariant of the scan queue

    What every transaction of the queue preserves: a device has at most one
    active task (the partial unique index), a task holds a lease exactly while
    it runs, a batch item mirrors its task, a batch lists a device once, and the
    counters of a batch are the counts of its items. *)

Definition task_active (t : ScanTask) : bool :=
  bool_decide (task_status t = TASK_PENDING) || bool_decide (task_status t = TASK_RUNNING).

Definition task_wf (t : ScanTask) : Prop :=
  if bool_decide (task_status t = TASK_RUNNING)
  then is_Some (task_worker_id t) /\ is_Some (task_lease_expires_at t) /\
       is_Some (task_heartbeat_at t)
  else task_worker_id t = None /\ task_lease_expires_at t = None /\ task_heartbeat_at t = None.

Definition item_mirrors (tasks : gmap Z ScanTask) (it : ScanBatchItem) : Prop :=
  match tasks !! item_task_id it with
  | Some t => item_status it = task_status t /\ item_device_id it = task_device_id t
  | None => False
  end.

Definition batch_consistent (items : gmap Z ScanBatchItem) (b : Z) (batch : ScanBatch) : Prop :=
  let counts := batch_counts items b in
  batch_pending_tasks batch = counts TASK_PENDING /\
  batch_running_tasks batch = counts TASK_RUNNING /\
  batch_success_tasks batch = counts TASK_SUCCESS /\
  batch_failed_tasks batch = counts TASK_FAILED + counts TASK_CANCELLED /\
  batch_total_tasks batch = batch_pending_tasks batch + batch_running_tasks batch
                            + batch_success_tasks batch + batch_failed_tasks batch /\
  batch_status batch =
    (if bool_decide (batch_pending_tasks batch = 0 /\ batch_running_tasks batch = 0)
     then BATCH_COMPLETED
     else if bool_decide (batch_pending_tasks batch = batch_total_tasks batch)
     then BATCH_PENDING else BATCH_RUNNING) /\
  (is_Some (batch_finished_at batch) <-> batch_status batch = BATCH_COMPLETED).

Record queue_core (d : Db) : Prop := {
  core_tasks : map_Forall (fun _ t => task_wf t) (scan_tasks d);
  core_active : map_Forall (fun i t => map_Forall (fun j t' =>
      task_active t = true -> task_active t' = true ->
      task_device_id t = task_device_id t' -> i = j) (scan_tasks d)) (scan_tasks d);
  core_items : map_Forall (fun _ it => item_mirrors (scan_tasks d) it) (scan_batch_items d);
  core_item_batch : map_Forall (fun _ it => is_Some (scan_batches d !! item_batch_id it))
      (scan_batch_items d);
  core_item_unique : map_Forall (fun i it => map_Forall (fun j it' =>
      item_batch_id it = item_batch_id it' -> item_device_id it = item_device_id it' -> i = j)
      (scan_batch_items d)) (scan_batch_items d);
  core_task_ids : ids_below (scan_tasks d) (next_id d T_scan_tasks);
  core_batch_ids : ids_below (scan_batches d) (next_id d T_scan_batches);
  core_item_ids : ids_below (scan_batch_items d) (next_id d T_scan_batch_items)
}.

Definition consistent_outside (B : gset Z) (d : Db) : Prop :=
  map_Forall (fun b batch => b ∉ B -> batch_consistent (scan_batch_items d) b batch)
    (scan_batches d).

Definition queue_inv (d : Db) : Prop := queue_core d /\ consistent_outside ∅ d.

(** ** Refreshing *)

Lemma refreshed_batch_consistent wall items b batch :
  batch_consistent items b (refreshed_batch wall items b batch).
Proof.
  unfold batch_consistent, refreshed_batch.
  pose proof (count_where_nonneg (fun _ => item_in_batch b TASK_PENDING) items).
  pose proof (count_where_nonneg (fun _ => item_in_batch b TASK_RUNNING) items).
  pose proof (count_where_nonneg (fun _ => item_in_batch b TASK_SUCCESS) items).
  pose proof (count_where_nonneg (fun _ => item_in_batch b TASK_FAILED) items).
  pose proof (count_where_nonneg (fun _ => item_in_batch b TASK_CANCELLED) items).
  unfold batch_counts in *.
  set (p := count_where (fun _ => item_in_batch b TASK_PENDING) items) in *.
  set (r := count_where (fun _ => item_in_batch b TASK_RUNNING) items) in *.
  set (s := count_where (fun _ => item_in_batch b TASK_SUCCESS) items) in *.
  set (f := count_where (fun _ => item_in_batch b TASK_FAILED) items) in *.
  set (c := count_where (fun _ => item_in_batch b TASK_CANCELLED) items) in *.
  destruct (Z.eqb_spec p 0), (Z.eqb_spec r 0); cbn; repeat split; try lia.
  all: try (intros [? ?]; done); try (intros; exact (mk_is_Some _ _ eq_refl)).
  all: repeat case_bool_decide; try done; try lia.
  all: destruct (Z.eqb_spec s 0), (Z.eqb_spec (f + c) 0); cbn; try done; try lia.
  all: intros; by destruct_and?.
Qed.

Definition refresh_map (wall : Z) (items : gmap Z ScanBatchItem) (B : gset Z)
    (batches : gmap Z ScanBatch) : gmap Z ScanBatch :=
  map_imap (fun b batch =>
    Some (if bool_decide (b ∈ B) then refreshed_batch wall items b batch else batch)) batches.

Lemma refresh_foldl wall bs d :
  NoDup bs ->
  foldl (refresh_scan_batch wall) d bs =
  d <| scan_batches := refresh_map wall (scan_batch_items d) (list_to_set bs) (scan_batches d) |>.
Proof.
  revert d. induction bs as [|b bs IH]; intros d Hnd.
  - cbn. destruct d; unfold set_field; cbn. f_equal. symmetry.
    apply map_eq. intros i. unfold refresh_map. rewrite map_lookup_imap.
    by destruct (_ !! i).
  - apply NoDup_cons in Hnd as [Hb Hnd]. cbn [foldl]. rewrite IH by done. clear IH.
    unfold refresh_scan_batch. destruct (scan_batches d !! b) as [batch|] eqn:Hbatch.
    all: unfold set_field; cbn; f_equal; apply map_eq; intros i; unfold refresh_map;
      rewrite !map_lookup_imap.
    + destruct (decide (i = b)) as [->|Hne].
      * rewrite lookup_insert_eq, Hbatch. cbn.
        rewrite bool_decide_false by set_solver. by rewrite bool_decide_true by set_solver.
      * rewrite lookup_insert_ne by done. destruct (_ !! i) as [x|]; cbn; [|done].
        by rewrite (bool_decide_ext (i ∈ {[b]} ∪ list_to_set bs) (i ∈@{gset Z} list_to_set bs))
          by set_solver.
    + destruct (scan_batches d !! i) as [x|] eqn:Hi; cbn; [|done].
      assert (i ≠ b) by congruence.
      by rewrite (bool_decide_ext (i ∈ {[b]} ∪ list_to_set bs) (i ∈@{gset Z} list_to_set bs))
          by set_solver.
Qed.

(** Refreshing a set of batches rewrites the counters of exactly those batches. *)
Lemma refresh_scan_batches_eq wall B d :
  refresh_scan_batches wall B d =
  d <| scan_batches := refresh_map wall (scan_batch_items d) B (scan_batches d) |>.
Proof.
  unfold refresh_scan_batches. rewrite refresh_foldl by apply NoDup_sorted_ids.
  by rewrite list_to_set_sorted_ids.
Qed.

Lemma lookup_refresh_map wall items B batches b :
  refresh_map wall items B batches !! b =
  (fun x => if bool_decide (b ∈ B) then refreshed_batch wall items b x else x) <$> batches !! b.
Proof. unfold refresh_map. rewrite map_lookup_imap. by destruct (batches !! b). Qed.

Lemma refresh_outside wall B X d :
  consistent_outside B d -> consistent_outside (B ∖ X) (refresh_scan_batches wall X d).
Proof.
  rewrite refresh_scan_batches_eq. intros H b batch. cbn. rewrite lookup_refresh_map.
  intros (x & Hx & ->)%fmap_Some Hb. case_bool_decide as HX.
  - apply refreshed_batch_consistent.
  - apply (H b x Hx). set_solver.
Qed.

Lemma refresh_core wall X d : queue_core d -> queue_core (refresh_scan_batches wall X d).
Proof.
  rewrite refresh_scan_batches_eq. intros [? ? ? Hb ? ? Hid ?]. constructor; cbn; try done.
  - eapply map_Forall_impl; [exact Hb|]. cbn. intros i it.
    by rewrite lookup_refresh_map, fmap_is_Some.
  - intros i x. rewrite lookup_refresh_map. intros (y & Hy & _)%fmap_Some. by apply (Hid i y).
Qed.

Lemma refresh_inv wall B d :
  queue_core d -> consistent_outside B d -> queue_inv (refresh_scan_batches wall B d).
Proof.
  intros Hc Ho. split; [by apply refresh_core|].
  replace (∅ : gset Z) with (B ∖ B) by set_solver. by apply refresh_outside.
Qed.

(** ** One task and its items change together *)

Definition task_step (f : ScanTask -> ScanTask) (st : ScanTaskStatus) (tid : Z) (d : Db) :
    gset Z * Db :=
  mark_items st tid (d <| scan_tasks := alter f tid (scan_tasks d) |>).

(** What a transition must respect to preserve the invariant. *)
Definition step_ok (f : ScanTask -> ScanTask) (st : ScanTaskStatus) (t : ScanTask) : Prop :=
  task_device_id (f t) = task_device_id t /\ task_status (f t) = st /\ task_wf (f t) /\
  (task_active (f t) = true -> task_active t = true).

Lemma elem_of_task_batch_ids tid d b :
  b ∈ task_batch_ids tid d <->
  exists i it, scan_batch_items d !! i = Some it /\ item_task_id it = tid /\ item_batch_id it = b.
Proof.
  unfold task_batch_ids. rewrite elem_of_map_to_set. split.
  - intros (i & it & [Hi Ht%Z.eqb_eq]%lookup_where & Hb). eauto.
  - intros (i & it & Hi & Ht & Hb). exists i, it. rewrite lookup_where.
    split; [|done]. split; [done|]. by apply Z.eqb_eq.
Qed.

Lemma task_step_core f st tid d :
  (forall t, scan_tasks d !! tid = Some t -> step_ok f st t) ->
  queue_core d -> queue_core (task_step f st tid d).2.
Proof.
  intros Hok [Ht Ha Hi Hib Hiu Hti Hbi Hii].
  assert (Hlk : forall i t', alter f tid (scan_tasks d) !! i = Some t' ->
            exists t, scan_tasks d !! i = Some t /\
              t' = (if bool_decide (i = tid) then f t else t)).
  { intros i t'. rewrite alter_update_where, lookup_update_where.
    intros (t & ? & ->)%fmap_Some. eauto. }
  constructor; cbn.
  - intros i t' (t & Hlt & ->)%Hlk. case_bool_decide; subst; [|by apply (Ht i t)].
    by destruct (Hok t Hlt) as (_ & _ & ? & _).
  - assert (Hactive : forall k t, scan_tasks d !! k = Some t ->
       task_active (if bool_decide (k = tid) then f t else t) = true ->
       task_active t = true /\
       task_device_id (if bool_decide (k = tid) then f t else t) = task_device_id t).
    { intros k t Hk. case_bool_decide; subst; [|by auto].
      destruct (Hok t Hk) as (? & _ & _ & ?). auto. }
    intros i t1' (t1 & H1 & ->)%Hlk j t2' (t2 & H2 & ->)%Hlk Ha1 Ha2 Hd.
    destruct (Hactive i t1 H1 Ha1) as [? E1]. destruct (Hactive j t2 H2 Ha2) as [? E2].
    apply (Ha i t1 H1 j t2 H2); congruence.
  - intros k it'. rewrite lookup_update_where. intros (it & Hit & ->)%fmap_Some.
    specialize (Hi k it Hit). unfold item_mirrors in *.
    rewrite alter_update_where, lookup_update_where.
    destruct (Z.eqb_spec (item_task_id it) tid) as [Heq|Hne]; cbn.
    + destruct (scan_tasks d !! item_task_id it) as [t|] eqn:Hlt; [|done].
      cbn. rewrite bool_decide_true by done. subst tid.
      destruct (Hok t Hlt) as (-> & -> & _ & _). by destruct Hi.
    + destruct (scan_tasks d !! item_task_id it) as [t|] eqn:Hlt; [|done].
      cbn. by rewrite bool_decide_false.
  - apply map_Forall_update_where. eapply map_Forall_impl; [exact Hib|]. cbn.
    intros k it. by destruct (item_task_id it =? tid).
  - apply map_Forall_update_where. intros i it Hit. apply map_Forall_update_where.
    intros j it' Hjt. specialize (Hiu i it Hit j it' Hjt).
    by destruct (item_task_id it =? tid), (item_task_id it' =? tid).
  - intros i t' (t & Hlt & ->)%Hlk. by apply (Hti i t).
  - done.
  - apply map_Forall_update_where. done.
Qed.

(** A batch none of whose items belongs to the task keeps its counts. *)
Lemma mark_items_counts st tid d b st' :
  b ∉ task_batch_ids tid d ->
  batch_counts (scan_batch_items (mark_items st tid d).2) b st' =
  batch_counts (scan_batch_items d) b st'.
Proof.
  intros Hb. cbn. unfold batch_counts. apply count_where_ext. intros i.
  setoid_rewrite lookup_update_where. setoid_rewrite fmap_Some. split.
  - intros (x & (it & Hit & ->) & Hx). exists it. split; [done|].
    destruct (Z.eqb_spec (item_task_id it) tid) as [Heq|]; [|done]. exfalso. apply Hb.
    apply elem_of_task_batch_ids. exists i, it. unfold item_in_batch in Hx. cbn in Hx.
    split_and!; try done. lia.
  - intros (it & Hit & Hx). exists it. split; [|done]. exists it. split; [done|].
    destruct (Z.eqb_spec (item_task_id it) tid) as [Heq|]; [|done]. exfalso. apply Hb.
    apply elem_of_task_batch_ids. exists i, it. unfold item_in_batch in Hx.
    split_and!; try done. lia.
Qed.

Lemma batch_consistent_ext items items' b batch :
  (forall st, batch_counts items' b st = batch_counts items b st) ->
  batch_consistent items b batch -> batch_consistent items' b batch.
Proof. intros H. unfold batch_consistent. by rewrite !H. Qed.

Lemma task_step_outside f st tid B d :
  consistent_outside B d ->
  consistent_outside (B ∪ (task_step f st tid d).1) (task_step f st tid d).2.
Proof.
  intros H b batch Hb Hnot. cbn in Hb. eapply batch_consistent_ext; [|apply (H b batch Hb)].
  - intros st'. unfold task_step. rewrite mark_items_counts; [done|]. set_solver.
  - set_solver.
Qed.

Lemma task_step_lookup_ne f st tid d i :
  i ≠ tid -> scan_tasks (task_step f st tid d).2 !! i = scan_tasks d !! i.
Proof. intros Hne. cbn. by rewrite lookup_alter_ne by done. Qed.

Lemma for_tasks_cons step i ids acc :
  for_tasks step (i :: ids) acc =
  for_tasks step ids (acc.1 ∪ (step i acc.2).1, (step i acc.2).2).
Proof. cbn. by destruct (step i acc.2). Qed.

Lemma for_tasks_inv f st ids B d :
  NoDup ids ->
  (forall i t, i ∈ ids -> scan_tasks d !! i = Some t -> step_ok f st t) ->
  queue_core d -> consistent_outside B d ->
  queue_core (for_tasks (task_step f st) ids (B, d)).2 /\
  consistent_outside (for_tasks (task_step f st) ids (B, d)).1
    (for_tasks (task_step f st) ids (B, d)).2.
Proof.
  revert B d. induction ids as [|i ids IH]; intros B d Hnd Hok Hc Ho; [done|].
  apply NoDup_cons in Hnd as [Hi Hnd]. rewrite for_tasks_cons. cbn [fst snd].
  apply IH; [done| | |].
  - intros j t Hj. rewrite task_step_lookup_ne by set_solver. apply Hok. set_solver.
  - apply task_step_core; [|done]. intros t. apply Hok. set_solver.
  - by apply task_step_outside.
Qed.

(** ** The tasks after a loop over task identifiers *)

Lemma for_tasks_lookup f st ids B d i :
  NoDup ids ->
  scan_tasks (for_tasks (task_step f st) ids (B, d)).2 !! i =
  (fun t => if bool_decide (i ∈ ids) then f t else t) <$> scan_tasks d !! i.
Proof.
  revert B d. induction ids as [|j ids IH]; intros B d Hnd.
  { cbn. by destruct (scan_tasks d !! i). }
  apply NoDup_cons in Hnd as [Hj Hnd]. rewrite for_tasks_cons, IH by done. cbn.
  rewrite lookup_alter. destruct (decide (j = i)) as [->|Hne].
  - destruct (scan_tasks d !! i); cbn; [|done].
    rewrite bool_decide_false by done. by rewrite bool_decide_true by set_solver.
  - destruct (scan_tasks d !! i); cbn; [|done].
    by rewrite (bool_decide_ext (i ∈ j :: ids) (i ∈ ids)) by set_solver.
Qed.

Lemma for_tasks_frame f st ids acc :
  scan_batches (for_tasks (task_step f st) ids acc).2 = scan_batches acc.2 /\
  devices (for_tasks (task_step f st) ids acc).2 = devices acc.2 /\
  next_id (for_tasks (task_step f st) ids acc).2 = next_id acc.2.
Proof.
  revert acc. induction ids as [|i ids IH]; intros acc; [done|].
  rewrite for_tasks_cons. by destruct (IH (acc.1 ∪ (task_step f st i acc.2).1,
    (task_step f st i acc.2).2)) as (-> & -> & ->).
Qed.

(** ** Claiming preserves the invariant *)

Lemma reset_fields_ok t : task_active t = true -> step_ok reset_fields TASK_PENDING t.
Proof. intros Ha. by repeat split. Qed.

Lemma claim_fields_ok w now lu t :
  task_active t = true -> step_ok (claim_fields w now lu) TASK_RUNNING t.
Proof.
  intros Ha. do 2 (split; [done|]). split; [by repeat split; eexists|done].
Qed.

Lemma lease_expired_running now t : lease_expired now t = true -> task_status t = TASK_RUNNING.
Proof. unfold lease_expired. by intros [?%bool_decide_eq_true _]%andb_true_iff. Qed.

Lemma elem_of_expired now locked d i :
  i ∈ expired_scan_tasks now locked d <->
  exists t, scan_tasks d !! i = Some t /\ lease_expired now t = true /\ i ∉ locked.
Proof.
  unfold expired_scan_tasks. rewrite elem_of_sorted_ids, elem_of_select_ids.
  split.
  - intros (t & Ht & [? ?%bool_decide_eq_true]%andb_true_iff). eauto.
  - intros (t & ? & ? & ?). exists t. split; [done|]. apply andb_true_iff.
    by rewrite bool_decide_eq_true.
Qed.

Lemma elem_of_claimable locked d p :
  p ∈ claimable_scan_tasks locked d <->
  scan_tasks d !! p.1 = Some p.2 /\ task_status p.2 = TASK_PENDING /\ p.1 ∉ locked.
Proof.
  unfold claimable_scan_tasks. rewrite (merge_sort_Permutation claim_le _).
  destruct p as [i t]. cbn. rewrite elem_of_map_to_list, lookup_where, andb_true_iff.
  unfold task_pending. by rewrite !bool_decide_eq_true.
Qed.

Lemma NoDup_claimable locked d n : NoDup (take n (claimable_scan_tasks locked d)).*1.
Proof.
  rewrite fmap_take. eapply sublist_NoDup; [|apply sublist_take].
  unfold claimable_scan_tasks. rewrite (merge_sort_Permutation claim_le _).
  apply NoDup_fst_map_to_list.
Qed.

Definition after_reset (now : Z) (locked : gset Z) (d : Db) : gset Z * Db :=
  for_tasks (task_step reset_fields TASK_PENDING) (expired_scan_tasks now locked d) (∅, d).

Definition claim_limit (local_capacity global_limit now : Z) (d : Db) : Z :=
  Z.min local_capacity
    (Z.max (global_limit - count_where (fun _ => lease_live now) (scan_tasks d)) 0).

Definition claimed_tasks (local_capacity global_limit now : Z) (locked : gset Z) (d : Db) :
    list (Z * ScanTask) :=
  take (Z.to_nat (claim_limit local_capacity global_limit now d)) (claimable_scan_tasks locked d).

Lemma claim_scan_tasks_eq w cap gl ls now wall locked d :
  0 < cap ->
  claim_scan_tasks w cap gl ls now wall locked d =
  (let r1 := after_reset now locked d in
   let ids := (claimed_tasks cap gl now locked r1.2).*1 in
   let r2 := for_tasks (task_step (claim_fields w now (now + ls * second)) TASK_RUNNING) ids r1 in
   (ids, refresh_scan_batches wall r2.1 r2.2)).
Proof.
  intros Hcap. unfold claim_scan_tasks, after_reset, claimed_tasks, claim_limit.
  destruct (Z.leb_spec cap 0); [lia|].
  change _reset_expired_scan_task with (task_step reset_fields TASK_PENDING).
  change (claim_task w now (now + ls * second)) with
    (task_step (claim_fields w now (now + ls * second)) TASK_RUNNING).
  destruct (for_tasks (task_step reset_fields TASK_PENDING) _ _) as [B1 d1]. cbn [fst snd].
  match goal with |- context [if ?c =? 0 then _ else _] => destruct (Z.eqb_spec c 0) as [->|_] end.
  - done.
  - by destruct (for_tasks _ _ _).
Qed.

Lemma after_reset_inv now locked d :
  queue_inv d ->
  queue_core (after_reset now locked d).2 /\
  consistent_outside (after_reset now locked d).1 (after_reset now locked d).2.
Proof.
  intros [Hc Ho]. apply for_tasks_inv; [apply NoDup_sorted_ids| |done|done].
  intros i t (t' & Hlt & Hexp & _)%elem_of_expired Hlt'. simplify_eq.
  apply reset_fields_ok. unfold task_active.
  by rewrite (lease_expired_running _ _ Hexp).
Qed.

(** The row of a task once the expired leases are taken back. *)
Lemma after_reset_lookup now locked d i :
  scan_tasks (after_reset now locked d).2 !! i =
  (fun t => if lease_expired now t && bool_decide (i ∉ locked) then reset_fields t else t)
    <$> scan_tasks d !! i.
Proof.
  unfold after_reset. rewrite for_tasks_lookup by apply NoDup_sorted_ids.
  destruct (scan_tasks d !! i) as [t|] eqn:Hlt; cbn; [|done]. f_equal.
  case_bool_decide as Hin.
  - apply elem_of_expired in Hin as (t' & ? & Hexp & ?). simplify_eq.
    by rewrite Hexp, bool_decide_true.
  - destruct (lease_expired now t) eqn:Hexp; [|done]. cbn.
    case_bool_decide; [|done]. exfalso. apply Hin. apply elem_of_expired. eauto.
Qed.

Lemma claim_scan_tasks_inv w cap gl ls now wall locked d :
  queue_inv d -> queue_inv (claim_scan_tasks w cap gl ls now wall locked d).2.
Proof.
  intros Hinv. destruct (decide (0 < cap)) as [Hcap|Hcap].
  - rewrite claim_scan_tasks_eq by done. cbn zeta. cbn [snd].
    destruct (after_reset_inv now locked d Hinv) as [Hc Ho].
    destruct (after_reset now locked d) as [B1 d1]. cbn [fst snd] in *.
    destruct (for_tasks_inv (claim_fields w now (now + ls * second)) TASK_RUNNING
      (claimed_tasks cap gl now locked d1).*1 B1 d1) as [Hc2 Ho2]; [apply NoDup_claimable| |done|done|].
    + intros i t Hi Hlt. apply list_elem_of_fmap in Hi as (p & -> & Hp).
      apply elem_of_take in Hp as (k & Hp & _). apply list_elem_of_lookup_2 in Hp.
      apply elem_of_claimable in Hp as (Hlt' & Hst & _).
      destruct p as [j t']. cbn in *. simplify_eq. apply claim_fields_ok. unfold task_active. by rewrite Hst.
    + by apply refresh_inv.
  - unfold claim_scan_tasks. by destruct (Z.leb_spec cap 0); [|lia].
Qed.

(** ** Renewing preserves the invariant *)

Lemma renew_scan_leases_inv w ids ls now d :
  queue_inv d -> queue_inv (renew_scan_leases w ids ls now d).2.
Proof.
  unfold renew_scan_leases. case_decide as Hids; [done|].
  intros [[Ht Ha Hi Hib Hiu Hti Hbi Hii] Ho]. split; [|done]. constructor; cbn; try done.
  - apply map_Forall_update_where. intros i t Hlt. specialize (Ht i t Hlt). cbn in Ht.
    destruct (renewable w now ids i t) eqn:Hr; [|done].
    unfold renewable, lease_live in Hr. apply andb_true_iff in Hr as [[_ [Hs _]%andb_true_iff]
      %andb_true_iff _]. unfold task_wf in *. cbn. rewrite Hs in *.
    destruct Ht as (? & ? & ?). eauto.
  - apply map_Forall_update_where. intros i t Hlt. apply map_Forall_update_where.
    intros j t' Hlt'. specialize (Ha i t Hlt j t' Hlt').
    by destruct (renewable w now ids i t), (renewable w now ids j t').
  - intros k it Hit. specialize (Hi k it Hit). cbn in Hi. unfold item_mirrors in *.
    rewrite lookup_update_where. destruct (scan_tasks d !! _) as [t|]; cbn; [|done].
    by destruct (renewable w now ids _ t).
  - intros i t. rewrite lookup_update_where. intros (t' & Hlt & _)%fmap_Some.
    by apply (Hti i t').
Qed.
