(* ===== verification/Collectors.v ===== *)
(** * What a collector returns (src/app/collectors/base.py) *)

From S2P Require Import Prelude PyText Exceptions.

Record DeviceConnectionSpec := mkSpec {
  spec_host : text;
  spec_port : Z;
  spec_username : text;
  spec_device_id : option Z
}.

Record NormalizedConnection := mkConnection {
  nc_protocol : text;
  nc_address_family : text;
  nc_local_ip : text;
  nc_local_port : Z;
  nc_remote_ip : option text;
  nc_remote_port : option Z;
  nc_state : option text;
  nc_pid : option Z;
  nc_process_name : option text
}.

#[export] Instance NormalizedConnection_eq_dec : EqDecision NormalizedConnection.
Proof. solve_decision. Defined.

Record CollectionResult := mkCollection {
  collected_connections : list NormalizedConnection;
  collected_warning : option text
}.

(** The [Collector] protocol: [collect] and [test_connection] return or raise. *)
Record Collector := mkCollector {
  collector_collect : DeviceConnectionSpec -> text -> result exn CollectionResult;
  collector_test_connection : DeviceConnectionSpec -> text -> result exn ()
}.
