(* ===== verification/LinuxCollector.v ===== *)
(** * The Linux collector (src/app/collectors/linux.py)

    Parsing the output of [ss], and the collection protocol over an SSH client.  The
    client (paramiko) is a parameter: what connecting and executing a command return.
    The record of a collection is the list of client events. *)

From S2P Require Import Prelude PyText IpAddress Addresses Exceptions Collectors.

Definition SS_WITH_PROCESS : text := u "ss -H -tunap".
Definition SS_WITHOUT_PROCESS : text := u "ss -H -tuna".

Record SkippedSSLine := mkSkipped {
  line_number : Z;
  reason : text;
  content : text
}.

Record SSParseResult := mkParsed {
  connections : list NormalizedConnection;
  skipped_lines : list SkippedSSLine
}.

Section linux.
Context `{UnicodeCase, UnicodeDigits}.

(** ** Endpoints *)

(** The second half of [_parse_endpoint]; [None] is [ValueError]. *)
Definition endpoint_of (remote : bool) (host port_text : text) : option (option text * option Z) :=
  let host := before PERCENT host in
  let host := if bool_decide (host = u "*") then u "0.0.0.0" else host in
  if remote && bool_decide (port_text ∈ [u "*"; u "0"]) then Some (None, None)
  else if bool_decide (port_text = u "*") then Some (Some host, Some 0)
  else match py_int port_text with Some port => Some (Some host, Some port) | None => None end.

Definition _parse_endpoint (value : text) (remote : bool) : option (option text * option Z) :=
  let value := strip value in
  if bool_decide (value ∈ [u "*"; u "*:*"; u "0.0.0.0:0"; u "[::]:0"]) && remote then Some (None, None)
  else if startswith (u "[") value then
    let closing := rfind 93%N value in
    endpoint_of remote (slice 1 closing value) (slice_from (closing + 2) value)
  else
    match rpartition COLON value with
    | None => None
    | Some (host, port_text) => endpoint_of remote host port_text
    end.

(** ** The process of a socket: the pattern [(("name",pid=digits] *)

Fixpoint span_not (c : N) (s : text) : text * text :=
  match s with
  | [] => ([], [])
  | c' :: s' => if (c' =? c)%N then ([], s) else let '(a, b) := span_not c s' in (c' :: a, b)
  end.

(** The leading digits: how many, and their value. *)
Fixpoint leading_digits (n : nat) (acc : Z) (s : text) : option Z :=
  let stop := match n with O => None | _ => Some acc end in
  match s with
  | [] => stop
  | c :: s' => match digit_value c with Some d => leading_digits (S n) (acc * 10 + d) s' | None => stop end
  end.

Definition match_process (s : text) : option (text * Z) :=
  match strip_prefix [40; 40; 34]%N s with
  | None => None
  | Some s =>
      match span_not 34%N s with
      | ([], _) => None
      | (name, rest) =>
          match strip_prefix (34%N :: u ",pid=") rest with
          | None => None
          | Some rest => match leading_digits 0 0 rest with Some pid => Some (name, pid) | None => None end
          end
      end
  end.

(** [_PROCESS_RE.search] *)
Fixpoint search_process (s : text) : option (text * Z) :=
  match match_process s with
  | Some p => Some p
  | None => match s with [] => None | _ :: s' => search_process s' end
  end.

(** ** Lines *)

Inductive line_result :=
| LineIgnored
| LineSkipped (reason : text)
| LineParsed (c : NormalizedConnection).

Definition line_protocol (protocol_text : text) : option text :=
  if startswith (u "tcp") protocol_text then Some (u "tcp")
  else if startswith (u "udp") protocol_text then Some (u "udp")
  else None.

Definition parse_line (line : text) : line_result :=
  match strip line with
  | [] => LineIgnored
  | _ =>
      let parts := split_words 6 line in
      match line_protocol (lower (default [] (parts !! 0%nat))) with
      | None => LineIgnored
      | Some protocol =>
          match parts with
          | _ :: state :: _ :: _ :: local :: peer :: process =>
              let state := if bool_decide (protocol = u "tcp") then Some (upper state) else None in
              match _parse_endpoint local false, _parse_endpoint peer true with
              | Some (Some local_ip, Some local_port), Some (remote_ip, remote_port) =>
                  let local_ip := _normalize_ip_address_uncached local_ip in
                  let remote_ip := normalize_ip_address remote_ip in
                  let found := match process with p :: _ => search_process p | [] => None end in
                  LineParsed (mkConnection protocol (address_family local_ip) local_ip local_port
                                remote_ip remote_port state (snd <$> found) (fst <$> found))
              | _, _ => LineSkipped (u "端点无效")
              end
          | _ => LineSkipped (u "字段不足")
          end
      end
  end.

(** The loop over [enumerate(output.splitlines(), start=1)]. *)
Fixpoint parse_lines (number : Z) (lines : list text) (rows : list NormalizedConnection)
    (skipped : list SkippedSSLine) : SSParseResult :=
  match lines with
  | [] => mkParsed rows skipped
  | line :: lines =>
      match parse_line line with
      | LineIgnored => parse_lines (number + 1) lines rows skipped
      | LineSkipped reason => parse_lines (number + 1) lines rows (skipped ++ [mkSkipped number reason line])
      | LineParsed c => parse_lines (number + 1) lines (rows ++ [c]) skipped
      end
  end.

Definition _parse_ss_output_details (output : text) : SSParseResult :=
  parse_lines 1 (splitlines output) [] [].

Definition _raise_if_all_candidates_invalid (parsed : SSParseResult) : result exn () :=
  match connections parsed, skipped_lines parsed with
  | [], first :: _ =>
      Raise (CollectorError (u "parse_error") (u "无法解析 ss 第 " ++ str_of_Z (line_number first) ++ u " 行"))
  | _, _ => Ok ()
  end.

Definition parse_ss_output (output : text) : result exn (list NormalizedConnection) :=
  let parsed := _parse_ss_output_details output in
  _ ← _raise_if_all_candidates_invalid parsed;
  Ok (connections parsed).

(** ** Reading a command's output

    [_execute] asks the channel and the clock, one question at a time.  An answer is what
    [recv_ready] and [recv], [recv_stderr_ready] and [recv_stderr], the three status
    questions together, or [time.monotonic] return, in hundredths of a second; or the
    exception of a socket timeout or of paramiko. *)

Inductive ChannelAnswer :=
| OutReady (chunk : list N)
| OutEmpty
| ErrReady (chunk : list N)
| ErrEmpty
| Status (finished : bool)         (* [closed or (exit_status_ready() and eof_received)] *)
| Monotonic (now : Z)
| SocketTimeout
| SSHException.

(** The question that comes next; the last two drain what came with the end. *)
Inductive ReadPhase := DrainOut | DrainErr | AskStatus | AskClock | FinalOut | FinalErr.

Record Reading := mkReading {
  read_phase : ReadPhase;
  output_chunks : list N;
  error_chunks : list N
}.

Inductive ReadState :=
| StillReading (r : Reading)
| ReadDone (r : result exn (list N * list N)).

Definition command_timeout : exn := CollectorError (u "command_timeout") (u "远程 ss 命令执行超时").
Definition command_failed : exn := CollectorError (u "command_failed") (u "无法执行远程 ss 命令").

Definition read_step (deadline : Z) (a : ChannelAnswer) (r : Reading) : option ReadState :=
  let '(mkReading phase out err) := r in
  match phase, a with
  | _, SocketTimeout => Some (ReadDone (Raise command_timeout))
  | _, SSHException => Some (ReadDone (Raise command_failed))
  | DrainOut, OutReady c => Some (StillReading (mkReading DrainOut (out ++ c) err))
  | DrainOut, OutEmpty => Some (StillReading (mkReading DrainErr out err))
  | DrainErr, ErrReady c => Some (StillReading (mkReading DrainErr out (err ++ c)))
  | DrainErr, ErrEmpty => Some (StillReading (mkReading AskStatus out err))
  | AskStatus, Status finished => Some (StillReading (mkReading (if finished then FinalOut else AskClock) out err))
  | AskClock, Monotonic now =>
      if deadline <=? now then Some (ReadDone (Raise command_timeout))
      else Some (StillReading (mkReading DrainOut out err))
  | FinalOut, OutReady c => Some (StillReading (mkReading FinalOut (out ++ c) err))
  | FinalOut, OutEmpty => Some (StillReading (mkReading FinalErr out err))
  | FinalErr, ErrReady c => Some (StillReading (mkReading FinalErr out (err ++ c)))
  | FinalErr, ErrEmpty => Some (ReadDone (Ok (out, err)))
  | _, _ => None
  end.

(** [None] for an answer to another question than the one asked. *)
Fixpoint read_all (deadline : Z) (answers : list ChannelAnswer) (r : Reading) : option ReadState :=
  match answers with
  | [] => Some (StillReading r)
  | a :: answers =>
      match read_step deadline a r with
      | Some (StillReading r) => read_all deadline answers r
      | Some (ReadDone x) => match answers with [] => Some (ReadDone x) | _ => None end
      | None => None
      end
  end.

(** [_execute] from [start]; [decode] is [bytes.decode("utf-8", errors="replace")] and
    [exit_status] what [recv_exit_status] returns. *)
Definition _execute (decode : list N -> text) (timeout start exit_status : Z) (answers : list ChannelAnswer) :
    option (result exn (Z * text * text)) :=
  match read_all (start + 100 * timeout) answers (mkReading DrainOut [] []) with
  | Some (ReadDone (Ok (out, err))) => Some (Ok (exit_status, decode out, decode err))
  | Some (ReadDone (Raise e)) => Some (Raise e)
  | _ => None
  end.

(** ** The SSH client *)

Inductive ssh_error :=
| AuthenticationException
| ConnectTimeout
| SshOrOsError (message : text)
| OtherSshError (e : exn).

Inductive ssh_event := Opened | Executed (command : text) | Closed.

#[export] Instance ssh_event_eq_dec : EqDecision ssh_event.
Proof. solve_decision. Defined.

(** [client_connect] is [client.connect]; [execute] is what [_execute], above,
    returns in the end: exit code, output and error output, or the exception of a timeout or
    a broken channel. *)
Record SshClient := mkClient {
  client_connect : DeviceConnectionSpec -> text -> result ssh_error ();
  execute : text -> result exn (Z * text * text)
}.

Definition _connect (client : SshClient) (device : DeviceConnectionSpec) (password : text) :
    result exn () * list ssh_event :=
  match client_connect client device password with
  | Ok _ => (Ok (), [Opened])
  | Raise AuthenticationException =>
      (Raise (CollectorError (u "authentication_failed") (u "SSH 用户名或密码错误")), [Opened; Closed])
  | Raise ConnectTimeout => (Raise (CollectorError (u "connection_timeout") (u "SSH 连接超时")), [Opened; Closed])
  | Raise (SshOrOsError m) =>
      (Raise (CollectorError (u "connection_failed") (u "SSH 连接失败: " ++ m)), [Opened; Closed])
  | Raise (OtherSshError e) => (Raise e, [Opened])
  end.

(** [s or fallback] *)
Definition or_text (s fallback : text) : text := match s with [] => fallback | _ => s end.

Definition test_connection (client : SshClient) (device : DeviceConnectionSpec) (password : text) :
    result exn () * list ssh_event :=
  match _connect client device password with
  | (Raise e, events) => (Raise e, events)
  | (Ok _, events) =>
      let r :=
        match execute client SS_WITHOUT_PROCESS with
        | Raise e => Raise e
        | Ok (code, _, error) =>
            if negb (code =? 0)
            then Raise (CollectorError (u "command_unavailable") (or_text (strip error) (u "服务器未安装 ss")))
            else Ok ()
        end in
      (r, events ++ [Executed SS_WITHOUT_PROCESS; Closed])
  end.

(** ["；".join(warnings) if warnings else None] *)
Fixpoint join_warnings (warnings : list text) : text :=
  match warnings with
  | [] => []
  | [w] => w
  | w :: ws => w ++ u "；" ++ join_warnings ws
  end.

Definition collection_of (output : text) (warnings : list text) : result exn CollectionResult :=
  let parsed := _parse_ss_output_details output in
  _ ← _raise_if_all_candidates_invalid parsed;
  let warnings :=
    warnings ++
    match skipped_lines parsed with
    | [] => []
    | skipped => [u "已跳过 " ++ str_of_Z (Z.of_nat (length skipped)) ++ u " 条无法解析的 ss 记录"]
    end in
  Ok (mkCollection (connections parsed) (match warnings with [] => None | _ => Some (join_warnings warnings) end)).

Definition linux_collect (client : SshClient) (device : DeviceConnectionSpec) (password : text) :
    result exn CollectionResult * list ssh_event :=
  match _connect client device password with
  | (Raise e, events) => (Raise e, events)
  | (Ok _, events) =>
      match execute client SS_WITH_PROCESS with
      | Raise e => (Raise e, events ++ [Executed SS_WITH_PROCESS; Closed])
      | Ok (code, output, error) =>
          if code =? 0 then (collection_of output [], events ++ [Executed SS_WITH_PROCESS; Closed])
          else
            let r :=
              match execute client SS_WITHOUT_PROCESS with
              | Raise e => Raise e
              | Ok (fallback_code, output, fallback_error) =>
                  if negb (fallback_code =? 0) then
                    Raise (CollectorError (u "command_unavailable")
                             (or_text (strip fallback_error) (or_text (strip error) (u "服务器未安装 ss"))))
                  else collection_of output [u "当前账户无法读取完整进程信息，已降级采集网络连接"]
              end in
            (r, events ++ [Executed SS_WITH_PROCESS; Executed SS_WITHOUT_PROCESS; Closed])
      end
  end.

(** The collector as the rest of the program sees it. *)
Definition linux_collector (client : SshClient) : Collector :=
  mkCollector (fun device password => (linux_collect client device password).1)
              (fun device password => (test_connection client device password).1).
End linux.
