(* ===== verification/LinuxTheorems.v ===== *)
(** * The guarantees of the Linux collector *)

From S2P Require Import Prelude PyText IpAddress Addresses Exceptions Collectors LinuxCollector.

(** ** Every line is accounted for *)

Section accounting.
Context `{UnicodeCase, UnicodeDigits}.

Definition parsed_row (line : text) : option NormalizedConnection :=
  match parse_line line with LineParsed c => Some c | _ => None end.

Definition skipped_row (number : Z) (line : text) : option SkippedSSLine :=
  match parse_line line with LineSkipped r => Some (mkSkipped number r line) | _ => None end.

Definition skipped_from (number : Z) (lines : list text) : list SkippedSSLine :=
  omap id (imap (fun i line => skipped_row (number + Z.of_nat i) line) lines).

Lemma skipped_from_cons number line lines :
  skipped_from number (line :: lines) =
    match skipped_row number line with Some s => [s] | None => [] end ++ skipped_from (number + 1) lines.
Proof.
  unfold skipped_from. rewrite imap_cons, Z.add_0_r. cbn [omap list_omap].
  rewrite (imap_ext _ (fun i line => skipped_row (number + 1 + Z.of_nat i) line)).
  - cbn. by destruct (skipped_row number line).
  - intros i x _. cbn. f_equal. lia.
Qed.

Lemma parse_lines_spec number lines rows skipped :
  parse_lines number lines rows skipped =
    mkParsed (rows ++ omap parsed_row lines) (skipped ++ skipped_from number lines).
Proof.
  revert number rows skipped. induction lines as [|line lines IH]; intros number rows skipped.
  { cbn. by rewrite !app_nil_r. }
  rewrite skipped_from_cons. unfold skipped_row. cbn [parse_lines omap list_omap]. unfold parsed_row at 1.
  destruct (parse_line line) as [|r|c]; rewrite IH; cbn; by rewrite <- ?app_assoc.
Qed.

Lemma endpoint_of_both remote h p ip port :
  endpoint_of remote h p = Some (ip, port) -> (ip = None <-> port = None) /\ (remote = false -> ip ≠ None).
Proof.
  unfold endpoint_of. set (host := if bool_decide (before PERCENT h = u "*") then _ else _). clearbody host.
  destruct remote; cbn [andb]; [|destruct (bool_decide (p = u "*")); [by intros [= <- <-]|destruct (py_int p); [by intros [= <- <-]|done]]].
  destruct (bool_decide (p ∈ _)); [by intros [= <- <-]|].
  destruct (bool_decide (p = u "*")); [by intros [= <- <-]|]. destruct (py_int p); [by intros [= <- <-]|done].
Qed.

Lemma parse_endpoint_both value remote ip port :
  _parse_endpoint value remote = Some (ip, port) ->
  (ip = None <-> port = None) /\ (remote = false -> ip ≠ None).
Proof.
  unfold _parse_endpoint. destruct (_ && remote) eqn:Er.
  { intros [= <- <-]. split; [done|]. intros ->. by rewrite andb_false_r in Er. }
  destruct (startswith (u "[") (strip value)); [apply endpoint_of_both|].
  destruct (rpartition COLON (strip value)) as [[h p]|]; [apply endpoint_of_both|done].
Qed.

(** What the rest of the program can rely on of a collected connection. *)
Definition connection_ok (c : NormalizedConnection) : Prop :=
  (nc_protocol c = u "tcp" /\ nc_state c ≠ None \/ nc_protocol c = u "udp" /\ nc_state c = None) /\
  normalize_ip_address (Some (nc_local_ip c)) = Some (nc_local_ip c) /\
  normalize_ip_address (nc_remote_ip c) = nc_remote_ip c /\
  nc_address_family c = address_family (nc_local_ip c) /\
  (nc_remote_ip c = None <-> nc_remote_port c = None) /\
  (nc_pid c = None <-> nc_process_name c = None).

Lemma normalize_idempotent s : _normalize_ip_address_uncached (_normalize_ip_address_uncached s) = _normalize_ip_address_uncached s.
Proof.
  rewrite (normalize_denoted s). destruct (denoted s) as [a|] eqn:E; [|by rewrite normalize_denoted, E].
  apply normalize_text_of_ip. by eapply denoted_canonical.
Qed.

Lemma parse_line_ok line c : parse_line line = LineParsed c -> connection_ok c.
Proof.
  unfold parse_line. destruct (strip line); [done|].
  destruct (line_protocol _) as [protocol|] eqn:Ep; [|done].
  destruct (split_words 6 line) as [|? [|state [|? [|? [|local [|peer process]]]]]]; try done.
  destruct (_parse_endpoint local false) as [[[lip|] [lport|]]|]; try done.
  destruct (_parse_endpoint peer true) as [[rip rport]|] eqn:Er; [|done].
  intros [= <-]. destruct (parse_endpoint_both _ _ _ _ Er) as [Hboth _].
  unfold connection_ok. cbn [nc_protocol nc_state nc_local_ip nc_remote_ip nc_address_family nc_remote_port nc_pid nc_process_name].
  split_and!.
  - unfold line_protocol in Ep. destruct (startswith (u "tcp") _); [injection Ep as <-; by left|].
    destruct (startswith (u "udp") _); [|done]. injection Ep as <-. by right.
  - unfold normalize_ip_address. cbn. by rewrite normalize_idempotent.
  - unfold normalize_ip_address. destruct rip; [|done]. cbn. by rewrite normalize_idempotent.
  - done.
  - rewrite <- Hboth. unfold normalize_ip_address. by destruct rip.
  - set (found := match process with [] => None | _ => _ end). by destruct found as [[]|].
Qed.

Lemma parse_lines_ok output : Forall connection_ok (connections (_parse_ss_output_details output)).
Proof.
  unfold _parse_ss_output_details. rewrite parse_lines_spec. cbn [connections app].
  apply Forall_forall. intros c (line & _ & Hc)%list_elem_of_omap. unfold parsed_row in Hc.
  destruct (parse_line line) as [|r|c'] eqn:El; try done. injection Hc as <-. by eapply parse_line_ok.
Qed.

(** Parsing [ss] output accounts for every line: the connections are those of the
    parsable lines, in order, and the skipped records are those of the TCP and UDP lines
    that are not, with their line numbers; parsing fails only when there are such
    lines and no connection at all, naming the first of them.  Every connection has a
    normalized address with its family, a state exactly when it is TCP, and a remote
    address exactly when it has a remote port. *)
Theorem ss_output_accounted output :
  let lines := splitlines output in
  let parsed := _parse_ss_output_details output in
  connections parsed = omap parsed_row lines /\
  skipped_lines parsed = skipped_from 1 lines /\
  Forall connection_ok (connections parsed) /\
  parse_ss_output output =
    match connections parsed, skipped_from 1 lines with
    | [], first :: _ =>
        Raise (CollectorError (u "parse_error") (u "无法解析 ss 第 " ++ str_of_Z (line_number first) ++ u " 行"))
    | rows, _ => Ok rows
    end.
Proof.
  intros lines parsed. unfold parse_ss_output. fold parsed.
  assert (E : parsed = mkParsed (omap parsed_row lines) (skipped_from 1 lines)) by apply parse_lines_spec.
  split_and!; [by rewrite E|by rewrite E|apply parse_lines_ok|]. rewrite E.
  unfold _raise_if_all_candidates_invalid. cbn [connections skipped_lines].
  destruct (omap parsed_row lines); [|done]. by destruct (skipped_from 1 lines).
Qed.
End accounting.

(** ** Printed connections parse back *)

(** The form [ss] prints: an IPv6 address in brackets. *)
Definition format_endpoint (a : ip) (port : N) : text :=
  match a with
  | IPv4 _ => text_of_ip a ++ COLON :: str_of_N port
  | IPv6 _ => 91%N :: text_of_ip a ++ 93%N :: COLON :: str_of_N port
  end.

Definition format_peer (peer : option (ip * N)) : text :=
  match peer with Some (a, port) => format_endpoint a port | None => u "*:*" end.

Definition format_process (p : text * N) : text :=
  u "users:" ++ [40; 40; 34]%N ++ p.1 ++ 34%N :: u ",pid=" ++ str_of_N p.2 ++ u ",fd=3))".

(** A socket as the kernel has it. *)
Record socket := mkSocket {
  sock_state : option text;  (* [None] for UDP *)
  sock_local : ip;
  sock_local_port : N;
  sock_peer : option (ip * N);
  sock_process : option (text * N)
}.

Definition format_line (s : socket) : text :=
  match sock_state s with Some _ => u "tcp" | None => u "udp" end ++ 32%N ::
  default (u "UNCONN") (sock_state s) ++ 32%N :: u "0" ++ 32%N :: u "0" ++ 32%N ::
  format_endpoint (sock_local s) (sock_local_port s) ++ 32%N :: format_peer (sock_peer s) ++
  match sock_process s with Some p => 32%N :: format_process p | None => [] end.

Definition socket_connection (s : socket) : NormalizedConnection :=
  mkConnection
    (match sock_state s with Some _ => u "tcp" | None => u "udp" end)
    (match sock_local s with IPv4 _ => u "ipv4" | IPv6 _ => u "ipv6" end)
    (text_of_ip (sock_local s)) (Z.of_N (sock_local_port s))
    ((fun p => text_of_ip p.1) <$> sock_peer s) ((fun p => Z.of_N p.2) <$> sock_peer s)
    (sock_state s) ((fun p => Z.of_N p.2) <$> sock_process s) (fst <$> sock_process s).

Section roundtrip.
Context `{UnicodeCase, UnicodeDigits}.

Definition socket_wf (s : socket) : Prop :=
  canonical_ip (sock_local s) /\
  match sock_state s with Some st => st ≠ [] /\ no_space st /\ upper st = st | None => True end /\
  match sock_peer s with Some (a, port) => canonical_ip a /\ port ≠ 0%N | None => True end /\
  match sock_process s with Some (name, _) => name ≠ [] /\ (34%N ∉ name) | None => True end.

Lemma rfind_from_spec i last c s t :
  c ∉ t -> rfind_from i last c (s ++ c :: t) = i + Z.of_nat (length s).
Proof.
  intros Ht. revert i last. induction s as [|x s IH]; intros i last; cbn.
  - rewrite N.eqb_refl. assert (G : forall j l, rfind_from j l c t = l); [|rewrite G; lia].
    induction t as [|y t IHt]; intros j l; [done|]. apply not_elem_of_cons in Ht as [Hy Ht]. cbn.
    destruct (N.eqb_spec y c); [congruence|]. by apply IHt.
  - rewrite IH. lia.
Qed.

Lemma rpartition_app c s t : c ∉ t -> rpartition c (s ++ c :: t) = Some (s, t).
Proof.
  intros Ht. unfold rpartition, rfind. rewrite rfind_from_spec by done.
  destruct (Z.ltb_spec (0 + Z.of_nat (length s)) 0); [lia|]. rewrite Z.add_0_l, Nat2Z.id.
  rewrite take_app_length. rewrite Nat.add_1_r, cons_middle, app_assoc, drop_app_length'; [done|].
  rewrite length_app. cbn. lia.
Qed.

Lemma str_head n : exists c t, str_of_N n = c :: t /\ (48 <= c <= 57)%N.
Proof.
  destruct (str_of_N_spec n) as (_ & Hall & _ & Hne). destruct (str_of_N n) as [|c t]; [done|].
  exists c, t. split; [done|]. apply Forall_cons in Hall as [Hc _]. by apply is_digit_bounds.
Qed.

Lemma str_not_star n : str_of_N n ≠ u "*".
Proof. destruct (str_head n) as (c & t & -> & Hc). intros [= ->]. lia. Qed.

Lemma str_zero n : str_of_N n = u "0" -> n = 0%N.
Proof. intros E. apply (inj str_of_N). rewrite E. by vm_compute. Qed.

Lemma endpoint_of_spec remote a port :
  canonical_ip a -> (remote = true -> port ≠ 0%N) ->
  endpoint_of remote (text_of_ip a) (str_of_N port) = Some (Some (text_of_ip a), Some (Z.of_N port)).
Proof.
  intros [Hwf _] Hp. unfold endpoint_of. rewrite before_none.
  2:{ destruct a; [by apply text_of_ipv4_no|by apply text_of_ipv6_no]. }
  assert (Hstar : text_of_ip a ≠ u "*").
  { intros E. pose proof (ip_address_of_text a Hwf) as Ha. rewrite E in Ha. by vm_compute in Ha. }
  rewrite (bool_decide_false (text_of_ip a = u "*")) by done.
  rewrite (bool_decide_false (str_of_N port = u "*")) by apply str_not_star. rewrite py_int_str.
  destruct remote; [|done]. cbn [andb]. rewrite bool_decide_false; [done|].
  rewrite !elem_of_cons, elem_of_nil. intros [E|[E|[]]]; [by apply str_not_star in E|].
  apply str_zero in E. by apply Hp.
Qed.

Lemma text_of_ip_no_space a : ip_wf a -> no_space (text_of_ip a).
Proof.
  intros Hwf. apply Forall_forall. intros c Hc. destruct (is_space c) eqn:E; [|done]. exfalso.
  assert (Hd : is_digit c = false).
  { destruct (is_digit c) eqn:Ed; [|done]. pose proof (digits_no_space [c] ltac:(by repeat constructor)) as Hn.
    apply Forall_cons in Hn as [Hn _]. congruence. }
  assert (Hnd : c ≠ DOT) by (intros ->; by vm_compute in E).
  assert (Hnc : c ≠ COLON) by (intros ->; by vm_compute in E).
  assert (Hx : hex_value c = None).
  { unfold hex_value. rewrite Hd. unfold is_space in E.
    assert (Hr : ((c <= 32) \/ (133 <= c))%N).
    { rewrite !orb_true_iff, !andb_true_iff, bool_decide_eq_true, !elem_of_cons, elem_of_nil, !N.leb_le in E. lia. }
    destruct (N.leb_spec 97 c), (N.leb_spec c 102), (N.leb_spec 65 c), (N.leb_spec c 70); cbn; try done; lia. }
  destruct a as [n|n]; [by apply text_of_ipv4_no in Hc|by apply text_of_ipv6_no in Hc].
Qed.

Lemma str_no_colon n : COLON ∉ str_of_N n.
Proof. by apply str_of_N_no. Qed.

Lemma format_endpoint_rpartition a port :
  exists h, rpartition COLON (format_endpoint a port) = Some (h, str_of_N port).
Proof.
  destruct a as [n|n]; unfold format_endpoint.
  - eexists. apply rpartition_app, str_no_colon.
  - exists (91%N :: text_of_ip (IPv6 n) ++ [93%N]).
    replace (91%N :: text_of_ip (IPv6 n) ++ 93%N :: COLON :: str_of_N port)
      with ((91%N :: text_of_ip (IPv6 n) ++ [93%N]) ++ COLON :: str_of_N port)
      by (by rewrite <- app_comm_cons, <- app_assoc).
    apply rpartition_app, str_no_colon.
Qed.

Lemma format_endpoint_no_space a port : ip_wf a -> no_space (format_endpoint a port).
Proof.
  intros Ha. pose proof (text_of_ip_no_space a Ha). pose proof (str_of_N_no_space port).
  destruct a; unfold format_endpoint.
  - apply Forall_app. split; [done|]. constructor; [by vm_compute|done].
  - constructor; [by vm_compute|]. apply Forall_app. split; [done|].
    do 2 (constructor; [by vm_compute|]). done.
Qed.

Lemma startswith_bracket c s : startswith (u "[") (c :: s) = (91 =? c)%N.
Proof. unfold startswith. change (u "[") with [91%N]. cbn [strip_prefix]. by destruct (91 =? c)%N. Qed.

Lemma parse_endpoint_format remote a port :
  canonical_ip a -> (remote = true -> port ≠ 0%N) ->
  _parse_endpoint (format_endpoint a port) remote = Some (Some (text_of_ip a), Some (Z.of_N port)).
Proof.
  intros Ha Hp. unfold _parse_endpoint. rewrite strip_no_space by (apply format_endpoint_no_space, Ha).
  destruct (format_endpoint_rpartition a port) as [h Hpart].
  assert (Hnot : bool_decide (format_endpoint a port ∈ [u "*"; u "*:*"; u "0.0.0.0:0"; u "[::]:0"]) && remote = false).
  { destruct remote; [|apply andb_false_r]. rewrite andb_true_r. apply bool_decide_false.
    rewrite !elem_of_cons, elem_of_nil. specialize (Hp eq_refl).
    intros [E|[E|[E|[E|[]]]]]; rewrite E in Hpart; vm_compute in Hpart; try done; injection Hpart as _ Hs.
    - by apply symmetry, str_not_star in Hs.
    - by apply symmetry, str_zero in Hs.
    - by apply symmetry, str_zero in Hs. }
  rewrite Hnot. destruct a as [n|n].
  - assert (Hs : startswith (u "[") (format_endpoint (IPv4 n) port) = false).
    { unfold format_endpoint. cbn [text_of_ip]. unfold text_of_ipv4, octets. cbn [fmap list_fmap join].
      destruct (str_head (n / 16777216 mod 256)) as (c & t & -> & Hc). rewrite <- !app_comm_cons, startswith_bracket.
      by apply N.eqb_neq; lia. }
    rewrite Hs. unfold format_endpoint. rewrite rpartition_app by apply str_no_colon. by apply endpoint_of_spec.
  - unfold format_endpoint. set (x := text_of_ip (IPv6 n)). set (p := str_of_N port).
    assert (Hr : rfind 93%N (91%N :: x ++ 93%N :: COLON :: p) = 1 + Z.of_nat (length x)).
    { unfold rfind. rewrite app_comm_cons, rfind_from_spec.
      - cbn [length]. lia.
      - rewrite not_elem_of_cons. split; [done|]. by apply str_of_N_no. }
    cbn [startswith strip_prefix]. change (startswith (u "[") (91%N :: x ++ 93%N :: COLON :: p)) with true. cbv iota.
    rewrite Hr. assert (Hslice : slice 1 (1 + Z.of_nat (length x)) (91%N :: x ++ 93%N :: COLON :: p) = x).
    { unfold slice, slice_index. cbn [length]. rewrite length_app. cbn [length].
      destruct (Z.ltb_spec 1 0), (Z.ltb_spec (1 + Z.of_nat (length x)) 0); try lia.
      rewrite !Z.min_l by lia. replace (Z.to_nat (1 + Z.of_nat (length x))) with (S (length x)) by lia.
      cbn. by rewrite take_app_length. }
    assert (Hfrom : slice_from (1 + Z.of_nat (length x) + 2) (91%N :: x ++ 93%N :: COLON :: p) = p).
    { unfold slice_from, slice_index. cbn [length]. rewrite length_app. cbn [length].
      destruct (Z.ltb_spec (1 + Z.of_nat (length x) + 2) 0); [lia|]. rewrite Z.min_l by lia.
      replace (Z.to_nat (1 + Z.of_nat (length x) + 2)) with (S (length (x ++ [93; COLON]%N)))
        by (rewrite length_app; cbn; lia).
      cbn [drop]. replace (x ++ 93%N :: COLON :: p) with ((x ++ [93; COLON]%N) ++ p) by (by rewrite <- app_assoc).
      apply drop_app_length. }
    rewrite Hslice, Hfrom. by apply endpoint_of_spec.
Qed.

Lemma parse_peer_format peer :
  match peer with Some (a, port) => canonical_ip a /\ port ≠ 0%N | None => True end ->
  _parse_endpoint (format_peer peer) true =
    Some ((fun p => text_of_ip p.1) <$> peer, (fun p => Z.of_N p.2) <$> peer).
Proof.
  destruct peer as [[a port]|]; intros Hp; [|by vm_compute]. destruct Hp as [Ha Hp].
  cbn [format_peer]. by rewrite parse_endpoint_format.
Qed.

Lemma span_not_app c s t : c ∉ s -> span_not c (s ++ c :: t) = (s, c :: t).
Proof.
  induction s as [|x s IH]; intros Hs; cbn; [by rewrite N.eqb_refl|].
  apply not_elem_of_cons in Hs as [Hx Hs]. destruct (N.eqb_spec x c); [congruence|]. by rewrite IH.
Qed.

Lemma leading_digits_app n acc s c t :
  Forall (fun c => is_digit c = true) s -> digit_value c = None -> s ≠ [] \/ n ≠ O ->
  leading_digits n acc (s ++ c :: t) = Some (foldl (fun acc c => acc * 10 + (Z.of_N c - 48)) acc s).
Proof.
  intros Hs Hc. revert n acc. induction Hs as [|x s Hx _ IH]; intros n acc Hne; cbn.
  - rewrite Hc. destruct n; [by destruct Hne|done].
  - unfold digit_value at 1. rewrite Hx. apply IH. by right.
Qed.

Lemma search_process_format name pid :
  name ≠ [] -> 34%N ∉ name -> search_process (format_process (name, pid)) = Some (name, Z.of_N pid).
Proof.
  intros Hne Hq. unfold format_process. cbn [fst snd].
  set (rest := [40; 40; 34]%N ++ name ++ 34%N :: u ",pid=" ++ str_of_N pid ++ u ",fd=3))").
  assert (Hm : match_process rest = Some (name, Z.of_N pid)).
  { unfold match_process, rest. rewrite strip_prefix_app, span_not_app by done. destruct name as [|c name]; [done|].
    rewrite app_comm_cons, strip_prefix_app. destruct (str_of_N_spec pid) as (Hv & Hall & _ & Hd).
    change (u ",fd=3))") with (44%N :: u "fd=3))"). rewrite leading_digits_app; [|done|done|by left].
    unfold digits_value in Hv. by rewrite Hv. }
  assert (Hs : search_process rest = Some (name, Z.of_N pid)).
  { unfold rest in *. cbn [app search_process]. cbn [app] in Hm. by rewrite Hm. }
  change (u "users:" ++ rest) with (117%N :: 115%N :: 101%N :: 114%N :: 115%N :: 58%N :: rest).
  clearbody rest. cbn [search_process match_process strip_prefix N.eqb Pos.eqb]. exact Hs.
Qed.

Lemma strip_not_nil c s : is_space c = false -> strip (c :: s) ≠ [].
Proof.
  intros Hc. unfold strip, rstrip. cbn [lstrip]. rewrite Hc. cbn [rev].
  intros E. apply (f_equal (@rev N)) in E. rewrite rev_involutive in E. cbn in E.
  assert (G : forall t, lstrip (t ++ [c]) ≠ []); [|by apply (G (rev s))].
  induction t as [|x t IH]; cbn; [by rewrite Hc|]. by destruct (is_space x).
Qed.

Lemma format_peer_no_space peer :
  match peer with Some (a, port) => canonical_ip a /\ port ≠ 0%N | None => True end ->
  no_space (format_peer peer) /\ format_peer peer ≠ [].
Proof.
  destruct peer as [[a port]|]; [|intros _; split; [by repeat (constructor; [by vm_compute|])|done]].
  intros [[Ha _] _]. cbn [format_peer]. split; [by apply format_endpoint_no_space|].
  destruct a; unfold format_endpoint; [|done]. by destruct (text_of_ip _).
Qed.

(** The words of a printed line. *)
Lemma split_format_line s :
  socket_wf s ->
  split_words 6 (format_line s) =
    match sock_state s with Some _ => u "tcp" | None => u "udp" end :: default (u "UNCONN") (sock_state s) ::
    u "0" :: u "0" :: format_endpoint (sock_local s) (sock_local_port s) :: format_peer (sock_peer s) ::
    match sock_process s with Some p => [format_process p] | None => [] end.
Proof.
  intros (Hl & Hst & Hp & Hpr). unfold format_line.
  assert (Hproto : forall b : bool, no_space (if b then u "tcp" else u "udp") /\ (if b then u "tcp" else u "udp") ≠ []).
  { intros []; (split; [by repeat (constructor; [by vm_compute|])|done]). }
  assert (Hstate : no_space (default (u "UNCONN") (sock_state s)) /\ default (u "UNCONN") (sock_state s) ≠ []).
  { destruct (sock_state s); [by destruct Hst as (? & ? & _)|]. split; [by repeat (constructor; [by vm_compute|])|done]. }
  assert (Hzero : no_space (u "0") /\ u "0" ≠ []) by (split; [by repeat (constructor; [by vm_compute|])|done]).
  assert (Hlocal : no_space (format_endpoint (sock_local s) (sock_local_port s)) /\
    format_endpoint (sock_local s) (sock_local_port s) ≠ []).
  { split; [apply format_endpoint_no_space, Hl|].
    destruct (sock_local s); unfold format_endpoint; [by destruct (text_of_ip _)|done]. }
  destruct (format_peer_no_space _ Hp) as [Hpeer Hpeer'].
  assert (Hword : exists b : bool, match sock_state s with Some _ => u "tcp" | None => u "udp" end =
    if b then u "tcp" else u "udp") by (destruct (sock_state s); [by exists true|by exists false]).
  destruct Hword as [b ->]. destruct (Hproto b) as [Hb1 Hb2].
  rewrite split_words_word by done. rewrite split_words_word by apply Hstate.
  rewrite split_words_word by apply Hzero. rewrite split_words_word by apply Hzero. rewrite split_words_word by apply Hlocal.
  do 5 f_equal. destruct (sock_process s) as [p|].
  - rewrite split_words_word by done. done.
  - rewrite app_nil_r. by apply split_words_last.
Qed.

(** C33. A socket printed in the format of [ss] is parsed back as that socket: protocol,
    state, both endpoints with IPv4 or bracketed IPv6 addresses, process name (which
    may hold spaces) and process id. *)
Theorem ss_line_roundtrip s : socket_wf s -> parse_line (format_line s) = LineParsed (socket_connection s).
Proof.
  intros Hwf. pose proof (split_format_line s Hwf) as Hwords. destruct Hwf as (Hl & Hst & Hp & Hpr).
  unfold parse_line. rewrite Hwords.
  destruct (strip (format_line s)) eqn:Es.
  { exfalso. revert Es. unfold format_line. by destruct (sock_state s); apply strip_not_nil; vm_compute. }
  clear Es. set (protocol := match sock_state s with Some _ => u "tcp" | None => u "udp" end).
  assert (Hproto : line_protocol (lower protocol) = Some protocol).
  { unfold protocol. by destruct (sock_state s); vm_compute. }
  match goal with |- context [line_protocol (lower ?x)] => change x with protocol end.
  rewrite Hproto, (parse_endpoint_format false), parse_peer_format by done.
  f_equal. unfold socket_connection. fold protocol.
  assert (Hnorm : _normalize_ip_address_uncached (text_of_ip (sock_local s)) = text_of_ip (sock_local s))
    by (by apply normalize_text_of_ip).
  rewrite Hnorm. f_equal.
  - destruct (loopback_family_of (sock_local s) Hl) as [_ <-]. by destruct (sock_local s).
  - destruct (sock_peer s) as [[a port]|]; [|done]. unfold normalize_ip_address. cbn.
    by rewrite normalize_text_of_ip by apply Hp.
  - unfold protocol. destruct (sock_state s) as [st|]; [|done]. rewrite bool_decide_true by done.
    f_equal. apply Hst.
  - destruct (sock_process s) as [[name pid]|]; [|done]. by rewrite search_process_format by apply Hpr.
  - destruct (sock_process s) as [[name pid]|]; [|done]. by rewrite search_process_format by apply Hpr.
Qed.
End roundtrip.

Definition demo_socket : socket :=
  mkSocket (Some (u "ESTAB")) (IPv6 (2 ^ 125 + 1)) 22 (Some (IPv4 167772162, 5000%N)) (Some (u "sshd: x", 12%N)).

Lemma ss_line_roundtrip_witness :
  format_line demo_socket = u "tcp ESTAB 0 0 [2000::1]:22 10.0.0.2:5000 users:((" ++ 34%N :: u "sshd: x" ++ 34%N :: u ",pid=12,fd=3))" /\
  @parse_line ascii_only no_unicode_digits (format_line demo_socket) = LineParsed (socket_connection demo_socket).
Proof.
  split; [vm_compute; reflexivity|]. apply (@ss_line_roundtrip ascii_only no_unicode_digits demo_socket).
  unfold socket_wf. cbn [demo_socket sock_local sock_state sock_peer sock_process].
  split; [split; vm_compute; reflexivity|]. split; [split; [discriminate|split; [|vm_compute; reflexivity]]|].
  - unfold no_space. repeat (constructor; [vm_compute; reflexivity|]). constructor.
  - split; [split; [split; [vm_compute; reflexivity|exact I]|discriminate]|]. split; [discriminate|].
    apply (bool_decide_unpack _). vm_compute. exact I.
Defined.

(** A local endpoint without its closing bracket is not refused: the slices count from
    the end of the text, and the line becomes a connection with an empty address; a
    negative port is accepted as well. *)
Theorem malformed_endpoint_accepted :
  @_parse_endpoint no_unicode_digits (u "[5") false = Some (Some [], Some 5) /\
  @_parse_endpoint no_unicode_digits (u "10.0.0.1:-5") false = Some (Some (u "10.0.0.1"), Some (-5)).
Proof. by vm_compute. Qed.

(** ** The client is always closed *)

Section client.
Context `{UnicodeCase, UnicodeDigits}.

Lemma collection_of_spec output warnings :
  collection_of output warnings =
    match connections (_parse_ss_output_details output), skipped_lines (_parse_ss_output_details output) with
    | [], first :: _ =>
        Raise (CollectorError (u "parse_error") (u "无法解析 ss 第 " ++ str_of_Z (line_number first) ++ u " 行"))
    | rows, skipped =>
        let warnings := warnings ++
          match skipped with
          | [] => []
          | _ => [u "已跳过 " ++ str_of_Z (Z.of_nat (length skipped)) ++ u " 条无法解析的 ss 记录"]
          end in
        Ok (mkCollection rows (match warnings with [] => None | _ => Some (join_warnings warnings) end))
    end.
Proof.
  unfold collection_of, _raise_if_all_candidates_invalid.
  destruct (connections _) as [|c rows], (skipped_lines _) as [|first skipped]; done.
Qed.

Lemma warning_of_none warnings :
  match warnings with [] => None | _ => Some (join_warnings warnings) end = None <-> warnings = [].
Proof. by destruct warnings. Qed.

Lemma collection_of_ok output warnings c :
  collection_of output warnings = Ok c ->
  Forall connection_ok (collected_connections c) /\
  (collected_warning c = None <-> warnings = [] /\ skipped_lines (_parse_ss_output_details output) = []).
Proof.
  rewrite collection_of_spec. pose proof (parse_lines_ok output) as Hok.
  set (rows := connections _) in *. set (skipped := skipped_lines _).
  set (extra := match skipped with [] => [] | _ => [u "已跳过 " ++ str_of_Z (Z.of_nat (length skipped)) ++ u " 条无法解析的 ss 记录"] end).
  assert (Hextra : extra = [] <-> skipped = []) by (unfold extra; by destruct skipped).
  assert (G : forall c, Ok (mkCollection rows (match warnings ++ extra with [] => None | _ => Some (join_warnings (warnings ++ extra)) end)) = Ok c :> result exn _ ->
    Forall connection_ok (collected_connections c) /\ (collected_warning c = None <-> warnings = [] /\ skipped = [])).
  { intros c' [= <-]. cbn [collected_connections collected_warning]. split; [done|].
    rewrite warning_of_none, <- Hextra. split; [apply app_nil|by intros [-> ->]]. }
  destruct rows; [destruct skipped; [|done]|]; apply G.
Qed.

(** A collection over SSH closes its client: when connecting succeeds or fails in one
    of the known ways, the client is closed once, last, after at most the two [ss]
    commands, the second only when the first exited with an error.  The result comes from the
    output of the command that exited with 0, without a warning exactly when that was
    the first one and no line was skipped; and a failed connection is reported with
    its own error code. *)
Theorem linux_collect_protocol client device password :
  let (r, events) := linux_collect client device password in
  match client_connect client device password with
  | Raise (OtherSshError e) => r = Raise e /\ events = [Opened]
  | Raise e => events = [Opened; Closed] /\ exists code message,
      r = Raise (CollectorError code message) /\
      code = match e with
             | AuthenticationException => u "authentication_failed"
             | ConnectTimeout => u "connection_timeout"
             | _ => u "connection_failed"
             end
  | Ok _ =>
      exists commands, events = Opened :: (Executed <$> commands) ++ [Closed] /\
      match execute client SS_WITH_PROCESS with
      | Raise e => commands = [SS_WITH_PROCESS] /\ r = Raise e
      | Ok (code, output, error) =>
          if code =? 0 then commands = [SS_WITH_PROCESS] /\ r = collection_of output []
          else commands = [SS_WITH_PROCESS; SS_WITHOUT_PROCESS] /\
            match execute client SS_WITHOUT_PROCESS with
            | Raise e => r = Raise e
            | Ok (code', output', _) =>
                if code' =? 0
                then r = collection_of output' [u "当前账户无法读取完整进程信息，已降级采集网络连接"]
                else exists message, r = Raise (CollectorError (u "command_unavailable") message)
            end
      end /\
      forall c, r = Ok c -> Forall connection_ok (collected_connections c) /\
        (collected_warning c = None <-> commands = [SS_WITH_PROCESS] /\
           exists output error, execute client SS_WITH_PROCESS = Ok (0, output, error) /\
             skipped_lines (_parse_ss_output_details output) = [])
  end.
Proof.
  unfold linux_collect, _connect.
  destruct (client_connect client device password) as [x|[| |m|e]]; [|eauto..].
  destruct (execute client SS_WITH_PROCESS) as [[[code output] error]|e].
  2:{ exists [SS_WITH_PROCESS]. split_and!; done. }
  destruct (Z.eqb_spec code 0) as [->|Hne].
  - exists [SS_WITH_PROCESS]. split; [done|]. split; [done|]. intros c Hc.
    destruct (collection_of_ok _ _ _ Hc) as [? Hw]. split; [done|]. rewrite Hw. split.
    + intros [_ Hskip]. split; [done|]. by exists output, error.
    + intros (_ & o & er & [= <- <-] & ?). done.
  - exists [SS_WITH_PROCESS; SS_WITHOUT_PROCESS]. split; [done|].
    destruct (execute client SS_WITHOUT_PROCESS) as [[[code' output'] error']|e]; [|by split_and!].
    destruct (code' =? 0); cbn [negb]; [|split; [split; [done|eauto]|done]]. split; [done|].
    intros c Hc. destruct (collection_of_ok _ _ _ Hc) as [? Hw]. split; [done|]. rewrite Hw.
    split; [by intros []|]. by intros [].
Qed.
End client.

(** ** Reading a command's output *)

Definition out_of (a : ChannelAnswer) : option (list N) := match a with OutReady c => Some c | _ => None end.
Definition err_of (a : ChannelAnswer) : option (list N) := match a with ErrReady c => Some c | _ => None end.
Definition clock_of (a : ChannelAnswer) : option Z := match a with Monotonic t => Some t | _ => None end.

(** What the channel delivered, and what the clock showed. *)
Definition received (answers : list ChannelAnswer) : list N * list N := (concat (omap out_of answers), concat (omap err_of answers)).
Definition clock_readings (answers : list ChannelAnswer) : list Z := omap clock_of answers.

Definition final (r : Reading) : bool := match read_phase r with FinalOut | FinalErr => true | _ => false end.

Lemma read_step_still deadline a r r' :
  read_step deadline a r = Some (StillReading r') ->
  output_chunks r' = output_chunks r ++ default [] (out_of a) /\ error_chunks r' = error_chunks r ++ default [] (err_of a) /\
  (forall t, clock_of a = Some t -> t < deadline) /\ (final r' = true -> final r = true \/ a = Status true).
Proof.
  destruct r as [ph out err]. destruct ph, a; cbn [read_step]; try discriminate; try (destruct (Z.leb_spec deadline now); [discriminate|]);
    intros [= <-]; cbn; rewrite ?app_nil_r; split_and!; try done; try (intros t [= <-]; lia); auto.
  destruct finished; auto.
Qed.

Lemma read_step_done deadline a r x :
  read_step deadline a r = Some (ReadDone x) ->
  (x = Ok (output_chunks r, error_chunks r) /\ final r = true /\ a = ErrEmpty) \/ x = Raise command_timeout \/ x = Raise command_failed.
Proof.
  destruct r as [ph out err]. destruct ph, a; cbn [read_step]; intros E; try discriminate E;
    try (destruct (deadline <=? now); [|discriminate E]); injection E as <-;
    lazymatch goal with
    | |- Raise command_timeout = _ /\ _ \/ _ => right; left; reflexivity
    | |- Raise command_failed = _ /\ _ \/ _ => right; right; reflexivity
    | _ => by left
    end.
Qed.

Lemma received_cons a answers :
  received (a :: answers) = (default [] (out_of a) ++ (received answers).1, default [] (err_of a) ++ (received answers).2).
Proof. unfold received. cbn. by destruct (out_of a), (err_of a). Qed.

Lemma read_all_spec deadline answers r st :
  read_all deadline answers r = Some st ->
  match st with
  | StillReading r' => Forall (fun t => t < deadline) (clock_readings answers)
  | ReadDone (Ok x) =>
      x = (output_chunks r ++ (received answers).1, error_chunks r ++ (received answers).2) /\ (final r = true \/ Status true ∈ answers)
  | ReadDone (Raise e) => e = command_timeout \/ e = command_failed
  end.
Proof.
  revert r. induction answers as [|a answers IH]; intros r; cbn [read_all]; [by intros [= <-]; constructor|].
  destruct (read_step deadline a r) as [[r1|x]|] eqn:E; [|destruct answers; [|done]; intros [= <-]|done].
  - apply read_step_still in E as (Eo & Ee & Ht & Hf). intros H1. specialize (IH r1 H1). rewrite received_cons. cbn [fst snd].
    destruct st as [r'|[x|e]]; [|destruct IH as [-> Hd]|done].
    + cbn. destruct (clock_of a) as [t|] eqn:Ea; [constructor; [by apply Ht|done]|done].
    + rewrite Eo, Ee, <- !app_assoc. split; [done|]. destruct Hd as [Hd|Hd]; [|right; set_solver].
      destruct (Hf Hd) as [Hr|Hr]; [by left|right; subst a; set_solver].
  - apply read_step_done in E as [(Ex & Hf & Ea)|[Ex|Ex]]; subst x; [subst a|by left|by right]. cbn. rewrite !app_nil_r. auto.
Qed.

(** The clock moves on between two readings: the loop sleeps a hundredth of a second. *)
Fixpoint ticking (now : Z) (readings : list Z) : Prop :=
  match readings with [] => True | t :: readings => now + 1 <= t /\ ticking t readings end.

Lemma ticking_count deadline now readings :
  ticking now readings -> Forall (fun t => t < deadline) readings -> Z.of_nat (length readings) <= Z.max 0 (deadline - now - 1).
Proof.
  intros Ht Hf. revert now Ht. induction Hf as [|t readings Hlt Hf IH]; intros now Ht; cbn [length]; [lia|].
  destruct Ht as [Ht Hr]. specialize (IH t Hr). lia.
Qed.



(** A channel that always has more output is never asked for the time. *)
Lemma endless_output_has_no_deadline decode timeout start status chunk n :
  _execute decode timeout start status (replicate n (OutReady chunk)) = None.
Proof.
  unfold _execute. assert (H : forall out, exists r, read_all (start + 100 * timeout) (replicate n (OutReady chunk)) (mkReading DrainOut out []) = Some (StillReading r)).
  { induction n as [|n IH]; intros out; cbn; [eauto|]. apply IH. }
  by destruct (H []) as [r ->].
Qed.
