(* ===== verification/WindowsCollector.v ===== *)
(** * The Windows collector (src/app/collectors/windows.py)

    Parsing the JSON the PowerShell script prints, and the WinRM session around it.
    [json.loads] is a parameter, and so are the client (pywinrm) and the decoding of its
    bytes.  The exceptions of the interpreter itself (a value of the wrong type) are
    [type_error]: nothing reads their texts. *)

From S2P Require Import Prelude PyText IpAddress Addresses Exceptions Collectors LinuxCollector.

(** ** JSON values as Python has them

    A float is what the code reads of it: [str], whether it equals zero, and [int]. *)
#[warnings="-register-all"]
Inductive json :=
| JNull
| JBool (b : bool)
| JInt (z : Z)
| JFloat (repr : text) (is_zero : bool) (truncated : option Z)
| JString (s : text)
| JArray (values : list json)
| JObject (members : list (text * json)).

Definition type_error : exn := OtherError (u "TypeError").
Definition int_error : exn := ValueError (u "invalid literal for int()").

(** The value of a key; [json.loads] leaves each key once. *)
Fixpoint member_of (name : text) (members : list (text * json)) : option json :=
  match members with
  | [] => None
  | (k, v) :: members => if bool_decide (k = name) then Some v else member_of name members
  end.

Definition is_string (name : text) (v : json) : bool :=
  match v with JString s => bool_decide (s = name) | _ => false end.

(** [name in row] and then [row[name]]: a string and a list have an [in] of their own, and
    no text for an index. *)
Definition lookup_name (row : json) (name : text) : result exn (option json) :=
  match row with
  | JObject members => Ok (member_of name members)
  | JString s => if contains name s then Raise type_error else Ok None
  | JArray values => if existsb (is_string name) values then Raise type_error else Ok None
  | _ => Raise type_error
  end.

Fixpoint _value (row : json) (names : list text) : result exn json :=
  match names with
  | [] => Ok JNull
  | name :: names => v ← lookup_name row name; match v with Some v => Ok v | None => _value row names end
  end.

(** [value in {None, ...}]: a list or a dict cannot be looked up in a set. *)
Definition hashed (v : json) (P : json -> bool) : result exn bool :=
  match v with JArray _ | JObject _ => Raise type_error | _ => Ok (P v) end.

(** [value in {None, "", "0.0.0.0", "::"}] *)
Definition no_address (v : json) : bool :=
  match v with
  | JNull => true
  | JString s => bool_decide (s ∈ [[]; u "0.0.0.0"; u "::"])
  | _ => false
  end.

(** [value in {None, 0, "0"}] *)
Definition no_number (v : json) : bool :=
  match v with
  | JNull => true
  | JBool b => negb b
  | JInt z => z =? 0
  | JFloat _ is_zero _ => is_zero
  | JString s => bool_decide (s = u "0")
  | JArray _ | JObject _ => false
  end.

(** The truth value. *)
Definition json_true (v : json) : bool :=
  match v with
  | JNull => false
  | JBool b => b
  | JInt z => negb (z =? 0)
  | JFloat _ is_zero _ => negb is_zero
  | JString s => negb (bool_decide (s = []))
  | JArray values => match values with [] => false | _ => true end
  | JObject members => match members with [] => false | _ => true end
  end.

Inductive winrm_error :=
| InvalidCredentialsError
| WinRMOperationTimeoutError
| WinRMTransportError
| OtherWinRMError (message : text).

Record SessionConfig := mkSessionConfig {
  endpoint : text;
  auth : text * text;
  read_timeout_sec : Z;
  operation_timeout_sec : Z;
  validate_certificate : bool
}.

Record PsResponse := mkPsResponse {
  std_out : list N;
  std_err : list N;
  status_code : Z
}.

Definition WINDOWS_COMPONENT_ERROR : exn :=
  CollectorError (u "windows_component_unavailable") (u "当前环境未安装 Windows 采集组件，请安装 pywinrm").

Section windows.
Context `{UnicodeCase, UnicodeDigits}.
Context (json_loads : text -> option json) (repr : json -> text) (decode : list N -> text).

(** [str(value)]; [repr] is that of a list and of a dict. *)
Definition json_str (v : json) : text :=
  match v with
  | JNull => u "None"
  | JBool true => u "True"
  | JBool false => u "False"
  | JInt z => str_of_Z z
  | JFloat r _ _ => r
  | JString s => s
  | JArray _ | JObject _ => repr v
  end.

(** [int(value)] *)
Definition json_int (v : json) : result exn Z :=
  match v with
  | JBool b => Ok (Z.b2z b)
  | JInt z => Ok z
  | JFloat _ _ t => match t with Some z => Ok z | None => Raise int_error end
  | JString s => match py_int s with Some z => Ok z | None => Raise int_error end
  | JNull | JArray _ | JObject _ => Raise type_error
  end.

Definition WINDOWS_PROTOCOLS : list text := [u "tcp"; u "udp"].

(** One turn of the loop; [None] for a row of another protocol. *)
Definition row_connection (row : json) : result exn (option NormalizedConnection) :=
  protocol_raw ← _value row [u "Protocol"; u "protocol"];
  let protocol := lower (json_str protocol_raw) in
  if negb (bool_decide (protocol ∈ WINDOWS_PROTOCOLS)) then Ok None else
  local_raw ← _value row [u "LocalAddress"; u "local_address"];
  local_port_raw ← _value row [u "LocalPort"; u "local_port"];
  local_port ← json_int local_port_raw;
  remote_raw ← _value row [u "RemoteAddress"; u "remote_address"];
  remote_port_raw ← _value row [u "RemotePort"; u "remote_port"];
  no_remote ← hashed remote_raw no_address;
  let local_ip := _normalize_ip_address_uncached (json_str local_raw) in
  let remote_ip := normalize_ip_address (if no_remote : bool then None else Some (json_str remote_raw)) in
  remote_port ←
    match remote_ip with
    | None => Ok None
    | Some _ =>
        absent ← hashed remote_port_raw no_number;
        if absent : bool then Ok None else port ← json_int remote_port_raw; Ok (Some port)
    end;
  state_raw ← _value row [u "State"; u "state"];
  pid_raw ← _value row [u "OwningProcess"; u "pid"];
  process_raw ← _value row [u "ProcessName"; u "process_name"];
  no_pid ← hashed pid_raw no_number;
  pid ← (if no_pid : bool then Ok None else pid ← json_int pid_raw; Ok (Some pid));
  Ok (Some (mkConnection protocol (address_family local_ip) local_ip local_port remote_ip remote_port
    (if json_true state_raw then Some (upper (json_str state_raw)) else None) pid
    (if json_true process_raw then Some (json_str process_raw) else None))).

Fixpoint rows_connections (rows : list json) : result exn (list NormalizedConnection) :=
  match rows with
  | [] => Ok []
  | row :: rows =>
      connection ← row_connection row;
      connections ← rows_connections rows;
      Ok (match connection with Some c => c :: connections | None => connections end)
  end.

Definition report_rows (decoded : json) : list json :=
  match decoded with JArray rows => rows | _ => [decoded] end.

Definition parse_windows_json (output : text) : result exn (list NormalizedConnection) :=
  match strip output with
  | [] => Ok []
  | _ =>
      match json_loads output with
      | None => Raise (CollectorError (u "parse_error") (u "Windows 返回了无效 JSON"))
      | Some decoded => rows_connections (report_rows decoded)
      end
  end.

(** ** The session

    [session_factory] is absent when pywinrm is not installed; [run_ps] runs a script. *)

Section session.
Context {Session : Type} (session_factory : option (SessionConfig -> result exn Session)).
Context (run_ps : Session -> text -> result winrm_error PsResponse).
Context (timeout : Z) (test_script connection_script : text).

Definition _session (device : DeviceConnectionSpec) (password : text) : result exn Session :=
  match session_factory with
  | None => Raise WINDOWS_COMPONENT_ERROR
  | Some factory =>
      let https := spec_port device =? 5986 in
      factory (mkSessionConfig
        ((if https then u "https" else u "http") ++ u "://" ++ spec_host device ++ u ":" ++
           str_of_Z (spec_port device) ++ u "/wsman")
        (spec_username device, password) (timeout + 5) timeout (negb https))
  end.

Definition _run (session : Session) (script : text) : result exn text :=
  match run_ps session script with
  | Raise InvalidCredentialsError => Raise (CollectorError (u "authentication_failed") (u "WinRM 用户名或密码错误"))
  | Raise WinRMOperationTimeoutError => Raise (CollectorError (u "command_timeout") (u "WinRM 命令执行超时"))
  | Raise WinRMTransportError => Raise (CollectorError (u "connection_failed") (u "无法连接 WinRM 服务"))
  | Raise (OtherWinRMError m) => Raise (CollectorError (u "connection_failed") (u "WinRM 连接失败: " ++ m))
  | Ok response =>
      let stdout := decode (std_out response) in
      let stderr := strip (decode (std_err response)) in
      if negb (status_code response =? 0)
      then Raise (CollectorError (u "command_failed") (or_text stderr (u "Windows 采集命令执行失败")))
      else Ok stdout
  end.

Definition windows_test_connection (device : DeviceConnectionSpec) (password : text) : result exn () :=
  session ← _session device password;
  _ ← _run session test_script;
  Ok ().

Definition windows_collect (device : DeviceConnectionSpec) (password : text) : result exn CollectionResult :=
  session ← _session device password;
  output ← _run session connection_script;
  connections ← parse_windows_json output;
  Ok (mkCollection connections None).
End session.
End windows.

(** ** A report is parsed back

    A connection as the script prints it. *)

Record win_socket := mkWinSocket {
  win_state : option text;  (* [None] for UDP *)
  win_local : ip;
  win_local_port : N;
  win_peer : option (ip * N);
  win_pid : N;
  win_process : option text
}.

Definition opt_text (s : option text) : json := match s with Some s => JString s | None => JNull end.

(** A TCP socket without a peer has an unspecified address and port 0; a UDP endpoint has
    neither. *)
Definition win_row (s : win_socket) : json :=
  JObject
    [(u "Protocol", JString (match win_state s with Some _ => u "tcp" | None => u "udp" end));
     (u "LocalAddress", JString (text_of_ip (win_local s)));
     (u "LocalPort", JInt (Z.of_N (win_local_port s)));
     (u "RemoteAddress",
        match win_peer s, win_state s, win_local s with
        | Some (a, _), _, _ => JString (text_of_ip a)
        | None, Some _, IPv4 _ => JString (u "0.0.0.0")
        | None, Some _, IPv6 _ => JString (u "::")
        | None, None, _ => JNull
        end);
     (u "RemotePort",
        match win_peer s, win_state s with
        | Some (_, p), _ => JInt (Z.of_N p)
        | None, Some _ => JInt 0
        | None, None => JNull
        end);
     (u "State", opt_text (win_state s));
     (u "OwningProcess", JInt (Z.of_N (win_pid s)));
     (u "ProcessName", opt_text (win_process s))].

(** A single row is printed without its list. *)
Definition win_report (sockets : list win_socket) : json :=
  match sockets with [s] => win_row s | _ => JArray (win_row <$> sockets) end.

Definition win_connection `{UnicodeCase} (s : win_socket) : NormalizedConnection :=
  mkConnection
    (match win_state s with Some _ => u "tcp" | None => u "udp" end)
    (match win_local s with IPv4 _ => u "ipv4" | IPv6 _ => u "ipv6" end)
    (text_of_ip (win_local s)) (Z.of_N (win_local_port s))
    ((fun p => text_of_ip p.1) <$> win_peer s) ((fun p => Z.of_N p.2) <$> win_peer s)
    (upper <$> win_state s) (if (win_pid s =? 0)%N then None else Some (Z.of_N (win_pid s))) (win_process s).

(** Canonical addresses, a peer that is specified, and no empty names. *)
Definition win_wf (s : win_socket) : Prop :=
  canonical_ip (win_local s) /\ win_state s <> Some [] /\ win_process s <> Some [] /\
  match win_peer s with
  | Some (a, p) => canonical_ip a /\ text_of_ip a <> u "0.0.0.0" /\ text_of_ip a <> u "::" /\ p <> 0%N
  | None => True
  end.

Section roundtrip.
Context `{UnicodeCase, UnicodeDigits} (repr : json -> text).

(** The keys of a printed row. *)
Lemma win_values v1 v2 v3 v4 v5 v6 v7 v8 :
  let row := JObject [(u "Protocol", v1); (u "LocalAddress", v2); (u "LocalPort", v3); (u "RemoteAddress", v4);
                      (u "RemotePort", v5); (u "State", v6); (u "OwningProcess", v7); (u "ProcessName", v8)] in
  _value row [u "Protocol"; u "protocol"] = Ok v1 /\ _value row [u "LocalAddress"; u "local_address"] = Ok v2 /\
  _value row [u "LocalPort"; u "local_port"] = Ok v3 /\ _value row [u "RemoteAddress"; u "remote_address"] = Ok v4 /\
  _value row [u "RemotePort"; u "remote_port"] = Ok v5 /\ _value row [u "State"; u "state"] = Ok v6 /\
  _value row [u "OwningProcess"; u "pid"] = Ok v7 /\ _value row [u "ProcessName"; u "process_name"] = Ok v8.
Proof. cbn zeta. split_and!; vm_compute; reflexivity. Qed.

Lemma text_of_ip_not_nil a : canonical_ip a -> text_of_ip a <> [].
Proof.
  intros Hc E. pose proof (denoted_text_of_ip a Hc) as H'. rewrite E in H'. vm_compute in H'. discriminate H'.
Qed.

(** The address and the port of the peer as printed. *)
Definition win_remote_address (s : win_socket) : json :=
  match win_peer s, win_state s, win_local s with
  | Some (a, _), _, _ => JString (text_of_ip a)
  | None, Some _, IPv4 _ => JString (u "0.0.0.0")
  | None, Some _, IPv6 _ => JString (u "::")
  | None, None, _ => JNull
  end.

Definition win_remote_port (s : win_socket) : json :=
  match win_peer s, win_state s with
  | Some (_, p), _ => JInt (Z.of_N p)
  | None, Some _ => JInt 0
  | None, None => JNull
  end.

Lemma win_remote s :
  win_wf s ->
  hashed (win_remote_address s) no_address = Ok (bool_decide (win_peer s = None)) /\
  (win_peer s <> None -> json_str repr (win_remote_address s) = default [] ((fun p => text_of_ip p.1) <$> win_peer s)) /\
  (win_peer s <> None -> hashed (win_remote_port s) no_number = Ok false /\
     json_int (win_remote_port s) = Ok (default 0 ((fun p => Z.of_N p.2) <$> win_peer s))).
Proof.
  intros (_ & _ & _ & Hp). unfold win_remote_address, win_remote_port. destruct (win_peer s) as [[a p]|].
  - destruct Hp as (Hc & H1 & H2 & H3). split_and!; [|done|].
    + cbn [hashed no_address]. f_equal. rewrite !bool_decide_false; [done|done|].
      rewrite !elem_of_cons, elem_of_nil. pose proof (text_of_ip_not_nil a Hc). tauto.
    + intros _. split; [|done]. cbn. f_equal. apply Z.eqb_neq. lia.
  - split_and!; [|done..]. destruct (win_state s), (win_local s); vm_compute; reflexivity.
Qed.

Lemma win_protocol_ok (st : option text) :
  lower (json_str repr (JString (match st with Some _ => u "tcp" | None => u "udp" end))) =
    match st with Some _ => u "tcp" | None => u "udp" end /\
  negb (bool_decide (match st with Some _ => u "tcp" | None => u "udp" end ∈ WINDOWS_PROTOCOLS)) = false.
Proof. by destruct st; vm_compute. Qed.

Lemma opt_text_read (s : option text) :
  s <> Some [] -> (if json_true (opt_text s) then Some (json_str repr (opt_text s)) else None) = s.
Proof. destruct s as [[|c s]|]; done. Qed.

Lemma row_connection_win s : win_wf s -> row_connection repr (win_row s) = Ok (Some (win_connection s)).
Proof.
  intros Hwf. destruct (win_remote s Hwf) as (R1 & R2 & R3). destruct Hwf as (Hl & Hst & Hpr & Hp).
  unfold row_connection. unfold win_row at 1 2 3 4 5 6 7 8.
  fold (win_remote_address s). fold (win_remote_port s).
  edestruct win_values as (V1 & V2 & V3 & V4 & V5 & V6 & V7 & V8). cbn zeta in *.
  rewrite V1. cbn [mbind result_bind]. destruct (win_protocol_ok (win_state s)) as [-> ->].
  rewrite V2. cbn [mbind result_bind]. rewrite V3. cbn [mbind result_bind json_int]. rewrite V4, V5.
  cbn [mbind result_bind]. rewrite R1. cbn [mbind result_bind].
  assert (Hremote : normalize_ip_address (if bool_decide (win_peer s = None) then None
    else Some (json_str repr (win_remote_address s))) = (fun p => text_of_ip p.1) <$> win_peer s).
  { destruct (win_peer s) as [[a p]|] eqn:Ep; [|by rewrite bool_decide_true].
    rewrite bool_decide_false, R2 by done. cbn. by rewrite normalize_text_of_ip by apply Hp. }
  rewrite Hremote.
  assert (Hport : match (fun p => text_of_ip p.1) <$> win_peer s with
    | None => Ok None
    | Some _ => absent ← hashed (win_remote_port s) no_number;
        if absent : bool then Ok None else port ← json_int (win_remote_port s); Ok (Some port)
    end = Ok (E := exn) ((fun p => Z.of_N p.2) <$> win_peer s)).
  { destruct (win_peer s) as [[a p]|]; [|done]. destruct R3 as [-> ->]; done. }
  rewrite Hport. cbn [mbind result_bind]. rewrite V6, V7, V8. cbn [mbind result_bind hashed no_number json_int].
  assert (Hpid : (if Z.of_N (win_pid s) =? 0 then Ok None else Ok (Some (Z.of_N (win_pid s)))) =
    Ok (E := exn) (if (win_pid s =? 0)%N then None else Some (Z.of_N (win_pid s)))).
  { destruct (N.eqb_spec (win_pid s) 0) as [->|Hne]; [done|]. destruct (Z.eqb_spec (Z.of_N (win_pid s)) 0); [lia|done]. }
  rewrite Hpid. cbn [mbind result_bind]. rewrite (opt_text_read (win_process s) Hpr).
  unfold win_connection. cbn [json_str]. rewrite normalize_text_of_ip by done.
  do 3 f_equal.
  - destruct (loopback_family_of (win_local s) Hl) as [_ <-]. by destruct (win_local s).
  - destruct (win_state s) as [[|c st]|]; done.
Qed.

Lemma rows_connections_win sockets :
  Forall win_wf sockets -> rows_connections repr (win_row <$> sockets) = Ok (win_connection <$> sockets).
Proof.
  induction 1 as [|s sockets Hs _ IH]; [done|]. rewrite !fmap_cons. cbn [rows_connections].
  by rewrite (row_connection_win s Hs), IH.
Qed.

Lemma report_rows_win sockets : report_rows (win_report sockets) = win_row <$> sockets.
Proof. by destruct sockets as [|s [|s' sockets]]. Qed.

(** C38. A report of the PowerShell script is read back. Whatever the sockets, one, none or many,
    TCP or UDP, with IPv4 or IPv6 addresses, with or without a peer, a process id and a
    process name, the connections parsed from the JSON of their report are those sockets,
    in order: the state in capitals, and no peer for the unspecified address. *)
Theorem windows_report_roundtrip (json_loads : text -> option json) output sockets :
  json_loads output = Some (win_report sockets) -> Forall win_wf sockets -> strip output <> [] ->
  parse_windows_json json_loads repr output = Ok (win_connection <$> sockets).
Proof.
  intros Hj Hw Hs. unfold parse_windows_json. destruct (strip output); [done|].
  by rewrite Hj, report_rows_win, rows_connections_win.
Qed.

(** Every row of a report is accounted for, and one that cannot be read raises: the
    connections are those of the TCP and UDP rows, in order. *)
Lemma rows_connections_accounted rows cs :
  rows_connections repr rows = Ok cs <->
  exists os, Forall2 (fun row o => row_connection repr row = Ok o) rows os /\ cs = omap id os.
Proof.
  revert cs. induction rows as [|row rows IH]; intros cs; cbn [rows_connections].
  - split; [intros [= <-]; by exists []|]. intros (os & Hos & ->). by apply Forall2_nil_inv_l in Hos as ->.
  - rewrite bind_Ok. split.
    + intros (o & Ho & (cs' & Hcs & E)%bind_Ok). apply IH in Hcs as (os & Hos & ->). exists (o :: os). split; [by constructor|].
      destruct o; by injection E as <-.
    + intros (os & Hos & ->). apply Forall2_cons_inv_l in Hos as (o & os' & Ho & Hos & ->). exists o. split; [done|].
      apply bind_Ok. exists (omap id os'). split; [apply IH; eauto|]. by destruct o.
Qed.
End roundtrip.

(** ** Examples *)

Definition demo_sockets : list win_socket :=
  [mkWinSocket (Some (u "Established")) (IPv4 167772161) 50000 (Some (IPv4 167772162, 443%N)) 4 (Some (u "svc host"));
   mkWinSocket (Some (u "Listen")) (IPv6 1) 80 None 0 None; mkWinSocket None (IPv4 0) 53 None 900 (Some (u "dns"))].

Lemma windows_report_roundtrip_witness :
  @parse_windows_json ascii_only no_unicode_digits (fun _ => Some (win_report demo_sockets)) (fun _ => []) (u "[]") =
    Ok (@win_connection ascii_only <$> demo_sockets).
Proof.
  apply (@windows_report_roundtrip ascii_only no_unicode_digits (fun _ => []) (fun _ => Some (win_report demo_sockets))).
  - reflexivity.
  - repeat constructor; try discriminate; vm_compute; try reflexivity; discriminate.
  - vm_compute. discriminate.
Defined.

(** A row without a port raises an exception of the interpreter, not a [CollectorError]. *)
Lemma windows_row_without_port :
  @parse_windows_json ascii_only no_unicode_digits (fun _ => Some (JObject [(u "Protocol", JString (u "tcp"))]))
    (fun _ => []) (u "{}") = Raise type_error.
Proof. vm_compute. reflexivity. Qed.
