(* ===== verification/ServiceObservations.v ===== *)
(** * Service observations (src/app/services/service_observations.py)

    Which connections are persisted, and the per-scan aggregation of connection
    records into one observation per service. *)

From S2P Require Import Prelude PyText Models Collectors.

(** ** The persistence filter *)

Definition _KEPT_TCP_STATES : list text := [u "ESTAB"; u "ESTABLISHED"].

Definition keep_connection_record `{UnicodeCase} (row : NormalizedConnection) : bool :=
  match nc_remote_ip row with
  | None => true
  | Some _ =>
      if bool_decide (nc_protocol row = u "udp") then true
      else bool_decide (upper (default [] (nc_state row)) ∈ _KEPT_TCP_STATES)
  end.

(** ** The aggregation query [_SYNC_SQL]

    [string_agg(DISTINCT x, ',')] concatenates the distinct values in an order
    PostgreSQL chooses: [distinct_values] is that choice. *)

Class PgAggregates := {
  distinct_values : list text -> list text;
  distinct_values_NoDup xs : NoDup (distinct_values xs);
  elem_of_distinct_values xs x : x ∈ distinct_values xs <-> x ∈ xs
}.

(** First occurrences, in order: one order PostgreSQL may choose. *)
Definition first_occurrences : PgAggregates := {|
  distinct_values := remove_dups;
  distinct_values_NoDup := NoDup_remove_dups;
  elem_of_distinct_values xs x := elem_of_remove_dups xs x
|}.

Definition string_agg_distinct `{PgAggregates} (xs : list text) : option text :=
  match distinct_values xs with
  | [] => None
  | ys => Some (join 44 ys)
  end.

(** The grouping key: scan, protocol, remote address, coalesced port and process. *)
Definition service_key : Type := Z * text * text * Z * text.

Definition record_key (r : ConnectionRecord) : option service_key :=
  match conn_remote_ip r with
  | None => None
  | Some remote_ip =>
      Some (conn_scan_run_id r, conn_protocol r, remote_ip,
            default 0 (conn_remote_port r), default [] (conn_process_name r))
  end.

Definition observation_key (o : ConnectionServiceObservation) : service_key :=
  (obs_scan_run_id o, obs_protocol o, obs_remote_ip o, obs_remote_port o, obs_process_name o).

(** The rows of the [FROM ... JOIN ... WHERE] clause, by ascending identifier. *)
Definition in_sync_range (lower_id upper_id : Z) (d : Db) (r : ConnectionRecord) : bool :=
  match scan_runs d !! conn_scan_run_id r with
  | None => false
  | Some scan =>
      (lower_id <=? conn_scan_run_id r) && (conn_scan_run_id r <? upper_id) &&
      bool_decide (run_status scan = SCAN_SUCCESS) &&
      bool_decide (is_Some (conn_remote_ip r))
  end.

Definition sync_records (lower_id upper_id : Z) (d : Db) : list (Z * ConnectionRecord) :=
  omap (fun i => r ← connection_records d !! i; Some (i, r))
    (sorted_ids (select_ids (fun _ => in_sync_range lower_id upper_id d) (connection_records d))).

Definition of_key (k : service_key) (p : Z * ConnectionRecord) : bool :=
  bool_decide (record_key p.2 = Some k).

Definition last_id (rows : list (Z * ConnectionRecord)) : Z :=
  foldl (fun _ p => p.1) 0 rows.

(** [(array_agg(remote_hostname ORDER BY id DESC) FILTER (... IS NOT NULL))[1]] *)
Definition last_hostname (rows : list (Z * ConnectionRecord)) : option text :=
  foldl (fun h p => match conn_remote_hostname p.2 with Some x => Some x | None => h end)
    None rows.

Definition group_observation `{PgAggregates} (d : Db) (k : service_key)
    (rows : list (Z * ConnectionRecord)) : option ConnectionServiceObservation :=
  let '(scan_id, protocol, remote_ip, remote_port, process_name) := k in
  match scan_runs d !! scan_id with
  | None => None
  | Some scan =>
      Some {| obs_scan_run_id := scan_id;
              obs_device_id := run_device_id scan;
              obs_started_at := run_started_at scan;
              obs_protocol := protocol;
              obs_remote_ip := remote_ip;
              obs_remote_port := remote_port;
              obs_process_name := process_name;
              obs_sample_connection_id := last_id rows;
              obs_remote_hostname := last_hostname rows;
              obs_local_ips :=
                default [] (string_agg_distinct ((fun p => conn_local_ip p.2) <$> rows));
              obs_local_ports :=
                default [] (string_agg_distinct ((fun p => str_of_Z (conn_local_port p.2)) <$> rows));
              obs_pids :=
                string_agg_distinct (omap (fun p => str_of_Z <$> conn_pid p.2) rows) |}
  end.

(** [ON CONFLICT ON CONSTRAINT uq_observation_scan_service DO NOTHING] *)
Definition has_observation (k : service_key) (d : Db) : bool :=
  negb (bool_decide
    (select_ids (fun _ o => bool_decide (observation_key o = k)) (observations d) = ∅)).

Definition insert_observation (o : ConnectionServiceObservation) (d : Db) : Db :=
  if has_observation (observation_key o) d then d
  else
    let '(i, d) := take_id T_observations d in
    d <| observations := <[i := o]> (observations d) |>.

Definition _SYNC_SQL `{PgAggregates} (lower_id upper_id : Z) (d : Db) : Db :=
  let rows := sync_records lower_id upper_id d in
  let keys := remove_dups (omap (fun p => record_key p.2) rows) in
  foldl (fun d' k =>
           match group_observation d k (filter (fun p => of_key k p = true) rows) with
           | Some o => insert_observation o d'
           | None => d'
           end) d keys.

Definition sync_service_observations `{PgAggregates} (scan_id : Z) (status : ScanStatus)
    (d : Db) : Db :=
  if decide (status = SCAN_SUCCESS) then _SYNC_SQL scan_id (scan_id + 1) d else d.

(** [backfill_service_observations]: the scans in batches of identifiers.  The
    loop runs while [lower <= max_scan_id]; [fuel] bounds its iterations. *)
Definition scan_id_bounds (d : Db) : option (Z * Z) :=
  match sorted_ids (select_ids (fun _ r => bool_decide (run_status r = SCAN_SUCCESS)) (scan_runs d)) with
  | [] => None
  | i :: ids => Some (i, foldl (fun _ j => j) i ids)
  end.

Fixpoint backfill_loop `{PgAggregates} (fuel : nat) (lower_id max_scan_id batch_size : Z) (d : Db) :
    option Db :=
  if lower_id <=? max_scan_id then
    match fuel with
    | O => None
    | S fuel' =>
        let upper_id := lower_id + batch_size in
        backfill_loop fuel' upper_id max_scan_id batch_size (_SYNC_SQL lower_id upper_id d)
    end
  else Some d.

Definition backfill_service_observations `{PgAggregates} (fuel : nat) (batch_size : Z) (d : Db) :
    option Db :=
  match scan_id_bounds d with
  | None => Some d
  | Some (min_scan_id, max_scan_id) => backfill_loop fuel min_scan_id max_scan_id batch_size d
  end.
