(* ===== verification/Scans.v ===== *)
(** * Collecting and persisting scans (src/app/services/scans.py) *)

From S2P Require Import Prelude PyText Models Exceptions Security Collectors ServiceObservations.

Record ScanTarget := mkScanTarget {
  target_device_id : Z;
  target_os_type : OSType;
  target_host : text;
  target_port : Z;
  target_username : text;
  target_encrypted_password : text
}.

Record ScanOutcome := mkScanOutcome {
  outcome_device_id : Z;
  outcome_trigger : ScanTrigger;
  outcome_status : ScanStatus;
  outcome_started_at : Z;
  outcome_finished_at : Z;
  outcome_connections : list NormalizedConnection;
  outcome_warning_message : option text;
  outcome_error_code : option text;
  outcome_error_message : option text
}.

(** ** Persisting an outcome *)

Definition connection_record (run_id : Z) (row : NormalizedConnection) : ConnectionRecord :=
  {| conn_scan_run_id := run_id;
     conn_protocol := nc_protocol row;
     conn_address_family := nc_address_family row;
     conn_local_ip := nc_local_ip row;
     conn_local_port := nc_local_port row;
     conn_remote_ip := nc_remote_ip row;
     conn_remote_port := nc_remote_port row;
     conn_state := nc_state row;
     conn_pid := nc_pid row;
     conn_process_name := nc_process_name row;
     conn_remote_hostname := None |}.

Definition add_connection_record (run_id : Z) (d : Db) (row : NormalizedConnection) : Db :=
  let '(i, d) := take_id T_connection_records d in
  d <| connection_records := <[i := connection_record run_id row]> (connection_records d) |>.

Definition outcome_run (outcome : ScanOutcome) (connections : list NormalizedConnection) : ScanRun :=
  {| run_device_id := outcome_device_id outcome;
     run_trigger_type := outcome_trigger outcome;
     run_status := outcome_status outcome;
     run_started_at := outcome_started_at outcome;
     run_finished_at := Some (outcome_finished_at outcome);
     run_connection_count := Z.of_nat (length connections);
     run_warning_message := outcome_warning_message outcome;
     run_error_code := outcome_error_code outcome;
     run_error_message := outcome_error_message outcome |}.

Section persist.
Context `{UnicodeCase, PgAggregates}.

(** [wall] is the [onupdate] timestamp of the device row. *)
Definition add_scan_outcome (wall : Z) (outcome : ScanOutcome) : Tx Z := fun d =>
  match devices d !! outcome_device_id outcome with
  | None => Raise (DeviceNotFound (outcome_device_id outcome))
  | Some _ =>
      let connections := filter (fun row => keep_connection_record row = true)
                           (outcome_connections outcome) in
      let '(run_id, d) := take_id T_scan_runs d in
      let d := d <| scan_runs := <[run_id := outcome_run outcome connections]> (scan_runs d) |> in
      let d := foldl (add_connection_record run_id) d connections in
      let d := sync_service_observations run_id (outcome_status outcome) d in
      let d := d <| devices := alter (fun device =>
                      device <| device_last_scan_status := Some (outcome_status outcome) |>
                             <| device_last_scan_at := Some (outcome_finished_at outcome) |>
                             <| device_updated_at := wall |>)
                    (outcome_device_id outcome) (devices d) |> in
      Ok (run_id, d)
  end.
End persist.

(** ** Collecting

    [held] are the devices whose lock another thread of the process holds;
    [decrypt] is the credential cipher, [collectors] the two collectors. *)

Definition _load_target (device_id : Z) (d : Db) : result exn ScanTarget :=
  match devices d !! device_id with
  | None => Raise (DeviceNotFound device_id)
  | Some device =>
      if negb (device_collection_enabled device) then Raise CollectionDisabled
      else Ok {| target_device_id := device_id;
                 target_os_type := device_os_type device;
                 target_host := device_host device;
                 target_port := device_port device;
                 target_username := device_username device;
                 target_encrypted_password := device_encrypted_password device |}
  end.

Definition lock_for {A} (held : gset Z) (device_id : Z) (body : result exn A) : result exn A :=
  if decide (device_id ∈ held) then Raise ScanAlreadyRunning else body.

Section collect.
Context (decrypt : text -> result exn text) (collectors : OSType -> Collector).

Definition test_connection (os_type : OSType) (host : text) (port : Z)
    (username password : text) : result exn () :=
  collector_test_connection (collectors os_type) (mkSpec host port username None) password.

Definition failed_outcome (device_id : Z) (trigger : ScanTrigger) (started_at finished_at : Z)
    (error_code error_message : text) : ScanOutcome :=
  mkScanOutcome device_id trigger SCAN_FAILED started_at finished_at [] None
    (Some error_code) (Some error_message).

Definition collect_target (target : ScanTarget) (device_id : Z) (trigger : ScanTrigger)
    (started_at finished_at : Z) : ScanOutcome :=
  let failed (password : text) (e : exn) :=
    let message := safe_error_message (exn_message e) [password] in
    match e with
    | CollectorError code _ =>
        failed_outcome device_id trigger started_at finished_at code message
    | _ =>
        failed_outcome device_id trigger started_at finished_at (u "internal_error") message
    end in
  match decrypt (target_encrypted_password target) with
  | Raise e => failed [] e
  | Ok password =>
      let spec := mkSpec (target_host target) (target_port target) (target_username target)
                    (Some (target_device_id target)) in
      match collector_collect (collectors (target_os_type target)) spec password with
      | Raise e => failed password e
      | Ok res =>
          mkScanOutcome device_id trigger SCAN_SUCCESS started_at finished_at
            (collected_connections res) (collected_warning res) None None
      end
  end.

Definition collect (held : gset Z) (d : Db) (device_id : Z) (trigger : ScanTrigger)
    (started_at finished_at : Z) : result exn ScanOutcome :=
  lock_for held device_id
    (target ← _load_target device_id d;
     Ok (collect_target target device_id trigger started_at finished_at)).
End collect.
