(* ===== verification/ScanQueue.v ===== *)
(** * The scan queue (src/app/services/scan_queue.py)

    Enqueueing, batching, executing and cancelling scan tasks.  Operations on the
    database are transactions ([Tx]); [now] is [func.now()] and [wall] is the
    process clock.  The queue's own memory ([_active_task_ids], [_lost_task_ids])
    is [Worker]. *)

From S2P Require Import Prelude PyText Models Exceptions Collectors ServiceObservations Scans LeaseSpec TaskLeases.

Definition PRIORITY_SCHEDULED : Z := 20.
Definition PRIORITY_IMPORT : Z := 60.
Definition PRIORITY_BATCH : Z := 80.
Definition PRIORITY_MANUAL : Z := 100.

(** ** Enqueueing *)

Definition active_for (device_id : Z) (t : ScanTask) : bool :=
  task_active t && (task_device_id t =? device_id).

Definition _active_task (d : Db) (device_id : Z) : option (Z * ScanTask) :=
  head (map_to_list (where_ (fun _ => active_for device_id) (scan_tasks d))).

Definition _active_count (d : Db) : Z := count_where (fun _ => task_active) (scan_tasks d).

Definition existing_item (batch_id device_id : Z) (it : ScanBatchItem) : bool :=
  (item_batch_id it =? batch_id) && (item_device_id it =? device_id).

Definition _attach_batch_item (batch_id task_id : Z) (task : ScanTask) : Tx () := fun d =>
  if decide (select_ids (fun _ => existing_item batch_id (task_device_id task))
               (scan_batch_items d) = ∅) then
    match scan_batches d !! batch_id with
    | None => Raise IntegrityError
    | Some _ =>
        let '(i, d) := take_id T_scan_batch_items d in
        Ok ((), d <| scan_batch_items :=
          <[i := mkScanBatchItem batch_id task_id (task_device_id task) (task_status task)]>
          (scan_batch_items d) |>)
    end
  else Ok ((), d).

Definition new_task (device_id : Z) (trigger : ScanTrigger) (priority created_at : Z) : ScanTask :=
  {| task_device_id := device_id;
     task_trigger_type := trigger;
     task_priority := priority;
     task_status := TASK_PENDING;
     task_scan_run_id := None;
     task_error_message := None;
     task_created_at := created_at;
     task_started_at := None;
     task_finished_at := None;
     task_worker_id := None;
     task_lease_expires_at := None;
     task_heartbeat_at := None;
     task_attempt_count := 0 |}.

Definition add_task (t : ScanTask) : Tx Z := fun d =>
  let '(i, d) := take_id T_scan_tasks d in
  Ok (i, d <| scan_tasks := <[i := t]> (scan_tasks d) |>).

Definition raise_priority (priority : Z) (trigger : ScanTrigger) (t : ScanTask) : ScanTask :=
  t <| task_priority := priority |> <| task_trigger_type := trigger |>.

Section queue.
Context (queue_size : Z).

(** The task the device's request is served by: a new one, or the active one with
    its priority raised. *)
Definition find_or_add_task (device_id : Z) (trigger : ScanTrigger) (priority wall : Z) :
    Tx (Z * ScanTask) := fun d =>
  match _active_task d device_id with
  | None =>
      if queue_size <=? _active_count d then Raise ScanQueueFull
      else
        let task := new_task device_id trigger priority wall in
        (let* i := add_task task in tx_ret (i, task)) d
  | Some (i, task) =>
      if task_priority task <? priority then
        let task := raise_priority priority trigger task in
        Ok ((i, task), d <| scan_tasks := <[i := task]> (scan_tasks d) |>)
      else Ok ((i, task), d)
  end.

Definition _enqueue_in_session (device_id : Z) (trigger : ScanTrigger) (priority : Z)
    (batch_id : option Z) (wall : Z) : Tx Z := fun d =>
  match devices d !! device_id with
  | None => Raise (ValueError (u "设备不存在"))
  | Some device =>
      if negb (device_collection_enabled device) then Raise DeviceCollectionDisabled else
      (let* p := find_or_add_task device_id trigger priority wall in
       do* (match batch_id with
            | Some b => _attach_batch_item b p.1 p.2
            | None => tx_ret ()
            end) then
       tx_ret p.1) d
  end.

Definition enqueue_device (device_id : Z) (trigger : ScanTrigger) (priority : Z)
    (batch_id : option Z) (wall : Z) : Tx Z :=
  let* task_id := _enqueue_in_session device_id trigger priority batch_id wall in
  do* (match batch_id with
       | Some b => tx_modify (refresh_scan_batches wall {[b]})
       | None => tx_ret ()
       end) then
  tx_ret task_id.

(** ** Batches *)

Definition _batch_trigger_and_priority (bt : ScanBatchType) : ScanTrigger * Z :=
  if decide (bt = BATCH_IMPORT) then (TRIGGER_IMPORT, PRIORITY_IMPORT)
  else (TRIGGER_BATCH, PRIORITY_BATCH).

(** [list(dict.fromkeys(xs))]: first occurrences, in order. *)
Fixpoint fromkeys (seen : gset Z) (xs : list Z) : list Z :=
  match xs with
  | [] => []
  | x :: xs' => if decide (x ∈ seen) then fromkeys seen xs'
                else x :: fromkeys ({[x]} ∪ seen) xs'
  end.

Definition collectable (d : Db) (device_id : Z) : bool :=
  match devices d !! device_id with
  | Some device => device_collection_enabled device
  | None => false
  end.

Definition selected_device_ids (d : Db) (device_ids : list Z) : list Z :=
  filter (fun i => collectable d i = true) (fromkeys ∅ device_ids).

Definition active_device_ids (d : Db) (selected_ids : list Z) : gset Z :=
  map_to_set (fun _ t => task_device_id t)
    (where_ (fun _ t => task_active t && bool_decide (task_device_id t ∈ selected_ids))
      (scan_tasks d)).

Definition new_batch (bt : ScanBatchType) (cluster_id source_import_batch_id : option Z)
    (created_at : Z) : ScanBatch :=
  mkScanBatch bt BATCH_PENDING cluster_id source_import_batch_id 0 0 0 0 0 created_at None.

(** The unique constraint on [source_import_batch_id]. *)
Definition source_taken (source : option Z) (d : Db) : bool :=
  match source with
  | None => false
  | Some _ => negb (bool_decide (select_ids
      (fun _ b => bool_decide (batch_source_import_batch_id b = source)) (scan_batches d) = ∅))
  end.

Definition add_batch (batch : ScanBatch) : Tx Z := fun d =>
  if source_taken (batch_source_import_batch_id batch) d then Raise IntegrityError else
  let '(i, d) := take_id T_scan_batches d in
  Ok (i, d <| scan_batches := <[i := batch]> (scan_batches d) |>).

Fixpoint enqueue_all (device_ids : list Z) (trigger : ScanTrigger) (priority batch_id wall : Z) :
    Tx () :=
  match device_ids with
  | [] => tx_ret ()
  | device_id :: rest =>
      do* _enqueue_in_session device_id trigger priority (Some batch_id) wall then
      enqueue_all rest trigger priority batch_id wall
  end.

Definition _create_batch_in_session (bt : ScanBatchType) (device_ids : list Z)
    (cluster_id source_import_batch_id : option Z) (wall : Z) : Tx Z := fun d =>
  let selected_ids := selected_device_ids d device_ids in
  let new_task_count := Z.of_nat (length selected_ids)
                        - Z.of_nat (size (active_device_ids d selected_ids)) in
  if queue_size <? _active_count d + new_task_count then Raise ScanQueueFull else
  (let* batch_id := add_batch (new_batch bt cluster_id source_import_batch_id wall) in
   let '(trigger, priority) := _batch_trigger_and_priority bt in
   do* enqueue_all selected_ids trigger priority batch_id wall then
   do* tx_modify (refresh_scan_batches wall {[batch_id]}) then
   tx_ret batch_id) d.

Definition create_batch := _create_batch_in_session.

Definition tested_device_ids (import_batch_id : Z) (d : Db) : list Z :=
  omap (fun i => r ← import_row_results d !! i; row_device_id r)
    (sorted_ids (select_ids (fun _ r =>
       (row_batch_id r =? import_batch_id) && bool_decide (row_test_status r = TEST_SUCCESS))
       (import_row_results d))).

Definition create_import_scan_batch (import_batch_id wall : Z) : Tx (option Z) := fun d =>
  match import_batches d !! import_batch_id with
  | None => Ok (None, d)
  | Some import_batch =>
      match import_scan_batch_id import_batch with
      | Some b => Ok (Some b, d)
      | None =>
          (let* b := _create_batch_in_session BATCH_IMPORT
                       (tested_device_ids import_batch_id d) None (Some import_batch_id) wall in
           do* tx_modify (fun d => d <| import_batches := alter (fun ib =>
                   ib <| import_scan_batch_id := Some b |>) import_batch_id (import_batches d) |>)
           then tx_ret (Some b)) d
      end
  end.
End queue.

(** ** Settling a task *)

(** [_refresh_batch] of each batch of the task. *)
Definition settle_task (f : ScanTask -> ScanTask) (st : ScanTaskStatus) (task_id wall : Z) (d : Db) :
    Db :=
  let '(batch_ids, d) := mark_items st task_id (d <| scan_tasks := alter f task_id (scan_tasks d) |>)
  in refresh_scan_batches wall batch_ids d.

(** The row a worker may still write: running, its own, and under a live lease. *)
Definition owned_task (worker_id : text) (now task_id : Z) (d : Db) : option ScanTask :=
  match scan_tasks d !! task_id with
  | Some t => if lease_live now t && bool_decide (task_worker_id t = Some worker_id)
              then Some t else None
  | None => None
  end.

Definition persist_fields (run_id : Z) (outcome : ScanOutcome) (st : ScanTaskStatus)
    (t : ScanTask) : ScanTask :=
  t <| task_scan_run_id := Some run_id |>
    <| task_finished_at := Some (outcome_finished_at outcome) |>
    <| task_error_message := outcome_error_message outcome |>
    <| task_status := st |>
    <| task_worker_id := None |>
    <| task_lease_expires_at := None |>
    <| task_heartbeat_at := None |>.

Definition outcome_task_status (outcome : ScanOutcome) : ScanTaskStatus :=
  if decide (outcome_status outcome = SCAN_SUCCESS) then TASK_SUCCESS else TASK_FAILED.

Definition _persist_outcome `{UnicodeCase, PgAggregates} (worker_id : text) (task_id : Z)
    (outcome : ScanOutcome) (now wall : Z) : Tx bool := fun d =>
  match owned_task worker_id now task_id d with
  | None => Raise (TaskLeaseLost task_id)
  | Some _ =>
      (let* run_id := add_scan_outcome wall outcome in
       let st := outcome_task_status outcome in
       do* tx_modify (settle_task (persist_fields run_id outcome st) st task_id wall) then
       if decide (st = TASK_SUCCESS)
       then do* tx_modify notify_topology_changed then tx_ret true
       else tx_ret false) d
  end.

Definition conflict_outcome (outcome : ScanOutcome) (wall : Z) : ScanOutcome :=
  mkScanOutcome (outcome_device_id outcome) (outcome_trigger outcome) SCAN_FAILED
    (outcome_started_at outcome) wall [] None (Some (u "transaction_conflict"))
    (Some (exn_message TransactionConflict)).

Definition _record_transaction_conflict `{UnicodeCase, PgAggregates} (worker_id : text)
    (task_id : Z) (outcome : ScanOutcome) (now wall : Z) : Tx bool :=
  _persist_outcome worker_id task_id (conflict_outcome outcome wall) now wall.

Definition fail_fields (wall : Z) (t : ScanTask) : ScanTask :=
  t <| task_status := TASK_FAILED |>
    <| task_error_message := Some (u "扫描任务发生内部错误") |>
    <| task_finished_at := Some wall |>
    <| task_worker_id := None |>
    <| task_lease_expires_at := None |>
    <| task_heartbeat_at := None |>.

Definition _fail_unexpected_task (worker_id : text) (task_id now wall : Z) : Tx () := fun d =>
  match owned_task worker_id now task_id d with
  | None => Raise (TaskLeaseLost task_id)
  | Some _ => Ok ((), settle_task (fail_fields wall) TASK_FAILED task_id wall d)
  end.

Definition cancel_fields (wall : Z) (t : ScanTask) : ScanTask :=
  t <| task_status := TASK_CANCELLED |> <| task_finished_at := Some wall |>.

Definition cancel_device (device_id wall : Z) : Tx bool := fun d =>
  match _active_task d device_id with
  | None => Ok (true, d)
  | Some (task_id, task) =>
      if decide (task_status task = TASK_RUNNING) then Ok (false, d)
      else Ok (true, settle_task (cancel_fields wall) TASK_CANCELLED task_id wall d)
  end.

(** * The queue's operations preserve its invariant *)

(** The invariant reads the three tables of the queue and their sequences. *)
Definition queue_tables (d : Db) :=
  (scan_tasks d, scan_batches d, scan_batch_items d,
   (next_id d T_scan_tasks, next_id d T_scan_batches, next_id d T_scan_batch_items)).

Lemma queue_core_tables d d' : queue_tables d' = queue_tables d -> queue_core d -> queue_core d'.
Proof.
  intros E [? ? ? ? ? ? ? ?]. injection E as E1 E2 E3 E4 E5 E6.
  constructor; rewrite ?E1, ?E2, ?E3, ?E4, ?E5, ?E6; done.
Qed.

Lemma queue_inv_tables d d' : queue_tables d' = queue_tables d -> queue_inv d -> queue_inv d'.
Proof.
  intros E [Hc Ho]. split; [by eapply queue_core_tables|].
  injection E as E1 E2 E3 E4 E5 E6. unfold consistent_outside in *. by rewrite E2, E3.
Qed.

Lemma foldl_tables {A B C} (view : A -> B) (f : A -> C -> A) (xs : list C) d :
  (forall d x, view (f d x) = view d) -> view (foldl f d xs) = view d.
Proof. intros Hf. revert d. induction xs as [|x xs IH]; intros d; cbn; [done|]. by rewrite IH. Qed.

(** ** Looking up the active task of a device *)

Lemma head_map_to_list {A} (m : gmap Z A) :
  match head (map_to_list m) with
  | Some p => m !! p.1 = Some p.2
  | None => m = ∅
  end.
Proof.
  destruct (map_to_list m) as [|p l] eqn:E; cbn.
  - by apply map_to_list_empty_iff.
  - apply elem_of_map_to_list. rewrite E. destruct p. apply list_elem_of_here.
Qed.

Lemma active_for_spec dev t :
  active_for dev t = true <-> task_active t = true /\ task_device_id t = dev.
Proof. unfold active_for. rewrite andb_true_iff. by rewrite Z.eqb_eq. Qed.

Lemma active_task_Some d dev i t :
  _active_task d dev = Some (i, t) ->
  scan_tasks d !! i = Some t /\ task_active t = true /\ task_device_id t = dev.
Proof.
  unfold _active_task. intros E.
  pose proof (head_map_to_list (where_ (fun _ => active_for dev) (scan_tasks d))) as H.
  rewrite E in H. apply lookup_where in H as [? ?%active_for_spec]. done.
Qed.

Lemma active_task_None d dev :
  _active_task d dev = None <->
  forall i t, scan_tasks d !! i = Some t -> task_active t = true -> task_device_id t ≠ dev.
Proof.
  pose proof (head_map_to_list (where_ (fun _ => active_for dev) (scan_tasks d))) as H.
  unfold _active_task. split.
  - intros E. rewrite E in H. intros i t Hi Ha Hd.
    assert (where_ (fun _ => active_for dev) (scan_tasks d) !! i = Some t) as Hw
      by by apply lookup_where; rewrite active_for_spec.
    by rewrite H in Hw.
  - intros Hno. destruct (head _) as [[i t]|]; [|done].
    apply lookup_where in H as [Hi [Ha Hd]%active_for_spec]. by destruct (Hno i t).
Qed.

(** ** Rows that do not change what the invariant reads *)

Definition same_task (t t' : ScanTask) : Prop :=
  task_device_id t' = task_device_id t /\ task_status t' = task_status t /\
  (task_wf t -> task_wf t').

Lemma replace_task_core i t t' d :
  scan_tasks d !! i = Some t -> same_task t t' -> queue_core d ->
  queue_core (d <| scan_tasks := <[i := t']> (scan_tasks d) |>).
Proof.
  intros Hi (Hdev & Hst & Hwf) [Ht Ha Hm Hib Hiu Hti Hbi Hii].
  assert (Hact : task_active t' = task_active t) by (unfold task_active; by rewrite Hst).
  assert (Hlk : forall j x, <[i := t']> (scan_tasks d) !! j = Some x ->
     exists y, scan_tasks d !! j = Some y /\ task_active x = task_active y /\
               task_device_id x = task_device_id y).
  { intros j x. destruct (decide (i = j)) as [->|Hne].
    - rewrite lookup_insert_eq. intros [= <-]. eauto.
    - rewrite lookup_insert_ne by done. eauto. }
  constructor; cbn; try done.
  - apply map_Forall_insert_2; [|done]. apply Hwf. by apply (Ht i).
  - intros j x (y & Hj & Eac & Ed)%Hlk k x' (y' & Hk & Eac' & Ed')%Hlk.
    rewrite Eac, Ed, Eac', Ed'. by apply (Ha j y Hj k y').
  - eapply map_Forall_impl; [exact Hm|]. cbn. intros k it. unfold item_mirrors.
    destruct (decide (i = item_task_id it)) as [->|Hne].
    + rewrite Hi, lookup_insert_eq. by rewrite Hdev, Hst.
    + by rewrite lookup_insert_ne by done.
  - intros j x (y & Hj & _)%Hlk. by apply (Hti j y).
Qed.

Lemma new_task_core t d :
  task_wf t ->
  (forall i x, scan_tasks d !! i = Some x -> task_active x = true ->
     task_device_id x ≠ task_device_id t) ->
  queue_core d ->
  queue_core ((take_id T_scan_tasks d).2 <| scan_tasks :=
                <[next_id d T_scan_tasks := t]> (scan_tasks d) |>).
Proof.
  intros Hwf Hno [Ht Ha Hm Hib Hiu Hti Hbi Hii].
  pose proof (ids_below_fresh _ _ Hti) as Hfresh.
  constructor; cbn; try done.
  - by apply map_Forall_insert_2.
  - intros i x Hi j y Hj Hax Hay Hd.
    apply lookup_insert_Some in Hi as [[<- <-]|[Hni Hi]], Hj as [[<- <-]|[Hnj Hj]]; [done| | |].
    + by destruct (Hno j y Hj).
    + by destruct (Hno i x Hi).
    + by apply (Ha i x Hi j y).
  - eapply map_Forall_impl; [exact Hm|]. cbn. intros k it. unfold item_mirrors.
    destruct (decide (next_id d T_scan_tasks = item_task_id it)) as [<-|Hne].
    + by rewrite Hfresh.
    + by rewrite lookup_insert_ne by done.
  - by apply ids_below_insert.
Qed.

(** ** Attaching an item to a batch *)

Lemma batch_counts_insert items b st k it :
  item_batch_id it ≠ b -> items !! k = None ->
  batch_counts (<[k := it]> items) b st = batch_counts items b st.
Proof.
  intros Hb Hk. unfold batch_counts. apply count_where_ext. intros i.
  destruct (decide (k = i)) as [->|Hne].
  - rewrite lookup_insert_eq, Hk. split; [|naive_solver].
    intros (x & [= <-] & Hx). unfold item_in_batch in Hx. lia.
  - by rewrite lookup_insert_ne by done.
Qed.

Lemma attach_batch_item_inv B b i t d r :
  scan_tasks d !! i = Some t ->
  queue_core d -> consistent_outside B d -> b ∈ B ->
  _attach_batch_item b i t d = Ok r ->
  queue_core r.2 /\ consistent_outside B r.2 /\
  scan_tasks r.2 = scan_tasks d /\ scan_batches r.2 = scan_batches d.
Proof.
  intros Hi Hc Ho Hb. unfold _attach_batch_item.
  case_decide as Hex; [|intros [= <-]; done].
  destruct (scan_batches d !! b) as [batch|] eqn:Hbatch; [|done].
  intros [= <-]. cbn. destruct Hc as [Ht Ha Hm Hib Hiu Hti Hbi Hii].
  pose proof (ids_below_fresh _ _ Hii) as Hfresh.
  assert (Hnew : forall j it, scan_batch_items d !! j = Some it ->
     item_batch_id it = b -> item_device_id it ≠ task_device_id t).
  { intros j it Hj Hib' Hdev. assert (j ∈ (∅ : gset Z)) as []%elem_of_empty.
    rewrite <- Hex. apply elem_of_select_ids. exists it. split; [done|].
    unfold existing_item. lia. }
  split_and!; [constructor; cbn; try done| |done|done].
  - apply map_Forall_insert_2; [|done]. unfold item_mirrors. cbn. by rewrite Hi.
  - apply map_Forall_insert_2; [|done]. cbn. by eexists.
  - intros j x Hj k y Hk Eb Ed.
    apply lookup_insert_Some in Hj as [[<- <-]|[Hnj Hj]], Hk as [[<- <-]|[Hnk Hk]];
      cbn in *; [done| | |].
    + by destruct (Hnew k y Hk).
    + by destruct (Hnew j x Hj).
    + by apply (Hiu j x Hj k y).
  - by apply ids_below_insert.
  - intros b' batch' Hb' Hnot. cbn in Hb'. eapply batch_consistent_ext; [|by apply Ho].
    intros st. apply batch_counts_insert; [|done]. cbn. congruence.
Qed.

(** ** Enqueueing preserves the invariant *)

Lemma new_task_wf dev trig prio wall : task_wf (new_task dev trig prio wall).
Proof. done. Qed.

Lemma find_or_add_spec qs dev trig prio wall B d r :
  queue_core d -> consistent_outside B d ->
  find_or_add_task qs dev trig prio wall d = Ok r ->
  queue_core r.2 /\ consistent_outside B r.2 /\
  scan_tasks r.2 !! r.1.1 = Some r.1.2 /\ task_device_id r.1.2 = dev /\
  scan_batches r.2 = scan_batches d /\ devices r.2 = devices d.
Proof.
  intros Hc Ho. unfold find_or_add_task.
  destruct (_active_task d dev) as [[i t]|] eqn:E.
  - apply active_task_Some in E as (Hi & Ha & Hd).
    case_match; intros [= <-]; cbn; [|done].
    split_and!; try done; [|by rewrite lookup_insert_eq].
    by apply (replace_task_core i t).
  - rewrite active_task_None in E. case_match; [done|]. intros [= <-]. cbn.
    split_and!; try done; [|by rewrite lookup_insert_eq].
    apply new_task_core; [apply new_task_wf|exact E|done].
Qed.

Lemma enqueue_in_session_inv qs dev trig prio batch wall B d r :
  queue_core d -> consistent_outside B d ->
  (forall b, batch = Some b -> b ∈ B) ->
  _enqueue_in_session qs dev trig prio batch wall d = Ok r ->
  queue_core r.2 /\ consistent_outside B r.2 /\ scan_batches r.2 = scan_batches d.
Proof.
  intros Hc Ho Hb. unfold _enqueue_in_session.
  destruct (devices d !! dev) as [device|]; [|done]. case_match; [done|].
  rewrite tx_bind_Ok. intros (p & d1 & E1 & E).
  destruct (find_or_add_spec qs dev trig prio wall B d _ Hc Ho E1) as (Hc1 & Ho1 & Hl & _ & Hsb & _).
  apply tx_bind_Ok in E as ([] & d2 & E2 & [= <-]). cbn in *.
  destruct batch as [b|]; [|by injection E2 as <-].
  destruct (attach_batch_item_inv B b p.1 p.2 d1 _ Hl Hc1 Ho1 (Hb b eq_refl) E2)
    as (? & ? & _ & Heq). cbn in *. rewrite Heq. done.
Qed.

Lemma enqueue_device_inv qs dev trig prio batch wall d r :
  queue_inv d -> enqueue_device qs dev trig prio batch wall d = Ok r -> queue_inv r.2.
Proof.
  intros [Hc Ho] E. unfold enqueue_device in E. apply tx_bind_Ok in E as (tid & d1 & E1 & E).
  apply tx_bind_Ok in E as ([] & d2 & E2 & [= <-]). cbn.
  destruct batch as [b|].
  - injection E2 as <-.
    apply (enqueue_in_session_inv qs dev trig prio (Some b) wall {[b]}) in E1 as (Hc1 & Ho1 & _);
      [|done| |set_solver].
    + by apply refresh_inv.
    + eapply map_Forall_impl; [exact Ho|]. cbn. set_solver.
  - injection E2 as <-.
    by apply (enqueue_in_session_inv qs dev trig prio None wall ∅) in E1 as (Hc1 & Ho1 & _).
Qed.

(** ** Creating a batch preserves the invariant *)

Lemma add_batch_inv batch d r :
  queue_inv d -> add_batch batch d = Ok r ->
  queue_core r.2 /\ consistent_outside {[r.1]} r.2 /\ devices r.2 = devices d /\
  scan_tasks r.2 = scan_tasks d /\ r.1 = next_id d T_scan_batches /\
  scan_batch_items r.2 = scan_batch_items d /\ import_batches r.2 = import_batches d /\
  scan_batches r.2 = <[r.1 := batch]> (scan_batches d).
Proof.
  intros [[Ht Ha Hm Hib Hiu Hti Hbi Hii] Ho]. unfold add_batch. case_match; [done|].
  intros [= <-]. cbn. split_and!; try done; [constructor; cbn; try done|].
  - eapply map_Forall_impl; [exact Hib|]. cbn. intros i it.
    rewrite lookup_insert_is_Some. destruct (decide (next_id d T_scan_batches = item_batch_id it)); eauto.
  - by apply ids_below_insert.
  - intros b x Hb Hnot. cbn in Hb. rewrite lookup_insert_ne in Hb by set_solver.
    apply (Ho b x Hb). set_solver.
Qed.

Lemma enqueue_all_inv qs devs trig prio b wall d r :
  queue_core d -> consistent_outside {[b]} d ->
  enqueue_all qs devs trig prio b wall d = Ok r ->
  queue_core r.2 /\ consistent_outside {[b]} r.2 /\ scan_batches r.2 = scan_batches d.
Proof.
  revert d. induction devs as [|dev devs IH]; intros d Hc Ho E; cbn in E.
  - injection E as <-. done.
  - apply tx_bind_Ok in E as (tid & d1 & E1 & E).
    destruct (enqueue_in_session_inv qs dev trig prio (Some b) wall {[b]} d _ Hc Ho
      ltac:(set_solver) E1) as (Hc1 & Ho1 & Hsb). cbn in *.
    rewrite <- Hsb. by apply IH.
Qed.

Lemma create_batch_inv qs bt devs cl src wall d r :
  queue_inv d -> _create_batch_in_session qs bt devs cl src wall d = Ok r -> queue_inv r.2.
Proof.
  intros Hinv. unfold _create_batch_in_session. case_match; [done|].
  rewrite tx_bind_Ok. intros (b & d1 & E1 & E).
  destruct (add_batch_inv _ d _ Hinv E1) as (Hc1 & Ho1 & _).
  destruct (_batch_trigger_and_priority bt) as [trig prio].
  apply tx_bind_Ok in E as ([] & d2 & E2 & E).
  apply tx_bind_Ok in E as ([] & d3 & [= <-] & [= <-]). cbn in *.
  apply enqueue_all_inv in E2 as (Hc2 & Ho2 & _); [|done..]. by apply refresh_inv.
Qed.

Lemma create_import_scan_batch_inv qs ib wall d r :
  queue_inv d -> create_import_scan_batch qs ib wall d = Ok r -> queue_inv r.2.
Proof.
  intros Hinv. unfold create_import_scan_batch.
  destruct (import_batches d !! ib) as [imp|]; [|intros [= <-]; done].
  destruct (import_scan_batch_id imp); [intros [= <-]; done|].
  rewrite tx_bind_Ok. intros (b & d1 & E1 & E).
  apply create_batch_inv in E1; [|done].
  apply tx_bind_Ok in E as ([] & d2 & [= <-] & [= <-]). cbn.
  by apply (queue_inv_tables d1).
Qed.

(** ** Settling a task preserves the invariant *)

Lemma settle_task_inv f st tid wall d :
  (forall t, scan_tasks d !! tid = Some t -> step_ok f st t) ->
  queue_inv d -> queue_inv (settle_task f st tid wall d).
Proof.
  intros Hok [Hc Ho]. unfold settle_task.
  change (mark_items st tid (d <| scan_tasks := alter f tid (scan_tasks d) |>))
    with (task_step f st tid d).
  pose proof (task_step_core f st tid d Hok Hc) as Hc'.
  pose proof (task_step_outside f st tid ∅ d Ho) as Ho'.
  destruct (task_step f st tid d) as [B d1]. cbn in *. apply refresh_inv; [done|].
  by rewrite union_empty_l_L in Ho'.
Qed.

Lemma settle_task_lookup f st tid wall d i :
  scan_tasks (settle_task f st tid wall d) !! i = alter f tid (scan_tasks d) !! i.
Proof. unfold settle_task. cbn. by rewrite refresh_scan_batches_eq. Qed.

Lemma owned_task_Some w now tid d t :
  owned_task w now tid d = Some t <->
  scan_tasks d !! tid = Some t /\ lease_live now t = true /\ task_worker_id t = Some w.
Proof.
  unfold owned_task. destruct (scan_tasks d !! tid) as [t'|]; [|naive_solver].
  destruct (lease_live now t' && bool_decide (task_worker_id t' = Some w)) eqn:E.
  - apply andb_true_iff in E as [? ?%bool_decide_eq_true]. naive_solver.
  - split; [done|]. intros ([= ->] & Hlive & Hw). rewrite Hlive, Hw, bool_decide_true in E; done.
Qed.

Lemma terminal_step_ok f st t :
  (forall x, task_status (f x) = st /\ task_device_id (f x) = task_device_id x) ->
  st ≠ TASK_PENDING -> st ≠ TASK_RUNNING ->
  task_worker_id (f t) = None -> task_lease_expires_at (f t) = None ->
  task_heartbeat_at (f t) = None -> step_ok f st t.
Proof.
  intros Hf Hp Hr ? ? ?. destruct (Hf t) as [Hs Hd]. split_and!; [done|done| |].
  - unfold task_wf. rewrite Hs. by rewrite bool_decide_false.
  - unfold task_active. rewrite Hs. rewrite !bool_decide_false by done. done.
Qed.

Lemma outcome_task_status_terminal o :
  outcome_task_status o ≠ TASK_PENDING /\ outcome_task_status o ≠ TASK_RUNNING.
Proof. unfold outcome_task_status. by case_decide. Qed.

Section persist.
Context `{UnicodeCase, PgAggregates}.

Lemma sync_queue_tables id st d :
  queue_tables (sync_service_observations id st d) = queue_tables d.
Proof.
  unfold sync_service_observations. case_decide; [|done]. unfold _SYNC_SQL.
  apply foldl_tables. intros d' k. case_match; [|done].
  unfold insert_observation. by case_match.
Qed.

Lemma add_scan_outcome_tables wall o d r :
  add_scan_outcome wall o d = Ok r -> queue_tables r.2 = queue_tables d.
Proof.
  unfold add_scan_outcome. destruct (devices d !! _); [|done].
  intros E. cbn in E. injection E as <-. cbn [snd].
  etrans; [apply (sync_queue_tables (next_id d T_scan_runs) (outcome_status o))|].
  by rewrite (foldl_tables queue_tables).
Qed.

Lemma persist_outcome_inv w tid o now wall d r :
  queue_inv d -> _persist_outcome w tid o now wall d = Ok r -> queue_inv r.2.
Proof.
  intros Hinv. unfold _persist_outcome. destruct (owned_task w now tid d) as [t|]; [|done].
  rewrite tx_bind_Ok. intros (run & d1 & E1 & E).
  apply add_scan_outcome_tables in E1. cbn in E1.
  apply tx_bind_Ok in E as ([] & d2 & [= <-] & E).
  set (st := outcome_task_status o) in *.
  assert (queue_inv (settle_task (persist_fields run o st) st tid wall d1)) as Hs.
  { destruct (outcome_task_status_terminal o).
    apply settle_task_inv; [|by apply (queue_inv_tables d)]. intros x _. by apply terminal_step_ok. }
  case_decide; [|by injection E as <-]. injection E as <-. cbn.
  by eapply queue_inv_tables; [|exact Hs].
Qed.

Lemma record_transaction_conflict_inv w tid o now wall d r :
  queue_inv d -> _record_transaction_conflict w tid o now wall d = Ok r -> queue_inv r.2.
Proof. apply persist_outcome_inv. Qed.
End persist.

Lemma fail_unexpected_task_inv w tid now wall d r :
  queue_inv d -> _fail_unexpected_task w tid now wall d = Ok r -> queue_inv r.2.
Proof.
  intros Hinv. unfold _fail_unexpected_task. case_match; [|done]. intros [= <-]. cbn.
  apply settle_task_inv; [|done]. intros x _. by apply terminal_step_ok.
Qed.

Lemma cancel_device_inv dev wall d r :
  queue_inv d -> cancel_device dev wall d = Ok r -> queue_inv r.2.
Proof.
  intros Hinv. unfold cancel_device.
  destruct (_active_task d dev) as [[i t]|] eqn:E; [|intros [= <-]; done].
  case_decide as Hr; intros [= <-]; [done|]. cbn.
  apply active_task_Some in E as (Hi & Ha & _).
  apply settle_task_inv; [|done]. intros x Hx. simplify_eq.
  pose proof (core_tasks d (proj1 Hinv) i _ Hi) as Hwf. cbn in Hwf. unfold task_wf in Hwf.
  rewrite bool_decide_false in Hwf by done. destruct Hwf as (? & ? & ?).
  by apply terminal_step_ok.
Qed.
