(* ===== verification/ScanLeases.v ===== *)
(** * The scan queue implements the lease specification

    The transactions of the queue (src/app/services/scan_queue.py and
    task_leases.py) as one operation type, and the proof that each is a sequence
    of the lease steps of [LeaseSpec]. *)

From S2P Require Import Prelude PyText Models Exceptions ServiceObservations Scans LeaseSpec TaskLeases ScanQueue.

(** ** What a task row says about its lease *)

Definition task_lease (t : ScanTask) : lease :=
  match task_status t with
  | TASK_PENDING => Waiting
  | TASK_RUNNING => Held (task_worker_id t) (task_lease_expires_at t)
  | _ => Settled
  end.

Definition task_leases (d : Db) : gmap Z lease := task_lease <$> scan_tasks d.

(** ** The transactions *)

Inductive queue_op :=
| Op_claim (w : text) (local_capacity lease_seconds : Z)
| Op_renew (w : text) (task_ids : gset Z) (lease_seconds : Z)
| Op_persist (w : text) (task_id : Z) (outcome : ScanOutcome)
| Op_conflict (w : text) (task_id : Z) (outcome : ScanOutcome)
| Op_fail (w : text) (task_id : Z)
| Op_enqueue (device_id : Z) (trigger : ScanTrigger) (priority : Z) (batch_id : option Z)
| Op_batch (bt : ScanBatchType) (device_ids : list Z) (cluster_id source : option Z)
| Op_import_batch (import_batch_id : Z)
| Op_cancel (device_id : Z).

Definition queue_op_worker (op : queue_op) : option text :=
  match op with
  | Op_claim w _ _ | Op_renew w _ _ | Op_persist w _ _ | Op_conflict w _ _ | Op_fail w _ => Some w
  | _ => None
  end.

Section ops.
Context `{UnicodeCase, PgAggregates} (queue_size limit : Z).

Definition drop {A} (m : Tx A) : Tx () := let* _ := m in tx_ret ().

Definition queue_tx (op : queue_op) (now wall : Z) (locked : gset Z) : Tx () :=
  match op with
  | Op_claim w cap ls => tx_modify (fun d => (claim_scan_tasks w cap limit ls now wall locked d).2)
  | Op_renew w ids ls => tx_modify (fun d => (renew_scan_leases w ids ls now d).2)
  | Op_persist w tid o => drop (_persist_outcome w tid o now wall)
  | Op_conflict w tid o => drop (_record_transaction_conflict w tid o now wall)
  | Op_fail w tid => _fail_unexpected_task w tid now wall
  | Op_enqueue dev trig prio b => drop (enqueue_device queue_size dev trig prio b wall)
  | Op_batch bt devs cl src => drop (create_batch queue_size bt devs cl src wall)
  | Op_import_batch ib => drop (create_import_scan_batch queue_size ib wall)
  | Op_cancel dev => drop (cancel_device dev wall)
  end.

(** One transaction, committed or rolled back. *)
Definition queue_step (now : Z) (op : queue_op) (d d' : Db) : Prop :=
  exists wall locked, (commit (queue_tx op now wall locked) d).2 = d'.
End ops.

(** ** The view of rows *)

Lemma lookup_task_leases d i : task_leases d !! i = task_lease <$> scan_tasks d !! i.
Proof. apply lookup_fmap. Qed.

Lemma task_leases_ext d d' : scan_tasks d' = scan_tasks d -> task_leases d' = task_leases d.
Proof. unfold task_leases. by intros ->. Qed.

Lemma live_task_lease now t : live now (task_lease t) = lease_live now t.
Proof. unfold task_lease, lease_live. by destruct (task_status t), (task_lease_expires_at t). Qed.

Lemma stale_task_lease now t : stale now (task_lease t) = lease_expired now t.
Proof. unfold task_lease, lease_expired. by destruct (task_status t), (task_lease_expires_at t). Qed.

Lemma running_count_tasks now d :
  running_count now (task_leases d) = count_where (fun _ => lease_live now) (scan_tasks d).
Proof.
  apply count_where_ext. intros i. rewrite lookup_task_leases. split.
  - intros (l & (t & Ht & ->)%fmap_Some & Hl). exists t. by rewrite <- live_task_lease.
  - intros (t & -> & Hl). exists (task_lease t). by rewrite live_task_lease.
Qed.

Lemma owned_task_lease w now tid d t :
  owned_task w now tid d = Some t ->
  task_leases d !! tid = Some (task_lease t) /\ held_by w (task_lease t) = true /\
  live now (task_lease t) = true.
Proof.
  intros (Ht & Hl & Hw)%owned_task_Some. rewrite lookup_task_leases, Ht, live_task_lease.
  split_and!; [done| |done]. unfold task_lease, lease_live in *.
  apply andb_true_iff in Hl as [->%bool_decide_eq_true _]. cbn. by rewrite Hw, bool_decide_true.
Qed.

(** ** Claiming *)

Lemma claimed_tasks_length cap gl now locked d :
  Z.of_nat (length (claimed_tasks cap gl now locked d)) <= Z.max 0 (claim_limit cap gl now d).
Proof. unfold claimed_tasks. rewrite length_take. lia. Qed.

Lemma after_reset_running now locked d :
  count_where (fun _ => lease_live now) (scan_tasks (after_reset now locked d).2) =
  count_where (fun _ => lease_live now) (scan_tasks d).
Proof.
  apply count_where_ext. intros i. rewrite after_reset_lookup.
  destruct (scan_tasks d !! i) as [t|]; cbn; [|naive_solver].
  assert (lease_expired now t = true -> lease_live now t = false) as Hex.
  { rewrite <- stale_task_lease, <- live_task_lease. apply stale_not_live. }
  split; intros (x & [= <-] & Hx); eexists; (split; [done|]); revert Hx.
  - by destruct (lease_expired now t && _).
  - destruct (lease_expired now t); [|done]. by rewrite Hex.
Qed.

Lemma elem_of_claimed cap gl now locked d i :
  i ∈ (claimed_tasks cap gl now locked d).*1 ->
  exists t, scan_tasks d !! i = Some t /\ task_status t = TASK_PENDING /\ i ∉ locked.
Proof.
  intros (p & -> & Hp)%list_elem_of_fmap. unfold claimed_tasks in Hp.
  apply elem_of_take in Hp as (k & Hp & _). apply list_elem_of_lookup_2 in Hp.
  apply elem_of_claimable in Hp. eauto.
Qed.

(** The rows after a claim. *)
Lemma claim_lookup w cap gl ls now wall locked d i :
  0 < cap ->
  scan_tasks (claim_scan_tasks w cap gl ls now wall locked d).2 !! i =
  (fun t =>
     let t := if lease_expired now t && bool_decide (i ∉ locked) then reset_fields t else t in
     if bool_decide (i ∈ (claim_scan_tasks w cap gl ls now wall locked d).1)
     then claim_fields w now (now + ls * second) t else t) <$> scan_tasks d !! i.
Proof.
  intros Hcap. rewrite claim_scan_tasks_eq by done. cbn zeta. cbn [fst snd].
  rewrite refresh_scan_batches_eq. cbn.
  destruct (after_reset now locked d) as [B1 d1] eqn:E. cbn [fst snd].
  rewrite for_tasks_lookup by apply NoDup_claimable.
  pose proof (after_reset_lookup now locked d i) as Hr. rewrite E in Hr. cbn in Hr.
  rewrite Hr. by destruct (scan_tasks d !! i).
Qed.

Lemma claim_refines w cap limit ls now wall locked d :
  exists ops, lease_steps limit now (task_leases d) ops
    (task_leases (claim_scan_tasks w cap limit ls now wall locked d).2) /\
    Forall (fun o => op_worker o = None \/ op_worker o = Some w) ops.
Proof.
  destruct (decide (0 < cap)) as [Hcap|Hcap].
  2:{ exists []. unfold claim_scan_tasks. destruct (Z.leb_spec cap 0); [|lia].
      split; [constructor|constructor]. }
  set (ids := (claim_scan_tasks w cap limit ls now wall locked d).1).
  set (R := list_to_set (expired_scan_tasks now locked d) : gset Z).
  exists [Claim w R (list_to_set ids) (now + ls * second)].
  split; [|repeat constructor; cbn; by right].
  apply lease_steps_one.
  assert (ids = (claimed_tasks cap limit now locked (after_reset now locked d).2).*1) as Hids
    by (unfold ids; by rewrite claim_scan_tasks_eq by done).
  assert (HR : forall i, i ∈ R <-> exists t, scan_tasks d !! i = Some t /\
    lease_expired now t = true /\ i ∉ locked)
    by (intros i; unfold R; by rewrite elem_of_list_to_set, elem_of_expired).
  replace (task_leases (claim_scan_tasks w cap limit ls now wall locked d).2)
    with (map_imap (fun i l => Some (claim_result w R (list_to_set ids) (now + ls * second) i l))
            (task_leases d)).
  - constructor.
    + intros i (t & Ht & Hexp & _)%HR. exists (task_lease t).
      by rewrite lookup_task_leases, Ht, stale_task_lease.
    + intros i Hi. rewrite elem_of_list_to_set, Hids in Hi.
      apply elem_of_claimed in Hi as (t' & Ht' & Hp & Hloc).
      rewrite after_reset_lookup in Ht'. apply fmap_Some in Ht' as (t & Ht & ->).
      destruct (lease_expired now t) eqn:Hexp.
      * left. apply HR. eauto.
      * right. rewrite lookup_task_leases, Ht. cbn in *. unfold task_lease. by rewrite Hp.
    + intros Hne. rewrite running_count_tasks, size_list_to_set
        by (rewrite Hids; apply NoDup_claimable).
      pose proof (claimed_tasks_length cap limit now locked (after_reset now locked d).2) as Hlen.
      unfold claim_limit in Hlen. rewrite after_reset_running in Hlen.
      assert (length ids ≠ 0%nat) by (intros ?%nil_length_inv; subst ids; apply Hne; by rewrite H).
      rewrite Hids in H |- *. rewrite length_fmap in H |- *. lia.
  - apply map_eq. intros i. rewrite lookup_claim, !lookup_task_leases, claim_lookup by done.
    destruct (scan_tasks d !! i) as [t|] eqn:Ht; cbn [fmap option_fmap option_map]; [|done]. f_equal.
    unfold claim_result. rewrite (bool_decide_ext (i ∈@{gset Z} list_to_set ids) (i ∈ ids))
      by apply elem_of_list_to_set. fold ids.
    case_bool_decide; [done|].
    rewrite (bool_decide_ext (i ∈ R) (lease_expired now t = true /\ i ∉ locked))
      by (rewrite HR; naive_solver).
    destruct (lease_expired now t); cbn; [|done].
    by destruct (decide (i ∈ locked)); [rewrite !bool_decide_false by naive_solver
                                       |rewrite !bool_decide_true by naive_solver].
Qed.

(** ** Renewing *)

Lemma renew_lookup w ids ls now d i :
  scan_tasks (renew_scan_leases w ids ls now d).2 !! i =
  (fun t => if renewable w now ids i t
            then t <| task_heartbeat_at := Some now |>
                   <| task_lease_expires_at := Some (now + ls * second) |>
            else t) <$> scan_tasks d !! i.
Proof.
  unfold renew_scan_leases. case_decide as Hids; cbn [snd].
  - destruct (scan_tasks d !! i) as [t|]; cbn; [|done]. unfold renewable. subst ids.
    by rewrite bool_decide_false by set_solver.
  - cbn. by rewrite lookup_update_where.
Qed.

Lemma renewable_spec w now ids i t :
  renewable w now ids i t = true <->
  i ∈ ids /\ lease_live now t = true /\ task_worker_id t = Some w.
Proof. unfold renewable. rewrite !andb_true_iff, !bool_decide_eq_true. tauto. Qed.

Lemma lease_live_running now t : lease_live now t = true -> task_status t = TASK_RUNNING.
Proof. unfold lease_live. by intros [?%bool_decide_eq_true _]%andb_true_iff. Qed.

Lemma renew_refines w ids limit ls now d :
  lease_steps limit now (task_leases d)
    [Renew w (select_ids (renewable w now ids) (scan_tasks d)) (now + ls * second)]
    (task_leases (renew_scan_leases w ids ls now d).2).
Proof.
  apply lease_steps_one.
  replace (task_leases (renew_scan_leases w ids ls now d).2) with
    (update_where (fun i _ => bool_decide (i ∈ select_ids (renewable w now ids) (scan_tasks d)))
       (fun _ => Held (Some w) (Some (now + ls * second))) (task_leases d)).
  - constructor. intros i (t & Ht & Hr%renewable_spec)%elem_of_select_ids.
    destruct Hr as (_ & Hl & Hw). exists (task_lease t).
    apply (owned_task_lease w now i d t), owned_task_Some. done.
  - apply map_eq. intros i. rewrite lookup_update_where, !lookup_task_leases, renew_lookup.
    destruct (scan_tasks d !! i) as [t|] eqn:Ht; cbn; [|done]. f_equal.
    rewrite (bool_decide_ext (i ∈ _) (renewable w now ids i t = true))
      by (rewrite elem_of_select_ids; naive_solver).
    destruct (renewable w now ids i t) eqn:Hr; [|done]. cbn.
    apply renewable_spec in Hr as (_ & Hl%lease_live_running & Hw).
    unfold task_lease. cbn. by rewrite Hl, Hw.
Qed.

(** ** Settling and withdrawing *)

Lemma settle_leases f st tid wall d :
  is_Some (scan_tasks d !! tid) ->
  (forall t, task_status (f t) = st) -> st ≠ TASK_PENDING -> st ≠ TASK_RUNNING ->
  task_leases (settle_task f st tid wall d) = <[tid := Settled]> (task_leases d).
Proof.
  intros [t Ht] Hf Hp Hr. apply map_eq. intros i.
  rewrite lookup_task_leases, settle_task_lookup.
  destruct (decide (tid = i)) as [->|Hne].
  - rewrite lookup_alter_eq, lookup_insert_eq, Ht. cbn. unfold task_lease. rewrite Hf.
    by destruct st.
  - by rewrite lookup_alter_ne, lookup_insert_ne, lookup_task_leases.
Qed.

(** A transaction that leaves leases alone, or rolls back. *)
Lemma refines_same limit now T T' w :
  T' = T -> exists ops, lease_steps limit now T ops T' /\
    Forall (fun o => op_worker o = None \/ op_worker o = w) ops.
Proof. intros ->. exists []. split; constructor. Qed.

Lemma refines_one limit now T op T' w :
  lease_step limit now T op T' -> op_worker op = None \/ op_worker op = w ->
  exists ops, lease_steps limit now T ops T' /\
    Forall (fun o => op_worker o = None \/ op_worker o = w) ops.
Proof. intros. exists [op]. split; [by apply lease_steps_one|by apply Forall_singleton]. Qed.

Lemma settle_refines f st w limit tid now wall d t :
  owned_task w now tid d = Some t ->
  (forall t, task_status (f t) = st) -> st ≠ TASK_PENDING -> st ≠ TASK_RUNNING ->
  exists ops, lease_steps limit now (task_leases d) ops (task_leases (settle_task f st tid wall d)) /\
    Forall (fun o => op_worker o = None \/ op_worker o = Some w) ops.
Proof.
  intros Ho Hf Hp Hr. apply (refines_one _ _ _ (Settle w tid)); [|by right].
  apply owned_task_Some in Ho as Ht. destruct Ht as (Ht & _).
  rewrite (settle_leases f st) by (done || by eexists).
  apply owned_task_lease in Ho as (? & ? & ?). by econstructor.
Qed.

Lemma drop_commit {A} (m : Tx A) d :
  (commit (drop m) d).2 = match m d with Ok (_, d') => d' | Raise _ => d end.
Proof. unfold commit, drop, tx_bind. by destruct (m d) as [[a d']|e]. Qed.

Section refine.
Context `{UnicodeCase, PgAggregates}.

Lemma persist_refines w limit tid o now wall d :
  exists ops, lease_steps limit now (task_leases d) ops
    (task_leases (commit (drop (_persist_outcome w tid o now wall)) d).2) /\
    Forall (fun op => op_worker op = None \/ op_worker op = Some w) ops.
Proof.
  rewrite drop_commit. unfold _persist_outcome.
  destruct (owned_task w now tid d) as [t|] eqn:Ho; [|by apply refines_same].
  unfold tx_bind, tx_modify.
  destruct (add_scan_outcome wall o d) as [[run d1]|e] eqn:E1; [|by apply refines_same].
  apply add_scan_outcome_tables in E1. cbn in E1. injection E1 as E1 _ _ _ _ _.
  set (st := outcome_task_status o).
  assert (Hs : task_leases (settle_task (persist_fields run o st) st tid wall d1) =
               task_leases (settle_task (persist_fields run o st) st tid wall d)).
  { apply map_eq. intros i. by rewrite !lookup_task_leases, !settle_task_lookup, E1. }
  destruct (outcome_task_status_terminal o).
  destruct (settle_refines (persist_fields run o st) st w limit tid now wall d t)
    as (ops & Hops & Hf); [done..|].
  exists ops. split; [|done].
  destruct (decide (st = TASK_SUCCESS)); cbn [tx_ret].
  - rewrite (task_leases_ext (settle_task (persist_fields run o st) st tid wall d1)
      (notify_topology_changed _)) by done. by rewrite Hs.
  - by rewrite Hs.
Qed.
End refine.

Lemma fail_refines w limit tid now wall d :
  exists ops, lease_steps limit now (task_leases d) ops
    (task_leases (commit (_fail_unexpected_task w tid now wall) d).2) /\
    Forall (fun op => op_worker op = None \/ op_worker op = Some w) ops.
Proof.
  unfold commit, _fail_unexpected_task.
  destruct (owned_task w now tid d) as [t|] eqn:Ho; [|by apply refines_same].
  by eapply settle_refines.
Qed.

Lemma cancel_refines limit dev now wall d :
  exists ops, lease_steps limit now (task_leases d) ops
    (task_leases (commit (drop (cancel_device dev wall)) d).2) /\
    Forall (fun op => op_worker op = None \/ op_worker op = None) ops.
Proof.
  rewrite drop_commit. unfold cancel_device.
  destruct (_active_task d dev) as [[tid t]|] eqn:E; [|by apply refines_same].
  case_decide as Hr; [by apply refines_same|].
  apply active_task_Some in E as (Ht & Ha & _).
  apply (refines_one _ _ _ (Withdraw tid)); [|by left].
  rewrite (settle_leases (cancel_fields wall) TASK_CANCELLED) by (done || by eexists).
  constructor. rewrite lookup_task_leases, Ht. cbn. unfold task_lease, task_active in *.
  by destruct (task_status t).
Qed.

(** ** Enqueueing *)

Lemma enqueue_in_session_refines qs limit dev trig prio b now wall d r :
  queue_core d -> _enqueue_in_session qs dev trig prio b wall d = Ok r ->
  exists ops, lease_steps limit now (task_leases d) ops (task_leases r.2) /\
    Forall (fun op => op_worker op = None \/ op_worker op = None) ops.
Proof.
  intros Hc. unfold _enqueue_in_session. destruct (devices d !! dev); [|done]. case_match; [done|].
  rewrite tx_bind_Ok. intros (p & d1 & E1 & E). apply tx_bind_Ok in E as ([] & d2 & E2 & [= <-]).
  assert (Hd2 : scan_tasks d2 = scan_tasks d1).
  { destruct b as [b|]; [|by injection E2 as <-]. unfold _attach_batch_item in E2.
    case_decide; [|by injection E2 as <-]. case_match; [|done]. by injection E2 as <-. }
  cbn [snd]. rewrite (task_leases_ext d1 d2) by done.
  unfold find_or_add_task in E1. destruct (_active_task d dev) as [[i t]|] eqn:E.
  - apply active_task_Some in E as (Ht & _). apply refines_same.
    destruct (task_priority t <? prio); injection E1 as <- <-; [|done]. apply map_eq. intros j.
    rewrite !lookup_task_leases. cbn. destruct (decide (i = j)) as [->|];
      [by rewrite lookup_insert_eq, Ht|by rewrite lookup_insert_ne].
  - destruct (qs <=? _active_count d); [done|]. injection E1 as <- <-.
    apply (refines_one _ _ _ (Submit (next_id d T_scan_tasks))); [|by left].
    lazymatch goal with |- lease_step _ _ _ _ ?T' =>
      replace T' with (<[next_id d T_scan_tasks := Waiting]> (task_leases d)) end.
    + constructor. rewrite lookup_task_leases. by rewrite (ids_below_fresh _ _ (core_task_ids d Hc)).
    + symmetry. unfold task_leases. cbn. by rewrite fmap_insert.
Qed.

Lemma refresh_leases wall B d : task_leases (refresh_scan_batches wall B d) = task_leases d.
Proof. rewrite refresh_scan_batches_eq. done. Qed.

Lemma enqueue_all_refines qs limit devs trig prio b now wall d r :
  queue_core d -> consistent_outside {[b]} d ->
  enqueue_all qs devs trig prio b wall d = Ok r ->
  exists ops, lease_steps limit now (task_leases d) ops (task_leases r.2) /\
    Forall (fun op => op_worker op = None \/ op_worker op = None) ops.
Proof.
  revert d. induction devs as [|dev devs IH]; intros d Hc Ho E; cbn in E.
  { injection E as <-. by apply refines_same. }
  apply tx_bind_Ok in E as (tid & d1 & E1 & E).
  destruct (enqueue_in_session_inv qs dev trig prio (Some b) wall {[b]} d _ Hc Ho
    ltac:(set_solver) E1) as (Hc1 & Ho1 & _).
  apply (enqueue_in_session_refines qs limit _ _ _ _ now) in E1 as (ops1 & Hs1 & Hf1); [|done].
  destruct (IH d1 Hc1 Ho1 E) as (ops2 & Hs2 & Hf2).
  exists (ops1 ++ ops2). split; [by eapply lease_steps_app|by apply Forall_app].
Qed.

Lemma create_batch_refines qs limit bt devs cl src now wall d r :
  queue_inv d -> _create_batch_in_session qs bt devs cl src wall d = Ok r ->
  exists ops, lease_steps limit now (task_leases d) ops (task_leases r.2) /\
    Forall (fun op => op_worker op = None \/ op_worker op = None) ops.
Proof.
  intros Hinv. unfold _create_batch_in_session. case_match; [done|].
  rewrite tx_bind_Ok. intros (b & d1 & E1 & E).
  destruct (add_batch_inv _ d _ Hinv E1) as (Hc1 & Ho1 & _ & Htasks & _).
  destruct (_batch_trigger_and_priority bt) as [trig prio].
  apply tx_bind_Ok in E as ([] & d2 & E2 & E).
  apply tx_bind_Ok in E as ([] & d3 & [= <-] & [= <-]). cbn in *.
  rewrite refresh_leases. rewrite <- (task_leases_ext d d1) by done.
  exact (enqueue_all_refines qs limit _ trig prio b now wall d1 _ Hc1 Ho1 E2).
Qed.

(** ** The queue is a lease queue *)

Lemma commit_ok {A} (m : Tx A) d (P : Db -> Prop) :
  P d -> (forall r, m d = Ok r -> P r.2) -> P (commit m d).2.
Proof.
  intros Hd Hr. unfold commit. destruct (m d) as [[a d']|e]; [|done]. by apply (Hr (a, d')).
Qed.

Lemma drop_Ok {A} (m : Tx A) d r : drop m d = Ok r -> exists a, m d = Ok (a, r.2).
Proof. unfold drop. rewrite tx_bind_Ok. intros (a & d' & E & [= <-]). eauto. Qed.

Section instance.
Context `{UnicodeCase, PgAggregates} (queue_size limit : Z).

Lemma queue_step_inv now op d d' :
  queue_inv d -> queue_step queue_size limit now op d d' -> queue_inv d'.
Proof.
  intros Hinv (wall & locked & <-). apply commit_ok; [done|]. intros [[] d1] E.
  destruct op; cbn [queue_tx] in E; try (apply drop_Ok in E as [a E]).
  - injection E as <-. by apply claim_scan_tasks_inv.
  - injection E as <-. by apply renew_scan_leases_inv.
  - by eapply persist_outcome_inv in E.
  - by eapply record_transaction_conflict_inv in E.
  - by eapply fail_unexpected_task_inv in E.
  - by eapply enqueue_device_inv in E.
  - by eapply create_batch_inv in E.
  - by eapply create_import_scan_batch_inv in E.
  - by eapply cancel_device_inv in E.
Qed.

Lemma queue_step_refines now op d d' :
  queue_inv d -> queue_step queue_size limit now op d d' ->
  exists ops, lease_steps limit now (task_leases d) ops (task_leases d') /\
    Forall (fun o => op_worker o = None \/ op_worker o = queue_op_worker op) ops.
Proof.
  intros Hinv (wall & locked & <-).
  destruct op; cbn [queue_tx queue_op_worker].
  - apply claim_refines.
  - eexists. split; [apply renew_refines|]. apply Forall_singleton. by right.
  - apply persist_refines.
  - apply persist_refines.
  - apply fail_refines.
  - apply (commit_ok _ _ (fun d' => exists ops, lease_steps limit now (task_leases d) ops
      (task_leases d') /\ _)); [by apply refines_same|].
    intros [[] d'] [tid E]%drop_Ok. cbn [snd] in *. unfold enqueue_device in E.
    apply tx_bind_Ok in E as (i & d1 & E1 & E). apply tx_bind_Ok in E as ([] & d2 & E2 & [= <-]).
    apply (enqueue_in_session_refines queue_size limit _ _ _ _ now) in E1; [|apply Hinv].
    destruct batch_id as [b|]; injection E2 as E2; subst; rewrite ?refresh_leases; done.
  - apply (commit_ok _ _ (fun d' => exists ops, lease_steps limit now (task_leases d) ops
      (task_leases d') /\ _)); [by apply refines_same|].
    intros [[] d'] [b E]%drop_Ok. cbn [snd] in *. by eapply create_batch_refines in E.
  - apply (commit_ok _ _ (fun d' => exists ops, lease_steps limit now (task_leases d) ops
      (task_leases d') /\ _)); [by apply refines_same|].
    intros [[] d'] [b E]%drop_Ok. cbn [snd] in *. unfold create_import_scan_batch in E.
    destruct (import_batches d !! import_batch_id) as [ib|];
      [|injection E as _ <-; by apply refines_same].
    destruct (import_scan_batch_id ib); [injection E as _ <-; by apply refines_same|].
    apply tx_bind_Ok in E as (b1 & d1 & E1 & E). apply tx_bind_Ok in E as ([] & d2 & [= <-] & [= _ <-]).
    by eapply create_batch_refines in E1.
  - apply cancel_refines.
Qed.

#[export] Instance scan_lease_queue : LeaseQueue Db queue_op limit := {
  lq_view := task_leases;
  lq_inv := queue_inv;
  lq_worker := queue_op_worker;
  lq_step := queue_step queue_size limit;
  lq_step_inv := queue_step_inv;
  lq_refines := queue_step_refines
}.
End instance.
