(* ===== verification/ScanTheorems.v ===== *)
(** * What the scan queue guarantees

    The theorems about whole executions of the scan queue, and about each of its
    transactions, with a small concrete queue for their witnesses. *)

From S2P Require Import Prelude PyText Models Exceptions Collectors ServiceObservations Scans LeaseSpec TaskLeases ScanQueue ScanLeases.

(** ** Executions *)

Definition scan_exec `{UnicodeCase, PgAggregates} (queue_size limit : Z) : Z * Db -> Z * Db -> Prop :=
  @lq_exec Db queue_op limit (scan_lease_queue queue_size limit).

(** Live leases: the tasks that count against the global limit. *)
Definition running_tasks (now : Z) (d : Db) : Z :=
  count_where (fun _ => lease_live now) (scan_tasks d).

(** A run of the queue as a program: operations with their times. *)
Definition run_queue `{UnicodeCase, PgAggregates} (queue_size limit : Z)
    (ops : list (Z * queue_op)) (d : Db) : Db :=
  foldl (fun d p => (commit (queue_tx queue_size limit p.2 p.1 p.1 ∅) d).2) d ops.

(** ** A concrete queue *)

Definition demo_device (enabled : bool) : Device :=
  mkDevice (u "edge-1") (u "10.0.0.1") LINUX 22 (u "root") (u "token") None 60 true enabled
    None None None 0 0.

Definition demo_empty : Db :=
  empty_db <| devices := list_to_map [(1, demo_device true); (2, demo_device true);
                                      (3, demo_device true); (4, demo_device false)] |>.

Definition demo_run (ops : list (Z * queue_op)) : Db :=
  @run_queue ascii_only first_occurrences 3 2 ops demo_empty.

(** Two devices in a batch, one more task, and worker "w1" holding one lease until
    second 100. *)
Definition demo_ops : list (Z * queue_op) :=
  [(5 * second, Op_batch BATCH_ALL [1; 2; 1; 4] None None);
   (6 * second, Op_enqueue 3 TRIGGER_MANUAL PRIORITY_MANUAL None);
   (10 * second, Op_claim (u "w1") 1 90)].

Definition demo : Db := demo_run demo_ops.

Definition demo_outcome (dev : Z) : ScanOutcome :=
  mkScanOutcome dev TRIGGER_MANUAL SCAN_SUCCESS (20 * second) (21 * second)
    [mkConnection (u "tcp") (u "ipv4") (u "10.0.0.1") 22 (Some (u "10.0.0.2")) (Some 5000)
       (Some (u "ESTAB")) (Some 1) (Some (u "sshd"));
     mkConnection (u "tcp") (u "ipv4") (u "10.0.0.1") 22 (Some (u "10.0.0.3")) (Some 5001)
       (Some (u "TIME-WAIT")) None None]
    None None None.

(** ** How a transaction changes the task table

    [rows_kept]: settled rows stay as they are, and the number of active tasks
    does not pass the larger of its old value and the queue size. *)

Definition rows_kept (queue_size : Z) (d d' : Db) : Prop :=
  (forall i t, scan_tasks d !! i = Some t -> task_active t = false -> scan_tasks d' !! i = Some t) /\
  _active_count d' <= Z.max queue_size (_active_count d).

Lemma rows_kept_refl qs d : rows_kept qs d d.
Proof. split; [auto|lia]. Qed.

Lemma rows_kept_trans qs d1 d2 d3 : rows_kept qs d1 d2 -> rows_kept qs d2 d3 -> rows_kept qs d1 d3.
Proof. intros [H1 C1] [H2 C2]. split; [|lia]. intros i t Hi Ha. eauto. Qed.

Lemma rows_kept_same qs d d' : scan_tasks d' = scan_tasks d -> rows_kept qs d d'.
Proof. intros E. split; unfold _active_count; rewrite E; [auto|lia]. Qed.

(** Every row is rewritten in place, settled ones left alone. *)
Lemma rows_kept_pointwise qs d d' (f : Z -> ScanTask -> ScanTask) :
  (forall i, scan_tasks d' !! i = f i <$> scan_tasks d !! i) ->
  (forall i t, scan_tasks d !! i = Some t -> task_active t = false -> f i t = t) ->
  rows_kept qs d d'.
Proof.
  intros Hlk Hf. split.
  - intros i t Hi Ha. rewrite Hlk, Hi. cbn. f_equal. by apply Hf.
  - etrans; [|apply Z.le_max_r]. apply count_where_le. intros i t'. rewrite Hlk.
    intros (t & Hi & ->)%fmap_Some Ha. exists t. split; [done|].
    destruct (task_active t) eqn:E; [done|]. by rewrite Hf, E in Ha.
Qed.

Lemma active_count_new d t i :
  scan_tasks d !! i = None ->
  _active_count (d <| scan_tasks := <[i := t]> (scan_tasks d) |>) <= _active_count d + 1.
Proof.
  intros Hi. unfold _active_count, count_where. cbn.
  rewrite <- (Nat2Z.inj_add _ 1). apply inj_le.
  rewrite <- (size_singleton (C := gset Z) i).
  etrans; [|apply size_union_le]. apply subseteq_size. intros j.
  rewrite elem_of_union, elem_of_singleton, !elem_of_select_ids.
  intros (x & Hx & Ha). destruct (decide (j = i)); [by right|left].
  rewrite lookup_insert_ne in Hx by done. eauto.
Qed.

Lemma claimed_active w cap gl ls now wall locked d i :
  0 < cap -> i ∈ (claim_scan_tasks w cap gl ls now wall locked d).1 ->
  exists t, scan_tasks d !! i = Some t /\ (i ∉ locked) /\
    (task_status t = TASK_PENDING \/ lease_expired now t = true).
Proof.
  intros Hcap. rewrite claim_scan_tasks_eq by done. cbn [fst].
  intros (t' & Ht' & Hp & Hl)%elem_of_claimed. rewrite after_reset_lookup in Ht'.
  apply fmap_Some in Ht' as (t & Ht & ->). exists t. split_and!; [done..|].
  destruct (lease_expired now t) eqn:E; [by right|]. by left.
Qed.

Lemma settled_not_claimable now t :
  task_active t = false -> task_status t ≠ TASK_PENDING /\ lease_expired now t = false.
Proof. unfold task_active, lease_expired. by destruct (task_status t). Qed.

Lemma claim_rows_kept qs w cap gl ls now wall locked d :
  rows_kept qs d (claim_scan_tasks w cap gl ls now wall locked d).2.
Proof.
  destruct (decide (0 < cap)) as [Hcap|Hcap].
  - eapply rows_kept_pointwise; [intros i; by apply claim_lookup|].
    intros i t Ht Ha. cbn. destruct (settled_not_claimable now t Ha) as [Hp Hx]. rewrite Hx. cbn.
    case_bool_decide as Hi; [|done].
    apply claimed_active in Hi as (t' & Ht' & _ & [?|?]); [congruence|congruence|done].
  - unfold claim_scan_tasks. destruct (Z.leb_spec cap 0); [apply rows_kept_refl|lia].
Qed.

Lemma renew_rows_kept qs w ids ls now d : rows_kept qs d (renew_scan_leases w ids ls now d).2.
Proof.
  eapply rows_kept_pointwise; [intros i; apply renew_lookup|].
  intros i t Ht Ha. cbn. destruct (renewable w now ids i t) eqn:Hr; [|done].
  apply renewable_spec in Hr as (_ & Hl%lease_live_running & _).
  unfold task_active in Ha. by rewrite Hl in Ha.
Qed.

Lemma settle_rows_kept qs f st tid wall d :
  (forall t, scan_tasks d !! tid = Some t -> task_active t = true) ->
  rows_kept qs d (settle_task f st tid wall d).
Proof.
  intros Hact. apply (rows_kept_pointwise qs d _ (fun i t => if bool_decide (i = tid) then f t else t)).
  - intros i. rewrite settle_task_lookup, lookup_alter. destruct (decide (tid = i)) as [->|].
    + by rewrite bool_decide_true.
    + rewrite bool_decide_false by done. by destruct (scan_tasks d !! i).
  - intros i t Ht Ha. case_bool_decide; [|done]. subst. by rewrite Hact in Ha.
Qed.

Lemma owned_active w now tid d t x :
  owned_task w now tid d = Some t -> scan_tasks d !! tid = Some x -> task_active x = true.
Proof.
  intros (Ht & Hl%lease_live_running & _)%owned_task_Some Hx. simplify_eq.
  unfold task_active. by rewrite Hl.
Qed.

Lemma enqueue_in_session_rows_kept qs dev trig prio b wall d r :
  queue_core d -> _enqueue_in_session qs dev trig prio b wall d = Ok r -> rows_kept qs d r.2.
Proof.
  intros Hc. unfold _enqueue_in_session. destruct (devices d !! dev); [|done]. case_match; [done|].
  rewrite tx_bind_Ok. intros (p & d1 & E1 & E). apply tx_bind_Ok in E as ([] & d2 & E2 & [= <-]).
  assert (Hd2 : scan_tasks d2 = scan_tasks d1).
  { destruct b as [b|]; [|by injection E2 as <-]. unfold _attach_batch_item in E2.
    case_decide; [|by injection E2 as <-]. case_match; [|done]. by injection E2 as <-. }
  cbn [snd]. eapply rows_kept_trans; [|by apply rows_kept_same].
  unfold find_or_add_task in E1. destruct (_active_task d dev) as [[i t]|] eqn:E.
  - apply active_task_Some in E as (Ht & Ha & _).
    destruct (task_priority t <? prio); injection E1 as <- <-; [|apply rows_kept_refl].
    apply (rows_kept_pointwise qs d _ (fun j x => if bool_decide (j = i) then raise_priority prio trig t else x)).
    + intros j. cbn. destruct (decide (i = j)) as [->|].
      * rewrite lookup_insert_eq, Ht. cbn. by rewrite bool_decide_true.
      * rewrite lookup_insert_ne by done. rewrite bool_decide_false by done.
        by destruct (scan_tasks d !! j).
    + intros j x Hx Hax. case_bool_decide; [|done]. subst. congruence.
  - destruct (Z.leb_spec qs (_active_count d)) as [|Hlt]; [done|]. injection E1 as <- <-.
    pose proof (ids_below_fresh _ _ (core_task_ids d Hc)) as Hfresh. split; cbn.
    + intros i x Hx _. rewrite lookup_insert_ne by congruence. done.
    + etrans; [apply (active_count_new d _ _ Hfresh)|]. lia.
Qed.

Lemma refresh_rows_kept qs wall B d : rows_kept qs d (refresh_scan_batches wall B d).
Proof. apply rows_kept_same. by rewrite refresh_scan_batches_eq. Qed.

Lemma enqueue_all_rows_kept qs devs trig prio b wall d r :
  queue_core d -> consistent_outside {[b]} d ->
  enqueue_all qs devs trig prio b wall d = Ok r -> rows_kept qs d r.2.
Proof.
  revert d. induction devs as [|dev devs IH]; intros d Hc Ho E; cbn in E.
  { injection E as <-. apply rows_kept_refl. }
  apply tx_bind_Ok in E as (tid & d1 & E1 & E).
  destruct (enqueue_in_session_inv qs dev trig prio (Some b) wall {[b]} d _ Hc Ho
    ltac:(set_solver) E1) as (Hc1 & Ho1 & _).
  apply enqueue_in_session_rows_kept in E1; [|done].
  eapply rows_kept_trans; [exact E1|]. by apply IH.
Qed.

Lemma create_batch_rows_kept qs bt devs cl src wall d r :
  queue_inv d -> _create_batch_in_session qs bt devs cl src wall d = Ok r -> rows_kept qs d r.2.
Proof.
  intros Hinv. unfold _create_batch_in_session. case_match; [done|].
  rewrite tx_bind_Ok. intros (b & d1 & E1 & E).
  destruct (add_batch_inv _ d _ Hinv E1) as (Hc1 & Ho1 & _ & Htasks & _).
  destruct (_batch_trigger_and_priority bt) as [trig prio].
  apply tx_bind_Ok in E as ([] & d2 & E2 & E).
  apply tx_bind_Ok in E as ([] & d3 & [= <-] & [= <-]).
  eapply rows_kept_trans; [by apply rows_kept_same|].
  eapply rows_kept_trans; [by eapply enqueue_all_rows_kept|apply refresh_rows_kept].
Qed.

Section rows.
Context `{UnicodeCase, PgAggregates} (qs limit : Z).

Lemma persist_rows_kept w tid o now wall d r :
  _persist_outcome w tid o now wall d = Ok r -> rows_kept qs d r.2.
Proof.
  unfold _persist_outcome. destruct (owned_task w now tid d) as [t|] eqn:Ho; [|done].
  rewrite tx_bind_Ok. intros (run & d1 & E1 & E).
  apply add_scan_outcome_tables in E1. injection E1 as E1 _ _ _ _ _. cbn in E1.
  apply tx_bind_Ok in E as ([] & d2 & [= <-] & E).
  eapply rows_kept_trans; [by apply rows_kept_same|].
  eapply rows_kept_trans.
  - apply (settle_rows_kept qs (persist_fields run o (outcome_task_status o)) (outcome_task_status o)
      tid wall). rewrite E1. intros x Hx. by eapply owned_active.
  - case_decide; injection E as <-; by apply rows_kept_same.
Qed.

Lemma queue_step_rows_kept now op d d' :
  queue_inv d -> queue_step qs limit now op d d' -> rows_kept qs d d'.
Proof.
  intros Hinv (wall & locked & <-). apply (commit_ok _ _ (rows_kept qs d)); [apply rows_kept_refl|].
  intros [[] d1] E. cbn [snd].
  destruct op; cbn [queue_tx] in E; try (apply drop_Ok in E as [a E]; cbn [snd] in E).
  - injection E as <-. apply claim_rows_kept.
  - injection E as <-. apply renew_rows_kept.
  - by apply persist_rows_kept in E.
  - by apply persist_rows_kept in E.
  - unfold _fail_unexpected_task in E. destruct (owned_task w now task_id d) eqn:Ho; [|done].
    injection E as <-. apply settle_rows_kept. intros x. by eapply owned_active.
  - unfold enqueue_device in E. apply tx_bind_Ok in E as (i & d2 & E1 & E).
    apply enqueue_in_session_rows_kept in E1; [|apply Hinv].
    apply tx_bind_Ok in E as ([] & d3 & E2 & E). injection E as _ ->.
    eapply rows_kept_trans; [exact E1|].
    destruct batch_id; injection E2 as <-; [apply refresh_rows_kept|apply rows_kept_refl].
  - by apply create_batch_rows_kept in E.
  - unfold create_import_scan_batch in E. destruct (import_batches d !! import_batch_id) as [ib|];
      [|injection E as _ <-; apply rows_kept_refl].
    destruct (import_scan_batch_id ib); [injection E as _ <-; apply rows_kept_refl|].
    apply tx_bind_Ok in E as (b1 & d2 & E1 & E).
    apply tx_bind_Ok in E as ([] & d3 & [= <-] & [= _ <-]).
    apply create_batch_rows_kept in E1; [|done].
    eapply rows_kept_trans; [exact E1|by apply rows_kept_same].
  - unfold cancel_device in E. destruct (_active_task d device_id) as [[tid t]|] eqn:Ea;
      [|injection E as _ <-; apply rows_kept_refl].
    apply active_task_Some in Ea as (Ht & Ha & _).
    case_decide; injection E as _ <-; [apply rows_kept_refl|].
    apply settle_rows_kept. intros x Hx. congruence.
Qed.

Lemma scan_exec_rows_kept c c' :
  scan_exec qs limit c c' -> queue_inv c.2 -> rows_kept qs c.2 c'.2.
Proof.
  unfold scan_exec. induction 1 as [c|t op s s1 c Hop _ IH|t t' s c _ _ IH]; cbn in *; intros Hinv.
  - apply rows_kept_refl.
  - eapply rows_kept_trans; [by eapply queue_step_rows_kept|].
    apply IH. by eapply queue_step_inv.
  - by apply IH.
Qed.
End rows.

(** ** The order in which tasks are claimed *)

#[export] Instance claim_le_total : Total claim_le.
Proof. intros [i t] [j s]. unfold claim_le. cbn. lia. Qed.
#[export] Instance claim_le_trans : Transitive claim_le.
Proof. intros [i t] [j s] [k r]. unfold claim_le. cbn. lia. Qed.

Lemma take_before {A} (R : A -> A -> Prop) (l : list A) n x y :
  StronglySorted R l -> x ∈ take n l -> y ∈ l -> y ∉ take n l -> R x y.
Proof.
  intros Hs Hx Hy Hny. rewrite <- (take_drop n l) in Hs, Hy.
  apply elem_of_app in Hy as [?|Hy]; [done|]. by apply (StronglySorted_app_1_elem_of R _ _ x y Hs).
Qed.

Lemma elem_of_take_in {A} n (l : list A) x : x ∈ take n l -> x ∈ l.
Proof. intros (k & Hk & _)%elem_of_take. by apply list_elem_of_lookup_2 in Hk. Qed.

(** A row the claim may hand out: pending, or running under an expired lease, and
    not locked by another transaction. *)
Definition claimable (now : Z) (locked : gset Z) (i : Z) (t : ScanTask) : bool :=
  (task_pending t || lease_expired now t) && bool_decide (i ∉ locked).

Lemma claimable_after_reset now locked d i t' :
  (i, t') ∈ claimable_scan_tasks locked (after_reset now locked d).2 <->
  exists t, scan_tasks d !! i = Some t /\ claimable now locked i t = true /\
    t' = if lease_expired now t then reset_fields t else t.
Proof.
  rewrite elem_of_claimable. cbn. rewrite after_reset_lookup, fmap_Some. split.
  - intros ((t & Ht & ->) & Hp & Hl). exists t. split; [done|]. revert Hp.
    unfold claimable. rewrite (bool_decide_true (i ∉ locked)) by done. rewrite !andb_true_r.
    destruct (lease_expired now t); [by rewrite orb_true_r|].
    intros Hp. unfold task_pending. by rewrite Hp.
  - intros (t & Ht & [Hc Hl]%andb_true_iff & ->). apply bool_decide_eq_true in Hl.
    split_and!; [|destruct (lease_expired now t); [done|]|done].
    + exists t. rewrite (bool_decide_true (i ∉ locked)) by done. by rewrite andb_true_r.
    + rewrite orb_false_r in Hc. by apply bool_decide_eq_true in Hc.
Qed.

Lemma claimable_NoDup locked d : NoDup (claimable_scan_tasks locked d).*1.
Proof.
  unfold claimable_scan_tasks. rewrite (merge_sort_Permutation claim_le _).
  apply NoDup_fst_map_to_list.
Qed.

Lemma claimable_count now locked d :
  Z.of_nat (length (claimable_scan_tasks locked (after_reset now locked d).2)) =
  count_where (claimable now locked) (scan_tasks d).
Proof.
  unfold count_where. f_equal. set (l := claimable_scan_tasks _ _).
  rewrite <- (length_fmap fst l), <- (size_list_to_set (C := gset Z) (l.*1))
    by apply claimable_NoDup.
  f_equal. apply set_eq. intros i. rewrite elem_of_list_to_set, elem_of_select_ids, list_elem_of_fmap.
  split.
  - intros ([j t'] & -> & Hp). apply claimable_after_reset in Hp as (t & ? & ? & _). eauto.
  - intros (t & Ht & Hc). eexists (i, _). split; [done|]. apply claimable_after_reset. eauto.
Qed.

(** Resetting an expired lease changes neither the priority nor the age of a task. *)
Lemma claim_le_reset i j t s (b c : bool) :
  claim_le (i, if b then reset_fields t else t) (j, if c then reset_fields s else s) ->
  claim_le (i, t) (j, s).
Proof. by destruct b, c. Qed.

(** ** Attaching an item twice *)

Lemma attach_attached b i t d r d' :
  _attach_batch_item b i t d = Ok r -> scan_batch_items d' = scan_batch_items r.2 ->
  _attach_batch_item b i t d' = Ok ((), d').
Proof.
  unfold _attach_batch_item. intros E Eq. rewrite Eq. clear Eq. revert E. case_decide as He.
  - destruct (scan_batches d !! b) as [batch|] eqn:Hb; [|done]. intros [= <-]. cbn [snd].
    rewrite decide_False; [done|]. intros He'.
    assert (next_id d T_scan_batch_items ∈ (∅ : gset Z)) as []%elem_of_empty.
    rewrite <- He'. apply elem_of_select_ids. cbn. rewrite lookup_insert_eq.
    eexists. split; [done|]. unfold existing_item. cbn. lia.
  - intros [= <-]. cbn [snd]. by rewrite decide_False.
Qed.

(** An active task is the active task of its device. *)
Lemma active_task_unique d i t :
  queue_core d -> scan_tasks d !! i = Some t -> task_active t = true ->
  _active_task d (task_device_id t) = Some (i, t).
Proof.
  intros Hc Hi Ha. destruct (_active_task d (task_device_id t)) as [[j s]|] eqn:E.
  - apply active_task_Some in E as (Hj & Has & Hd).
    assert (j = i) as -> by by apply (core_active d Hc j s Hj i t Hi). by simplify_eq.
  - rewrite active_task_None in E. by destruct (E i t Hi Ha).
Qed.

(** The states of the concrete queue satisfy the invariant. *)
Lemma queue_inv_no_tasks d :
  scan_tasks d = ∅ -> scan_batches d = ∅ -> scan_batch_items d = ∅ -> queue_inv d.
Proof. intros E1 E2 E3. split; [constructor|]; unfold consistent_outside; rewrite ?E1, ?E2, ?E3; by intros ? ? ?. Qed.

Lemma run_queue_exec `{UnicodeCase, PgAggregates} qs limit ops t d :
  (forall p, p ∈ ops -> t <= p.1) -> Sorted Z.le ops.*1 ->
  scan_exec qs limit (t, d) (default t (last ops.*1), run_queue qs limit ops d).
Proof.
  revert t d. induction ops as [|[t' op] ops IH]; intros t d Ht Hs; [constructor|].
  apply (exec_tick t t'); [by apply (Ht (t', op)), list_elem_of_here|].
  cbn in Hs. apply (exec_op t' op _ ((commit (queue_tx qs limit op t' t' ∅) d).2)).
  { by exists t', ∅. }
  replace (default t (last ((t', op) :: ops).*1)) with (default t' (last ops.*1))
    by (destruct ops as [|p ops]; [done|]; rewrite !fmap_cons, last_cons_cons;
        destruct (last (p.1 :: ops.*1)) eqn:E; [done|by apply last_None in E]).
  apply IH.
  - apply Sorted_StronglySorted in Hs; [|intros ???; lia].
    apply StronglySorted_inv in Hs as [_ Hs].
    intros p Hp. rewrite Forall_forall in Hs. apply Hs. by apply list_elem_of_fmap_2.
  - by apply Sorted_inv in Hs as [? _].
Qed.

Lemma demo_run_inv ops : Sorted Z.le ops.*1 -> (forall p, p ∈ ops -> 0 <= p.1) -> queue_inv (demo_run ops).
Proof.
  intros Hs Ht.
  apply (lq_exec_inv (H := @scan_lease_queue ascii_only first_occurrences 3 2) _ _
    (@run_queue_exec ascii_only first_occurrences 3 2 ops 0 demo_empty Ht Hs)).
  by apply queue_inv_no_tasks.
Qed.

Lemma demo_inv : queue_inv demo.
Proof.
  apply demo_run_inv; [cbn; repeat constructor; done|].
  intros p Hp. unfold demo_ops in Hp. rewrite !elem_of_cons in Hp.
  destruct Hp as [->|[->|[->|[]%elem_of_nil]]]; done.
Qed.

(** * The guarantees *)

Section guarantees.
Context `{UnicodeCase, PgAggregates} (queue_size limit : Z).

(** C2. The global limit on running scans: from a consistent queue within the
    limit, no interleaving of claims, renewals, results, failures, enqueues,
    batches and cancellations of any workers, with any passage of time, has more
    than [limit] scan tasks under a live lease. *)
Theorem scan_limit_respected t d t' d' :
  queue_inv d -> running_tasks t d <= limit ->
  scan_exec queue_size limit (t, d) (t', d') -> running_tasks t' d' <= limit.
Proof.
  intros Hinv Hb Hx. unfold running_tasks in *. rewrite <- !running_count_tasks in *.
  exact (lq_exec_bounded (H := scan_lease_queue queue_size limit) _ _ Hx Hinv Hb).
Qed.



(** Results are final: once a task has succeeded, failed or been cancelled, its
    row (status, scan run, error, times, attempts) never changes again, so an
    expired worker's late result is never recorded for it. *)
Theorem scan_result_final t d t' d' i task :
  queue_inv d -> scan_exec queue_size limit (t, d) (t', d') ->
  scan_tasks d !! i = Some task -> task_active task = false ->
  scan_tasks d' !! i = Some task.
Proof.
  intros Hinv Hx Hi Ha. exact (proj1 (scan_exec_rows_kept queue_size limit _ _ Hx Hinv) i task Hi Ha).
Qed.

(** The queue never holds more than [queue_size] active tasks, if it starts
    within that bound. *)
Theorem scan_queue_bounded t d t' d' :
  queue_inv d -> _active_count d <= queue_size ->
  scan_exec queue_size limit (t, d) (t', d') -> _active_count d' <= queue_size.
Proof.
  intros Hinv Hb Hx. pose proof (proj2 (scan_exec_rows_kept queue_size limit _ _ Hx Hinv)).
  cbn in *. lia.
Qed.


(** A result or a failure is recorded only for the holder of a live lease:
    for anyone else the transaction raises [TaskLeaseLost] and the database is
    left as it was; for the holder a failure always settles the task, and a result
    does unless the device is gone. *)
Theorem late_result_rejected w tid o now wall d :
  match owned_task w now tid d with
  | None =>
      commit (_persist_outcome w tid o now wall) d = (Raise (TaskLeaseLost tid), d) /\
      commit (_fail_unexpected_task w tid now wall) d = (Raise (TaskLeaseLost tid), d)
  | Some t =>
      (exists d', commit (_fail_unexpected_task w tid now wall) d = (Ok (), d') /\
         scan_tasks d' !! tid = Some (fail_fields wall t)) /\
      (if decide (is_Some (devices d !! outcome_device_id o)) then
         exists d' run, commit (_persist_outcome w tid o now wall) d =
             (Ok (bool_decide (outcome_status o = SCAN_SUCCESS)), d') /\
           scan_tasks d' !! tid = Some (persist_fields run o (outcome_task_status o) t)
       else commit (_persist_outcome w tid o now wall) d =
              (Raise (DeviceNotFound (outcome_device_id o)), d))
  end.
Proof.
  unfold commit, _persist_outcome, _fail_unexpected_task.
  destruct (owned_task w now tid d) as [t|] eqn:Ho; [|done].
  apply owned_task_Some in Ho as (Ht & _). split.
  { eexists. split; [done|]. by rewrite settle_task_lookup, lookup_alter_eq, Ht. }
  unfold tx_bind. destruct (add_scan_outcome wall o d) as [[run d1]|e] eqn:E1.
  - pose proof (add_scan_outcome_tables _ _ _ _ E1) as E2. injection E2 as E2 _ _ _ _ _. cbn in E2.
    assert (is_Some (devices d !! outcome_device_id o)) as Hdev.
    { unfold add_scan_outcome in E1. by destruct (devices d !! _). }
    rewrite decide_True by done.
    assert (bool_decide (outcome_status o = SCAN_SUCCESS) =
            bool_decide (outcome_task_status o = TASK_SUCCESS)) as ->
      by (unfold outcome_task_status; by destruct (outcome_status o)).
    destruct (decide (outcome_task_status o = TASK_SUCCESS)) as [Hs|Hs];
      [rewrite bool_decide_true by done|rewrite bool_decide_false by done];
      eexists; exists run; (split; [cbn; by destruct (decide (outcome_task_status o = TASK_SUCCESS))|]).
    all: cbn; rewrite refresh_scan_batches_eq; cbn; by rewrite E2, lookup_alter_eq, Ht.
  - unfold add_scan_outcome in E1. destruct (devices d !! outcome_device_id o) eqn:Hd; [done|].
    injection E1 as <-. rewrite decide_False; [done|]. intros [? ?]. congruence.
Qed.

(** A claim hands out the best tasks: no task left behind that could have been
    claimed comes before a claimed one in the order (priority, then age, then
    identifier), each claimed task was claimable, and the number claimed is the
    least of the local capacity, the free global slots and the claimable tasks. *)
Theorem claim_takes_best w cap ls now wall locked d :
  0 < cap ->
  let ids := (claim_scan_tasks w cap limit ls now wall locked d).1 in
  NoDup ids /\
  (forall i, i ∈ ids -> exists t, scan_tasks d !! i = Some t /\ claimable now locked i t = true) /\
  (forall i t j s, i ∈ ids -> j ∉ ids ->
     scan_tasks d !! i = Some t -> scan_tasks d !! j = Some s -> claimable now locked j s = true ->
     claim_le (i, t) (j, s)) /\
  Z.of_nat (length ids) =
    Z.min (Z.min cap (Z.max (limit - running_tasks now d) 0))
          (count_where (claimable now locked) (scan_tasks d)).
Proof.
  intros Hcap. cbn zeta. rewrite claim_scan_tasks_eq by done. cbn [fst].
  unfold claimed_tasks. set (d1 := (after_reset now locked d).2).
  set (l := claimable_scan_tasks locked d1). set (n := Z.to_nat _).
  assert (Hin : forall i t, scan_tasks d !! i = Some t -> i ∈ (take n l).*1 ->
    (i, if lease_expired now t then reset_fields t else t) ∈ take n l).
  { intros i t Ht ([j t'] & -> & Hp)%list_elem_of_fmap. cbn in *.
    assert ((j, t') ∈ l) as Hl by (by apply (elem_of_take_in n)).
    apply claimable_after_reset in Hl as (x & Hx & _ & ->). by simplify_eq. }
  split_and!.
  - apply NoDup_claimable.
  - intros i ([j t'] & -> & Hp)%list_elem_of_fmap.
    assert ((j, t') ∈ l) as Hl by (by apply (elem_of_take_in n)).
    apply claimable_after_reset in Hl as (x & Hx & Hc & _). eauto.
  - intros i t j s Hi Hj Ht Hs Hc. apply Hin with (t := t) in Hi; [|done].
    eapply (claim_le_reset _ _ _ _ (lease_expired now t) (lease_expired now s)).
    eapply take_before; [|exact Hi| |].
    + apply StronglySorted_merge_sort; apply _.
    + apply claimable_after_reset. eauto.
    + intros Hjs. apply Hj. apply list_elem_of_fmap. by eexists (j, _).
  - rewrite length_fmap, length_take. unfold l, d1.
    pose proof (claimable_count now locked d) as <-.
    unfold n, claim_limit, d1. rewrite after_reset_running. unfold running_tasks. lia.
Qed.

(** Crash recovery: after a claim with positive capacity, no unlocked task is
    left under an expired lease; each such task was either claimed afresh by the
    claiming worker or returned to the pending state without an owner, and its
    attempt count grew exactly if it was claimed. *)
Theorem claim_recovers_expired w cap ls now wall locked d i t :
  0 < cap -> scan_tasks d !! i = Some t -> lease_expired now t = true -> i ∉ locked ->
  let r := claim_scan_tasks w cap limit ls now wall locked d in
  exists t', scan_tasks r.2 !! i = Some t' /\
    if bool_decide (i ∈ r.1)
    then task_lease t' = Held (Some w) (Some (now + ls * second)) /\
         task_attempt_count t' = task_attempt_count t + 1
    else task_lease t' = Waiting /\ task_attempt_count t' = task_attempt_count t.
Proof.
  intros Hcap Ht Hexp Hl. cbn zeta. rewrite claim_lookup, Ht by done.
  cbn [fmap option_fmap option_map]. rewrite Hexp. cbn [andb].
  rewrite (bool_decide_true (i ∉ locked)) by done. eexists. split; [done|].
  by case_bool_decide.
Qed.

(** Heartbeats: renewing reports as lost exactly the requested tasks the worker
    no longer holds under a live lease, extends the lease of the others to
    [lease_seconds] from now, and changes no other row. *)
Theorem renew_reports_lost w ids ls now d :
  let r := renew_scan_leases w ids ls now d in
  (forall i, i ∈ r.1 <-> i ∈ ids /\ owned_task w now i d = None) /\
  (forall i t, scan_tasks d !! i = Some t ->
     exists t', scan_tasks r.2 !! i = Some t' /\
       if bool_decide (i ∈ ids ∖ r.1)
       then task_lease t' = Held (Some w) (Some (now + ls * second))
       else t' = t).
Proof.
  cbn zeta.
  assert (Hren : forall i, i ∈ (renew_scan_leases w ids ls now d).1 <->
            i ∈ ids /\ owned_task w now i d = None).
  { intros i. assert (Hsel : i ∈ select_ids (renewable w now ids) (scan_tasks d) <->
      i ∈ ids /\ is_Some (owned_task w now i d)).
    { rewrite elem_of_select_ids. unfold is_Some. setoid_rewrite owned_task_Some.
      setoid_rewrite renewable_spec. naive_solver. }
    unfold renew_scan_leases. case_decide as He; cbn [fst]; [set_solver|].
    rewrite elem_of_difference, Hsel. rewrite <- not_eq_None_Some.
    destruct (owned_task w now i d); naive_solver. }
  split; [exact Hren|]. intros i t Ht. rewrite renew_lookup, Ht. cbn. eexists. split; [done|].
  destruct (renewable w now ids i t) eqn:Hr.
  - apply renewable_spec in Hr as (Hi & Hlive & Hw).
    rewrite bool_decide_true.
    + unfold task_lease. cbn. by rewrite (lease_live_running _ _ Hlive), Hw.
    + apply elem_of_difference. split; [done|]. rewrite Hren. intros [_ Hn].
      assert (owned_task w now i d = Some t) by (by apply owned_task_Some). congruence.
  - rewrite bool_decide_false; [done|]. rewrite elem_of_difference, Hren. intros [Hi Hn].
    destruct (owned_task w now i d) as [x|] eqn:Ho; [|by apply Hn].
    apply owned_task_Some in Ho as (Hx & ? & ?). simplify_eq.
    assert (renewable w now ids i t = true) by (by apply renewable_spec). congruence.
Qed.
End guarantees.

(** ** The guarantees on the concrete queue *)

Definition demo_more : list (Z * queue_op) :=
  [(20 * second, Op_claim (u "w2") 5 90);
   (30 * second, Op_persist (u "w1") 3 (demo_outcome 3));
   (40 * second, Op_renew (u "w2") {[1; 2]} 90);
   (200 * second, Op_claim (u "w3") 5 90)].

Definition demo_end : Z * Db :=
  (200 * second, @run_queue ascii_only first_occurrences 3 2 demo_more demo).

Lemma demo_exec : @scan_exec ascii_only first_occurrences 3 2 (10 * second, demo) demo_end.
Proof.
  apply (@run_queue_exec ascii_only first_occurrences 3 2 demo_more (10 * second) demo).
  - intros p Hp. unfold demo_more in Hp. rewrite !elem_of_cons in Hp.
    destruct Hp as [->|[->|[->|[->|[]%elem_of_nil]]]]; done.
  - cbn. repeat constructor; done.
Qed.

Lemma scan_limit_respected_witness : running_tasks (200 * second) demo_end.2 <= 2.
Proof.
  apply (@scan_limit_respected ascii_only first_occurrences 3 2 (10 * second) demo).
  - exact demo_inv.
  - vm_compute. discriminate.
  - exact demo_exec.
Defined.


(** Task 3 belongs to "w1" until second 100: a claim by "w2" does not touch it. *)
Definition demo_task (d : Db) (i : Z) : ScanTask :=
  default (new_task 0 TRIGGER_MANUAL 0 0) (scan_tasks d !! i).

Definition demo_claimed : Db :=
  (commit (@queue_tx ascii_only first_occurrences 3 2 (Op_claim (u "w2") 5 90) (20 * second) 0 ∅) demo).2.


Definition demo_done : Db :=
  @run_queue ascii_only first_occurrences 3 2
    [(30 * second, Op_persist (u "w1") 3 (demo_outcome 3))] demo.

Lemma demo_done_exec : @scan_exec ascii_only first_occurrences 3 2 (10 * second, demo) (30 * second, demo_done).
Proof.
  apply (@run_queue_exec ascii_only first_occurrences 3 2
    [(30 * second, Op_persist (u "w1") 3 (demo_outcome 3))] (10 * second) demo).
  - intros p ->%list_elem_of_singleton. done.
  - cbn. repeat constructor.
Qed.

Lemma demo_done_inv : queue_inv demo_done.
Proof.
  exact (lq_exec_inv (H := @scan_lease_queue ascii_only first_occurrences 3 2) _ _
    demo_done_exec demo_inv).
Qed.

Definition demo_after : Db :=
  @run_queue ascii_only first_occurrences 3 2
    [(300 * second, Op_claim (u "w1") 5 90); (301 * second, Op_persist (u "w1") 3 (demo_outcome 3))]
    demo_done.

Lemma scan_result_final_witness : scan_tasks demo_after !! 3 = Some (demo_task demo_done 3).
Proof.
  apply (@scan_result_final ascii_only first_occurrences 3 2 (30 * second) demo_done (301 * second)).
  - exact demo_done_inv.
  - apply (@run_queue_exec ascii_only first_occurrences 3 2
      [(300 * second, Op_claim (u "w1") 5 90); (301 * second, Op_persist (u "w1") 3 (demo_outcome 3))]
      (30 * second) demo_done).
    + intros p Hp. rewrite !elem_of_cons in Hp. destruct Hp as [->|[->|[]%elem_of_nil]]; done.
    + cbn. repeat constructor; done.
  - vm_compute. reflexivity.
  - vm_compute. reflexivity.
Defined.

Lemma scan_queue_bounded_witness : _active_count demo_end.2 <= 3.
Proof.
  apply (@scan_queue_bounded ascii_only first_occurrences 3 2 (10 * second) demo (200 * second)).
  - exact demo_inv.
  - vm_compute. discriminate.
  - exact demo_exec.
Defined.


Lemma claim_takes_best_witness :
  Z.of_nat (length (claim_scan_tasks (u "w2") 5 2 90 (20 * second) 0 ∅ demo).1) = 1.
Proof.
  destruct (claim_takes_best 2 (u "w2") 5 90 (20 * second) 0 ∅ demo) as (_ & _ & _ & H).
  - reflexivity.
  - rewrite H. vm_compute. reflexivity.
Defined.

Lemma claim_recovers_expired_witness :
  exists t', scan_tasks (claim_scan_tasks (u "w3") 5 2 90 (200 * second) 0 ∅ demo).2 !! 3 = Some t' /\
    task_lease t' = Held (Some (u "w3")) (Some (290 * second)) /\ task_attempt_count t' = 2.
Proof.
  destruct (claim_recovers_expired 2 (u "w3") 5 90 (200 * second) 0 ∅ demo 3 (demo_task demo 3))
    as (t' & Ht' & H).
  - reflexivity.
  - vm_compute. reflexivity.
  - vm_compute. reflexivity.
  - set_solver.
  - exists t'. split; [exact Ht'|]. revert H. rewrite bool_decide_true; [exact (fun H => H)|].
    vm_compute. left.
Defined.
