(* ===== verification/ScanEnqueue.v ===== *)
(** * What enqueueing and batching guarantee

    The requests on the scan queue of src/app/services/scan_queue.py: single
    devices, batches, imports and cancellation. *)

From S2P Require Import Prelude PyText Models Exceptions Collectors ServiceObservations Scans LeaseSpec TaskLeases ScanQueue ScanLeases ScanTheorems.

(** ** What an enqueue does to the tables *)

(** The devices a batch lists. *)
Definition devices_in_batch (b : Z) (d : Db) : gset Z :=
  map_to_set (fun _ it => item_device_id it)
    (where_ (fun _ it => item_batch_id it =? b) (scan_batch_items d)).

Lemma elem_of_batch_devices b d dev :
  dev ∈ devices_in_batch b d <->
  exists k it, scan_batch_items d !! k = Some it /\ item_batch_id it = b /\ item_device_id it = dev.
Proof.
  unfold devices_in_batch. rewrite elem_of_map_to_set. setoid_rewrite lookup_where.
  setoid_rewrite Z.eqb_eq. naive_solver.
Qed.

Definition has_active (d : Db) (dev : Z) : bool := bool_decide (is_Some (_active_task d dev)).

(** Two databases with the same devices, batches and items, where tasks were added
    or raised in priority. *)
Lemma find_or_add_Ok qs dev trig prio wall d :
  queue_core d -> has_active d dev = true \/ _active_count d < qs ->
  exists i t d', find_or_add_task qs dev trig prio wall d = Ok ((i, t), d') /\
    scan_tasks d' = <[i := t]> (scan_tasks d) /\ task_device_id t = dev /\ task_active t = true /\
    prio <= task_priority t /\
    devices d' = devices d /\ scan_batches d' = scan_batches d /\
    scan_batch_items d' = scan_batch_items d /\
    (if has_active d dev then _active_task d dev = Some (i, t) \/
       exists s, _active_task d dev = Some (i, s) /\ t = raise_priority prio trig s
     else scan_tasks d !! i = None).
Proof.
  intros Hc Hroom. unfold find_or_add_task, has_active in *.
  destruct (_active_task d dev) as [[i s]|] eqn:E.
  - pose proof (active_task_Some _ _ _ _ E) as (Hi & Ha & Hd). cbn.
    destruct (Z.ltb_spec (task_priority s) prio).
    + exists i, (raise_priority prio trig s), (d <| scan_tasks := <[i := raise_priority prio trig s]> (scan_tasks d) |>).
      split_and!; try done; eauto.
    + exists i, s, d. split_and!; try done; eauto. by rewrite insert_id.
  - destruct Hroom as [?|Hroom]; [done|]. destruct (Z.leb_spec qs (_active_count d)); [lia|].
    eexists _, _, _. split; [done|]. cbn. split_and!; try done.
    by apply ids_below_fresh, core_task_ids.
Qed.

(** Counting active tasks when a row is added or rewritten. *)
Lemma active_count_insert d d' i t :
  scan_tasks d' = <[i := t]> (scan_tasks d) -> task_active t = true ->
  _active_count d' = _active_count d +
    (if from_option task_active false (scan_tasks d !! i) then 0 else 1).
Proof.
  intros E Ht. unfold _active_count, count_where. rewrite E.
  assert (select_ids (fun _ => task_active) (<[i := t]> (scan_tasks d)) =
          {[i]} ∪ select_ids (fun _ => task_active) (scan_tasks d)) as ->.
  { apply set_eq. intros j. rewrite elem_of_union, elem_of_singleton, !elem_of_select_ids.
    destruct (decide (i = j)) as [->|Hne].
    - rewrite lookup_insert_eq. naive_solver.
    - rewrite lookup_insert_ne by done. naive_solver. }
  destruct (from_option task_active false (scan_tasks d !! i)) eqn:Hs.
  - rewrite subseteq_union_1_L; [lia|]. apply singleton_subseteq_l, elem_of_select_ids.
    destruct (scan_tasks d !! i); [eauto|done].
  - rewrite size_union, size_singleton; [lia|]. apply disjoint_singleton_l.
    rewrite elem_of_select_ids. intros (s & Hi & Ha). rewrite Hi in Hs. cbn in Hs. congruence.
Qed.

Lemma has_active_spec d dev :
  has_active d dev = true <->
  exists i t, scan_tasks d !! i = Some t /\ task_active t = true /\ task_device_id t = dev.
Proof.
  unfold has_active. rewrite bool_decide_eq_true. split.
  - intros [[i t] E]. apply active_task_Some in E. eauto.
  - intros (i & t & ? & ? & ?). destruct (_active_task d dev) eqn:E; [by eexists|].
    rewrite active_task_None in E. by destruct (E i t).
Qed.

Lemma attach_Ok b i t d :
  queue_core d -> is_Some (scan_batches d !! b) ->
  exists d', _attach_batch_item b i t d = Ok ((), d') /\
    scan_tasks d' = scan_tasks d /\ devices d' = devices d /\ scan_batches d' = scan_batches d /\
    devices_in_batch b d' = {[task_device_id t]} ∪ devices_in_batch b d.
Proof.
  intros Hc [batch Hb]. unfold _attach_batch_item.
  case_decide as He; [rewrite Hb|].
  - eexists. split; [done|]. cbn. split_and!; try done.
    pose proof (ids_below_fresh _ _ (core_item_ids d Hc)) as Hfresh.
    apply set_eq. intros dev. rewrite elem_of_union, elem_of_singleton, !elem_of_batch_devices. cbn.
    split.
    + intros (k & it & Hk & Hbk & Hd).
      apply lookup_insert_Some in Hk as [[<- <-]|[_ Hk]]; [by left|right; eauto].
    + intros [->|(k & it & Hk & Hbk & Hd)].
      * eexists _, _. by rewrite lookup_insert_eq.
      * exists k, it. split; [|done]. rewrite lookup_insert_ne; [done|]. congruence.
  - exists d. split_and!; try done. symmetry. apply subseteq_union_1_L, singleton_subseteq_l.
    apply elem_of_batch_devices.
    apply set_choose_L in He as [k (it & Hk & Hex)%elem_of_select_ids].
    unfold existing_item in Hex. exists k, it. split; [done|]. lia.
Qed.

Lemma enqueue_in_session_Ok qs dev trig prio b wall d :
  queue_core d -> is_Some (scan_batches d !! b) -> collectable d dev = true ->
  has_active d dev = true \/ _active_count d < qs ->
  exists i d', _enqueue_in_session qs dev trig prio (Some b) wall d = Ok (i, d') /\
    devices d' = devices d /\ scan_batches d' = scan_batches d /\
    devices_in_batch b d' = {[dev]} ∪ devices_in_batch b d /\
    _active_count d' = _active_count d + (if has_active d dev then 0 else 1) /\
    has_active d' dev = true /\
    (forall dev', dev' ≠ dev -> has_active d' dev' = has_active d dev').
Proof.
  intros Hc Hb Hcol Hroom. unfold _enqueue_in_session, collectable in *.
  destruct (devices d !! dev) as [device|]; [|done]. rewrite Hcol. cbn [negb].
  destruct (find_or_add_Ok qs dev trig prio wall d Hc Hroom)
    as (i & t & d1 & E1 & Ht1 & Hdev & Ha & _ & Hd1 & Hsb1 & Hit1 & Hold).
  assert (Hstatus : is_Some (scan_batches d1 !! b)) by by rewrite Hsb1.
  assert (queue_core d1) as Hc1.
  { by destruct (find_or_add_spec qs dev trig prio wall (dom (scan_batches d)) d ((i, t), d1) Hc) as [? _];
      [intros x y Hx []; apply elem_of_dom; eexists|exact E1|]. }
  destruct (attach_Ok b i t d1 Hc1 Hstatus) as (d2 & E2 & Ht2 & Hd2 & Hsb2 & Hbd).
  exists i, d2. split.
  { unfold tx_bind. rewrite E1. cbn [fst snd]. by rewrite E2. }
  assert (Htasks : scan_tasks d2 = <[i := t]> (scan_tasks d)) by congruence.
  assert (Hrow : forall s, scan_tasks d !! i = Some s -> task_active s = true ->
     has_active d dev = true /\ task_device_id s = dev).
  { intros s Hs Has. destruct (has_active d dev) eqn:Hact; [|congruence].
    split; [done|]. destruct Hold as [E|(s' & E & _)]; apply active_task_Some in E as (? & ? & ?); congruence. }
  split_and!; [congruence|congruence| | | |].
  - rewrite Hbd, Hdev. f_equal. unfold devices_in_batch. by rewrite Hit1.
  - rewrite (active_count_insert d d2 i t) by done. f_equal.
    destruct (has_active d dev) eqn:Hact.
    + destruct Hold as [E|(s' & E & _)]; apply active_task_Some in E as (Hi & Has & _);
        rewrite Hi; cbn; by rewrite Has.
    + by rewrite Hold.
  - apply has_active_spec. exists i, t. by rewrite Htasks, lookup_insert_eq.
  - intros dev' Hne. apply eq_true_iff_eq. rewrite !has_active_spec, Htasks.
    split; intros (j & s & Hj & Has & Hds).
    + apply lookup_insert_Some in Hj as [[<- <-]|[? Hj]]; [congruence|eauto].
    + exists j, s. rewrite lookup_insert_ne; [done|]. intros <-.
      destruct (Hrow s Hj Has). congruence.
Qed.

Definition without_task (d : Db) (devs : list Z) : list Z :=
  filter (fun dev => has_active d dev = false) devs.

Lemma without_task_cons d dev devs :
  without_task d (dev :: devs) =
  if has_active d dev then without_task d devs else dev :: without_task d devs.
Proof. unfold without_task. rewrite filter_cons. by destruct (has_active d dev). Qed.

Lemma without_task_ext d d' devs :
  (forall dev, dev ∈ devs -> has_active d' dev = has_active d dev) ->
  without_task d' devs = without_task d devs.
Proof.
  induction devs as [|dev devs IH]; intros Hd; [done|].
  rewrite !without_task_cons, Hd, IH by set_solver. done.
Qed.

Lemma enqueue_all_Ok qs devs trig prio b wall d :
  queue_core d -> consistent_outside {[b]} d -> is_Some (scan_batches d !! b) -> NoDup devs ->
  (forall dev, dev ∈ devs -> collectable d dev = true) ->
  _active_count d + Z.of_nat (length (without_task d devs)) <= qs ->
  exists d', enqueue_all qs devs trig prio b wall d = Ok ((), d') /\
    devices_in_batch b d' = list_to_set devs ∪ devices_in_batch b d /\
    _active_count d' = _active_count d + Z.of_nat (length (without_task d devs)) /\
    (forall dev, has_active d' dev = has_active d dev || bool_decide (dev ∈ devs)).
Proof.
  revert d. induction devs as [|dev devs IH]; intros d Hc Ho Hb Hnd Hcol Hroom.
  { exists d. cbn. split_and!; [done|set_solver|lia|]. intros dev.
    by rewrite bool_decide_false, orb_false_r by set_solver. }
  apply NoDup_cons in Hnd as [Hni Hnd]. rewrite without_task_cons in Hroom |- *.
  destruct (enqueue_in_session_Ok qs dev trig prio b wall d Hc Hb) as
    (i & d1 & E1 & Hd1 & Hsb1 & Hbd1 & Hc1 & Hact & Hother).
  { apply Hcol. set_solver. }
  { destruct (has_active d dev); [by left|right]. cbn [length] in Hroom. lia. }
  destruct (enqueue_in_session_inv qs dev trig prio (Some b) wall {[b]} d _ Hc Ho
    ltac:(set_solver) E1) as (Hcore1 & Ho1 & _). cbn [snd] in *.
  assert (Hwt : without_task d1 devs = without_task d devs).
  { apply without_task_ext. intros dev' Hdev'. apply Hother. by intros ->. }
  destruct (IH d1) as (d2 & E2 & Hbd2 & Hc2 & Hact2); try done.
  - by rewrite Hsb1.
  - intros dev' Hdev'. unfold collectable. rewrite Hd1. apply Hcol. set_solver.
  - rewrite Hwt, Hc1. destruct (has_active d dev); cbn [length] in Hroom; lia.
  - exists d2. cbn [enqueue_all]. unfold tx_bind. rewrite E1, E2. split_and!; [done| | |].
    + rewrite Hbd2, Hbd1. cbn. clear. set_solver.
    + rewrite Hc2, Hwt, Hc1. destruct (has_active d dev); cbn [length]; lia.
    + intros dev'. rewrite Hact2. destruct (decide (dev' = dev)) as [->|Hne].
      * rewrite Hact. cbn. by rewrite bool_decide_true, orb_true_r by set_solver.
      * rewrite Hother by done. f_equal. apply bool_decide_ext. set_solver.
Qed.

(** ** The selection of a batch *)

Lemma elem_of_fromkeys seen xs x : x ∈ fromkeys seen xs <-> x ∈ xs /\ x ∉ seen.
Proof.
  revert seen. induction xs as [|y xs IH]; intros seen; cbn; [set_solver|].
  case_decide; rewrite ?elem_of_cons, ?IH; [set_solver|].
  destruct (decide (x = y)); set_solver.
Qed.

Lemma NoDup_fromkeys seen xs : NoDup (fromkeys seen xs).
Proof.
  revert seen. induction xs as [|y xs IH]; intros seen; cbn; [constructor|].
  case_decide; [apply IH|]. constructor; [|apply IH]. rewrite elem_of_fromkeys. set_solver.
Qed.

Lemma elem_of_selected d devs dev :
  dev ∈ selected_device_ids d devs <-> dev ∈ devs /\ collectable d dev = true.
Proof.
  unfold selected_device_ids. rewrite list_elem_of_filter, elem_of_fromkeys. set_solver.
Qed.

Lemma NoDup_selected d devs : NoDup (selected_device_ids d devs).
Proof. apply NoDup_filter, NoDup_fromkeys. Qed.

Lemma active_device_ids_spec d sel dev :
  dev ∈ active_device_ids d sel <-> dev ∈ sel /\ has_active d dev = true.
Proof.
  unfold active_device_ids. rewrite elem_of_map_to_set, has_active_spec.
  setoid_rewrite lookup_where. setoid_rewrite andb_true_iff. setoid_rewrite bool_decide_eq_true.
  split; [naive_solver|]. intros (? & i & t & ? & ? & <-). eauto 8.
Qed.

(** The size check of a batch counts exactly the devices that need a new task. *)
Lemma new_task_count d sel :
  NoDup sel ->
  Z.of_nat (length sel) - Z.of_nat (size (active_device_ids d sel)) =
  Z.of_nat (length (without_task d sel)).
Proof.
  intros Hnd.
  assert (size (active_device_ids d sel) = length (filter (fun dev => has_active d dev = true) sel)) as ->.
  { rewrite <- (size_list_to_set (C := gset Z)) by by apply NoDup_filter.
    f_equal. apply set_eq. intros dev.
    rewrite active_device_ids_spec, elem_of_list_to_set, list_elem_of_filter. tauto. }
  unfold without_task. clear Hnd. induction sel as [|dev sel IH]; [done|].
  rewrite !filter_cons. destruct (has_active d dev); cbn [length decide]; repeat case_decide; cbn [length]; try done; lia.
Qed.

(** ** The total of a batch is the number of its devices *)

Lemma batch_counts_sum items b :
  batch_counts items b TASK_PENDING + batch_counts items b TASK_RUNNING
  + batch_counts items b TASK_SUCCESS + batch_counts items b TASK_FAILED
  + batch_counts items b TASK_CANCELLED =
  count_where (fun _ it => item_batch_id it =? b) items.
Proof.
  unfold batch_counts. induction items as [|i it items Hi IH] using map_ind.
  - by rewrite !count_where_empty.
  - rewrite !count_where_insert, <- IH by done. unfold item_in_batch.
    destruct (item_batch_id it =? b), (item_status it); cbn [andb]; repeat case_bool_decide; try done; lia.
Qed.

Lemma batch_total_devices d b batch :
  queue_inv d -> scan_batches d !! b = Some batch ->
  batch_total_tasks batch = Z.of_nat (size (devices_in_batch b d)).
Proof.
  intros [Hc Ho] Hb. destruct (Ho b batch Hb) as (E1 & E2 & E3 & E4 & E5 & _); [set_solver|].
  rewrite E5, E1, E2, E3, E4. pose proof (batch_counts_sum (scan_batch_items d) b).
  unfold devices_in_batch. rewrite size_map_to_set.
  - transitivity (count_where (fun _ it => item_batch_id it =? b) (scan_batch_items d)); [lia|].
    unfold count_where, select_ids. by rewrite size_dom.
  - intros i j x y [Hi Hbi%Z.eqb_eq]%lookup_where [Hj Hbj%Z.eqb_eq]%lookup_where Hd.
    apply (core_item_unique d Hc i x Hi j y Hj); congruence.
Qed.

Lemma refresh_batch_devices wall B b d :
  devices_in_batch b (refresh_scan_batches wall B d) = devices_in_batch b d.
Proof. by rewrite refresh_scan_batches_eq. Qed.

Lemma has_active_ext d d' dev : scan_tasks d' = scan_tasks d -> has_active d' dev = has_active d dev.
Proof. intros E. apply eq_true_iff_eq. by rewrite !has_active_spec, E. Qed.

Lemma add_batch_Ok batch d :
  source_taken (batch_source_import_batch_id batch) d = false ->
  exists d', add_batch batch d = Ok (next_id d T_scan_batches, d').
Proof. unfold add_batch. intros ->. by eexists. Qed.

(** A new batch has no item. *)
Lemma fresh_batch_devices d d1 :
  queue_inv d -> scan_batch_items d1 = scan_batch_items d -> devices_in_batch (next_id d T_scan_batches) d1 = ∅.
Proof.
  intros Hinv Hi. assert (Hfresh : scan_batches d !! next_id d T_scan_batches = None)
    by apply ids_below_fresh, core_batch_ids, Hinv.
  apply set_eq. intros dev. rewrite elem_of_batch_devices, Hi. split; [|set_solver].
  intros (k & it & Hk & Hbk & _). destruct (core_item_batch d (proj1 Hinv) k it Hk) as [? ?]. congruence.
Qed.

Lemma refreshed_none wall X d b : scan_batches (refresh_scan_batches wall X d) !! b = None -> scan_batches d !! b = None.
Proof. rewrite refresh_scan_batches_eq. cbn. rewrite lookup_refresh_map. by destruct (scan_batches d !! b). Qed.

(** ** The guarantees *)


(** ** Enqueueing twice *)

Lemma find_or_add_active qs dev trig prio wall d r :
  find_or_add_task qs dev trig prio wall d = Ok r ->
  task_active r.1.2 = true /\ prio <= task_priority r.1.2.
Proof.
  unfold find_or_add_task. destruct (_active_task d dev) as [[i t]|] eqn:Ea.
  - apply active_task_Some in Ea as (_ & Ha & _).
    destruct (Z.ltb_spec (task_priority t) prio); intros [= <-]; by split; [|cbn; lia].
  - destruct (qs <=? _active_count d); [done|]. intros [= <-]. by split; [|cbn; lia].
Qed.

Lemma find_active_again qs trig prio wall d i t :
  queue_core d -> scan_tasks d !! i = Some t -> task_active t = true -> prio <= task_priority t ->
  find_or_add_task qs (task_device_id t) trig prio wall d = Ok ((i, t), d).
Proof.
  intros Hc Hi Ha Hp. unfold find_or_add_task. rewrite (active_task_unique d i t) by done.
  destruct (Z.ltb_spec (task_priority t) prio); [lia|done].
Qed.

(** Requests for a device coalesce: after a request the device has exactly one
    active task, the returned one, at least as urgent as requested; asking again for
    the same device with no higher priority returns the same task and changes no
    task and no batch item. *)
Theorem enqueue_coalesces queue_size dev trig prio b wall d i d' :
  queue_inv d -> enqueue_device queue_size dev trig prio b wall d = Ok (i, d') ->
  (exists t, scan_tasks d' !! i = Some t /\ task_device_id t = dev /\ task_active t = true /\
     prio <= task_priority t) /\
  (forall j t, scan_tasks d' !! j = Some t -> task_active t = true -> task_device_id t = dev -> j = i) /\
  (forall trig' prio' wall', prio' <= prio ->
     exists d'', enqueue_device queue_size dev trig' prio' b wall' d' = Ok (i, d'') /\
       scan_tasks d'' = scan_tasks d' /\ scan_batch_items d'' = scan_batch_items d').
Proof.
  intros Hinv E. pose proof (enqueue_device_inv _ _ _ _ _ _ _ _ Hinv E) as [Hc' _]. cbn in Hc'.
  unfold enqueue_device in E. apply tx_bind_Ok in E as (i' & d2 & E1 & E).
  apply tx_bind_Ok in E as ([] & d3 & E3 & E). injection E as -> ->.
  assert (Hframe : scan_tasks d' = scan_tasks d2 /\ scan_batch_items d' = scan_batch_items d2 /\
            devices d' = devices d2)
    by (destruct b; injection E3 as <-; [by rewrite refresh_scan_batches_eq|done]).
  destruct Hframe as (Ht & Hi & Hd).
  unfold _enqueue_in_session in E1. destruct (devices d !! dev) as [device|] eqn:Hdevice; [|done].
  destruct (negb (device_collection_enabled device)) eqn:Hen; [done|].
  apply tx_bind_Ok in E1 as ([k t] & d1 & E1 & E2). apply tx_bind_Ok in E2 as ([] & d2' & E2 & E4).
  injection E4 as -> ->. cbn [fst snd] in *.
  destruct (find_or_add_spec queue_size dev trig prio wall (dom (scan_batches d)) d ((i, t), d1)
    (proj1 Hinv)) as (_ & _ & Hrow & Hdev & _ & Hdev1) ;
    [intros x y Hx []; apply elem_of_dom; by eexists|exact E1|]. cbn [fst snd] in *.
  destruct (find_or_add_active _ _ _ _ _ _ _ E1) as [Ha Hp]. cbn in Ha, Hp.
  assert (Hfr2 : scan_tasks d2 = scan_tasks d1 /\ devices d2 = devices d1).
  { destruct b as [b|]; [|by injection E2 as <-]. unfold _attach_batch_item in E2.
    case_decide; [|by injection E2 as <-]. destruct (scan_batches d1 !! b); [|done]. by injection E2 as <-. }
  destruct Hfr2 as [Ht2 Hd2].
  assert (Hrow' : scan_tasks d' !! i = Some t) by congruence.
  split_and!; [eauto| |].
  - intros j s Hj Has Hds. apply (core_active d' Hc' j s Hj i t Hrow'); congruence.
  - intros trig' prio' wall' Hle. unfold enqueue_device, _enqueue_in_session, tx_bind.
    rewrite Hd, Hd2, Hdev1, Hdevice, Hen.
    rewrite <- Hdev. rewrite (find_active_again _ _ _ _ d' i t) by (done || lia).
    cbn [fst snd]. destruct b as [b|].
    + rewrite (attach_attached b i t d1 _ d' E2) by done. eexists. split; [done|].
      by rewrite refresh_scan_batches_eq.
    + by eexists.
Qed.

(** Cancelling a device never stops a running scan: it answers [false], and
    changes nothing, exactly when the device's active task is running; otherwise it
    answers [true] and leaves the device without an active task. *)
Theorem cancel_spares_running dev wall d :
  queue_inv d ->
  exists r d', cancel_device dev wall d = Ok (r, d') /\
    (if r then has_active d' dev = false /\
       (forall i t, scan_tasks d !! i = Some t -> task_status t = TASK_RUNNING ->
          scan_tasks d' !! i = Some t)
     else d' = d /\ (exists i t, scan_tasks d !! i = Some t /\ task_device_id t = dev /\
            task_status t = TASK_RUNNING)).
Proof.
  intros [Hc Ho]. unfold cancel_device. destruct (_active_task d dev) as [[i t]|] eqn:E.
  - apply active_task_Some in E as (Hi & Ha & Hd). case_decide as Hr.
    + eexists _, _. split; [done|]. split; [done|]. by exists i, t.
    + eexists _, _. split; [done|]. split.
      * apply not_true_iff_false. rewrite has_active_spec. intros (j & s & Hj & Has & Hds).
        rewrite settle_task_lookup in Hj. destruct (decide (i = j)) as [->|Hne].
        -- rewrite lookup_alter_eq, Hi in Hj. by injection Hj as <-.
        -- rewrite lookup_alter_ne in Hj by done.
           apply Hne. apply (core_active d Hc i t Hi j s Hj); congruence.
      * intros j s Hj Hs. rewrite settle_task_lookup, lookup_alter_ne; [done|]. congruence.
  - eexists _, _. split; [done|]. split; [|done].
    unfold has_active. rewrite E. apply bool_decide_false. by intros [? ?].
Qed.

(** ** Import batches keep their scan batch *)

Lemma for_tasks_view {B} (v : Db -> B) step ids acc :
  (forall i d, v (step i d).2 = v d) -> v (for_tasks step ids acc).2 = v acc.2.
Proof.
  intros Hs. revert acc. induction ids as [|i ids IH]; intros acc; [done|].
  rewrite for_tasks_cons, IH. apply Hs.
Qed.

Lemma enqueue_in_session_imports qs dev trig prio b wall d r :
  _enqueue_in_session qs dev trig prio b wall d = Ok r -> import_batches r.2 = import_batches d.
Proof.
  unfold _enqueue_in_session. destruct (devices d !! dev); [|done]. case_match; [done|].
  rewrite tx_bind_Ok. intros (p & d1 & E1 & E). apply tx_bind_Ok in E as ([] & d2 & E2 & [= <-]).
  transitivity (import_batches d1); cbn [snd].
  - destruct b as [b|]; [|by injection E2 as <-]. unfold _attach_batch_item in E2.
    case_decide; [|by injection E2 as <-]. destruct (scan_batches d1 !! b); [|done].
    by injection E2 as <-.
  - unfold find_or_add_task in E1. destruct (_active_task d dev) as [[i t]|].
    + destruct (task_priority t <? prio); by injection E1 as _ <-.
    + destruct (qs <=? _active_count d); [done|]. by injection E1 as _ <-.
Qed.

Lemma enqueue_all_imports qs devs trig prio b wall d r :
  enqueue_all qs devs trig prio b wall d = Ok r -> import_batches r.2 = import_batches d.
Proof.
  revert d. induction devs as [|dev devs IH]; intros d E; cbn in E; [by injection E as <-|].
  apply tx_bind_Ok in E as (i & d1 & E1 & E2).
  apply IH in E2. apply enqueue_in_session_imports in E1. cbn in *. congruence.
Qed.

Lemma create_batch_imports qs bt devs cl src wall d r :
  _create_batch_in_session qs bt devs cl src wall d = Ok r -> import_batches r.2 = import_batches d.
Proof.
  unfold _create_batch_in_session. case_match; [done|].
  rewrite tx_bind_Ok. intros (b & d1 & E1 & E).
  destruct (_batch_trigger_and_priority bt) as [trig prio].
  apply tx_bind_Ok in E as ([] & d2 & E2 & E). apply tx_bind_Ok in E as ([] & d3 & [= <-] & [= <-]).
  cbn [snd]. rewrite refresh_scan_batches_eq. cbn.
  transitivity (import_batches d1).
  - by apply enqueue_all_imports in E2.
  - unfold add_batch in E1. case_match; [done|]. by injection E1 as _ <-.
Qed.

Lemma settle_task_imports f st tid wall d :
  import_batches (settle_task f st tid wall d) = import_batches d.
Proof. unfold settle_task. cbn. by rewrite refresh_scan_batches_eq. Qed.

Lemma sync_imports `{PgAggregates} id st d :
  import_batches (sync_service_observations id st d) = import_batches d.
Proof.
  unfold sync_service_observations. case_decide; [|done]. unfold _SYNC_SQL.
  apply foldl_tables. intros d' k. case_match; [|done].
  unfold insert_observation. by case_match.
Qed.

Lemma persist_imports `{UnicodeCase, PgAggregates} w tid o now wall d r :
  _persist_outcome w tid o now wall d = Ok r -> import_batches r.2 = import_batches d.
Proof.
  unfold _persist_outcome. case_match; [|done]. rewrite tx_bind_Ok. intros (run & d1 & E1 & E).
  apply tx_bind_Ok in E as ([] & d2 & [= <-] & E).
  transitivity (import_batches d1).
  - case_decide; injection E as <-; cbn [snd]; by rewrite <- (settle_task_imports
      (persist_fields run o (outcome_task_status o)) (outcome_task_status o) tid wall d1).
  - unfold add_scan_outcome in E1. destruct (devices d !! _); [|done]. cbn in E1. injection E1 as _ <-.
    cbn [snd]. etrans; [apply (sync_imports (next_id d T_scan_runs) (outcome_status o))|].
    by rewrite (foldl_tables import_batches).
Qed.

Section imports.
Context `{UnicodeCase, PgAggregates} (queue_size limit : Z).

Lemma queue_step_imports now op d d' :
  queue_step queue_size limit now op d d' ->
  match op with
  | Op_import_batch _ => True
  | _ => import_batches d' = import_batches d
  end.
Proof.
  intros (wall & locked & <-). destruct op; cbn [queue_tx]; try done.
  all: apply (commit_ok _ _ (fun d' => import_batches d' = import_batches d)); [done|];
    intros [[] d1] E; cbn [snd]; try (apply drop_Ok in E as [a E]; cbn [snd] in E).
  - injection E as <-. unfold claim_scan_tasks. destruct (_ <=? 0); [done|].
    destruct (for_tasks _ _ (∅, d)) as [B1 d1] eqn:E1.
    destruct (for_tasks _ _ (B1, d1)) as [B2 d2] eqn:E2. cbn [snd].
    rewrite refresh_scan_batches_eq. cbn.
    pose proof (for_tasks_view import_batches _reset_expired_scan_task
      (expired_scan_tasks now locked d) (∅, d)) as H1. rewrite E1 in H1. cbn in H1.
    rewrite <- H1 by done. change d2 with ((B2, d2).2). rewrite <- E2. by rewrite for_tasks_view.
  - injection E as <-. unfold renew_scan_leases. by case_decide.
  - by apply persist_imports in E.
  - by apply persist_imports in E.
  - unfold _fail_unexpected_task in E. case_match; [|done]. injection E as <-. apply settle_task_imports.
  - unfold enqueue_device in E. apply tx_bind_Ok in E as (i & d2 & E1 & E).
    apply tx_bind_Ok in E as ([] & d3 & E2 & E). injection E as _ <-.
    apply enqueue_in_session_imports in E1. cbn in E1.
    destruct batch_id; injection E2 as <-; [by rewrite refresh_scan_batches_eq|done].
  - by apply create_batch_imports in E.
  - unfold cancel_device in E. destruct (_active_task d device_id) as [[i t]|];
      [|by injection E as _ <-]. case_decide; injection E as _ <-; [done|apply settle_task_imports].
Qed.

Definition has_scan_batch (ib b : Z) (d : Db) : Prop :=
  exists imp, import_batches d !! ib = Some imp /\ import_scan_batch_id imp = Some b.

Lemma create_import_has_batch qs ib ib' b b' wall d d' :
  create_import_scan_batch qs ib wall d = Ok (b, d') ->
  (has_scan_batch ib' b' d -> has_scan_batch ib' b' d') /\
  (forall x, b = Some x -> has_scan_batch ib x d').
Proof.
  unfold create_import_scan_batch. destruct (import_batches d !! ib) as [imp|] eqn:Hib.
  2:{ intros [= <- <-]. split; [done|]. intros x ?. done. }
  destruct (import_scan_batch_id imp) as [y|] eqn:Hy.
  { intros [= <- <-]. split; [done|]. intros x [= <-]. by exists imp. }
  rewrite tx_bind_Ok. intros (z & d1 & E1 & E). apply tx_bind_Ok in E as ([] & d2 & [= <-] & [= <- <-]).
  apply create_batch_imports in E1. cbn in E1. split.
  - intros (imp' & Hi & Hb). exists imp'. split; [|done]. cbn. rewrite E1, lookup_alter_ne; [done|].
    intros ->. congruence.
  - intros x [= <-]. eexists. cbn. rewrite E1, lookup_alter_eq, Hib. by split.
Qed.

Lemma scan_exec_has_batch c c' ib b :
  scan_exec queue_size limit c c' -> has_scan_batch ib b c.2 -> has_scan_batch ib b c'.2.
Proof.
  unfold scan_exec. induction 1 as [c|t op s s1 c Hop _ IH|t t' s c _ _ IH]; cbn in *; [done| |done].
  intros Hb. apply IH. destruct op; try (apply queue_step_imports in Hop; unfold has_scan_batch; by rewrite Hop).
  destruct Hop as (wall & locked & <-). apply (commit_ok _ _ (has_scan_batch ib b)); [done|].
  intros [[] d1] [a E]%drop_Ok. cbn in *. by apply create_import_has_batch with (ib' := ib) (b' := b) in E as [? _]; auto.
Qed.

(** The scan batch of an import is created once: when the request succeeds,
    any later repetition, whatever the queue did in between, answers with the same
    batch and changes nothing; an unknown import is answered with [None]. *)
Theorem import_scan_batch_once ib wall d b d' t t' d'' wall' :
  create_import_scan_batch queue_size ib wall d = Ok (b, d') ->
  scan_exec queue_size limit (t, d') (t', d'') ->
  match b with
  | Some x => create_import_scan_batch queue_size ib wall' d'' = Ok (Some x, d'')
  | None => import_batches d !! ib = None /\ d' = d
  end.
Proof.
  intros E Hx. destruct b as [x|].
  - apply create_import_has_batch with (ib' := ib) (b' := x) in E as [_ E].
    destruct (scan_exec_has_batch _ _ ib x Hx (E x eq_refl)) as (imp & Hi & Hb). cbn in Hi.
    unfold create_import_scan_batch. by rewrite Hi, Hb.
  - unfold create_import_scan_batch in E. destruct (import_batches d !! ib) as [imp|].
    + destruct (import_scan_batch_id imp); [done|].
      apply tx_bind_Ok in E as (y & d1 & _ & E). by apply tx_bind_Ok in E as ([] & d2 & _ & ?).
    + by injection E as <-.
Qed.
End imports.

(** ** The guarantees on the concrete queue *)


Lemma enqueue_coalesces_witness :
  exists d'', enqueue_device 3 2 TRIGGER_SCHEDULED PRIORITY_SCHEDULED None (60 * second) demo = Ok (2, d'') /\
    scan_tasks d'' = scan_tasks demo.
Proof.
  destruct (enqueue_coalesces 3 2 TRIGGER_BATCH PRIORITY_BATCH None (50 * second) demo 2 demo) as (_ & _ & H).
  - exact demo_inv.
  - vm_compute. reflexivity.
  - destruct (H TRIGGER_SCHEDULED PRIORITY_SCHEDULED (60 * second)) as (d'' & E & Ht & _).
    + vm_compute. discriminate.
    + exists d''. split; [exact E|exact Ht].
Defined.

(** An import whose only tested device is device 1. *)
Definition demo_import : Db :=
  demo
    <| import_batches := {[1 := mkImportBatch (u "hosts.csv") IMPORT_COMPLETED 1 1 0 0 0 0 1 0 0 None
                                 None None]} |>
    <| import_row_results := {[1 := mkImportRow 1 1 None None (Some 1) ROW_IMPORTED [] TEST_SUCCESS None
                                     None None None 1]} |>.

Definition demo_imported : option Z * Db :=
  match create_import_scan_batch 3 1 (50 * second) demo_import with
  | Ok r => r
  | Raise _ => (None, demo_import)
  end.

Lemma demo_imported_eq :
  create_import_scan_batch 3 1 (50 * second) demo_import = Ok (Some 2, demo_imported.2).
Proof.
  assert (H : is_ok (create_import_scan_batch 3 1 (50 * second) demo_import) = true)
    by (vm_compute; reflexivity).
  assert (E : demo_imported.1 = Some 2) by (vm_compute; reflexivity).
  transitivity (@Ok exn _ demo_imported).
  - unfold demo_imported. destruct (create_import_scan_batch 3 1 (50 * second) demo_import).
    + reflexivity.
    + discriminate H.
  - exact (f_equal Ok (pair_fst _ _ E)).
Qed.

Lemma import_scan_batch_once_witness :
  create_import_scan_batch 3 1 (70 * second) demo_imported.2 = Ok (Some 2, demo_imported.2).
Proof.
  assert (X : @scan_exec ascii_only first_occurrences 3 2 (60 * second, demo_imported.2)
                (70 * second, demo_imported.2))
    by (apply exec_tick with (t' := 70 * second); [done|apply exec_refl]).
  exact (@import_scan_batch_once ascii_only first_occurrences 3 2 1 (50 * second) demo_import (Some 2)
    demo_imported.2 (60 * second) (70 * second) demo_imported.2 (70 * second) demo_imported_eq X).
Defined.

Lemma cancel_spares_running_witness :
  exists r d', cancel_device 3 (50 * second) demo = Ok (r, d') /\ r = false.
Proof.
  destruct (cancel_spares_running 3 (50 * second) demo demo_inv) as (r & d' & E & _).
  exists r, d'. split; [exact E|].
  assert (H : match cancel_device 3 (50 * second) demo with Ok p => p.1 | Raise _ => true end = false)
    by (vm_compute; reflexivity).
  rewrite E in H. exact H.
Defined.
