(* ===== verification/ImportTestLeases.v ===== *)
(** * Import test leases (src/app/services/import_test_leases.py)

    Claiming, renewing and expiring the connection tests of imported rows, and
    the counters and completion of the import batches they belong to.  [now] is
    [func.now()], [wall] the process clock, [locked] the rows other transactions
    hold. *)

From S2P Require Import Prelude PyText Models LeaseSpec TaskLeases.

(** ** Batch counters and completion *)

Definition row_in_batch (b : Z) (st : ImportTestStatus) (r : ImportRowResult) : bool :=
  (row_batch_id r =? b) && bool_decide (row_test_status r = st).

Definition import_counts (rows : gmap Z ImportRowResult) (b : Z) (st : ImportTestStatus) : Z :=
  count_where (fun _ => row_in_batch b st) rows.

Definition refreshed_import (wall : Z) (rows : gmap Z ImportRowResult) (b : Z)
    (batch : ImportBatch) : ImportBatch :=
  let counts := import_counts rows b in
  let batch := batch
    <| import_test_pending_rows := counts TEST_PENDING |>
    <| import_test_running_rows := counts TEST_RUNNING |>
    <| import_test_success_rows := counts TEST_SUCCESS |>
    <| import_test_failed_rows := counts TEST_FAILED |> in
  if negb (counts TEST_PENDING =? 0) || negb (counts TEST_RUNNING =? 0) then
    batch <| import_status := IMPORT_TESTING |> <| import_finished_at := None |>
  else
    batch <| import_status := IMPORT_COMPLETED |> <| import_finished_at := Some wall |>.

(** One turn of the loop: the batches completed so far, and the database. *)
Definition refresh_import_batch (wall : Z) (acc : gset Z * Db) (b : Z) : gset Z * Db :=
  let '(completed, d) := acc in
  match import_batches d !! b with
  | None => (completed, d)
  | Some batch =>
      let was_completed := bool_decide (import_status batch = IMPORT_COMPLETED) in
      let batch' := refreshed_import wall (import_row_results d) b batch in
      (if bool_decide (import_status batch' = IMPORT_COMPLETED) && negb was_completed
       then {[b]} ∪ completed else completed,
       d <| import_batches := <[b := batch']> (import_batches d) |>)
  end.

Definition refresh_import_batches (wall : Z) (batch_ids : gset Z) (d : Db) : gset Z * Db :=
  foldl (refresh_import_batch wall) (∅, d) (sorted_ids batch_ids).

(** ** Claiming *)

Definition test_live (now : Z) (r : ImportRowResult) : bool :=
  bool_decide (row_test_status r = TEST_RUNNING) &&
  match row_test_lease_expires_at r with Some e => now <? e | None => false end.

Definition test_expired (now : Z) (r : ImportRowResult) : bool :=
  bool_decide (row_test_status r = TEST_RUNNING) &&
  match row_test_lease_expires_at r with None => true | Some e => e <=? now end.

Definition test_pending (r : ImportRowResult) : bool :=
  bool_decide (row_test_status r = TEST_PENDING).

Definition reset_test (r : ImportRowResult) : ImportRowResult :=
  r <| row_test_status := TEST_PENDING |>
    <| row_test_message := None |>
    <| row_test_worker_id := None |>
    <| row_test_lease_expires_at := None |>
    <| row_test_heartbeat_at := None |>.

Definition run_test (worker_id : text) (now expires_at : Z) (r : ImportRowResult) : ImportRowResult :=
  r <| row_test_status := TEST_RUNNING |>
    <| row_test_message := Some (u "正在测试连接") |>
    <| row_test_worker_id := Some worker_id |>
    <| row_test_lease_expires_at := Some expires_at |>
    <| row_test_heartbeat_at := Some now |>
    <| row_test_attempt_count := row_test_attempt_count r + 1 |>.

(** [for row in rows: ...] over the rows of a set of identifiers. *)
Definition update_rows (ids : gset Z) (f : ImportRowResult -> ImportRowResult) (d : Db) : Db :=
  d <| import_row_results := update_where (fun i _ => bool_decide (i ∈ ids)) f (import_row_results d) |>.

Definition batches_of (ids : gset Z) (d : Db) : gset Z :=
  map_to_set (fun _ r => row_batch_id r)
    (where_ (fun i _ => bool_decide (i ∈ ids)) (import_row_results d)).

Definition expired_tests (now : Z) (locked : gset Z) (d : Db) : gset Z :=
  select_ids (fun i r => test_expired now r && bool_decide (i ∉ locked)) (import_row_results d).

Definition claimable_tests (locked : gset Z) (d : Db) : list Z :=
  sorted_ids (select_ids (fun i r => test_pending r && bool_decide (i ∉ locked))
    (import_row_results d)).

Definition active_tests (now : Z) (d : Db) : Z :=
  count_where (fun _ => test_live now) (import_row_results d).

Definition claim_import_tests (worker_id : text) (local_capacity global_limit lease_seconds : Z)
    (now wall : Z) (locked : gset Z) (d : Db) : list Z * Db :=
  if local_capacity <=? 0 then ([], d) else
  let expired := expired_tests now locked d in
  let affected := batches_of expired d in
  let d := update_rows expired reset_test d in
  let limit := Z.min local_capacity (Z.max (global_limit - active_tests now d) 0) in
  let rows := if limit =? 0 then [] else take (Z.to_nat limit) (claimable_tests locked d) in
  let expires_at := now + lease_seconds * second in
  let affected := affected ∪ batches_of (list_to_set rows) d in
  let d := update_rows (list_to_set rows) (run_test worker_id now expires_at) d in
  let '(_, d) := refresh_import_batches wall affected d in
  (rows, d).

(** ** Renewing *)

Definition test_renewable (worker_id : text) (now : Z) (row_ids : gset Z) (i : Z)
    (r : ImportRowResult) : bool :=
  bool_decide (i ∈ row_ids) && test_live now r &&
  bool_decide (row_test_worker_id r = Some worker_id).

Definition renew_import_test_leases (worker_id : text) (row_ids : gset Z) (lease_seconds now : Z)
    (d : Db) : gset Z * Db :=
  if decide (row_ids = ∅) then (∅, d) else
  let renewed := select_ids (test_renewable worker_id now row_ids) (import_row_results d) in
  (row_ids ∖ renewed,
   update_rows renewed
     (fun r => r <| row_test_heartbeat_at := Some now |>
                 <| row_test_lease_expires_at := Some (now + lease_seconds * second) |>) d).

(** * The invariant

    A row holds a lease exactly while its test runs, every row belongs to a batch,
    and the counters, status and finishing time of a batch agree with its rows. *)

Definition row_wf (r : ImportRowResult) : Prop :=
  if bool_decide (row_test_status r = TEST_RUNNING)
  then is_Some (row_test_worker_id r) /\ is_Some (row_test_lease_expires_at r)
  else row_test_worker_id r = None /\ row_test_lease_expires_at r = None /\
       row_test_heartbeat_at r = None.

Definition row_open (r : ImportRowResult) : bool :=
  bool_decide (row_test_status r = TEST_PENDING) || bool_decide (row_test_status r = TEST_RUNNING).

Definition import_consistent (rows : gmap Z ImportRowResult) (b : Z) (batch : ImportBatch) : Prop :=
  let counts := import_counts rows b in
  import_test_pending_rows batch = counts TEST_PENDING /\
  import_test_running_rows batch = counts TEST_RUNNING /\
  import_test_success_rows batch = counts TEST_SUCCESS /\
  import_test_failed_rows batch = counts TEST_FAILED /\
  (if bool_decide (counts TEST_PENDING = 0 /\ counts TEST_RUNNING = 0)
   then import_status batch = IMPORT_COMPLETED /\ is_Some (import_finished_at batch)
   else import_status batch = IMPORT_TESTING /\ import_finished_at batch = None).

Record import_core (d : Db) : Prop := {
  core_rows : map_Forall (fun _ r => row_wf r) (import_row_results d);
  core_row_batch : map_Forall (fun _ r => is_Some (import_batches d !! row_batch_id r))
      (import_row_results d)
}.

Definition imports_outside (B : gset Z) (d : Db) : Prop :=
  map_Forall (fun b batch => b ∉ B -> import_consistent (import_row_results d) b batch)
    (import_batches d).

Definition import_inv (d : Db) : Prop := import_core d /\ imports_outside ∅ d.

(** ** Refreshing *)

Lemma refreshed_import_consistent wall rows b batch :
  import_consistent rows b (refreshed_import wall rows b batch).
Proof.
  unfold import_consistent, refreshed_import. cbn zeta.
  destruct (Z.eqb_spec (import_counts rows b TEST_PENDING) 0),
    (Z.eqb_spec (import_counts rows b TEST_RUNNING) 0); cbn; case_bool_decide;
    repeat split; try done; try lia; try (exact (mk_is_Some _ _ eq_refl)).
  all: naive_solver.
Qed.

Definition refresh_imports_map (wall : Z) (rows : gmap Z ImportRowResult) (B : gset Z)
    (batches : gmap Z ImportBatch) : gmap Z ImportBatch :=
  map_imap (fun b batch =>
    Some (if bool_decide (b ∈ B) then refreshed_import wall rows b batch else batch)) batches.

Lemma lookup_refresh_imports wall rows B batches b :
  refresh_imports_map wall rows B batches !! b =
  (fun x => if bool_decide (b ∈ B) then refreshed_import wall rows b x else x) <$> batches !! b.
Proof. unfold refresh_imports_map. rewrite map_lookup_imap. by destruct (batches !! b). Qed.

(** A batch with open rows is being tested, one without is completed. *)
Definition open_rows (b : Z) (d : Db) : gset Z :=
  select_ids (fun _ r => (row_batch_id r =? b) && row_open r) (import_row_results d).

Lemma elem_of_open_rows b d i :
  i ∈ open_rows b d <->
  exists r, import_row_results d !! i = Some r /\ row_batch_id r = b /\ row_open r = true.
Proof.
  unfold open_rows. rewrite elem_of_select_ids. setoid_rewrite andb_true_iff.
  by setoid_rewrite Z.eqb_eq.
Qed.

Lemma count_where_zero {A} (P : Z -> A -> bool) (m : gmap Z A) :
  count_where P m = 0 <-> forall i x, m !! i = Some x -> P i x = false.
Proof.
  unfold count_where. split.
  - intros H i x Hi. apply not_true_iff_false. intros HP.
    assert (Hin : i ∈ select_ids P m) by (apply elem_of_select_ids; eauto).
    assert (Hs : select_ids P m = ∅) by (apply leibniz_equiv, size_empty_inv; lia). rewrite Hs in Hin. set_solver.
  - intros H. replace (select_ids P m) with (∅ : gset Z); [done|].
    apply set_eq. intros i. rewrite elem_of_select_ids. split; [set_solver|].
    intros (x & Hi & HP). by rewrite (H i x Hi) in HP.
Qed.

Lemma open_rows_counts d b :
  open_rows b d = ∅ <->
  import_counts (import_row_results d) b TEST_PENDING = 0 /\
  import_counts (import_row_results d) b TEST_RUNNING = 0.
Proof.
  unfold import_counts. rewrite !count_where_zero. unfold row_in_batch. split.
  - intros He. split; intros i r Hi; apply not_true_iff_false; intros [Hb%Z.eqb_eq Hs]%andb_true_iff;
      assert (i ∈ open_rows b d) as Hin by
        (apply elem_of_open_rows; exists r; unfold row_open; rewrite Hs, ?orb_true_r; done);
      rewrite He in Hin; set_solver.
  - intros [Hp Hr]. apply set_eq. intros i. rewrite elem_of_open_rows. split; [|set_solver].
    intros (r & Hi & Hb & Ho). specialize (Hp i r Hi). specialize (Hr i r Hi). exfalso.
    unfold row_open in Ho. rewrite Hb, Z.eqb_refl in Hp, Hr. cbn in Hp, Hr. by rewrite Hp, Hr in Ho.
Qed.

Lemma refreshed_import_status wall d b batch :
  import_status (refreshed_import wall (import_row_results d) b batch) =
  if bool_decide (open_rows b d = ∅) then IMPORT_COMPLETED else IMPORT_TESTING.
Proof.
  unfold refreshed_import. cbn zeta.
  rewrite (bool_decide_ext _ _ (open_rows_counts d b)).
  destruct (Z.eqb_spec (import_counts (import_row_results d) b TEST_PENDING) 0),
    (Z.eqb_spec (import_counts (import_row_results d) b TEST_RUNNING) 0); cbn;
    case_bool_decide; naive_solver.
Qed.

(** The batches a refresh reports: touched, without open rows, not completed before. *)
Definition newly_completed (B : gset Z) (d : Db) : gset Z :=
  select_ids (fun b batch => bool_decide (b ∈ B) && bool_decide (open_rows b d = ∅) &&
    negb (bool_decide (import_status batch = IMPORT_COMPLETED))) (import_batches d).

Lemma elem_of_newly_completed B d b :
  b ∈ newly_completed B d <->
  b ∈ B /\ open_rows b d = ∅ /\
  exists batch, import_batches d !! b = Some batch /\ import_status batch ≠ IMPORT_COMPLETED.
Proof.
  unfold newly_completed. rewrite elem_of_select_ids.
  setoid_rewrite andb_true_iff. setoid_rewrite andb_true_iff.
  setoid_rewrite negb_true_iff. setoid_rewrite bool_decide_eq_true.
  setoid_rewrite bool_decide_eq_false. naive_solver.
Qed.

Lemma refresh_imports_foldl wall bs C d :
  NoDup bs ->
  foldl (refresh_import_batch wall) (C, d) bs =
  (newly_completed (list_to_set bs) d ∪ C,
   d <| import_batches := refresh_imports_map wall (import_row_results d) (list_to_set bs)
          (import_batches d) |>).
Proof.
  revert C d. induction bs as [|b bs IH]; intros C d Hnd.
  - cbn. f_equal.
    + apply set_eq. intros b. rewrite elem_of_union, elem_of_newly_completed. set_solver.
    + destruct d; unfold set_field; cbn. f_equal. apply map_eq. intros i.
      rewrite lookup_refresh_imports. by destruct (_ !! i).
  - apply NoDup_cons in Hnd as [Hb Hnd]. cbn [foldl].
    assert (Hlt : forall i, i ≠ b -> (i ∈@{gset Z} list_to_set (b :: bs)) <-> i ∈@{gset Z} list_to_set bs)
      by set_solver.
    unfold refresh_import_batch at 2. destruct (import_batches d !! b) as [batch|] eqn:Hbatch;
      rewrite IH by done; f_equal.
    + apply set_eq. intros i. rewrite !elem_of_union, !elem_of_newly_completed. cbn [import_batches set_field].
      change (open_rows i (d <| import_batches := _ |>)) with (open_rows i d). cbn.
      rewrite refreshed_import_status.
      destruct (decide (i = b)) as [->|Hne].
      * rewrite elem_of_list_to_set, elem_of_union, elem_of_singleton, Hbatch, lookup_insert_eq.
        destruct (bool_decide_reflect (open_rows b d = ∅)) as [Ho|Ho]; cbn;
          destruct (bool_decide_reflect (import_status batch = IMPORT_COMPLETED)) as [Hc|Hc];
          rewrite ?bool_decide_true, ?bool_decide_false by done; cbn.
        2:{ rewrite elem_of_union, elem_of_singleton. split; intros _; [|right; by left].
            left. split; [by left|]. split; [done|]. by exists batch. }
        all: split; [intros [(? & _)|?]; [done|by right]|].
        all: intros [(_ & Ho' & x & Hx & Hs)|?]; [|by right]; simplify_eq; done.
      * rewrite lookup_insert_ne by done. rewrite (Hlt i Hne).
        assert (Hif : forall c : bool, i ∈ (if c then {[b]} ∪ C else C) <-> i ∈ C)
          by (intros []; rewrite ?elem_of_union, ?elem_of_singleton; naive_solver).
        by rewrite Hif.
    + unfold set_field; cbn; f_equal. apply map_eq. intros i. rewrite !lookup_refresh_imports.
      destruct (decide (i = b)) as [->|Hne].
      * rewrite lookup_insert_eq, Hbatch. cbn. rewrite bool_decide_false by set_solver.
        by rewrite bool_decide_true by set_solver.
      * rewrite lookup_insert_ne by done. by rewrite (bool_decide_ext _ _ (Hlt i Hne)).
    + f_equal. apply set_eq. intros i. rewrite !elem_of_newly_completed. split; [set_solver|].
      intros (Hi & Ho & x & Hx & Hs). split; [|eauto]. apply Hlt; [congruence|done].
    + unfold set_field; cbn; f_equal. apply map_eq. intros i. rewrite !lookup_refresh_imports.
      destruct (decide (i = b)) as [->|Hne]; [by rewrite Hbatch|].
      by rewrite (bool_decide_ext _ _ (Hlt i Hne)).
Qed.

Lemma refresh_import_batches_eq wall B d :
  refresh_import_batches wall B d =
  (newly_completed B d,
   d <| import_batches := refresh_imports_map wall (import_row_results d) B (import_batches d) |>).
Proof.
  unfold refresh_import_batches. rewrite refresh_imports_foldl by apply NoDup_sorted_ids.
  by rewrite list_to_set_sorted_ids, union_empty_r_L.
Qed.

(** ** Transitions of rows *)

Lemma refresh_imports_inv wall B d :
  import_core d -> imports_outside B d -> import_inv (refresh_import_batches wall B d).2.
Proof.
  intros [Hr Hb] Ho. rewrite refresh_import_batches_eq. cbn [snd]. split; [constructor; cbn|].
  - done.
  - eapply map_Forall_impl; [exact Hb|]. cbn. intros i r. by rewrite lookup_refresh_imports, fmap_is_Some.
  - intros b batch. cbn. rewrite lookup_refresh_imports. intros (x & Hx & ->)%fmap_Some _.
    case_bool_decide as HB; [apply refreshed_import_consistent|]. by apply (Ho b x Hx).
Qed.

Lemma lookup_update_rows ids f d i :
  import_row_results (update_rows ids f d) !! i =
  (fun r => if bool_decide (i ∈ ids) then f r else r) <$> import_row_results d !! i.
Proof. cbn. apply lookup_update_where. Qed.

Lemma elem_of_batches_of ids d b :
  b ∈ batches_of ids d <-> exists i r, import_row_results d !! i = Some r /\ i ∈ ids /\ row_batch_id r = b.
Proof.
  unfold batches_of. rewrite elem_of_map_to_set. setoid_rewrite lookup_where.
  setoid_rewrite bool_decide_eq_true. naive_solver.
Qed.

(** A change of rows that keeps their batch and their well-formedness. *)
Definition row_step (f : ImportRowResult -> ImportRowResult) (r : ImportRowResult) : Prop :=
  row_batch_id (f r) = row_batch_id r /\ (row_wf r -> row_wf (f r)).

Lemma update_rows_core ids f d :
  (forall i r, i ∈ ids -> import_row_results d !! i = Some r -> row_step f r) ->
  import_core d -> import_core (update_rows ids f d).
Proof.
  intros Hf [Hr Hb]. constructor; cbn; apply map_Forall_update_where; intros i r Hi.
  - case_bool_decide; [|by apply (Hr i)]. destruct (Hf i r) as [_ Hw]; [done..|].
    apply Hw. by apply (Hr i).
  - case_bool_decide; [|by apply (Hb i)]. destruct (Hf i r) as [-> _]; [done..|]. by apply (Hb i).
Qed.

Lemma import_counts_untouched ids f d b st :
  (forall i r, i ∈ ids -> import_row_results d !! i = Some r -> row_batch_id (f r) = row_batch_id r) ->
  b ∉ batches_of ids d ->
  import_counts (import_row_results (update_rows ids f d)) b st =
  import_counts (import_row_results d) b st.
Proof.
  intros Hf Hb. apply count_where_ext. intros i. rewrite lookup_update_rows.
  destruct (import_row_results d !! i) as [r|] eqn:Hi; cbn; [|naive_solver].
  case_bool_decide as Hin; [|naive_solver].
  assert (row_batch_id r ≠ b) as Hne by (intros <-; apply Hb, elem_of_batches_of; eauto).
  unfold row_in_batch.
  split; intros (x & [= <-] & [Hx%Z.eqb_eq _]%andb_true_iff); rewrite ?(Hf i r) in Hx; done.
Qed.

Lemma import_consistent_ext rows rows' b batch :
  (forall st, import_counts rows' b st = import_counts rows b st) ->
  import_consistent rows b batch -> import_consistent rows' b batch.
Proof. intros H. unfold import_consistent. by rewrite !H. Qed.

Lemma update_rows_outside ids f d B :
  (forall i r, i ∈ ids -> import_row_results d !! i = Some r -> row_batch_id (f r) = row_batch_id r) ->
  imports_outside B d -> imports_outside (B ∪ batches_of ids d) (update_rows ids f d).
Proof.
  intros Hf Ho b batch Hb Hnot. eapply import_consistent_ext; [|apply (Ho b batch Hb); set_solver].
  intros st. apply import_counts_untouched; [exact Hf|set_solver].
Qed.

Lemma reset_test_step r : row_step reset_test r.
Proof. split; [done|]. by intros _. Qed.

Lemma run_test_step w now e r : row_step (run_test w now e) r.
Proof. split; [done|]. intros _. by repeat split; eexists. Qed.

(** ** Claiming *)

Definition tests_after_reset (now : Z) (locked : gset Z) (d : Db) : Db :=
  update_rows (expired_tests now locked d) reset_test d.

Definition claimed_test_ids (cap gl now : Z) (locked : gset Z) (d : Db) : list Z :=
  take (Z.to_nat (Z.min cap (Z.max (gl - active_tests now d) 0))) (claimable_tests locked d).

Lemma claim_import_tests_eq w cap gl ls now wall locked d :
  0 < cap ->
  claim_import_tests w cap gl ls now wall locked d =
  (let d1 := tests_after_reset now locked d in
   let ids := claimed_test_ids cap gl now locked d1 in
   (ids, (refresh_import_batches wall
            (batches_of (expired_tests now locked d) d ∪ batches_of (list_to_set ids) d1)
            (update_rows (list_to_set ids) (run_test w now (now + ls * second)) d1)).2)).
Proof.
  intros Hcap. unfold claim_import_tests, claimed_test_ids, tests_after_reset. cbv zeta.
  destruct (Z.leb_spec cap 0); [lia|].
  set (d1 := update_rows (expired_tests now locked d) reset_test d).
  set (lim := Z.min cap _).
  assert ((if lim =? 0 then [] else take (Z.to_nat lim) (claimable_tests locked d1)) =
          take (Z.to_nat lim) (claimable_tests locked d1)) as -> by (by destruct (Z.eqb_spec lim 0) as [->|]).
  by destruct (refresh_import_batches _ _ _).
Qed.

Lemma elem_of_expired_tests now locked d i :
  i ∈ expired_tests now locked d <->
  exists r, import_row_results d !! i = Some r /\ test_expired now r = true /\ i ∉ locked.
Proof.
  unfold expired_tests. rewrite elem_of_select_ids. split.
  - intros (r & ? & [? ?%bool_decide_eq_true]%andb_true_iff). eauto.
  - intros (r & ? & ? & ?). exists r. split; [done|]. apply andb_true_iff. by rewrite bool_decide_eq_true.
Qed.

Lemma elem_of_claimable_tests locked d i :
  i ∈ claimable_tests locked d <->
  exists r, import_row_results d !! i = Some r /\ row_test_status r = TEST_PENDING /\ i ∉ locked.
Proof.
  unfold claimable_tests, test_pending. rewrite elem_of_sorted_ids, elem_of_select_ids. split.
  - intros (r & ? & [?%bool_decide_eq_true ?%bool_decide_eq_true]%andb_true_iff). eauto.
  - intros (r & ? & ? & ?). exists r. split; [done|]. by rewrite andb_true_iff, !bool_decide_eq_true.
Qed.

Lemma lookup_after_reset now locked d i :
  import_row_results (tests_after_reset now locked d) !! i =
  (fun r => if test_expired now r && bool_decide (i ∉ locked) then reset_test r else r)
    <$> import_row_results d !! i.
Proof.
  unfold tests_after_reset. rewrite lookup_update_rows.
  destruct (import_row_results d !! i) as [r|] eqn:Hi; cbn; [|done]. f_equal.
  assert ((i ∈ expired_tests now locked d) <-> test_expired now r = true /\ i ∉ locked) as E
    by (rewrite elem_of_expired_tests; naive_solver).
  rewrite (bool_decide_ext _ _ E). destruct (test_expired now r); cbn.
  - by destruct (decide (i ∈ locked)); [rewrite !bool_decide_false by naive_solver
                                       |rewrite !bool_decide_true by naive_solver].
  - by rewrite bool_decide_false by naive_solver.
Qed.

Lemma claim_import_lookup w cap gl ls now wall locked d i :
  0 < cap ->
  import_row_results (claim_import_tests w cap gl ls now wall locked d).2 !! i =
  (fun r =>
     let r := if test_expired now r && bool_decide (i ∉ locked) then reset_test r else r in
     if bool_decide (i ∈ (claim_import_tests w cap gl ls now wall locked d).1)
     then run_test w now (now + ls * second) r else r) <$> import_row_results d !! i.
Proof.
  intros Hcap. rewrite claim_import_tests_eq by done. cbv zeta. cbn [fst snd].
  rewrite refresh_import_batches_eq. cbn [snd].
  change (import_row_results (?x <| import_batches := _ |>)) with (import_row_results x).
  rewrite lookup_update_rows, lookup_after_reset.
  destruct (import_row_results d !! i); cbn; [|done]. f_equal.
  by rewrite (bool_decide_ext _ _ (elem_of_list_to_set (C := gset Z) i _)).
Qed.

Lemma claim_import_tests_inv w cap gl ls now wall locked d :
  import_inv d -> import_inv (claim_import_tests w cap gl ls now wall locked d).2.
Proof.
  intros [Hc Ho]. destruct (decide (0 < cap)) as [Hcap|Hcap].
  2:{ unfold claim_import_tests. by destruct (Z.leb_spec cap 0); [|lia]. }
  rewrite claim_import_tests_eq by done. cbv zeta. cbn [snd].
  set (d1 := tests_after_reset now locked d).
  assert (import_core d1) as Hc1 by (apply update_rows_core; [intros; apply reset_test_step|done]).
  assert (imports_outside (batches_of (expired_tests now locked d) d) d1) as Ho1.
  { rewrite <- (union_empty_l_L (batches_of _ _)). apply update_rows_outside; [|done].
    intros; apply reset_test_step. }
  apply refresh_imports_inv.
  - apply update_rows_core; [intros; apply run_test_step|done].
  - apply update_rows_outside; [intros; apply run_test_step|done].
Qed.

(** ** Renewing *)

Lemma test_renewable_spec w now ids i r :
  test_renewable w now ids i r = true <->
  i ∈ ids /\ test_live now r = true /\ row_test_worker_id r = Some w.
Proof. unfold test_renewable. rewrite !andb_true_iff, !bool_decide_eq_true. tauto. Qed.

Lemma test_live_running now r : test_live now r = true -> row_test_status r = TEST_RUNNING.
Proof. unfold test_live. by intros [?%bool_decide_eq_true _]%andb_true_iff. Qed.

Definition renew_row (now e : Z) (r : ImportRowResult) : ImportRowResult :=
  r <| row_test_heartbeat_at := Some now |> <| row_test_lease_expires_at := Some e |>.

Lemma renew_import_lookup w ids ls now d i :
  import_row_results (renew_import_test_leases w ids ls now d).2 !! i =
  (fun r => if test_renewable w now ids i r then renew_row now (now + ls * second) r else r)
    <$> import_row_results d !! i.
Proof.
  unfold renew_import_test_leases. case_decide as Hids; cbn [snd].
  - destruct (import_row_results d !! i) as [r|]; cbn; [|done]. unfold test_renewable. subst ids.
    by rewrite bool_decide_false by set_solver.
  - rewrite lookup_update_rows. destruct (import_row_results d !! i) as [r|] eqn:Hi; cbn; [|done].
    f_equal. rewrite (bool_decide_ext _ (test_renewable w now ids i r = true)).
    + by destruct (test_renewable w now ids i r).
    + rewrite elem_of_select_ids. naive_solver.
Qed.

Lemma renew_import_batches w ids ls now d :
  import_batches (renew_import_test_leases w ids ls now d).2 = import_batches d.
Proof. unfold renew_import_test_leases. by case_decide. Qed.

Lemma renew_import_test_leases_inv w ids ls now d :
  import_inv d -> import_inv (renew_import_test_leases w ids ls now d).2.
Proof.
  intros [[Hr Hb] Ho]. split; [constructor|].
  - intros i r'. rewrite renew_import_lookup. intros (r & Hi & ->)%fmap_Some.
    specialize (Hr i r Hi). cbn in Hr. destruct (test_renewable w now ids i r) eqn:E; [|done].
    apply test_renewable_spec in E as (_ & Hl%test_live_running & Hw). unfold row_wf in *. cbn.
    rewrite Hl, Hw in *. cbn. by split; eexists.
  - intros i r'. rewrite renew_import_lookup, renew_import_batches. intros (r & Hi & ->)%fmap_Some.
    specialize (Hb i r Hi). by destruct (test_renewable w now ids i r).
  - intros b batch Hbatch _. rewrite renew_import_batches in Hbatch.
    eapply import_consistent_ext; [|by apply (Ho b batch Hbatch)].
    intros st. apply count_where_ext. intros i. rewrite renew_import_lookup.
    destruct (import_row_results d !! i) as [r|]; cbn; [|naive_solver].
    destruct (test_renewable w now ids i r); naive_solver.
Qed.
