(* ===== verification/ImportTesting.v ===== *)
(** * Import connection tests (src/app/services/import_testing.py)

    The tests of imported rows: the transactions of [ImportTestService], one row's
    test from claim to result, and the proof that the queue of tests implements the
    lease specification. *)

From S2P Require Import Prelude PyText Models Exceptions Security Collectors LeaseSpec TaskLeases ImportTestLeases.

Record ImportTestTarget := mkTestTarget {
  test_device_id : Z;
  test_os_type : OSType;
  test_host : text;
  test_port : Z;
  test_username : text;
  test_encrypted_password : text
}.

Record ImportTestOutcome := mkTestOutcome {
  test_outcome_status : ImportTestStatus;
  test_outcome_message : text
}.

(** ** Transactions *)

(** The columns [_claim_specific] assigns; [read] is the row as the session read it
    before it took the lock, so the attempt count is computed from that copy. *)
Definition specific_fields (worker_id : text) (now expires_at : Z) (read cur : ImportRowResult) :
    ImportRowResult :=
  cur <| row_test_status := TEST_RUNNING |>
      <| row_test_message := Some (u "正在测试连接") |>
      <| row_test_worker_id := Some worker_id |>
      <| row_test_heartbeat_at := Some now |>
      <| row_test_lease_expires_at := Some expires_at |>
      <| row_test_attempt_count := row_test_attempt_count read + 1 |>.

(** The part of [_claim_specific] under the advisory lock. *)
Definition claim_specific_locked (worker_id : text) (global_limit lease_seconds now wall row_id : Z)
    (read : ImportRowResult) (d : Db) : Db :=
  if active_tests now d <? global_limit then
    let d := update_rows {[row_id]}
               (specific_fields worker_id now (now + lease_seconds * second) read) d in
    (refresh_import_batches wall {[row_batch_id read]} d).2
  else d.

Definition _claim_specific (worker_id : text) (global_limit lease_seconds now wall row_id : Z)
    (d : Db) : Db :=
  match import_row_results d !! row_id with
  | None => d
  | Some read =>
      if test_pending read
      then claim_specific_locked worker_id global_limit lease_seconds now wall row_id read d
      else d
  end.

(** The row a worker may still settle. *)
Definition owned_test (worker_id : text) (now row_id : Z) (d : Db) : option ImportRowResult :=
  match import_row_results d !! row_id with
  | Some r => if test_live now r && bool_decide (row_test_worker_id r = Some worker_id)
              then Some r else None
  | None => None
  end.

Definition _load_target (worker_id : text) (global_limit lease_seconds now wall row_id : Z) :
    Tx (option ImportTestTarget) := fun d =>
  let d := _claim_specific worker_id global_limit lease_seconds now wall row_id d in
  match owned_test worker_id now row_id d with
  | None => Raise (ImportTestLeaseLost row_id)
  | Some row =>
      match row_device_id row ≫= fun i => devices d !! i with
      | None => Ok (None, d)
      | Some device =>
          Ok (Some {| test_device_id := default 0 (row_device_id row);
                      test_os_type := device_os_type device;
                      test_host := device_host device;
                      test_port := device_port device;
                      test_username := device_username device;
                      test_encrypted_password := device_encrypted_password device |}, d)
      end
  end.

Definition save_fields (status : ImportTestStatus) (message : text) (r : ImportRowResult) :
    ImportRowResult :=
  r <| row_test_status := status |>
    <| row_test_message := Some message |>
    <| row_test_worker_id := None |>
    <| row_test_lease_expires_at := None |>
    <| row_test_heartbeat_at := None |>.

Definition _save_result_for_worker (row_id : Z) (worker_id : text) (status : ImportTestStatus)
    (message : text) (now wall : Z) : Tx (option Z) := fun d =>
  match owned_test worker_id now row_id d with
  | None => Raise (ImportTestLeaseLost row_id)
  | Some row =>
      let d := update_rows {[row_id]} (save_fields status message) d in
      let '(completed, d) := refresh_import_batches wall {[row_batch_id row]} d in
      Ok (if decide (row_batch_id row ∈ completed) then Some (row_batch_id row) else None, d)
  end.

Definition _save_result (worker_id : text) (row_id : Z) (outcome : ImportTestOutcome) (now wall : Z) :
    Tx (option Z) :=
  _save_result_for_worker row_id worker_id (test_outcome_status outcome)
    (test_outcome_message outcome) now wall.

Definition _claim (worker_id : text) (capacity global_limit lease_seconds now wall : Z)
    (locked : gset Z) (d : Db) : list Z * Db :=
  if capacity <=? 0 then ([], d)
  else claim_import_tests worker_id capacity global_limit lease_seconds now wall locked d.

(** ** Testing a row *)

Section service.
Context (decrypt : text -> result exn text) (collectors : OSType -> Collector).
Context (worker_id : text) (global_limit lease_seconds : Z).

Definition _test_target (target : option ImportTestTarget) : ImportTestOutcome :=
  match target with
  | None => mkTestOutcome TEST_FAILED (u "导入设备不存在")
  | Some t =>
      match decrypt (test_encrypted_password t) with
      | Raise e => mkTestOutcome TEST_FAILED (safe_error_message (exn_message e) [[]])
      | Ok password =>
          match collector_test_connection (collectors (test_os_type t))
                  (mkSpec (test_host t) (test_port t) (test_username t) (Some (test_device_id t)))
                  password with
          | Ok _ => mkTestOutcome TEST_SUCCESS (u "连接测试成功")
          | Raise e => mkTestOutcome TEST_FAILED (safe_error_message (exn_message e) [password])
          end
      end
  end.

(** What the handlers of [test_row] do with an exception. *)
Definition test_row_failed (row_id now wall : Z) (e : exn) (d : Db) : Db :=
  match e with
  | ImportTestLeaseLost _ | DatabaseUnavailable | TransactionConflict => d
  | _ =>
      let d := _claim_specific worker_id global_limit lease_seconds now wall row_id d in
      (commit (_save_result worker_id row_id
         (mkTestOutcome TEST_FAILED
            (u "连接测试内部异常：" ++ safe_error_message (exn_message e) [])) now wall) d).2
  end.

(** [test_row]: claim and load at [now1], test, save at [now2].  [env] is what other
    transactions do to the database in between, [lost] whether the heartbeat saw the
    lease lost; the result is the batches the completion callback was called with. *)
Definition test_row (row_id : Z) (now1 wall1 now2 wall2 : Z) (env : Db -> Db) (lost : bool)
    (callback : Z -> result exn ()) (d : Db) : list Z * Db :=
  match commit (_load_target worker_id global_limit lease_seconds now1 wall1 row_id) d with
  | (Raise e, d) => ([], test_row_failed row_id now1 wall1 e d)
  | (Ok target, d) =>
      let outcome := _test_target target in
      let d := env d in
      if lost then ([], test_row_failed row_id now2 wall2 (ImportTestLeaseLost row_id) d) else
      match commit (_save_result worker_id row_id outcome now2 wall2) d with
      | (Raise e, d) => ([], test_row_failed row_id now2 wall2 e d)
      | (Ok None, d) => ([], d)
      | (Ok (Some b), d) =>
          ([b], match callback b with
                | Ok _ => d
                | Raise e => test_row_failed row_id now2 wall2 e d
                end)
      end
  end.
End service.

(** ** The queue of tests *)

Inductive import_op :=
| Test_claim (w : text) (capacity lease_seconds : Z)
| Test_renew (w : text) (row_ids : gset Z) (lease_seconds : Z)
| Test_load (w : text) (row_id lease_seconds : Z)
| Test_save (w : text) (row_id : Z) (success : bool) (message : text).

Definition import_op_worker (op : import_op) : option text :=
  match op with
  | Test_claim w _ _ | Test_renew w _ _ | Test_load w _ _ | Test_save w _ _ _ => Some w
  end.

Definition outcome_status (success : bool) : ImportTestStatus :=
  if success then TEST_SUCCESS else TEST_FAILED.

Definition import_tx (limit : Z) (op : import_op) (now wall : Z) (locked : gset Z) : Tx () :=
  match op with
  | Test_claim w cap ls => tx_modify (fun d => (_claim w cap limit ls now wall locked d).2)
  | Test_renew w ids ls => tx_modify (fun d => (renew_import_test_leases w ids ls now d).2)
  | Test_load w row ls => let* _ := _load_target w limit ls now wall row in tx_ret ()
  | Test_save w row ok msg =>
      let* _ := _save_result_for_worker row w (outcome_status ok) msg now wall in tx_ret ()
  end.

Definition import_step (limit now : Z) (op : import_op) (d d' : Db) : Prop :=
  exists wall locked, (commit (import_tx limit op now wall locked) d).2 = d'.

(** What a row says about its lease. *)
Definition test_lease (r : ImportRowResult) : lease :=
  match row_test_status r with
  | TEST_PENDING => Waiting
  | TEST_RUNNING => Held (row_test_worker_id r) (row_test_lease_expires_at r)
  | _ => Settled
  end.

Definition test_leases (d : Db) : gmap Z lease := test_lease <$> import_row_results d.

(** ** Facts about the view *)

Lemma lookup_test_leases d i : test_leases d !! i = test_lease <$> import_row_results d !! i.
Proof. apply lookup_fmap. Qed.

Lemma live_test_lease now r : live now (test_lease r) = test_live now r.
Proof. unfold test_lease, test_live. by destruct (row_test_status r), (row_test_lease_expires_at r). Qed.

Lemma stale_test_lease now r : stale now (test_lease r) = test_expired now r.
Proof. unfold test_lease, test_expired. by destruct (row_test_status r), (row_test_lease_expires_at r). Qed.

Lemma running_count_tests now d : running_count now (test_leases d) = active_tests now d.
Proof.
  apply count_where_ext. intros i. rewrite lookup_test_leases. split.
  - intros (l & (r & Hr & ->)%fmap_Some & Hl). exists r. by rewrite <- live_test_lease.
  - intros (r & -> & Hl). exists (test_lease r). by rewrite live_test_lease.
Qed.

Lemma owned_test_Some w now i d r :
  owned_test w now i d = Some r <->
  import_row_results d !! i = Some r /\ test_live now r = true /\ row_test_worker_id r = Some w.
Proof.
  unfold owned_test. destruct (import_row_results d !! i) as [r'|]; [|naive_solver].
  destruct (test_live now r' && bool_decide (row_test_worker_id r' = Some w)) eqn:E.
  - apply andb_true_iff in E as [? ?%bool_decide_eq_true]. naive_solver.
  - split; [done|]. intros ([= ->] & Hl & Hw). rewrite Hl, Hw, bool_decide_true in E; done.
Qed.

Lemma owned_test_lease w now i d r :
  owned_test w now i d = Some r ->
  test_leases d !! i = Some (test_lease r) /\ held_by w (test_lease r) = true /\
  live now (test_lease r) = true.
Proof.
  intros (Hr & Hl & Hw)%owned_test_Some. rewrite lookup_test_leases, Hr, live_test_lease.
  split_and!; [done| |done]. unfold test_lease. rewrite (test_live_running _ _ Hl). cbn.
  by rewrite Hw, bool_decide_true.
Qed.

Lemma active_after_reset now locked d : active_tests now (tests_after_reset now locked d) = active_tests now d.
Proof.
  apply count_where_ext. intros i. rewrite lookup_after_reset.
  destruct (import_row_results d !! i) as [r|]; cbn; [|naive_solver].
  assert (test_expired now r = true -> test_live now r = false) as Hex.
  { rewrite <- stale_test_lease, <- live_test_lease. apply stale_not_live. }
  split; intros (x & [= <-] & Hx); eexists; (split; [done|]); revert Hx.
  - by destruct (test_expired now r && _).
  - destruct (test_expired now r); [|done]. by rewrite Hex.
Qed.

Lemma refresh_imports_rows wall B d :
  import_row_results (refresh_import_batches wall B d).2 = import_row_results d.
Proof. by rewrite refresh_import_batches_eq. Qed.

Lemma test_leases_ext d d' : import_row_results d' = import_row_results d -> test_leases d' = test_leases d.
Proof. unfold test_leases. by intros ->. Qed.

(** ** Each transaction is a sequence of lease steps *)

Lemma claim_import_refines w cap limit ls now wall locked d :
  exists ops, lease_steps limit now (test_leases d) ops
    (test_leases (claim_import_tests w cap limit ls now wall locked d).2) /\
    Forall (fun o => op_worker o = None \/ op_worker o = Some w) ops.
Proof.
  destruct (decide (0 < cap)) as [Hcap|Hcap].
  2:{ exists []. unfold claim_import_tests. destruct (Z.leb_spec cap 0); [|lia]. split; constructor. }
  set (ids := (claim_import_tests w cap limit ls now wall locked d).1).
  set (d1 := tests_after_reset now locked d).
  assert (ids = claimed_test_ids cap limit now locked d1) as Hids
    by (unfold ids; by rewrite claim_import_tests_eq by done).
  exists [Claim w (expired_tests now locked d) (list_to_set ids) (now + ls * second)].
  split; [|apply Forall_singleton; by right]. apply lease_steps_one.
  replace (test_leases (claim_import_tests w cap limit ls now wall locked d).2)
    with (map_imap (fun i l => Some (claim_result w (expired_tests now locked d) (list_to_set ids)
            (now + ls * second) i l)) (test_leases d)).
  - constructor.
    + intros i (r & Hr & Hexp & _)%elem_of_expired_tests. exists (test_lease r).
      by rewrite lookup_test_leases, Hr, stale_test_lease.
    + intros i Hi. rewrite elem_of_list_to_set, Hids in Hi. unfold claimed_test_ids in Hi.
      apply elem_of_take in Hi as (k & Hi & _). apply list_elem_of_lookup_2 in Hi.
      apply elem_of_claimable_tests in Hi as (r' & Hr' & Hp & Hloc).
      unfold d1 in Hr'. rewrite lookup_after_reset in Hr'. apply fmap_Some in Hr' as (r & Hr & ->).
      destruct (test_expired now r) eqn:Hexp.
      * left. apply elem_of_expired_tests. eauto.
      * right. rewrite lookup_test_leases, Hr. cbn in *. unfold test_lease. by rewrite Hp.
    + intros Hne. rewrite running_count_tests, size_list_to_set.
      2:{ rewrite Hids. unfold claimed_test_ids. eapply sublist_NoDup; [|apply sublist_take].
          apply NoDup_sorted_ids. }
      assert (length ids ≠ 0%nat) by (intros ?%nil_length_inv; apply Hne; by rewrite H).
      rewrite Hids in H |- *. unfold claimed_test_ids in *. rewrite length_take in *.
      unfold d1 in *. rewrite active_after_reset in *. lia.
  - apply map_eq. intros i. rewrite lookup_claim, !lookup_test_leases, claim_import_lookup by done.
    destruct (import_row_results d !! i) as [r|] eqn:Hr; cbn [fmap option_fmap option_map]; [|done].
    f_equal. fold ids. unfold claim_result.
    rewrite (bool_decide_ext (i ∈@{gset Z} list_to_set ids) (i ∈ ids)) by apply elem_of_list_to_set.
    case_bool_decide; [done|].
    rewrite (bool_decide_ext (i ∈ expired_tests now locked d) (test_expired now r = true /\ i ∉ locked))
      by (rewrite elem_of_expired_tests; naive_solver).
    destruct (test_expired now r); cbn; [|done].
    by destruct (decide (i ∈ locked)); [rewrite !bool_decide_false by naive_solver
                                       |rewrite !bool_decide_true by naive_solver].
Qed.

Lemma renew_import_refines w ids limit ls now d :
  lease_steps limit now (test_leases d)
    [Renew w (select_ids (test_renewable w now ids) (import_row_results d)) (now + ls * second)]
    (test_leases (renew_import_test_leases w ids ls now d).2).
Proof.
  apply lease_steps_one.
  replace (test_leases (renew_import_test_leases w ids ls now d).2) with
    (update_where (fun i _ => bool_decide (i ∈ select_ids (test_renewable w now ids) (import_row_results d)))
       (fun _ => Held (Some w) (Some (now + ls * second))) (test_leases d)).
  - constructor. intros i (r & Hr & Hn%test_renewable_spec)%elem_of_select_ids.
    destruct Hn as (_ & Hl & Hw). exists (test_lease r).
    apply (owned_test_lease w now i d r), owned_test_Some. done.
  - apply map_eq. intros i. rewrite lookup_update_where, !lookup_test_leases, renew_import_lookup.
    destruct (import_row_results d !! i) as [r|] eqn:Hr; cbn; [|done]. f_equal.
    rewrite (bool_decide_ext (i ∈ _) (test_renewable w now ids i r = true))
      by (rewrite elem_of_select_ids; naive_solver).
    destruct (test_renewable w now ids i r) eqn:Hn; [|done]. cbn.
    apply test_renewable_spec in Hn as (_ & Hl%test_live_running & Hw).
    unfold test_lease. cbn. by rewrite Hl, Hw.
Qed.

(** Changing one row in the view. *)
Lemma update_row_leases row f d r :
  import_row_results d !! row = Some r ->
  test_leases (update_rows {[row]} f d) = <[row := test_lease (f r)]> (test_leases d).
Proof.
  intros Hr. apply map_eq. intros i. rewrite lookup_test_leases, lookup_update_rows.
  destruct (decide (row = i)) as [->|Hne].
  - rewrite lookup_insert_eq, Hr. cbn. by rewrite bool_decide_true by set_solver.
  - rewrite lookup_insert_ne, lookup_test_leases by done.
    destruct (import_row_results d !! i); cbn; [|done]. by rewrite bool_decide_false by set_solver.
Qed.

Lemma claim_specific_refines w limit ls now wall row d :
  exists ops, lease_steps limit now (test_leases d) ops
    (test_leases (_claim_specific w limit ls now wall row d)) /\
    Forall (fun o => op_worker o = None \/ op_worker o = Some w) ops.
Proof.
  assert (Hsame : exists ops, lease_steps limit now (test_leases d) ops (test_leases d) /\
    Forall (fun o => op_worker o = None \/ op_worker o = Some w) ops) by (exists []; split; constructor).
  unfold _claim_specific. destruct (import_row_results d !! row) as [r|] eqn:Hr; [|done].
  destruct (test_pending r) eqn:Hp; [|done]. unfold claim_specific_locked.
  destruct (Z.ltb_spec (active_tests now d) limit) as [Hlt|]; [|done].
  apply bool_decide_eq_true in Hp. cbv zeta.
  exists [Claim w ∅ {[row]} (now + ls * second)]. split; [|apply Forall_singleton; by right].
  apply lease_steps_one.
  rewrite (test_leases_ext _ _ (refresh_imports_rows wall _ _)), (update_row_leases row _ d r) by done.
  set (l := test_lease _). replace l with (Held (Some w) (Some (now + ls * second))) by done. clear l.
  replace (<[row := _]> (test_leases d)) with
    (map_imap (fun i l => Some (claim_result w ∅ {[row]} (now + ls * second) i l)) (test_leases d)).
  - constructor; [set_solver| |].
    + intros i ->%elem_of_singleton. right. rewrite lookup_test_leases, Hr. cbn.
      unfold test_lease. by rewrite Hp.
    + intros _. rewrite running_count_tests, size_singleton. lia.
  - apply map_eq. intros i. rewrite lookup_claim. unfold claim_result.
    destruct (decide (row = i)) as [->|Hne].
    + rewrite lookup_insert_eq, lookup_test_leases, Hr. cbn. by rewrite bool_decide_true by set_solver.
    + rewrite lookup_insert_ne by done. destruct (test_leases d !! i); cbn; [|done].
      rewrite bool_decide_false by set_solver. by rewrite bool_decide_false by set_solver.
Qed.

Lemma save_refines row w ok msg limit now wall d r :
  _save_result_for_worker row w (outcome_status ok) msg now wall d = Ok r ->
  lease_steps limit now (test_leases d) [Settle w row] (test_leases r.2).
Proof.
  unfold _save_result_for_worker. destruct (owned_test w now row d) as [x|] eqn:Ho; [|done].
  destruct (refresh_import_batches _ _ _) as [completed d'] eqn:E. intros [= <-]. cbn [snd].
  apply (f_equal snd) in E. cbn in E. subst d'.
  rewrite (test_leases_ext _ _ (refresh_imports_rows wall _ _)).
  apply owned_test_Some in Ho as Hx. destruct Hx as (Hx & _).
  rewrite (update_row_leases row _ d x) by done.
  apply owned_test_lease in Ho as (Hv & Hh & Hl). apply lease_steps_one.
  replace (test_lease (save_fields (outcome_status ok) msg x)) with Settled by by destruct ok.
  by econstructor.
Qed.

(** ** Each transaction preserves the invariant *)

Lemma one_row_inv row f wall d r :
  import_inv d -> import_row_results d !! row = Some r -> row_step f r ->
  import_inv (refresh_import_batches wall {[row_batch_id r]} (update_rows {[row]} f d)).2.
Proof.
  intros [Hc Ho] Hr Hf.
  assert (Hstep : forall i x, i ∈@{gset Z} {[row]} -> import_row_results d !! i = Some x -> row_step f x)
    by (intros i x ->%elem_of_singleton Hx; by simplify_eq).
  apply refresh_imports_inv.
  - by apply update_rows_core.
  - replace ({[row_batch_id r]} : gset Z) with (∅ ∪ batches_of {[row]} d).
    + apply update_rows_outside; [|done]. intros i x Hi Hx. by apply (Hstep i x Hi Hx).
    + apply set_eq. intros b. rewrite elem_of_union, elem_of_batches_of, elem_of_singleton.
      split; [intros [?|(i & x & Hx & ->%elem_of_singleton & <-)]; [set_solver|by simplify_eq]|].
      intros ->. right. exists row, r. set_solver.
Qed.

Lemma claim_specific_inv w limit ls now wall row d :
  import_inv d -> import_inv (_claim_specific w limit ls now wall row d).
Proof.
  intros Hinv. unfold _claim_specific. destruct (import_row_results d !! row) as [r|] eqn:Hr; [|done].
  destruct (test_pending r); [|done]. unfold claim_specific_locked. case_match; [|done].
  apply (one_row_inv row _ wall d r Hinv Hr). split; [done|]. intros _. by split; eexists.
Qed.

Lemma save_result_inv row w ok msg now wall d r :
  import_inv d -> _save_result_for_worker row w (outcome_status ok) msg now wall d = Ok r ->
  import_inv r.2.
Proof.
  intros Hinv. unfold _save_result_for_worker. destruct (owned_test w now row d) as [x|] eqn:Ho; [|done].
  destruct (refresh_import_batches _ _ _) as [completed d'] eqn:E. intros [= <-]. cbn [snd].
  apply (f_equal snd) in E. cbn in E. subst d'. apply owned_test_Some in Ho as (Hx & _).
  apply (one_row_inv row _ wall d x Hinv Hx). split; [done|]. intros _. by destruct ok.
Qed.

Lemma import_step_inv limit now op d d' :
  import_inv d -> import_step limit now op d d' -> import_inv d'.
Proof.
  intros Hinv (wall & locked & <-).
  destruct op; unfold commit; cbn [import_tx].
  - unfold tx_modify, _claim. case_match; [done|]. by apply claim_import_tests_inv.
  - by apply renew_import_test_leases_inv.
  - unfold tx_bind, _load_target. destruct (owned_test _ _ _ _) as [r|]; [|done].
    destruct (row_device_id r ≫= _); by apply claim_specific_inv.
  - unfold tx_bind. destruct (_save_result_for_worker _ _ _ _ _ _ _) as [[b d1]|] eqn:E; [|done].
    by apply save_result_inv in E.
Qed.

Lemma import_step_refines limit now op d d' :
  import_inv d -> import_step limit now op d d' ->
  exists ops, lease_steps limit now (test_leases d) ops (test_leases d') /\
    Forall (fun o => op_worker o = None \/ op_worker o = import_op_worker op) ops.
Proof.
  intros _ (wall & locked & <-).
  assert (Hsame : forall w, exists ops, lease_steps limit now (test_leases d) ops (test_leases d) /\
    Forall (fun o => op_worker o = None \/ op_worker o = w) ops) by (intros w; exists []; split; constructor).
  destruct op; unfold commit; cbn [import_tx import_op_worker].
  - unfold tx_modify, _claim. case_match; [apply Hsame|]. apply claim_import_refines.
  - eexists. split; [apply renew_import_refines|]. apply Forall_singleton. by right.
  - unfold tx_bind, _load_target. destruct (owned_test _ _ _ _) as [r|]; [|apply Hsame].
    destruct (row_device_id r ≫= _); apply claim_specific_refines.
  - unfold tx_bind. destruct (_save_result_for_worker _ _ _ _ _ _ _) as [[b d1]|] eqn:E; [|apply Hsame].
    eexists. split; [by eapply save_refines in E|]. apply Forall_singleton. by right.
Qed.

#[export] Instance import_lease_queue limit : LeaseQueue Db import_op limit := {
  lq_view := test_leases;
  lq_inv := import_inv;
  lq_worker := import_op_worker;
  lq_step := import_step limit;
  lq_step_inv := import_step_inv limit;
  lq_refines := import_step_refines limit
}.

Definition import_exec (limit : Z) : Z * Db -> Z * Db -> Prop :=
  @lq_exec Db import_op limit (import_lease_queue limit).
