(* ===== verification/ImportTheorems.v ===== *)
(** * What the import connection tests guarantee

    The theorems about executions of the test queue, about the completion of import
    batches, and about one row's test. *)

From S2P Require Import Prelude PyText Models Exceptions Security Collectors LeaseSpec TaskLeases ImportTestLeases ImportTesting.

(** ** Settled rows and completed batches stay *)

Definition batch_done (b : Z) (d : Db) : Prop :=
  open_rows b d = ∅ /\
  exists batch, import_batches d !! b = Some batch /\ import_status batch = IMPORT_COMPLETED.

Definition rows_settled (d d' : Db) : Prop :=
  (forall i r, import_row_results d !! i = Some r -> row_open r = false ->
     import_row_results d' !! i = Some r) /\
  (forall i r', import_row_results d' !! i = Some r' ->
     exists r, import_row_results d !! i = Some r /\ row_batch_id r' = row_batch_id r) /\
  (forall b, batch_done b d -> batch_done b d').

Lemma rows_settled_refl d : rows_settled d d.
Proof. split_and!; eauto. Qed.

Lemma rows_settled_trans d1 d2 d3 : rows_settled d1 d2 -> rows_settled d2 d3 -> rows_settled d1 d3.
Proof.
  intros (A1 & B1 & C1) (A2 & B2 & C2). split_and!; [eauto| |eauto].
  intros i r3 H3. destruct (B2 i r3 H3) as (r2 & H2 & E2). destruct (B1 i r2 H2) as (r1 & H1 & E1).
  exists r1. split; [done|congruence].
Qed.

(** Rewriting open rows in place, and refreshing some batches. *)
Lemma rows_settled_pointwise wall B d d1 (f : Z -> ImportRowResult -> ImportRowResult) :
  (forall i, import_row_results d1 !! i = f i <$> import_row_results d !! i) ->
  import_batches d1 = import_batches d ->
  (forall i r, import_row_results d !! i = Some r -> row_open r = false -> f i r = r) ->
  (forall i r, import_row_results d !! i = Some r -> row_batch_id (f i r) = row_batch_id r) ->
  rows_settled d (refresh_import_batches wall B d1).2.
Proof.
  intros Hlk Hb Hf Hid.
  assert (Hopen : forall b, open_rows b d = ∅ -> open_rows b d1 = ∅).
  { intros b He. apply set_eq. intros i. split; [|set_solver].
    intros (r' & Hr' & Hbr & Ho)%elem_of_open_rows. rewrite Hlk in Hr'.
    apply fmap_Some in Hr' as (r & Hr & ->). rewrite <- He. apply elem_of_open_rows.
    exists r. split; [done|]. rewrite Hid in Hbr by done. split; [done|].
    destruct (row_open r) eqn:E; [done|]. by rewrite (Hf i r), E in Ho. }
  rewrite refresh_import_batches_eq. cbn [snd]. split_and!; cbn.
  - intros i r Hr Ho. rewrite Hlk, Hr. cbn. f_equal. by apply Hf.
  - intros i r'. rewrite Hlk. intros (r & Hr & ->)%fmap_Some. exists r. split; [done|]. by apply (Hid i).
  - intros b (He & batch & Hbatch & Hs). split; [by apply Hopen|].
    exists (if bool_decide (b ∈ B) then refreshed_import wall (import_row_results d1) b batch else batch).
    cbn. rewrite lookup_refresh_imports, Hb, Hbatch. split; [done|].
    case_bool_decide; [|done]. rewrite refreshed_import_status.
    by rewrite bool_decide_true by by apply Hopen.
Qed.

Lemma settled_not_open now r :
  row_open r = false -> row_test_status r ≠ TEST_PENDING /\ test_expired now r = false /\
  test_live now r = false /\ test_pending r = false.
Proof.
  unfold row_open, test_expired, test_live, test_pending.
  destruct (row_test_status r); cbn; done.
Qed.

Lemma claim_rows_settled w cap gl ls now wall locked d :
  rows_settled d (claim_import_tests w cap gl ls now wall locked d).2.
Proof.
  destruct (decide (0 < cap)) as [Hcap|Hcap].
  2:{ unfold claim_import_tests. destruct (Z.leb_spec cap 0); [apply rows_settled_refl|lia]. }
  rewrite claim_import_tests_eq by done. cbv zeta. cbn [snd].
  set (d1 := tests_after_reset now locked d). set (ids := claimed_test_ids cap gl now locked d1).
  eapply (rows_settled_pointwise wall _ d _ (fun i r =>
    let r := if test_expired now r && bool_decide (i ∉ locked) then reset_test r else r in
    if bool_decide (i ∈ ids) then run_test w now (now + ls * second) r else r)).
  - intros i. rewrite lookup_update_rows. unfold d1. rewrite lookup_after_reset.
    destruct (import_row_results d !! i); cbn; [|done]. f_equal.
    by rewrite (bool_decide_ext _ _ (elem_of_list_to_set (C := gset Z) i _)).
  - done.
  - intros i r Hr Ho. cbv zeta. destruct (settled_not_open now r Ho) as (Hp & -> & _). cbn.
    rewrite bool_decide_false; [done|]. intros Hi. unfold ids, claimed_test_ids in Hi.
    apply elem_of_take in Hi as (k & Hi & _). apply list_elem_of_lookup_2 in Hi.
    apply elem_of_claimable_tests in Hi as (r' & Hr' & Hp' & _). unfold d1 in Hr'.
    rewrite lookup_after_reset, Hr in Hr'. cbn in Hr'.
    destruct (settled_not_open now r Ho) as (_ & E & _). rewrite E in Hr'. by injection Hr' as <-.
  - intros i r _. cbv zeta. by destruct (test_expired now r && _), (bool_decide (i ∈ ids)).
Qed.

Lemma one_row_settled row f wall B d r :
  import_row_results d !! row = Some r -> row_open r = true -> row_batch_id (f r) = row_batch_id r ->
  rows_settled d (refresh_import_batches wall B (update_rows {[row]} f d)).2.
Proof.
  intros Hr Ho Hid.
  eapply (rows_settled_pointwise wall _ d _ (fun i r => if bool_decide (i ∈@{gset Z} {[row]}) then f r else r)).
  - intros i. apply lookup_update_rows.
  - done.
  - intros i x Hx Hox. case_bool_decide as Hi; [|done]. apply elem_of_singleton in Hi as ->. congruence.
  - intros i x Hx. case_bool_decide as Hi; [|done]. apply elem_of_singleton in Hi as ->. congruence.
Qed.

Lemma renew_rows_settled w ids ls now d : rows_settled d (renew_import_test_leases w ids ls now d).2.
Proof.
  assert (H : rows_settled d (refresh_import_batches 0 ∅ (renew_import_test_leases w ids ls now d).2).2).
  { eapply rows_settled_pointwise; [intros i; apply renew_import_lookup|apply renew_import_batches| |].
    - intros i r Hr Ho. cbv beta. destruct (test_renewable w now ids i r) eqn:E; [|done].
      apply test_renewable_spec in E as (_ & Hl & _).
      destruct (settled_not_open now r Ho) as (_ & _ & ? & _). congruence.
    - intros i r _. cbv beta. by destruct (test_renewable w now ids i r). }
  rewrite refresh_import_batches_eq in H. cbn [snd] in H.
  destruct H as (A & B & C). split_and!; [exact A|exact B|].
  intros b Hb. destruct (C b Hb) as (He & batch & Hbatch & Hs). split; [exact He|].
  cbn in Hbatch. rewrite lookup_refresh_imports in Hbatch. apply fmap_Some in Hbatch as (x & Hx & ->).
  exists x. split; [done|]. by rewrite bool_decide_false in Hs by set_solver.
Qed.

Lemma owned_test_open w now row d r : owned_test w now row d = Some r -> row_open r = true.
Proof.
  intros (_ & Hl%test_live_running & _)%owned_test_Some. unfold row_open. by rewrite Hl.
Qed.

Lemma claim_specific_settled w limit ls now wall row d :
  rows_settled d (_claim_specific w limit ls now wall row d).
Proof.
  unfold _claim_specific. destruct (import_row_results d !! row) as [r|] eqn:Hr; [|apply rows_settled_refl].
  destruct (test_pending r) eqn:Hp; [|apply rows_settled_refl]. unfold claim_specific_locked.
  case_match; [|apply rows_settled_refl]. apply (one_row_settled row _ wall _ d r Hr); [|done].
  unfold row_open, test_pending in *. by rewrite Hp.
Qed.

Lemma save_settled row w st msg now wall d r :
  _save_result_for_worker row w st msg now wall d = Ok r -> rows_settled d r.2.
Proof.
  unfold _save_result_for_worker. destruct (owned_test w now row d) as [x|] eqn:Ho; [|done].
  destruct (refresh_import_batches _ _ _) as [completed d'] eqn:E. intros [= <-]. cbn [snd].
  apply (f_equal snd) in E. cbn in E. subst d'. pose proof (owned_test_open _ _ _ _ _ Ho).
  apply owned_test_Some in Ho as (Hx & _). by apply (one_row_settled row _ wall _ d x Hx).
Qed.

Lemma import_step_settled limit now op d d' : import_step limit now op d d' -> rows_settled d d'.
Proof.
  intros (wall & locked & <-). destruct op; unfold commit; cbn [import_tx].
  - unfold tx_modify, _claim. case_match; [apply rows_settled_refl|]. apply claim_rows_settled.
  - apply renew_rows_settled.
  - unfold tx_bind, _load_target. destruct (owned_test _ _ _ _) as [r|]; [|apply rows_settled_refl].
    destruct (row_device_id r ≫= _); apply claim_specific_settled.
  - unfold tx_bind. destruct (_save_result_for_worker _ _ _ _ _ _ _) as [[b d1]|] eqn:E;
      [|apply rows_settled_refl]. by apply save_settled in E.
Qed.

Lemma import_exec_settled limit c c' : import_exec limit c c' -> rows_settled c.2 c'.2.
Proof.
  unfold import_exec. induction 1 as [c|t op s s1 c Hop _ IH|t t' s c _ _ IH]; cbn in *.
  - apply rows_settled_refl.
  - eapply rows_settled_trans; [by eapply import_step_settled|done].
  - done.
Qed.

Lemma import_exec_inv limit t d t' d' :
  import_exec limit (t, d) (t', d') -> import_inv d -> import_inv d'.
Proof. intros Hx Hinv. exact (lq_exec_inv (H := import_lease_queue limit) _ _ Hx Hinv). Qed.

(** What a save answers. *)
Lemma save_result_Ok w row st msg now wall d r :
  owned_test w now row d = Some r ->
  exists d', _save_result_for_worker row w st msg now wall d =
    Ok (if decide (row_batch_id r ∈ newly_completed {[row_batch_id r]} (update_rows {[row]} (save_fields st msg) d))
        then Some (row_batch_id r) else None, d') /\
    d' = (refresh_import_batches wall {[row_batch_id r]} (update_rows {[row]} (save_fields st msg) d)).2.
Proof.
  intros Ho. unfold _save_result_for_worker. rewrite Ho, refresh_import_batches_eq. eauto.
Qed.

Lemma open_rows_save row st msg d b :
  st = TEST_SUCCESS \/ st = TEST_FAILED ->
  open_rows b (update_rows {[row]} (save_fields st msg) d) = open_rows b d ∖ {[row]}.
Proof.
  intros Hst. apply set_eq. intros i.
  rewrite elem_of_difference, elem_of_singleton, !elem_of_open_rows, lookup_update_rows.
  destruct (import_row_results d !! i) as [x|]; cbn; [|naive_solver].
  destruct (decide (i = row)) as [->|Hne].
  - rewrite bool_decide_true by set_solver. split; [|naive_solver].
    intros (y & [= <-] & _ & Ho). exfalso. by destruct Hst as [-> | ->].
  - rewrite bool_decide_false by set_solver. naive_solver.
Qed.

(** A batch with an open row is not completed. *)
Lemma open_batch_testing d b :
  import_inv d -> open_rows b d ≠ ∅ ->
  exists batch, import_batches d !! b = Some batch /\ import_status batch = IMPORT_TESTING.
Proof.
  intros [Hc Ho] Hne. destruct (set_choose_L _ Hne) as [i (r & Hr & Hb & _)%elem_of_open_rows].
  destruct (core_row_batch d Hc i r Hr) as [batch Hbatch]. rewrite Hb in Hbatch.
  exists batch. split; [done|]. destruct (Ho b batch Hbatch) as (_ & _ & _ & _ & Hs); [set_solver|].
  rewrite bool_decide_false in Hs; [by destruct Hs|]. by rewrite <- open_rows_counts.
Qed.

Lemma import_completion_step row w st msg now wall d :
  import_inv d -> st = TEST_SUCCESS \/ st = TEST_FAILED ->
  match owned_test w now row d with
  | None => commit (_save_result_for_worker row w st msg now wall) d = (Raise (ImportTestLeaseLost row), d)
  | Some r => exists d', commit (_save_result_for_worker row w st msg now wall) d =
      (Ok (if decide (open_rows (row_batch_id r) d = {[row]}) then Some (row_batch_id r) else None), d') /\
      import_row_results d' !! row = Some (save_fields st msg r)
  end.
Proof.
  intros Hinv Hst. unfold commit. destruct (owned_test w now row d) as [r|] eqn:Ho.
  2:{ unfold _save_result_for_worker. by rewrite Ho. }
  destruct (save_result_Ok w row st msg now wall d r Ho) as (d' & E & ->). rewrite E.
  pose proof (owned_test_open _ _ _ _ _ Ho) as Hopen. apply owned_test_Some in Ho as (Hr & _).
  assert (Hin : row ∈ open_rows (row_batch_id r) d) by (apply elem_of_open_rows; eauto).
  eexists. split.
  - f_equal. f_equal. apply decide_ext. rewrite elem_of_newly_completed, open_rows_save by done.
    split.
    + intros (_ & He & _). apply set_eq. intros i. rewrite elem_of_singleton. split; [|by intros ->].
      intros Hi. destruct (decide (i = row)); [done|]. exfalso.
      assert (i ∈ (∅ : gset Z)) by (rewrite <- He; set_solver). set_solver.
    + intros He. split; [set_solver|]. split; [rewrite He; set_solver|].
      destruct (open_batch_testing d (row_batch_id r) Hinv) as (batch & Hb & Hs); [set_solver|].
      exists batch. split; [done|]. by rewrite Hs.
  - rewrite refresh_imports_rows, lookup_update_rows, Hr. cbn. by rewrite bool_decide_true by set_solver.
Qed.

(** * The guarantees *)

(** The global limit on running connection tests: no interleaving of claims,
    renewals, loads and results of any workers, with any passage of time, has more
    than [limit] imported rows under a live lease. *)
Theorem import_limit_respected limit t d t' d' :
  import_inv d -> active_tests t d <= limit ->
  import_exec limit (t, d) (t', d') -> active_tests t' d' <= limit.
Proof.
  intros Hinv Hb Hx. rewrite <- !running_count_tests in *.
  exact (lq_exec_bounded (H := import_lease_queue limit) _ _ Hx Hinv Hb).
Qed.


(** A result is accepted only from the holder of a live lease, and it reports
    the batch as completed exactly when it settles the batch's last open row. *)
Theorem import_completion_exact row w st msg now wall d :
  import_inv d -> st = TEST_SUCCESS \/ st = TEST_FAILED ->
  match owned_test w now row d with
  | None => commit (_save_result_for_worker row w st msg now wall) d = (Raise (ImportTestLeaseLost row), d)
  | Some r => exists d', commit (_save_result_for_worker row w st msg now wall) d =
      (Ok (if decide (open_rows (row_batch_id r) d = {[row]}) then Some (row_batch_id r) else None), d') /\
      import_row_results d' !! row = Some (save_fields st msg r)
  end.
Proof. apply import_completion_step. Qed.

(** The completion of an import is reported at most once: after a result that
    reported it, no result recorded in any later state, by any worker, reports the
    same batch again. *)
Theorem import_completion_once limit row w st msg now wall d b d' t d'' row' w' st' msg' now' wall' x d3 :
  st = TEST_SUCCESS \/ st = TEST_FAILED ->
  _save_result_for_worker row w st msg now wall d = Ok (Some b, d') ->
  import_exec limit (now, d') (t, d'') ->
  _save_result_for_worker row' w' st' msg' now' wall' d'' = Ok (x, d3) ->
  x ≠ Some b.
Proof.
  intros Hst E Hx E2 ->.
  assert (Hdone : batch_done b d').
  { destruct (owned_test w now row d) as [r|] eqn:Ho;
      [|unfold _save_result_for_worker in E; by rewrite Ho in E].
    destruct (save_result_Ok w row st msg now wall d r Ho) as (d0 & E0 & ->).
    rewrite E in E0. injection E0 as E0 ->. case_decide as Hn; [|done]. injection E0 as ->.
    apply elem_of_newly_completed in Hn as (Hb & He & batch & Hbatch & _).
    rewrite refresh_import_batches_eq. cbn [snd]. split; [exact He|].
    eexists. cbn. rewrite lookup_refresh_imports. cbn in Hbatch. rewrite Hbatch. cbn.
    split; [done|]. rewrite bool_decide_true by done.
    etrans; [exact (refreshed_import_status wall (update_rows {[row]} (save_fields st msg) d) _ batch)|].
    by rewrite bool_decide_true. }
  apply (import_exec_settled limit _ _ Hx) in Hdone as (He & _). cbn in He.
  destruct (owned_test w' now' row' d'') as [r|] eqn:Ho;
    [|unfold _save_result_for_worker in E2; by rewrite Ho in E2].
  destruct (save_result_Ok w' row' st' msg' now' wall' d'' r Ho) as (d0 & E0 & _).
  rewrite E2 in E0. injection E0 as E0 _. case_decide; [|done]. injection E0 as ->.
  apply owned_test_open in Ho as Hopen. apply owned_test_Some in Ho as (Hr & _).
  assert (row' ∈ (∅ : gset Z)); [|set_solver]. rewrite <- He. apply elem_of_open_rows. eauto.
Qed.

(** ** One row's test *)

Lemma test_target_status decrypt collectors target :
  test_outcome_status (_test_target decrypt collectors target) = TEST_SUCCESS \/
  test_outcome_status (_test_target decrypt collectors target) = TEST_FAILED.
Proof.
  unfold _test_target. destruct target as [t|]; [|by right].
  destruct (decrypt _); [|by right]. destruct (collector_test_connection _ _ _); [by left|by right].
Qed.

(** Handling an exception never touches a row that is already settled. *)
Lemma test_row_failed_settled w limit ls row now wall e d r :
  import_row_results d !! row = Some r -> row_open r = false ->
  test_row_failed w limit ls row now wall e d = d.
Proof.
  intros Hr Ho. destruct (settled_not_open now r Ho) as (_ & _ & Hl & Hp).
  unfold test_row_failed. assert (Hcs : _claim_specific w limit ls now wall row d = d)
    by (unfold _claim_specific; by rewrite Hr, Hp).
  destruct e; try done; rewrite Hcs; unfold commit, _save_result, _save_result_for_worker, owned_test;
    by rewrite Hr, Hl.
Qed.

(** One row's test, from claim to result, whatever other transactions do in
    between and however the completion callback ends: if the row could not be
    claimed nothing changes; if the lease was lost while testing, the database stays
    as the others left it and the callback is not called; otherwise the row is
    settled with the outcome of the test and the callback is called exactly when
    this result closed the batch. *)
Theorem test_row_outcome decrypt collectors w limit ls row now1 wall1 now2 wall2 env lost callback d :
  match commit (_load_target w limit ls now1 wall1 row) d with
  | (Raise _, _) =>
      test_row decrypt collectors w limit ls row now1 wall1 now2 wall2 env lost callback d = ([], d)
  | (Ok target, d1) =>
      let outcome := _test_target decrypt collectors target in
      let r := test_row decrypt collectors w limit ls row now1 wall1 now2 wall2 env lost callback d in
      import_inv (env d1) ->
      match owned_test w now2 row (env d1) with
      | Some x =>
          if lost then r = ([], env d1) else
          import_row_results r.2 !! row =
            Some (save_fields (test_outcome_status outcome) (test_outcome_message outcome) x) /\
          r.1 = if decide (open_rows (row_batch_id x) (env d1) = {[row]})
                then [row_batch_id x] else []
      | None => r = ([], env d1)
      end
  end.
Proof.
  unfold test_row. destruct (commit (_load_target w limit ls now1 wall1 row) d) as [[target|e] d1] eqn:E1.
  2:{ pose proof (commit_Raise _ _ _ _ E1) as ->. f_equal. unfold commit, _load_target in E1.
      destruct (owned_test _ _ _ _) as [r|]; [by destruct (row_device_id r ≫= _)|].
      by injection E1 as <-. }
  cbv zeta. set (outcome := _test_target decrypt collectors target). intros Hinv.
  pose proof (import_completion_step row w (test_outcome_status outcome) (test_outcome_message outcome)
    now2 wall2 (env d1) Hinv (test_target_status decrypt collectors target)) as Hsave.
  unfold _save_result. destruct (owned_test w now2 row (env d1)) as [x|].
  - destruct lost; [done|]. destruct Hsave as (d' & -> & Hrow).
    assert (Ho : row_open (save_fields (test_outcome_status outcome) (test_outcome_message outcome) x) = false)
      by (destruct (test_target_status decrypt collectors target) as [H|H]; fold outcome in H;
          unfold row_open; cbn; by rewrite H).
    case_decide; cbn; [|done].
    destruct (callback _) as [[]|e]; [done|]. by rewrite (test_row_failed_settled _ _ _ _ _ _ _ _ _ Hrow Ho).
  - destruct lost; [done|]. by rewrite Hsave.
Qed.

(** ** A concrete import: two rows to test, worker "w1" testing the first *)

Definition demo_row : ImportRowResult :=
  mkImportRow 1 1 (Some (u "edge-1")) (Some (u "10.0.0.1")) None ROW_IMPORTED [] TEST_PENDING None
    None None None 0.

Definition demo_import_batch : ImportBatch :=
  mkImportBatch (u "hosts.csv") IMPORT_TESTING 2 2 0 0 2 0 0 0 0 None None None.

Definition demo_tests : Db :=
  empty_db <| import_batches := {[1 := demo_import_batch]} |>
           <| import_row_results := {[1 := demo_row; 2 := demo_row]} |>.

Definition run_tests (ops : list (Z * import_op)) (d : Db) : Db :=
  foldl (fun d p => (commit (import_tx 2 p.2 p.1 p.1 ∅) d).2) d ops.

Lemma run_tests_exec ops t d :
  Sorted Z.le (t :: ops.*1) -> import_exec 2 (t, d) (List.last ops.*1 t, run_tests ops d).
Proof.
  revert t d. induction ops as [|[t' op] ops IH]; intros t d Hs; [constructor|].
  apply Sorted_inv in Hs as [Hs Hh]. apply HdRel_inv in Hh. cbn in Hh.
  apply (exec_tick t t'); [done|].
  apply (exec_op t' op _ ((commit (import_tx 2 op t' t' ∅) d).2)); [by exists t', ∅|].
  replace (List.last ((t', op) :: ops).*1 t) with (List.last ops.*1 t').
  - by apply IH.
  - cbn. destruct (ops.*1) as [|x l] eqn:E; [done|]. clear. revert x. induction l as [|y l IH]; intros x; [done|].
    apply IH.
Qed.

Lemma demo_tests_inv : import_inv demo_tests.
Proof.
  split; [constructor|].
  - intros i r. cbn. intros [[<- <-]|[_ [<- <-]%lookup_singleton_Some]]%lookup_insert_Some; done.
  - intros i r. cbn. intros [[<- <-]|[_ [<- <-]%lookup_singleton_Some]]%lookup_insert_Some; by eexists.
  - intros b batch. cbn. intros [<- <-]%lookup_singleton_Some _. vm_compute. repeat split.
Qed.

Definition demo_test_ops : list (Z * import_op) :=
  [(10 * second, Test_claim (u "w1") 1 90); (20 * second, Test_claim (u "w2") 5 90);
   (30 * second, Test_save (u "w1") 1 true (u "ok"))].

Definition demo_tested : Db := run_tests demo_test_ops demo_tests.

Lemma demo_tested_exec : import_exec 2 (0, demo_tests) (30 * second, demo_tested).
Proof. apply (run_tests_exec demo_test_ops 0 demo_tests). cbn. repeat constructor; done. Qed.

Lemma demo_tested_inv : import_inv demo_tested.
Proof.
  exact (import_exec_inv 2 _ _ _ _ demo_tested_exec demo_tests_inv).
Qed.

Lemma import_limit_respected_witness : active_tests (30 * second) demo_tested <= 2.
Proof.
  apply (import_limit_respected 2 0 demo_tests (30 * second) demo_tested).
  - exact demo_tests_inv.
  - vm_compute. discriminate.
  - exact demo_tested_exec.
Defined.


(** The second result closes the batch. *)
Lemma import_completion_exact_witness :
  exists d', commit (_save_result_for_worker 2 (u "w2") TEST_FAILED (u "no") (40 * second) 0) demo_tested =
    (Ok (Some 1), d').
Proof.
  pose proof (import_completion_exact 2 (u "w2") TEST_FAILED (u "no") (40 * second) 0 demo_tested
    demo_tested_inv (or_intror eq_refl)) as H.
  assert (Hb : row_batch_id <$> owned_test (u "w2") (40 * second) 2 demo_tested = Some 1)
    by (vm_compute; reflexivity).
  assert (Hopen : open_rows 1 demo_tested = {[2]}) by (vm_compute; reflexivity).
  destruct (owned_test (u "w2") (40 * second) 2 demo_tested) as [r|]; [|discriminate Hb].
  cbn in Hb. injection Hb as Hb. destruct H as (d' & E & _). exists d'. rewrite E, Hb.
  case_decide as Hd; [reflexivity|]. contradiction Hd. rewrite Hb. exact Hopen.
Defined.

(** The same with a second batch whose only row is under test. *)
Definition demo_other_row : ImportRowResult :=
  demo_row <| row_batch_id := 2 |> <| row_test_status := TEST_RUNNING |>
           <| row_test_worker_id := Some (u "w1") |>
           <| row_test_lease_expires_at := Some (100 * second) |>.

Definition demo_two_batches : Db :=
  demo_tested <| import_batches := <[2 := demo_import_batch]> (import_batches demo_tested) |>
              <| import_row_results := <[3 := demo_other_row]> (import_row_results demo_tested) |>.

Definition demo_save (row_id : Z) (w : text) (now : Z) (d : Db) : option Z * Db :=
  match _save_result_for_worker row_id w TEST_FAILED (u "no") now 0 d with
  | Ok r => r
  | Raise _ => (None, d)
  end.

Definition demo_closed : Db := (demo_save 2 (u "w2") (40 * second) demo_two_batches).2.

Lemma import_completion_once_witness :
  (demo_save 2 (u "w2") (40 * second) demo_two_batches).1 = Some 1 /\
  (demo_save 3 (u "w1") (50 * second) demo_closed).1 = Some 2 /\
  (demo_save 3 (u "w1") (50 * second) demo_closed).1 ≠ Some 1.
Proof.
  split; [vm_compute; reflexivity|]. split; [vm_compute; reflexivity|].
  apply (import_completion_once 2 2 (u "w2") TEST_FAILED (u "no") (40 * second) 0 demo_two_batches 1 demo_closed
    (50 * second) demo_closed 3 (u "w1") TEST_FAILED (u "no") (50 * second) 0 _
    (demo_save 3 (u "w1") (50 * second) demo_closed).2).
  - right. reflexivity.
  - vm_compute. reflexivity.
  - apply (exec_tick _ (50 * second)); [done|apply exec_refl].
  - vm_compute. reflexivity.
Defined.

(** ** A race in [_claim_specific]

    [_claim_specific] reads the row before it waits for the claim lock, and assigns
    the columns without reading it again.  If another worker's claim commits in
    between, the live lease of that worker is overwritten. *)

(** The two halves of [_claim_specific] can interleave with another worker's
    claim so that a live lease is taken over: worker "w2" claims row 1 after "w1"
    read it as pending, "w1" then overwrites the lease, and the result of "w2",
    whose lease has not expired, is refused. *)
Theorem claim_specific_steals_lease :
  exists read d d',
    import_row_results demo_tests !! 1 = Some read /\ test_pending read = true /\
    d = (claim_import_tests (u "w2") 1 2 90 (10 * second) 0 ∅ demo_tests).2 /\
    is_Some (owned_test (u "w2") (11 * second) 1 d) /\
    d' = claim_specific_locked (u "w1") 2 90 (11 * second) 0 1 read d /\
    is_Some (owned_test (u "w1") (12 * second) 1 d') /\
    commit (_save_result_for_worker 1 (u "w2") TEST_SUCCESS [] (12 * second) 0) d' =
      (Raise (ImportTestLeaseLost 1), d').
Proof.
  eexists _, _, _. split; [vm_compute; reflexivity|]. split; [reflexivity|]. split; [reflexivity|].
  split; [vm_compute; by eexists|]. split; [reflexivity|]. split; [vm_compute; by eexists|].
  unfold commit, _save_result_for_worker.
  match goal with |- context [owned_test ?w ?n ?i ?d] =>
    replace (owned_test w n i d) with (@None ImportRowResult) by (vm_compute; reflexivity) end.
  reflexivity.
Qed.

Definition demo_collectors (_ : OSType) : Collector :=
  mkCollector (fun _ _ => Ok (mkCollection [] None)) (fun _ _ => Ok ()).

Definition demo_loaded : Db :=
  (commit (_load_target (u "w1") 2 90 (10 * second) 0 1) demo_tests).2.

Lemma demo_loaded_inv : import_inv demo_loaded.
Proof.
  apply (import_step_inv 2 (10 * second) (Test_load (u "w1") 1 90) demo_tests); [exact demo_tests_inv|].
  exists 0, ∅. unfold demo_loaded, commit, import_tx, tx_bind.
  by destruct (_load_target (u "w1") 2 90 (10 * second) 0 1 demo_tests) as [[]|].
Qed.

(** Row 1 has no device: its test fails, and row 2 keeps the batch open. *)
Lemma test_row_outcome_witness :
  (test_row Ok demo_collectors (u "w1") 2 90 1 (10 * second) 0 (20 * second) 0 (fun d => d) false
     (fun _ => Ok ()) demo_tests).1 = [].
Proof.
  pose proof (test_row_outcome Ok demo_collectors (u "w1") 2 90 1 (10 * second) 0 (20 * second) 0
    (fun d => d) false (fun _ => Ok ()) demo_tests) as H.
  assert (Hok : is_ok (commit (_load_target (u "w1") 2 90 (10 * second) 0 1) demo_tests).1 = true)
    by (vm_compute; reflexivity).
  pose proof demo_loaded_inv as Hinv. unfold demo_loaded in Hinv.
  destruct (commit (_load_target (u "w1") 2 90 (10 * second) 0 1) demo_tests) as [[target|e] d1] eqn:E.
  - specialize (H Hinv).
    assert (Hopen : open_rows 1 demo_loaded = {[1; 2]}) by (vm_compute; reflexivity).
    assert (Hb : row_batch_id <$> owned_test (u "w1") (20 * second) 1 demo_loaded = Some 1)
      by (vm_compute; reflexivity).
    unfold demo_loaded in Hopen, Hb. rewrite E in Hopen, Hb. cbn [snd] in Hopen, Hb.
    destruct (owned_test (u "w1") (20 * second) 1 d1) as [x|]; [|discriminate Hb].
    cbn in Hb. injection Hb as Hb. destruct H as [_ H]. rewrite H. clear H. rewrite Hb.
    case_decide as Hd; [|reflexivity]. rewrite Hopen in Hd.
    assert (H : 2 ∈ ({[1]} : gset Z)) by (rewrite <- Hd; set_solver).
    apply elem_of_singleton in H. discriminate H.
  - discriminate Hok.
Defined.
