(* ===== verification/ObservationTheorems.v ===== *)
(** * What persisting a scan guarantees

    The observations of src/app/services/service_observations.py and the rows
    [add_scan_outcome] writes (src/app/services/scans.py). *)

From S2P Require Import Prelude PyText Models Exceptions Collectors ServiceObservations Scans TaskLeases ScanQueue.

(** ** Observations as a keyed table *)

Definition obs_unique (d : Db) : Prop :=
  map_Forall (fun i o => map_Forall (fun j o' =>
    observation_key o = observation_key o' -> i = j) (observations d)) (observations d).

Record obs_wf (d : Db) : Prop := {
  obs_ids : ids_below (observations d) (next_id d T_observations);
  obs_keys : obs_unique d
}.

(** What a sync may not change. *)
Definition history_tables (d : Db) :=
  (scan_runs d, connection_records d, devices d,
   (next_id d T_scan_runs, next_id d T_connection_records)).

Definition observed (k : service_key) (d : Db) : Prop :=
  exists i o, observations d !! i = Some o /\ observation_key o = k.

Lemma has_observation_spec k d : has_observation k d = true <-> observed k d.
Proof.
  unfold has_observation, observed. rewrite negb_true_iff, bool_decide_eq_false. split.
  - intros [i (o & Hi & Hk)%elem_of_select_ids]%set_choose_L. apply bool_decide_eq_true in Hk. eauto.
  - intros (i & o & Hi & Hk) He. assert (i ∈ (∅ : gset Z)) as []%elem_of_empty.
    rewrite <- He. apply elem_of_select_ids. exists o. by rewrite bool_decide_eq_true.
Qed.

Lemma insert_observation_spec o d :
  obs_wf d ->
  obs_wf (insert_observation o d) /\
  history_tables (insert_observation o d) = history_tables d /\
  observations d ⊆ observations (insert_observation o d) /\
  (forall k, observed k (insert_observation o d) <-> observed k d \/ k = observation_key o) /\
  (forall i o', observations (insert_observation o d) !! i = Some o' ->
     observations d !! i = Some o' \/ (observations d !! i = None /\ o' = o)).
Proof.
  intros [Hids Hu]. pose proof (ids_below_fresh _ _ Hids) as Hfresh. unfold insert_observation.
  destruct (has_observation (observation_key o) d) eqn:Hh.
  - apply has_observation_spec in Hh. split_and!; [done|done|done| |by left].
    intros k. split; [by left|]. by intros [?| ->].
  - assert (Hno : ¬ observed (observation_key o) d) by (rewrite <- has_observation_spec, Hh; done).
    cbn. split_and!; [split; cbn| | | |]; try done.
    + by apply ids_below_insert.
    + intros i x Hi j y Hj E. cbn in Hi, Hj.
      apply lookup_insert_Some in Hi as [[<- <-]|[Hni Hi]], Hj as [[<- <-]|[Hnj Hj]]; [done| | |].
      * destruct Hno. exists j, y. by split.
      * destruct Hno. exists i, x. by split.
      * by apply (Hu i x Hi j y Hj).
    + by apply insert_subseteq.
    + intros k. unfold observed. cbn. split.
      * intros (i & x & Hi & Hk). apply lookup_insert_Some in Hi as [[<- <-]|[_ Hi]]; [by right|left; eauto].
      * intros [(i & x & Hi & Hk)| ->].
        -- exists i, x. rewrite lookup_insert_ne; [done|]. congruence.
        -- eexists _, o. by rewrite lookup_insert_eq.
    + intros i x. intros [[<- <-]|[_ Hi]]%lookup_insert_Some; [right|by left]. by split.
Qed.

(** Inserting several. *)
Lemma insert_all_spec os d :
  obs_wf d ->
  let d' := foldl (fun d o => insert_observation o d) d os in
  obs_wf d' /\ history_tables d' = history_tables d /\ observations d ⊆ observations d' /\
  (forall k, observed k d' <-> observed k d \/ exists o, o ∈ os /\ k = observation_key o) /\
  (forall i o, observations d' !! i = Some o -> observations d !! i = Some o \/
     (observations d !! i = None /\ o ∈ os)).
Proof.
  revert d. induction os as [|o os IH]; intros d Hwf; cbn.
  { split_and!; try done; [|by left]. intros k. split; [by left|]. intros [?|(o & Ho & _)]; [done|].
    by apply elem_of_nil in Ho. }
  destruct (insert_observation_spec o d Hwf) as (Hwf1 & Ht1 & Hs1 & Hk1 & Hi1).
  destruct (IH (insert_observation o d) Hwf1) as (Hwf2 & Ht2 & Hs2 & Hk2 & Hi2).
  split_and!; [done|congruence|by etrans| |].
  - intros k. rewrite Hk2, Hk1. setoid_rewrite elem_of_cons. naive_solver.
  - intros i x Hx. apply Hi2 in Hx as [Hx|[Hn Hx]].
    + apply Hi1 in Hx as [?|[? ->]]; [by left|right]. split; [done|]. by apply list_elem_of_here.
    + destruct (observations d !! i) as [y|] eqn:Hy.
      * rewrite (lookup_weaken _ _ _ _ Hy Hs1) in Hn. done.
      * right. split; [done|]. by apply list_elem_of_further.
Qed.

(** ** The aggregation query *)

Section sync.
Context `{PgAggregates}.

(** A successful scan in the range has a connection record with this key. *)
Definition recorded (lower_id upper_id : Z) (d : Db) (k : service_key) : Prop :=
  exists i r, connection_records d !! i = Some r /\
    in_sync_range lower_id upper_id d r = true /\ record_key r = Some k.

Definition key_rows (rows : list (Z * ConnectionRecord)) (k : service_key) : list (Z * ConnectionRecord) :=
  filter (fun p => of_key k p = true) rows.

Definition sync_observations (lower_id upper_id : Z) (d : Db) : list ConnectionServiceObservation :=
  let rows := sync_records lower_id upper_id d in
  omap (fun k => group_observation d k (key_rows rows k))
    (remove_dups (omap (fun p => record_key p.2) rows)).

Lemma SYNC_SQL_eq lo hi d :
  _SYNC_SQL lo hi d = foldl (fun d o => insert_observation o d) d (sync_observations lo hi d).
Proof.
  unfold _SYNC_SQL, sync_observations. set (rows := sync_records lo hi d). cbv zeta.
  change (fun k => filter (fun p => of_key k p = true) rows) with (key_rows rows).
  generalize (remove_dups (omap (fun p => record_key p.2) rows)) as keys.
  assert (forall keys d',
    foldl (fun d' k => match group_observation d k (key_rows rows k) with
                       | Some o => insert_observation o d' | None => d' end) d' keys =
    foldl (fun d o => insert_observation o d) d' (omap (fun k => group_observation d k (key_rows rows k)) keys))
    as Hgen; [|intros keys; apply Hgen].
  induction keys as [|k keys IH]; intros d'; [done|]. cbn.
  destruct (group_observation d k (key_rows rows k)); cbn; apply IH.
Qed.

Lemma elem_of_sync_records lo hi d i r :
  (i, r) ∈ sync_records lo hi d <->
  connection_records d !! i = Some r /\ in_sync_range lo hi d r = true.
Proof.
  unfold sync_records. rewrite list_elem_of_omap. split.
  - intros (j & Hj & E). apply elem_of_sorted_ids, elem_of_select_ids in Hj as (x & Hx & Hin).
    rewrite Hx in E. cbn in E. by injection E as -> ->.
  - intros [Hi Hin]. exists i. rewrite elem_of_sorted_ids, elem_of_select_ids. split; [eauto|].
    by rewrite Hi.
Qed.

Lemma group_observation_key d k rows o : group_observation d k rows = Some o -> observation_key o = k.
Proof.
  destruct k as [[[[scan proto] ip] port] proc]. cbn. destruct (scan_runs d !! scan); [|done].
  by intros [= <-].
Qed.

Lemma group_observation_Some lo hi d k rows :
  recorded lo hi d k -> is_Some (group_observation d k rows).
Proof.
  intros (i & r & _ & Hin & Hk). unfold in_sync_range in Hin. unfold record_key in Hk.
  destruct (scan_runs d !! conn_scan_run_id r) as [scan|] eqn:Hs; [|done].
  destruct (conn_remote_ip r); [|done]. injection Hk as <-. cbn. rewrite Hs. by eexists.
Qed.

Lemma elem_of_sync_observations lo hi d o :
  o ∈ sync_observations lo hi d <->
  recorded lo hi d (observation_key o) /\
  group_observation d (observation_key o) (key_rows (sync_records lo hi d) (observation_key o)) = Some o.
Proof.
  unfold sync_observations. cbv zeta. rewrite list_elem_of_omap.
  setoid_rewrite elem_of_remove_dups. setoid_rewrite list_elem_of_omap. split.
  - intros (k & ([i r] & Hr & Hk) & Ho). pose proof (group_observation_key _ _ _ _ Ho) as ->.
    apply elem_of_sync_records in Hr as [Hi Hin]. split; [|done]. exists i, r. done.
  - intros ((i & r & Hi & Hin & Hk) & Ho). exists (observation_key o). split; [|done].
    exists (i, r). split; [|done]. by apply elem_of_sync_records.
Qed.

(** The query adds exactly the missing observations of the recorded services. *)
Lemma SYNC_SQL_spec lo hi d :
  obs_wf d ->
  let d' := _SYNC_SQL lo hi d in
  obs_wf d' /\ history_tables d' = history_tables d /\ observations d ⊆ observations d' /\
  (forall k, observed k d' <-> observed k d \/ recorded lo hi d k) /\
  (forall i o, observations d' !! i = Some o -> observations d !! i = Some o \/
     (observations d !! i = None /\
      group_observation d (observation_key o)
        (key_rows (sync_records lo hi d) (observation_key o)) = Some o)).
Proof.
  intros Hwf. cbv zeta. rewrite SYNC_SQL_eq.
  destruct (insert_all_spec (sync_observations lo hi d) d Hwf) as (Hwf' & Ht & Hs & Hk & Hi).
  split_and!; [done..| |].
  - intros k. rewrite Hk. split; (intros [?|Hr]; [by left|right]).
    + destruct Hr as (o & Ho & ->). by apply elem_of_sync_observations in Ho as [? _].
    + destruct (group_observation_Some lo hi d k (key_rows (sync_records lo hi d) k) Hr) as [o Ho].
      pose proof (group_observation_key _ _ _ _ Ho) as <-.
      exists o. split; [|done]. by apply elem_of_sync_observations.
  - intros i o Ho. apply Hi in Ho as [?|[? Ho]]; [by left|right]. split; [done|].
    by apply elem_of_sync_observations in Ho as [_ ?].
Qed.

Lemma recorded_ext lo hi d d' k : history_tables d' = history_tables d -> recorded lo hi d' k <-> recorded lo hi d k.
Proof. intros E. injection E as E1 E2 _ _ _. unfold recorded, in_sync_range. by rewrite E1, E2. Qed.

(** ** The backfill *)

Lemma recorded_split lo mid hi d k :
  lo <= mid -> mid <= hi ->
  recorded lo hi d k <-> recorded lo mid d k \/ recorded mid hi d k.
Proof.
  intros H1 H2.
  assert (Hin : forall r, in_sync_range lo hi d r = true <->
     in_sync_range lo mid d r = true \/ in_sync_range mid hi d r = true).
  { intros r. unfold in_sync_range. destruct (scan_runs d !! conn_scan_run_id r) as [s|]; [|naive_solver].
    rewrite !andb_true_iff, !Z.leb_le, !Z.ltb_lt. split; [|intros [?|?]; destruct_and!; split_and!; try done; lia].
    intros ([[? ?] ?] & ?). destruct (decide (conn_scan_run_id r < mid)); [left|right]; split_and!; try done; lia. }
  unfold recorded. setoid_rewrite Hin. naive_solver.
Qed.

Lemma recorded_empty lo hi d k : hi <= lo -> ¬ recorded lo hi d k.
Proof.
  intros Hle (i & r & _ & Hin & _). unfold in_sync_range in Hin.
  destruct (scan_runs d !! conn_scan_run_id r); [|done]. rewrite !andb_true_iff, Z.leb_le, Z.ltb_lt in Hin. lia.
Qed.

(** With enough fuel for the remaining range the loop returns, and what it observes
    is what one query over the whole range would. *)
Lemma backfill_loop_spec fuel lower max bs d :
  0 < bs -> max + 1 - lower <= Z.of_nat fuel * bs -> obs_wf d ->
  exists d', backfill_loop fuel lower max bs d = Some d' /\
    obs_wf d' /\ history_tables d' = history_tables d /\ observations d ⊆ observations d' /\
    exists upper, lower <= upper /\ max < upper /\
      (forall k, observed k d' <-> observed k d \/ recorded lower upper d k).
Proof.
  revert lower d. induction fuel as [|fuel IH]; intros lower d Hbs Hfuel Hwf; cbn.
  - destruct (Z.leb_spec lower max); [lia|]. exists d. split_and!; try done.
    exists lower. split_and!; [lia|lia|]. intros k. split; [by left|].
    intros [?|Hr]; [done|]. by apply recorded_empty in Hr.
  - destruct (Z.leb_spec lower max) as [Hle|Hgt].
    2:{ exists d. split_and!; try done. exists lower. split_and!; [lia|lia|].
        intros k. split; [by left|]. intros [?|Hr]; [done|]. by apply recorded_empty in Hr. }
    destruct (SYNC_SQL_spec lower (lower + bs) d Hwf) as (Hwf1 & Ht1 & Hs1 & Hk1 & _).
    destruct (IH (lower + bs) (_SYNC_SQL lower (lower + bs) d)) as
      (d' & E & Hwf2 & Ht2 & Hs2 & upper & Hle2 & Hup & Hk2); [lia| |done|].
    { assert (Z.of_nat (S fuel) * bs = Z.of_nat fuel * bs + bs) by lia. lia. }
    exists d'. split_and!; [done..|congruence|by etrans|].
    exists upper. split_and!; [lia|lia|].
    intros k. rewrite Hk2, Hk1, (recorded_ext _ _ _ _ _ Ht1).
    rewrite (recorded_split lower (lower + bs) upper) by lia. tauto.
Qed.
End sync.

Lemma foldl_last_sorted i ids :
  Sorted Z.le (i :: ids) -> forall j, j ∈ i :: ids -> i <= j /\ j <= foldl (fun _ j => j) i ids.
Proof.
  revert i. induction ids as [|k ids IH]; intros i Hs j Hj; cbn.
  - apply list_elem_of_singleton in Hj as ->. lia.
  - apply Sorted_inv in Hs as [Hs Hh%HdRel_inv].
    destruct (IH k Hs k) as [_ Hlast]; [set_solver|].
    apply elem_of_cons in Hj as [->|Hj]; [lia|]. destruct (IH k Hs j Hj). lia.
Qed.

Lemma sorted_ids_Sorted (X : gset Z) : Sorted Z.le (sorted_ids X).
Proof. unfold sorted_ids. apply Sorted_merge_sort. intros x y. lia. Qed.

Lemma scan_id_bounds_spec d i s :
  scan_runs d !! i = Some s -> run_status s = SCAN_SUCCESS ->
  exists mn mx, scan_id_bounds d = Some (mn, mx) /\ mn <= i <= mx.
Proof.
  intros Hi Hs. unfold scan_id_bounds. set (X := select_ids _ _).
  assert (Hin : i ∈ sorted_ids X).
  { apply elem_of_sorted_ids, elem_of_select_ids. exists s. by rewrite bool_decide_eq_true. }
  pose proof (sorted_ids_Sorted X) as Hsort. destruct (sorted_ids X) as [|j ids]; [by apply elem_of_nil in Hin|].
  eexists _, _. split; [done|]. by apply foldl_last_sorted.
Qed.

(** A successful scan, whatever its identifier, has a connection with this key. *)
Definition recorded_any (d : Db) (k : service_key) : Prop :=
  exists i r s, connection_records d !! i = Some r /\ scan_runs d !! conn_scan_run_id r = Some s /\
    run_status s = SCAN_SUCCESS /\ record_key r = Some k.

Section theorems.
Context `{PgAggregates}.

Lemma recorded_any_spec lo hi d k :
  (forall i s, scan_runs d !! i = Some s -> run_status s = SCAN_SUCCESS -> lo <= i < hi) ->
  recorded lo hi d k <-> recorded_any d k.
Proof.
  intros Hb. unfold recorded, recorded_any, in_sync_range. split.
  - intros (i & r & Hi & Hin & Hk). destruct (scan_runs d !! conn_scan_run_id r) as [s|] eqn:Hs; [|done].
    rewrite !andb_true_iff, !bool_decide_eq_true in Hin. destruct_and!. by exists i, r, s.
  - intros (i & r & s & Hi & Hs & Hst & Hk). exists i, r. rewrite Hs. split_and!; try done.
    destruct (Hb _ _ Hs Hst).
    rewrite !andb_true_iff, !bool_decide_eq_true, Z.leb_le, Z.ltb_lt. split_and!; try done.
    unfold record_key in Hk. by destruct (conn_remote_ip r).
Qed.

(** The aggregation query adds one observation for each service key a successful
    scan of the range recorded and that has none yet, with the aggregates of that
    key's records; it keeps every existing observation, never makes two with the
    same key, writes no other table, and running it again changes nothing. *)
Theorem sync_adds_missing_observations lo hi d :
  obs_wf d ->
  let d' := _SYNC_SQL lo hi d in
  obs_wf d' /\ history_tables d' = history_tables d /\ observations d ⊆ observations d' /\
  (forall k, observed k d' <-> observed k d \/ recorded lo hi d k) /\
  (forall i o, observations d' !! i = Some o -> observations d !! i = None ->
     group_observation d (observation_key o)
       (key_rows (sync_records lo hi d) (observation_key o)) = Some o) /\
  _SYNC_SQL lo hi d' = d'.
Proof.
  intros Hwf. cbv zeta. destruct (SYNC_SQL_spec lo hi d Hwf) as (Hwf' & Ht & Hs & Hk & Hi).
  split_and!; [done..| |].
  - intros i o Ho Hn. apply Hi in Ho as [?|[_ ?]]; [congruence|done].
  - rewrite (SYNC_SQL_eq lo hi (_SYNC_SQL lo hi d)).
    assert (Hall : forall o, o ∈ sync_observations lo hi (_SYNC_SQL lo hi d) ->
              observed (observation_key o) (_SYNC_SQL lo hi d)).
    { intros o [Hr _]%elem_of_sync_observations. apply Hk. right. by apply (recorded_ext _ _ _ _ _ Ht) in Hr. }
    revert Hall. generalize (sync_observations lo hi (_SYNC_SQL lo hi d)) as os.
    generalize (_SYNC_SQL lo hi d) as d1. clear. intros d1 os Hall.
    induction os as [|o os IH]; cbn; [done|].
    assert (Ho : has_observation (observation_key o) d1 = true)
      by (apply has_observation_spec, Hall, list_elem_of_here).
    unfold insert_observation at 2. rewrite Ho. apply IH.
    intros o' Ho'. apply Hall. by apply list_elem_of_further.
Qed.

(** The backfill returns and leaves one observation per recorded service key. *)
Lemma backfill_spec fuel bs d :
  obs_wf d -> 0 < bs ->
  (forall mn mx, scan_id_bounds d = Some (mn, mx) -> mx + 1 - mn <= Z.of_nat fuel * bs) ->
  exists d', backfill_service_observations fuel bs d = Some d' /\
    obs_wf d' /\ history_tables d' = history_tables d /\ observations d ⊆ observations d' /\
    (forall k, observed k d' <-> observed k d \/ recorded_any d k).
Proof.
  intros Hwf Hbs Hfuel. unfold backfill_service_observations.
  destruct (scan_id_bounds d) as [[mn mx]|] eqn:E.
  - destruct (backfill_loop_spec fuel mn mx bs d Hbs (Hfuel mn mx eq_refl) Hwf)
      as (d' & -> & Hwf' & Ht & Hs & upper & Hle & Hup & Hk).
    exists d'. split_and!; try done. intros k. rewrite Hk. rewrite (recorded_any_spec mn upper); [done|].
    intros i s Hi Hst. destruct (scan_id_bounds_spec d i s Hi Hst) as (mn' & mx' & E' & Hb).
    rewrite E in E'. injection E' as <- <-. lia.
  - exists d. split_and!; try done. intros k. split; [by left|]. intros [?|Hr]; [done|].
    destruct Hr as (i & r & s & _ & Hs & Hst & _).
    destruct (scan_id_bounds_spec d _ s Hs Hst) as (mn' & mx' & E' & _). congruence.
Qed.

(** C22. The backfill terminates for any positive batch size, given an iteration per
    batch of identifiers, and leaves exactly one observation for every service key a
    successful scan recorded, next to the existing ones: the batch size decides the
    number of queries, never the result. *)
Theorem backfill_complete fuel bs d :
  obs_wf d -> 0 < bs ->
  (forall mn mx, scan_id_bounds d = Some (mn, mx) -> mx + 1 - mn <= Z.of_nat fuel * bs) ->
  exists d', backfill_service_observations fuel bs d = Some d' /\
    obs_wf d' /\ history_tables d' = history_tables d /\ observations d ⊆ observations d' /\
    (forall k, observed k d' <-> observed k d \/ recorded_any d k).
Proof. apply backfill_spec. Qed.
End theorems.

(** ** Persisting one scan *)

Record history_wf (d : Db) : Prop := {
  history_obs : obs_wf d;
  history_runs : ids_below (scan_runs d) (next_id d T_scan_runs);
  history_records : ids_below (connection_records d) (next_id d T_connection_records);
  history_record_run : map_Forall (fun _ r => is_Some (scan_runs d !! conn_scan_run_id r)) (connection_records d);
  history_obs_run : map_Forall (fun _ o => is_Some (scan_runs d !! obs_scan_run_id o)) (observations d)
}.

Definition records_of (run : Z) (d : Db) : list ConnectionRecord :=
  (map_to_list (where_ (fun _ r => conn_scan_run_id r =? run) (connection_records d))).*2.

Lemma where_insert {A} (P : Z -> A -> bool) (m : gmap Z A) i x :
  m !! i = None -> where_ P (<[i := x]> m) = if P i x then <[i := x]> (where_ P m) else where_ P m.
Proof.
  intros Hi. apply map_eq. intros j. apply option_eq. intros y. rewrite lookup_where.
  destruct (P i x) eqn:E.
  - rewrite !lookup_insert_Some, lookup_where. naive_solver.
  - rewrite lookup_insert_Some, lookup_where. split; [|naive_solver].
    intros [[[<- <-]|[_ Hj]] HP]; [congruence|done].
Qed.

Lemma add_records_spec run rows d :
  ids_below (connection_records d) (next_id d T_connection_records) ->
  let d' := foldl (add_connection_record run) d rows in
  ids_below (connection_records d') (next_id d' T_connection_records) /\
  connection_records d ⊆ connection_records d' /\
  records_of run d' ≡ₚ records_of run d ++ (connection_record run <$> rows) /\
  (forall i r, connection_records d' !! i = Some r -> connection_records d !! i = Some r \/
     (exists row, row ∈ rows /\ r = connection_record run row) /\
     next_id d T_connection_records <= i < next_id d T_connection_records + Z.of_nat (length rows)) /\
  scan_runs d' = scan_runs d /\ observations d' = observations d /\ devices d' = devices d /\
  next_id d' T_scan_runs = next_id d T_scan_runs /\ next_id d' T_observations = next_id d T_observations.
Proof.
  revert d. induction rows as [|row rows IH]; intros d Hids; cbn.
  { split_and!; try done; [by rewrite app_nil_r|by left]. }
  pose proof (ids_below_fresh _ _ Hids) as Hfresh.
  destruct (IH (add_connection_record run d row)) as (H1 & H2 & H3 & H4 & H5 & H6 & H7 & H8 & H9);
    [by apply ids_below_insert|].
  split_and!; try done.
  - etrans; [|exact H2]. by apply insert_subseteq.
  - rewrite H3. unfold records_of. cbn. rewrite where_insert by done. cbn. rewrite Z.eqb_refl.
    rewrite map_to_list_insert.
    + cbn. by rewrite Permutation_middle.
    + apply eq_None_not_Some. intros [x [Hx _]%lookup_where]. congruence.
  - intros i r Hr. apply H4 in Hr as [Hr|[(x & Hx & ->) Hi]].
    + cbn in Hr. apply lookup_insert_Some in Hr as [[<- <-]|[_ ?]]; [right|by left].
      cbn [length]. split; [|lia]. exists row. split; [left|done].
    + right. assert (En : next_id (add_connection_record run d row) T_connection_records =
        next_id d T_connection_records + 1) by apply take_id_next.
      rewrite En in Hi. cbn [length]. split; [|lia]. exists x. split; [by right|done].
Qed.

Lemma elem_of_records_of run d r :
  r ∈ records_of run d <-> exists i, connection_records d !! i = Some r /\ conn_scan_run_id r = run.
Proof.
  unfold records_of. rewrite list_elem_of_fmap. split.
  - intros ([i x] & -> & Hx). apply elem_of_map_to_list, lookup_where in Hx as [? ?%Z.eqb_eq]. eauto.
  - intros (i & Hi & Hr). exists (i, r). split; [done|]. apply elem_of_map_to_list, lookup_where.
    by rewrite Z.eqb_eq.
Qed.

Section outcome.
Context `{UnicodeCase, PgAggregates}.

Definition kept (o : ScanOutcome) : list NormalizedConnection :=
  filter (fun row => keep_connection_record row = true) (outcome_connections o).

Lemma recorded_run run st o d s k :
  scan_runs d !! run = Some s -> run_status s = st ->
  records_of run d ≡ₚ (connection_record run <$> kept o) ->
  recorded run (run + 1) d k <->
  st = SCAN_SUCCESS /\ exists row, row ∈ kept o /\ record_key (connection_record run row) = Some k.
Proof.
  intros Hrun Hst Hrec. unfold recorded, in_sync_range. split.
  - intros (i & r & Hi & Hin & Hk). destruct (scan_runs d !! conn_scan_run_id r) as [s'|] eqn:Hs; [|done].
    rewrite !andb_true_iff, !bool_decide_eq_true, Z.leb_le, Z.ltb_lt in Hin. destruct_and!.
    assert (conn_scan_run_id r = run) as Hr by lia. rewrite Hr in Hs. simplify_eq. split; [done|].
    assert (Hin : r ∈ records_of (conn_scan_run_id r) d) by (apply elem_of_records_of; eauto).
    rewrite Hrec in Hin. apply list_elem_of_fmap in Hin as (row & Hrow & Hin). exists row.
    split; [done|]. by rewrite <- Hrow.
  - intros [Hs (row & Hrow & Hk)].
    assert (Hin : connection_record run row ∈ records_of run d)
      by (rewrite Hrec; by apply list_elem_of_fmap_2).
    apply elem_of_records_of in Hin as (i & Hi & _). exists i, (connection_record run row).
    split; [done|]. split; [|done]. cbn. rewrite Hrun.
    rewrite !andb_true_iff, !bool_decide_eq_true, Z.leb_le, Z.ltb_lt. split_and!; [lia|lia|congruence|].
    unfold record_key in Hk. cbn in Hk. by destruct (nc_remote_ip row).
Qed.

(** Both read the runs and the records only. *)
Lemma sync_records_ext lo hi d d' :
  scan_runs d' = scan_runs d -> connection_records d' = connection_records d -> sync_records lo hi d' = sync_records lo hi d.
Proof. intros E1 E2. unfold sync_records, in_sync_range. by rewrite E1, E2. Qed.

Lemma group_observation_ext d d' k rows :
  scan_runs d' = scan_runs d -> group_observation d' k rows = group_observation d k rows.
Proof. intros E. unfold group_observation. by rewrite E. Qed.

(** An observation that is what the query computes for its scan. *)
Definition synchronized (run : Z) (d : Db) (x : ConnectionServiceObservation) : Prop :=
  obs_scan_run_id x = run /\
  recorded run (run + 1) d (observation_key x) /\
  group_observation d (observation_key x) (key_rows (sync_records run (run + 1) d) (observation_key x)) = Some x.

Lemma synchronized_ext run d d' x :
  scan_runs d' = scan_runs d -> connection_records d' = connection_records d -> synchronized run d x -> synchronized run d' x.
Proof.
  intros E1 E2 (Hr & Hk & Hg). unfold synchronized, recorded, in_sync_range.
  by rewrite (sync_records_ext _ _ _ _ E1 E2), (group_observation_ext _ _ _ _ E1), E1, E2.
Qed.

Lemma SYNC_SQL_new run d i x :
  obs_wf d -> observations (_SYNC_SQL run (run + 1) d) !! i = Some x -> observations d !! i = None -> synchronized run d x.
Proof.
  intros Hwf Hx Hn. rewrite SYNC_SQL_eq in Hx.
  destruct (insert_all_spec (sync_observations run (run + 1) d) d Hwf) as (_ & _ & _ & _ & Hi).
  apply Hi in Hx as [Hx|[_ Hx]]; [congruence|]. apply elem_of_sync_observations in Hx as [Hr Hg].
  split_and!; [|done..]. destruct Hr as (j & r & _ & Hin & Hk). unfold in_sync_range in Hin.
  destruct (scan_runs d !! conn_scan_run_id r); [|done]. rewrite !andb_true_iff, Z.leb_le, Z.ltb_lt in Hin.
  unfold record_key in Hk. destruct (conn_remote_ip r); [|done]. injection Hk as Hk _ _ _ _. lia.
Qed.

Lemma sync_service_observations_spec run st o d s :
  obs_wf d -> map_Forall (fun _ o => is_Some (scan_runs d !! obs_scan_run_id o)) (observations d) ->
  scan_runs d !! run = Some s -> run_status s = st ->
  records_of run d ≡ₚ (connection_record run <$> kept o) ->
  let d' := sync_service_observations run st d in
  obs_wf d' /\ history_tables d' = history_tables d /\ observations d ⊆ observations d' /\
  map_Forall (fun _ o => is_Some (scan_runs d !! obs_scan_run_id o)) (observations d') /\
  (forall k, observed k d' <-> observed k d \/
     st = SCAN_SUCCESS /\ exists row, row ∈ kept o /\ record_key (connection_record run row) = Some k) /\
  (forall i x, observations d' !! i = Some x -> observations d !! i = Some x \/
     st = SCAN_SUCCESS /\ synchronized run d x).
Proof.
  intros Hwf Hor Hrun Hst Hrec. cbv zeta. unfold sync_service_observations. case_decide as Hs.
  - destruct (SYNC_SQL_spec run (run + 1) d Hwf) as (Hwf' & Ht & Hsub & Hk & Hi). split_and!; try done.
    + intros i x Hx. apply Hi in Hx as [Hx|[_ Hg]]; [by apply (Hor i)|].
      unfold observation_key in Hg. cbn in Hg. by destruct (scan_runs d !! obs_scan_run_id x).
    + intros k. rewrite Hk. by rewrite (recorded_run run st o d s k Hrun Hst Hrec).
    + intros i x Hx. destruct (observations d !! i) as [y|] eqn:Ho; [left|right].
      * rewrite (lookup_weaken _ _ _ _ Ho Hsub) in Hx. done.
      * split; [done|]. by apply (SYNC_SQL_new run d i x Hwf).
  - split_and!; try done; [|by left]. intros k. split; [by left|]. by intros [?|[? _]].
Qed.

(** *** The rows of the run *)

Lemma persisted_rows o d :
  history_wf d ->
  let run := next_id d T_scan_runs in
  let d1 := (take_id T_scan_runs d).2 <| scan_runs := <[run := outcome_run o (kept o)]> (scan_runs d) |> in
  let d2 := foldl (add_connection_record run) d1 (kept o) in
  scan_runs d !! run = None /\ scan_runs d2 = <[run := outcome_run o (kept o)]> (scan_runs d) /\
  next_id d2 T_scan_runs = run + 1 /\ next_id d2 T_observations = next_id d T_observations /\
  ids_below (connection_records d2) (next_id d2 T_connection_records) /\
  connection_records d ⊆ connection_records d2 /\ records_of run d2 ≡ₚ (connection_record run <$> kept o) /\
  (forall i r, connection_records d2 !! i = Some r -> connection_records d !! i = Some r \/
     (exists row, row ∈ kept o /\ r = connection_record run row) /\
     next_id d T_connection_records <= i < next_id d T_connection_records + Z.of_nat (length (kept o))) /\
  observations d2 = observations d /\ devices d2 = devices d /\ obs_wf d2 /\
  map_Forall (fun _ x => is_Some (scan_runs d2 !! obs_scan_run_id x)) (observations d2).
Proof.
  intros [[Hoi Hou] Hruns Hrecs Hrr Hor] run d1. pose proof (ids_below_fresh _ _ Hruns) as Hfresh.
  destruct (add_records_spec run (kept o) d1 Hrecs) as (R1 & R2 & R3 & R4 & R5 & R6 & R7 & R8 & R9).
  assert (Hnone : records_of run d1 = []).
  { destruct (records_of run d1) as [|r l] eqn:E; [done|].
    assert (Hin : r ∈ records_of run d1) by (rewrite E; apply list_elem_of_here).
    apply elem_of_records_of in Hin as (i & Hi & Hr).
    destruct (Hrr i r Hi) as [s Hs]. rewrite Hr in Hs. unfold run in Hs. congruence. }
  rewrite Hnone in R3. cbn [app] in R3. cbv zeta. set (d2 := foldl (add_connection_record run) d1 (kept o)) in *.
  split; [done|]. split; [exact R5|]. split; [rewrite R8; apply take_id_next|].
  split; [rewrite R9; by apply (take_id_next_ne T_scan_runs)|]. split_and!; [exact R1|exact R2|exact R3|exact R4|exact R6|exact R7| |].
  - constructor; [rewrite R6, R9; exact Hoi|]. unfold obs_unique. rewrite R6. exact Hou.
  - rewrite R6, R5. eapply map_Forall_impl; [exact Hor|]. cbn. intros i x ?.
    destruct (decide (run = obs_scan_run_id x)) as [<-|]; [rewrite lookup_insert_eq; by eexists|].
    by rewrite lookup_insert_ne.
Qed.

Lemma add_scan_outcome_spec wall o d device :
  history_wf d -> devices d !! outcome_device_id o = Some device ->
  let run := next_id d T_scan_runs in
  exists d', add_scan_outcome wall o d = Ok (run, d') /\
    history_wf d' /\ scan_runs d !! run = None /\
    scan_runs d' = <[run := outcome_run o (kept o)]> (scan_runs d) /\
    records_of run d' ≡ₚ (connection_record run <$> kept o) /\
    connection_records d ⊆ connection_records d' /\ observations d ⊆ observations d' /\
    (forall k, observed k d' <-> observed k d \/ outcome_status o = SCAN_SUCCESS /\
       exists row, row ∈ kept o /\ record_key (connection_record run row) = Some k) /\
    devices d' = <[outcome_device_id o := device
       <| device_last_scan_status := Some (outcome_status o) |>
       <| device_last_scan_at := Some (outcome_finished_at o) |>
       <| device_updated_at := wall |>]> (devices d) /\
    (forall i r, connection_records d' !! i = Some r -> connection_records d !! i = Some r \/
       (exists row, row ∈ kept o /\ r = connection_record run row) /\
       next_id d T_connection_records <= i < next_id d T_connection_records + Z.of_nat (length (kept o))) /\
    (forall i x, observations d' !! i = Some x -> observations d !! i = Some x \/
       outcome_status o = SCAN_SUCCESS /\ synchronized run d' x).
Proof.
  intros Hwf Hdev run. destruct (persisted_rows o d Hwf) as (Hfresh & R5 & R8 & R9 & R1 & R2 & R3 & R4 & R6 & R7 & S1 & S0).
  fold run in Hfresh, R5, R8, R3, R4, R7, S1, S0, R1, R2, R6, R9. unfold add_scan_outcome. rewrite Hdev. fold (kept o). cbn.
  fold run. set (d1 := (take_id T_scan_runs d).2 <| scan_runs := <[run := outcome_run o (kept o)]> (scan_runs d) |>) in *.
  set (d2 := foldl (add_connection_record run) d1 (kept o)) in *.
  assert (Hrun2 : scan_runs d2 !! run = Some (outcome_run o (kept o))) by (rewrite R5; apply lookup_insert_eq).
  destruct (sync_service_observations_spec run (outcome_status o) o d2 (outcome_run o (kept o)) S1 S0 Hrun2 eq_refl R3)
    as (W & S2 & S3 & S4 & S5 & Snew).
  set (d3 := sync_service_observations run (outcome_status o) d2) in *. injection S2 as S2 S6 S7 S8 S9.
  exists (d3 <| devices := alter (fun device => device
            <| device_last_scan_status := Some (outcome_status o) |>
            <| device_last_scan_at := Some (outcome_finished_at o) |>
            <| device_updated_at := wall |>) (outcome_device_id o) (devices d3) |>).
  split; [done|]. destruct Hwf as [_ Hruns Hrecs Hrr _]. clearbody d3 d2. cbn.
  split; [constructor; cbn; rewrite ?S6, ?S2, ?R5|].
  - by destruct W; constructor.
  - rewrite S8, R8. by apply ids_below_insert.
  - by rewrite S9.
  - intros i r Hr. cbn. apply R4 in Hr as [Hr|[(row & _ & ->) _]]; [|rewrite lookup_insert_eq; by eexists].
    destruct (Hrr i r Hr) as [s Hs]. rewrite lookup_insert_is_Some.
    destruct (decide (run = conn_scan_run_id r)); [by left|right]. split; [done|by eexists].
  - by rewrite <- R5.
  - unfold records_of in *. cbn. rewrite S2, R5, S6. split_and!; try done; [by rewrite <- R6| | |].
    + intros k. specialize (S5 k). unfold observed in *. cbn. rewrite S5. by rewrite R6.
    + rewrite S7, R7. cbn. apply map_eq. intros i. destruct (decide (outcome_device_id o = i)) as [<-|].
      * by rewrite lookup_alter_eq, lookup_insert_eq, Hdev.
      * by rewrite lookup_alter_ne, lookup_insert_ne.
    + intros i x Hx. apply Snew in Hx as [Hx|[? Hx]]; [left; by rewrite <- R6|right]. split; [done|].
      by apply (synchronized_ext run d2).
Qed.

(** C21. Persisting a scan outcome: without the device it raises [DeviceNotFound] and
    nothing is written; otherwise, under a new run identifier, it records the run
    with the number of kept connections, exactly the kept connections as records
    of the run, one observation per service key of those connections if the scan
    succeeded (none if it failed), and the status and time on the device; earlier
    runs, records and observations stay as they are. *)
Theorem scan_outcome_recorded wall o d :
  history_wf d ->
  match devices d !! outcome_device_id o with
  | None => commit (add_scan_outcome wall o) d = (Raise (DeviceNotFound (outcome_device_id o)), d)
  | Some device => exists run d', add_scan_outcome wall o d = Ok (run, d') /\
      history_wf d' /\ scan_runs d !! run = None /\
      scan_runs d' = <[run := outcome_run o (kept o)]> (scan_runs d) /\
      records_of run d' ≡ₚ (connection_record run <$> kept o) /\
      connection_records d ⊆ connection_records d' /\ observations d ⊆ observations d' /\
      (forall k, observed k d' <-> observed k d \/ outcome_status o = SCAN_SUCCESS /\
         exists row, row ∈ kept o /\ record_key (connection_record run row) = Some k) /\
      devices d' = <[outcome_device_id o := device
         <| device_last_scan_status := Some (outcome_status o) |>
         <| device_last_scan_at := Some (outcome_finished_at o) |>
         <| device_updated_at := wall |>]> (devices d)
  end.
Proof.
  intros Hwf. destruct (devices d !! outcome_device_id o) as [device|] eqn:Hdev.
  - destruct (add_scan_outcome_spec wall o d device Hwf Hdev) as (d' & E & H1 & H2 & H3 & H4 & H5 & H6 & H7 & H8 & _).
    exists (next_id d T_scan_runs), d'. done.
  - unfold commit, add_scan_outcome. by rewrite Hdev.
Qed.
End outcome.

(** ** On a concrete history: one successful scan with two connections of a service *)

Definition hist_device : Device :=
  mkDevice (u "edge-1") (u "10.0.0.1") LINUX 22 (u "root") (u "token") None 60 true true
    None None None 0 0.

Definition hist_empty : Db := empty_db <| devices := {[1 := hist_device]} |>.

Definition hist_row (lport : Z) (state : text) : NormalizedConnection :=
  mkConnection (u "tcp") (u "ipv4") (u "10.0.0.1") lport (Some (u "10.0.0.2")) (Some 443) (Some state)
    (Some 7) (Some (u "curl")).

Definition hist_outcome : ScanOutcome :=
  mkScanOutcome 1 TRIGGER_MANUAL SCAN_SUCCESS 10 20
    [hist_row 4001 (u "ESTAB"); hist_row 4002 (u "estab"); hist_row 4003 (u "TIME-WAIT")] None None None.

Definition hist_scanned : Db :=
  (commit (@add_scan_outcome ascii_only first_occurrences 30 hist_outcome) hist_empty).2.

(** The same history before the observations table was filled. *)
Definition hist_unobserved : Db := hist_scanned <| observations := ∅ |>.

Lemma hist_unobserved_wf : obs_wf hist_unobserved.
Proof. split; intros i o Hi; cbn in Hi; by apply lookup_empty_Some in Hi. Qed.

Definition hist_key : service_key := (1, u "tcp", u "10.0.0.2", 443, u "curl").

Lemma sync_adds_missing_observations_witness :
  observed hist_key (@_SYNC_SQL first_occurrences 1 2 hist_unobserved).
Proof.
  destruct (@sync_adds_missing_observations first_occurrences 1 2 hist_unobserved hist_unobserved_wf)
    as (_ & _ & _ & H & _).
  apply H. right. exists 1. eexists. split; [vm_compute; reflexivity|].
  split; vm_compute; reflexivity.
Defined.

Lemma backfill_complete_witness :
  exists d', @backfill_service_observations first_occurrences 3 1 hist_unobserved = Some d' /\
    observed hist_key d'.
Proof.
  destruct (@backfill_complete first_occurrences 3 1 hist_unobserved hist_unobserved_wf)
    as (d' & E & _ & _ & _ & H).
  - reflexivity.
  - intros mn mx Hb. vm_compute in Hb. injection Hb as <- <-. vm_compute. discriminate.
  - exists d'. split; [exact E|]. apply H. right. exists 1. eexists _, _.
    split; [vm_compute; reflexivity|]. split; [vm_compute; reflexivity|]. split; vm_compute; reflexivity.
Defined.

Lemma hist_empty_wf : history_wf hist_empty.
Proof. repeat split; intros i x Hi; cbn in Hi; by apply lookup_empty_Some in Hi. Qed.

Lemma scan_outcome_recorded_witness :
  exists run d', @add_scan_outcome ascii_only first_occurrences 30 hist_outcome hist_empty = Ok (run, d') /\
    records_of run d' ≡ₚ
      [connection_record run (hist_row 4001 (u "ESTAB")); connection_record run (hist_row 4002 (u "estab"))].
Proof.
  pose proof (@scan_outcome_recorded ascii_only first_occurrences 30 hist_outcome hist_empty hist_empty_wf) as H.
  assert (Hd : devices hist_empty !! outcome_device_id hist_outcome = Some hist_device) by reflexivity.
  rewrite Hd in H. destruct H as (run & d' & E & _ & _ & _ & H & _).
  exists run, d'. split; [exact E|exact H].
Defined.
