(* ===== verification/CollectTheorems.v ===== *)
(** * What collecting guarantees

    [ScanService.collect] (src/app/services/scans.py) and the error messages it
    stores (src/app/security.py). *)

From S2P Require Import Prelude PyText Models Exceptions Security Collectors ServiceObservations Scans.

Section collect.
Context (decrypt : text -> result exn text) (collectors : OSType -> Collector).

(** An outcome of a scan of [device_id]: either a success with what the collector
    returned, or a failure with a bounded message and no connection. *)
Definition well_formed_outcome (target : ScanTarget) (trigger : ScanTrigger) (o : ScanOutcome) : Prop :=
  outcome_device_id o = target_device_id target /\ outcome_trigger o = trigger /\
  match outcome_status o with
  | SCAN_SUCCESS =>
      outcome_error_code o = None /\ outcome_error_message o = None /\
      exists password res, decrypt (target_encrypted_password target) = Ok password /\
        collector_collect (collectors (target_os_type target))
          (mkSpec (target_host target) (target_port target) (target_username target)
             (Some (target_device_id target))) password = Ok res /\
        outcome_connections o = collected_connections res /\
        outcome_warning_message o = collected_warning res
  | SCAN_FAILED =>
      outcome_connections o = [] /\ is_Some (outcome_error_code o) /\
      exists message, outcome_error_message o = Some message /\ (length message <= 500)%nat /\
        forall password, decrypt (target_encrypted_password target) = Ok password ->
          hidden_secret password = true -> contains password message = false
  | SCAN_RUNNING => False
  end.

Lemma failed_outcome_wf target trigger s f code e password :
  (forall pw, decrypt (target_encrypted_password target) = Ok pw -> pw = password) ->
  well_formed_outcome target trigger
    (failed_outcome (target_device_id target) trigger s f code (safe_error_message (exn_message e) [password])).
Proof.
  intros Hp. do 2 (split; [done|]). split; [done|]. split; [by eexists|].
  eexists. split; [done|]. split; [apply safe_error_message_length|].
  intros pw ->%Hp Hh. by apply safe_error_message_hides.
Qed.

(** Collecting never lets a collector's or the cipher's exception escape: it is
    refused only when the device is being scanned, is unknown or has collection
    disabled; otherwise there is an outcome, a success exactly as the collector
    reported it, or a failure without connections whose message has at most 500
    characters and does not contain the password (for passwords that do not start
    like "[REDACTED]" and have no opening bracket). *)
Theorem collect_always_reports held d dev trigger started finished :
  match collect decrypt collectors held d dev trigger started finished with
  | Raise e =>
      (dev ∈ held /\ e = ScanAlreadyRunning) \/
      (devices d !! dev = None /\ e = DeviceNotFound dev) \/
      (exists device, devices d !! dev = Some device /\ device_collection_enabled device = false /\
         e = CollectionDisabled)
  | Ok o => (dev ∉ held) /\ exists target, _load_target dev d = Ok target /\ target_device_id target = dev /\
      well_formed_outcome target trigger o
  end.
Proof.
  unfold collect, lock_for. case_decide as Hheld; [by left|].
  destruct (_load_target dev d) as [target|e] eqn:E; cbn.
  2:{ right. unfold _load_target in E. destruct (devices d !! dev) as [device|] eqn:Hd.
      - right. exists device. destruct (device_collection_enabled device) eqn:Hen; [done|].
        cbn in E. by injection E as <-.
      - left. by injection E as <-. }
  split; [done|]. exists target. split; [done|].
  assert (target_device_id target = dev) as Hdev.
  { unfold _load_target in E. destruct (devices d !! dev) as [device|]; [|done].
    destruct (device_collection_enabled device); [|done]. by injection E as <-. }
  split; [done|]. unfold collect_target.
  destruct (decrypt (target_encrypted_password target)) as [password|e] eqn:Hp.
  - destruct (collector_collect _ _ _) as [res|e] eqn:Hc.
    + split; [by cbn|]. split; [done|]. cbn. split; [done|]. split; [done|]. by exists password, res.
    + rewrite <- Hdev. destruct e; (apply failed_outcome_wf; intros pw Hpw; congruence).
  - rewrite <- Hdev. destruct e; (apply failed_outcome_wf; intros pw Hpw; congruence).
Qed.
End collect.

(** The redaction does not hide every secret: when the secret occurs in
    "[REDACTED]" itself, replacing it writes it back, once for each occurrence, and
    a secret that begins inside the marker can be completed by the following text. *)
Theorem redaction_can_reveal :
  contains (u "ACT") (safe_error_message (u "login ACT refused") [u "ACT"]) = true /\
  contains (u "]x") (safe_error_message (u "bad ]xx token") [u "]x"]) = true.
Proof. split; vm_compute; reflexivity. Qed.
