(* ===== verification/Resolver.v ===== *)
(** * Device hosts and their addresses (src/app/services/topology.py)

    [HostAddressResolver]: a host that is an address stands for itself, any other is
    looked up and the answer kept for a while.  The lookup happens outside the lock, so
    the class is modelled twice: one call at a time ([resolve_at]), and as threads whose
    two locked sections interleave ([resolver_step]).  The graph uses the interface
    [Resolver], which a resolver implements while the name service keeps its answers. *)

From S2P Require Import Prelude PyText Exceptions IpAddress Addresses.

(** What [socket.getaddrinfo] does: addresses, [OSError], or another exception (a host
    that has no IDNA encoding is a [UnicodeError]). *)
Inductive Lookup := Found (addresses : list text) | Unresolved | LookupFailed (e : exn).

Definition numeric (address : text) : Prop := is_Some (ip_address address).

#[export] Instance numeric_dec address : Decision (numeric address).
Proof. unfold numeric. apply _. Defined.

(** The addresses of an answer that are addresses. *)
Definition answer_addresses (addresses : list text) : gset text :=
  list_to_set (filter numeric (_normalize_ip_address_uncached <$> addresses)).

Definition answered (r : Lookup) : result exn (gset text) :=
  match r with
  | Found addresses => Ok (answer_addresses addresses)
  | Unresolved => Ok ∅
  | LookupFailed e => Raise e
  end.

(** ** The class *)

(** Lower-cased host to the time of the call that looked it up, and its answer. *)
Abbreviation ResolverCache := (gmap text (Z * gset text)) (only parsing).

Section resolver.
Context `{UnicodeCase} (ttl : Z).

(** The first locked section. *)
Definition cached_answer (now : Z) (host : text) (cache : ResolverCache) : option (gset text) :=
  match cache !! lower host with
  | Some (at_, addresses) => if now - at_ <? ttl then Some addresses else None
  | None => None
  end.

(** The second one. *)
Definition store_answer (now : Z) (host : text) (addresses : gset text) (cache : ResolverCache) : ResolverCache :=
  <[lower host := (now, addresses)]> cache.

Definition literal (host : text) : option text :=
  let normalized_host := _normalize_ip_address_uncached host in
  if decide (numeric normalized_host) then Some normalized_host else None.

(** [HostAddressResolver.resolve] *)
Definition resolve_at (now : Z) (getaddrinfo : text -> Lookup) (host : text) (cache : ResolverCache) :
    result exn (gset text) * ResolverCache :=
  match literal host with
  | Some address => (Ok {[address]}, cache)
  | None =>
      match cached_answer now host cache with
      | Some addresses => (Ok addresses, cache)
      | None =>
          match answered (getaddrinfo host) with
          | Ok addresses => (Ok addresses, store_answer now host addresses cache)
          | Raise e => (Raise e, cache)
          end
      end
  end.

(** *** Threads *)

(** [looking] are the calls between the two locked sections, with their host and start;
    [answers] the returned calls, with host, start, end and answer; [lookups] the
    finished lookups, with key, start of the call and answer. *)
Record ResolverState := mkResolver {
  rs_clock : Z;
  rs_cache : ResolverCache;
  rs_looking : gmap Z (text * Z);
  rs_answers : list (text * Z * Z * gset text);
  rs_lookups : list (text * Z * gset text)
}.

Inductive resolver_event :=
| R_call (thread : Z) (host : text)
| R_lookup (thread : Z) (r : Lookup)
| R_tick (d : Z).

Definition return_answer (host : text) (start : Z) (addresses : gset text) (s : ResolverState) : ResolverState :=
  mkResolver (rs_clock s) (rs_cache s) (rs_looking s)
    ((host, start, rs_clock s, addresses) :: rs_answers s) (rs_lookups s).

Definition resolver_step (ev : resolver_event) (s : ResolverState) : option ResolverState :=
  match ev with
  | R_call thread host =>
      match rs_looking s !! thread, literal host with
      | Some _, _ => None
      | None, Some address => Some (return_answer host (rs_clock s) {[address]} s)
      | None, None =>
          match cached_answer (rs_clock s) host (rs_cache s) with
          | Some addresses => Some (return_answer host (rs_clock s) addresses s)
          | None => Some (mkResolver (rs_clock s) (rs_cache s)
                            (<[thread := (host, rs_clock s)]> (rs_looking s)) (rs_answers s) (rs_lookups s))
          end
      end
  | R_lookup thread r =>
      match rs_looking s !! thread with
      | None => None
      | Some (host, start) =>
          let s := mkResolver (rs_clock s) (rs_cache s) (delete thread (rs_looking s)) (rs_answers s) (rs_lookups s) in
          match answered r with
          | Ok addresses =>
              Some (return_answer host start addresses
                (mkResolver (rs_clock s) (store_answer start host addresses (rs_cache s)) (rs_looking s)
                   (rs_answers s) ((lower host, start, addresses) :: rs_lookups s)))
          | Raise _ => Some s
          end
      end
  | R_tick d => if d <? 0 then None
                else Some (mkResolver (rs_clock s + d) (rs_cache s) (rs_looking s) (rs_answers s) (rs_lookups s))
  end.

Fixpoint resolver_run (evs : list resolver_event) (s : ResolverState) : option ResolverState :=
  match evs with
  | [] => Some s
  | ev :: evs => match resolver_step ev s with Some s' => resolver_run evs s' | None => None end
  end.

Definition new_resolver (now : Z) : ResolverState := mkResolver now ∅ ∅ [] [].
End resolver.

(** ** The interface of the graph *)

(** The addresses of a host, during one request. *)
Class Resolver := resolve : text -> result exn (gset text).

Definition canonical_address (a : text) : Prop := exists i, canonical_ip i /\ a = text_of_ip i.

Class ResolverLaws `{Resolver} : Prop :=
  resolve_canonical host xs a : resolve host = Ok xs -> a ∈ xs -> canonical_address a.

(** What a resolver answers while the name service answers [getaddrinfo]. *)
Definition name_service (getaddrinfo : text -> Lookup) : Resolver := fun host =>
  match literal host with Some address => Ok {[address]} | None => answered (getaddrinfo host) end.

(** ** Answers are addresses *)

Lemma numeric_canonical x :
  numeric (_normalize_ip_address_uncached x) -> canonical_address (_normalize_ip_address_uncached x).
Proof.
  intros [a Ha]. rewrite normalize_denoted in Ha |- *. destruct (denoted x) as [i|] eqn:E.
  - exists i. split; [by eapply denoted_canonical|done].
  - apply parsed_denoted in Ha as [b Hb]. congruence.
Qed.

Lemma canonical_address_normalize a : canonical_address a -> _normalize_ip_address_uncached a = a.
Proof. intros (i & Hi & ->). by apply normalize_text_of_ip. Qed.

Lemma answer_canonical xs a : a ∈ answer_addresses xs -> canonical_address a.
Proof.
  unfold answer_addresses. rewrite elem_of_list_to_set, list_elem_of_filter. intros [Hn (x & -> & _)%list_elem_of_fmap].
  by apply numeric_canonical.
Qed.

Lemma literal_canonical host a : literal host = Some a -> canonical_address a.
Proof. unfold literal. case_decide as Hn; [|done]. intros [= <-]. by apply numeric_canonical. Qed.

#[export] Instance name_service_laws getaddrinfo : @ResolverLaws (name_service getaddrinfo).
Proof.
  intros host xs a. unfold resolve, name_service. destruct (literal host) as [b|] eqn:El.
  - intros [= <-] ->%elem_of_singleton. by eapply literal_canonical.
  - destruct (getaddrinfo host) as [ys| |e]; cbn; [|intros [= <-]; set_solver|done].
    intros [= <-]. apply answer_canonical.
Qed.

(** ** Answers are fresh, whatever the interleaving *)

Section fresh.
Context `{UnicodeCase} (ttl : Z).

(** What justifies an answer: the host is the address, or a finished lookup of the host
    (up to case) that began at most a time to live before the call. *)
Definition justified (lookups : list (text * Z * gset text)) (p : text * Z * Z * gset text) : Prop :=
  let '(host, start, stop, addresses) := p in
  start <= stop /\
  match literal host with
  | Some a => addresses = {[a]}
  | None => exists looked_up, (lower host, looked_up, addresses) ∈ lookups /\ looked_up <= start /\ (start - looked_up < ttl \/ looked_up = start)
  end.

Record resolver_inv (s : ResolverState) : Prop := {
  ri_cache : forall k t xs, rs_cache s !! k = Some (t, xs) -> (k, t, xs) ∈ rs_lookups s /\ t <= rs_clock s;
  ri_looking : forall thread host start, rs_looking s !! thread = Some (host, start) -> start <= rs_clock s /\ literal host = None;
  ri_answers : Forall (justified (rs_lookups s)) (rs_answers s);
  ri_lookups : forall k t xs, (k, t, xs) ∈ rs_lookups s -> t <= rs_clock s /\ forall a, a ∈ xs -> canonical_address a
}.

Lemma justified_more p q lookups : justified lookups p -> justified (q :: lookups) p.
Proof.
  destruct p as [[[host start] stop] xs]. intros [Hle Hj]. split; [done|].
  destruct (literal host); [done|]. destruct Hj as (t & Hin & Ht). exists t. split; [by right|done].
Qed.

Lemma resolver_step_inv ev s s' : resolver_step ttl ev s = Some s' -> resolver_inv s -> resolver_inv s'.
Proof.
  intros E [Hc Hl Ha Hk]. destruct ev as [thread host|thread r|d]; cbn [resolver_step] in E.
  - destruct (rs_looking s !! thread) eqn:Et; [done|]. destruct (literal host) as [a|] eqn:El.
    { injection E as <-. constructor; [done|done| |done]. constructor; [|done]. cbn. rewrite El. split; [lia|done]. }
    destruct (cached_answer ttl (rs_clock s) host (rs_cache s)) as [xs|] eqn:Ec; injection E as <-; constructor; try done; cbn.
    + constructor; [|done]. cbn. rewrite El. split; [lia|]. unfold cached_answer in Ec.
      destruct (rs_cache s !! lower host) as [[t ys]|] eqn:Ek; [|done]. destruct (Z.ltb_spec (rs_clock s - t) ttl); [|done].
      injection Ec as ->. apply Hc in Ek as [Hin Ht]. exists t. split_and!; [done|done|by left].
    + intros th h st [[_ [= <- <-]]|[_ Hth]]%lookup_insert_Some; [split; [lia|done]|by apply (Hl th)].
  - destruct (rs_looking s !! thread) as [[host start]|] eqn:Et; [|done]. destruct (Hl _ _ _ Et) as [Hst El].
    destruct (answered r) as [xs|e] eqn:Er; injection E as <-; cbn.
    + constructor; cbn.
      * unfold store_answer. intros k t ys [[<- [= <- <-]]|[_ Hk']]%lookup_insert_Some; [split; [left|done]|].
        apply Hc in Hk' as [Hin Ht]. split; [by right|done].
      * intros th h st [_ Hth]%lookup_delete_Some. by apply (Hl th).
      * constructor; [|eapply Forall_impl; [exact Ha|]; intros p; apply justified_more]. cbn. rewrite El.
        split; [done|]. exists start. split_and!; [left|done|by right].
      * intros k t ys [[= -> -> ->]|Hin]%elem_of_cons; [|by apply (Hk k)]. split; [done|].
        destruct r as [zs| |]; cbn in Er; [injection Er as <-; intros a; apply answer_canonical|injection Er as <-; set_solver|done].
    + constructor; cbn; [done| |done|done]. intros th h st [_ Hth]%lookup_delete_Some. by apply (Hl th).
  - destruct (Z.ltb_spec d 0); [done|]. injection E as <-. constructor; cbn; [| |done|].
    + intros k t xs Hx. destruct (Hc k t xs Hx). split; [done|lia].
    + intros th h st Hth. destruct (Hl th h st Hth). split; [lia|done].
    + intros k t xs Hx. destruct (Hk k t xs Hx). split; [lia|done].
Qed.

Lemma resolver_run_inv evs s s' : resolver_run ttl evs s = Some s' -> resolver_inv s -> resolver_inv s'.
Proof.
  revert s. induction evs as [|ev evs IH]; intros s; cbn [resolver_run]; [by intros [= <-]|].
  destruct (resolver_step ttl ev s) as [s1|] eqn:E; [|done]. intros Hr Hi. apply (IH s1); [done|].
  by apply (resolver_step_inv ev s).
Qed.

(** However the calls of several threads interleave, every answer of the resolver is
    either the host itself, when the host is an address, or what one lookup of the host
    found that began within the time to live before the call; and every address it
    ever answers is in the canonical form the observations are stored in. *)
Theorem resolver_answers_fresh evs now s :
  resolver_run ttl evs (new_resolver now) = Some s ->
  forall host start stop xs, (host, start, stop, xs) ∈ rs_answers s ->
    justified (rs_lookups s) (host, start, stop, xs) /\ forall a, a ∈ xs -> canonical_address a.
Proof.
  intros E. apply resolver_run_inv in E as [_ _ Ha Hk].
  - intros host start stop xs Hin. rewrite Forall_forall in Ha. specialize (Ha _ Hin). split; [done|].
    destruct Ha as [_ Ha]. destruct (literal host) as [b|] eqn:El.
    + rewrite Ha. intros a ->%elem_of_singleton. by eapply literal_canonical.
    + destruct Ha as (t & Hl & _). by apply (Hk _ _ _ Hl).
  - unfold new_resolver. by constructor; cbn; [intros ? ? ? ?%lookup_empty_Some|intros ? ? ? ?%lookup_empty_Some|constructor|intros ? ? ? ?%elem_of_nil].
Qed.

(** What a cache may hold while the name service keeps its answers. *)
Definition cache_agrees (getaddrinfo : text -> Lookup) (cache : ResolverCache) : Prop :=
  forall host t xs, literal host = None -> cache !! lower host = Some (t, xs) -> answered (getaddrinfo host) = Ok xs.

Fixpoint resolve_all (getaddrinfo : text -> Lookup) (calls : list (Z * text)) (cache : ResolverCache) :
    list (result exn (gset text)) :=
  match calls with
  | [] => []
  | (now, host) :: calls =>
      let '(r, cache) := resolve_at ttl now getaddrinfo host cache in r :: resolve_all getaddrinfo calls cache
  end.

(** The cache implements the interface of the graph: while the name service keeps its
    answers, and answers a host alike in any letter case, every sequence of calls at any
    times gets from the resolver what the name service itself answers, errors included. *)
Theorem resolver_transparent getaddrinfo calls cache :
  (forall h h', literal h = None -> literal h' = None -> lower h = lower h' -> getaddrinfo h = getaddrinfo h') ->
  cache_agrees getaddrinfo cache ->
  resolve_all getaddrinfo calls cache = (fun p => @resolve (name_service getaddrinfo) p.2) <$> calls.
Proof.
  intros Hcase. revert cache. induction calls as [|[now host] calls IH]; intros cache Hc; [done|].
  cbn [resolve_all fmap list_fmap snd]. unfold resolve at 1, name_service at 1, resolve_at.
  destruct (literal host) as [a|] eqn:El; [by rewrite IH|]. unfold cached_answer.
  assert (Hmiss : (let '(r, c) := match answered (getaddrinfo host) with
      | Ok xs => (Ok xs, store_answer now host xs cache) | Raise e => (Raise e, cache) end in
      r :: resolve_all getaddrinfo calls c) = answered (getaddrinfo host) :: ((fun p => @resolve (name_service getaddrinfo) p.2) <$> calls)).
  { destruct (answered (getaddrinfo host)) as [xs|e] eqn:Ea; rewrite IH; try done.
    unfold store_answer. intros h t ys Hl [[Hk [= <- <-]]|[_ Hk]]%lookup_insert_Some; [|by apply (Hc h t)].
    by rewrite <- Ea, (Hcase h host). }
  destruct (cache !! lower host) as [[t xs]|] eqn:Ek; [|exact Hmiss]. destruct (now - t <? ttl); [|exact Hmiss].
  rewrite IH by done. by rewrite (Hc host t xs).
Qed.
End fresh.

(** ** Two threads and a slow lookup *)

Definition demo_events : list resolver_event :=
  [R_call 1 (u "DB-1"); R_tick 5; R_call 2 (u "db-1"); R_lookup 2 (Found [u "::ffff:10.0.0.9"]); R_tick 1;
   R_lookup 1 (Found [u "10.0.0.7"; u "not-an-address"]); R_call 3 (u "db-1"); R_call 3 (u "FE80::1%eth0")].

Lemma resolver_answers_fresh_witness :
  exists s, @resolver_run ascii_only 10 demo_events (new_resolver 100) = Some s /\
    (u "db-1", 106, 106, {[u "10.0.0.7"]}) ∈ rs_answers s /\
    @justified ascii_only 10 (rs_lookups s) (u "db-1", 106, 106, {[u "10.0.0.7"]}).
Proof.
  destruct (@resolver_run ascii_only 10 demo_events (new_resolver 100)) as [s|] eqn:E; [|vm_compute in E; discriminate].
  assert (Hin : (u "db-1", 106, 106, {[u "10.0.0.7"]}) ∈ rs_answers s).
  { vm_compute in E. injection E as <-. right. left. }
  exists s. split; [done|]. split; [exact Hin|].
  apply (@resolver_answers_fresh ascii_only 10 demo_events 100 s E _ _ _ _ Hin).
Defined.

Definition demo_names : text -> Lookup := fun host =>
  if decide (lower (H := ascii_only) host = u "db-1") then Found [u "10.0.0.7"] else Unresolved.

Lemma resolver_transparent_witness :
  @resolve_all ascii_only 10 demo_names [(0, u "db-1"); (5, u "DB-1"); (20, u "db-1"); (21, u "db-2")] ∅ =
    [Ok {[u "10.0.0.7"]}; Ok {[u "10.0.0.7"]}; Ok {[u "10.0.0.7"]}; Ok ∅].
Proof.
  rewrite (@resolver_transparent ascii_only 10 demo_names).
  - vm_compute. reflexivity.
  - intros h h' _ _ E. unfold demo_names. by rewrite E.
  - intros h t xs _ E. by apply lookup_empty_Some in E.
Defined.
