(* ===== verification/TopologyCache.v ===== *)
(** * The topology cache (src/app/services/topology_cache.py)

    A keyed cache with a time to live, in which concurrent callers of one key
    share a computation.  The state is the cache object and the phase of every
    thread inside [get_or_compute]; a step is what one thread does between two
    acquisitions of the cache's lock, so every interleaving of threads is a
    sequence of steps.  Values are immutable here: [put] and [get] copy them
    ([deepcopy]), so callers and the cache never share one. *)

From S2P Require Import Prelude PyText.

Section cache.
Context {K V E : Type} `{Countable K} (ttl_seconds : Z).

(** Where a thread is in [get_or_compute], with the identity of the [_Inflight]
    object it holds. *)
Inductive phase :=
| Calling (k : K)                       (* at the top of the loop *)
| Missed (k : K)                        (* [get] returned None *)
| Computing (k : K) (i : Z)             (* owner, inside the factory *)
| Computed (k : K) (i : Z) (v : V)      (* owner, before [put] *)
| Stored (k : K) (i : Z) (v : V)        (* owner, before the finally block *)
| Failed (k : K) (i : Z) (e : E)        (* owner, the factory raised *)
| Waiting (k : K) (i : Z)               (* in [inflight.event.wait()] *)
| Hit (k : K) (v : V) (time : Z)        (* returned the cached value *)
| Returned (k : K) (v : V)              (* returned what it computed *)
| Raised (k : K) (e : E).

(** [finished] holds the [_Inflight] objects whose event is set, with their error. *)
Record Cache := mkCache {
  clock : Z;
  entries : gmap K (Z * V);
  inflight : gmap K Z;
  next_inflight : Z;
  finished : gmap Z (option E);
  threads : gmap Z phase
}.

Definition empty_cache (now : Z) : Cache := mkCache now ∅ ∅ 0 ∅ ∅.

Definition set_phase (t : Z) (p : phase) (c : Cache) : Cache :=
  mkCache (clock c) (entries c) (inflight c) (next_inflight c) (finished c) (<[t := p]> (threads c)).

Definition set_entries (m : gmap K (Z * V)) (c : Cache) : Cache :=
  mkCache (clock c) m (inflight c) (next_inflight c) (finished c) (threads c).

(** [TopologyCache.get] *)
Definition get (k : K) (c : Cache) : option V * Cache :=
  match entries c !! k with
  | None => (None, c)
  | Some (expires_at, value) =>
      if expires_at <=? clock c then (None, set_entries (delete k (entries c)) c)
      else (Some value, c)
  end.

(** [TopologyCache.put] *)
Definition put (k : K) (v : V) (c : Cache) : Cache :=
  set_entries (<[k := (clock c + ttl_seconds, v)]> (entries c)) c.

(** [TopologyCache.clear] *)
Definition clear (c : Cache) : Cache := set_entries ∅ c.

(** Becoming the owner of a key's computation, or a waiter for the one under way. *)
Definition join_inflight (t : Z) (k : K) (c : Cache) : Cache :=
  match inflight c !! k with
  | None =>
      let i := next_inflight c in
      mkCache (clock c) (entries c) (<[k := i]> (inflight c)) (i + 1) (finished c)
        (<[t := Computing k i]> (threads c))
  | Some i => set_phase t (Waiting k i) c
  end.

(** The [finally] block of the owner. *)
Definition finish (t : Z) (k : K) (i : Z) (error : option E) (result : phase) (c : Cache) : Cache :=
  mkCache (clock c) (entries c) (delete k (inflight c)) (next_inflight c)
    (<[i := error]> (finished c)) (<[t := result]> (threads c)).

Inductive event :=
| Call (t : Z) (k : K)
| Step (t : Z)                          (* the next step of a thread that needs no input *)
| FactoryReturns (t : Z) (v : V)
| FactoryRaises (t : Z) (e : E)
| Clear
| Tick (d : Z).

(** One event; [None] when it is not enabled. *)
Definition step (ev : event) (c : Cache) : option Cache :=
  match ev with
  | Call t k => if decide (threads c !! t = None) then Some (set_phase t (Calling k) c) else None
  | Step t =>
      match threads c !! t with
      | Some (Calling k) =>
          match get k c with
          | (Some v, c) => Some (set_phase t (Hit k v (clock c)) c)
          | (None, c) => Some (set_phase t (Missed k) c)
          end
      | Some (Missed k) => Some (join_inflight t k c)
      | Some (Computed k i v) => Some (set_phase t (Stored k i v) (put k v c))
      | Some (Stored k i v) => Some (finish t k i None (Returned k v) c)
      | Some (Failed k i e) => Some (finish t k i (Some e) (Raised k e) c)
      | Some (Waiting k i) =>
          match finished c !! i with
          | None => None
          | Some (Some e) => Some (set_phase t (Raised k e) c)
          | Some None => Some (set_phase t (Calling k) c)
          end
      | _ => None
      end
  | FactoryReturns t v =>
      match threads c !! t with
      | Some (Computing k i) => Some (set_phase t (Computed k i v) c)
      | _ => None
      end
  | FactoryRaises t e =>
      match threads c !! t with
      | Some (Computing k i) => Some (set_phase t (Failed k i e) c)
      | _ => None
      end
  | Clear => Some (clear c)
  | Tick d => if 0 <=? d then Some (mkCache (clock c + d) (entries c) (inflight c) (next_inflight c)
                                      (finished c) (threads c)) else None
  end.

Fixpoint run (evs : list event) (c : Cache) : option Cache :=
  match evs with
  | [] => Some c
  | ev :: evs => c ← step ev c; run evs c
  end.

(** ** The invariant *)

Definition owns (p : phase) : option (K * Z) :=
  match p with
  | Computing k i | Computed k i _ | Stored k i _ | Failed k i _ => Some (k, i)
  | _ => None
  end.

(** What a thread holds agrees with the [_inflight] dictionary. *)
Definition thread_ok (c : Cache) (p : phase) : Prop :=
  match p with
  | Waiting k i => i < next_inflight c /\ (finished c !! i = None -> inflight c !! k = Some i)
  | _ => match owns p with Some (k, i) => inflight c !! k = Some i | None => True end
  end.

Record cache_inv (c : Cache) : Prop := {
  inv_threads : forall t p, threads c !! t = Some p -> thread_ok c p;
  inv_owner : forall k i, inflight c !! k = Some i ->
    i < next_inflight c /\ finished c !! i = None /\
    exists t p, threads c !! t = Some p /\ owns p = Some (k, i);
  inv_unique : forall t t' p p' o, threads c !! t = Some p -> threads c !! t' = Some p' ->
    owns p = Some o -> owns p' = Some o -> t = t';
  inv_ids : forall k k' i, inflight c !! k = Some i -> inflight c !! k' = Some i -> k = k';
  inv_fresh : forall i x, finished c !! i = Some x -> i < next_inflight c
}.

Definition old_owner (c : Cache) (t : Z) : option (K * Z) := threads c !! t ≫= owns.

Lemma cache_inv_ext c c' :
  inflight c' = inflight c -> next_inflight c' = next_inflight c -> finished c' = finished c ->
  threads c' = threads c -> cache_inv c -> cache_inv c'.
Proof.
  intros E1 E2 E3 E4 [I1 I2 I3 I4 I5].
  constructor; unfold thread_ok in *; rewrite ?E1, ?E2, ?E3, ?E4; assumption.
Qed.

Lemma set_phase_inv t p c :
  old_owner c t = owns p -> thread_ok c p -> cache_inv c -> cache_inv (set_phase t p c).
Proof.
  unfold old_owner. intros Hown Hok [I1 I2 I3 I4 I5].
  assert (Hlk : forall t' p' o, threads (set_phase t p c) !! t' = Some p' -> owns p' = Some o ->
            exists q, threads c !! t' = Some q /\ owns q = Some o).
  { cbn. intros t' p' o [[<- <-]|[_ Ht]]%lookup_insert_Some Ho; [|eauto].
    rewrite <- Hown in Ho. destruct (threads c !! t) as [q|]; [eauto|done]. }
  constructor; cbn; try done.
  - intros t' p' [[<- <-]|[_ Ht]]%lookup_insert_Some; [exact Hok|]. by apply (I1 t').
  - intros k i Hk. destruct (I2 k i Hk) as (? & ? & t' & p' & Ht & Ho). split_and!; try done.
    destruct (decide (t = t')) as [->|Hne].
    + exists t', p. rewrite lookup_insert_eq. split; [done|]. rewrite <- Hown, Ht. exact Ho.
    + exists t', p'. by rewrite lookup_insert_ne.
  - intros t1 t2 p1 p2 o H1 H2 O1 O2.
    destruct (Hlk t1 p1 o H1 O1) as (q1 & Q1 & P1). destruct (Hlk t2 p2 o H2 O2) as (q2 & Q2 & P2).
    by apply (I3 t1 t2 q1 q2 o).
Qed.

Lemma join_inflight_inv t k c :
  threads c !! t = Some (Missed k) -> cache_inv c -> cache_inv (join_inflight t k c).
Proof.
  intros Ht Hinv. unfold join_inflight. destruct (inflight c !! k) as [i|] eqn:Hk.
  - apply set_phase_inv; [unfold old_owner; by rewrite Ht| |done].
    destruct (inv_owner c Hinv k i Hk) as (? & _). by split.
  - destruct Hinv as [I1 I2 I3 I4 I5].
    assert (Hnew : forall k' , inflight c !! k' ≠ Some (next_inflight c)).
    { intros k' Hk'. destruct (I2 k' _ Hk') as [? _]. lia. }
    assert (Hfin : finished c !! next_inflight c = None).
    { destruct (finished c !! next_inflight c) as [x|] eqn:E1; [|done]. apply I5 in E1. lia. }
    assert (Hown : forall t' p, threads c !! t' = Some p -> owns p ≠ Some (k, next_inflight c)).
    { intros t' p Hp Ho. specialize (I1 t' p Hp). unfold thread_ok in I1.
      destruct p; cbn in *; try done; injection Ho as -> ->; congruence. }
    constructor; cbn.
    + intros t' p [[<- <-]|[Hne Hp]]%lookup_insert_Some; [cbn; by rewrite lookup_insert_eq|].
      specialize (I1 t' p Hp). unfold thread_ok in *.
      assert (Hins : forall k' i, inflight c !! k' = Some i ->
                <[k:=next_inflight c]> (inflight c) !! k' = Some i)
        by (intros k' i Hi; rewrite lookup_insert_ne; [done|congruence]).
      destruct p; cbn in *; auto. destruct I1 as [? I1]. split; [lia|auto].
    + intros k' i [[<- <-]|[Hne Hi]]%lookup_insert_Some.
      * split_and!; [lia|done|]. exists t, (Computing k (next_inflight c)). by rewrite lookup_insert_eq.
      * destruct (I2 k' i Hi) as (? & ? & t' & p & Hp & Ho). split_and!; [lia|done|].
        exists t', p. split; [|done]. rewrite lookup_insert_ne; [done|]. intros <-.
        rewrite Ht in Hp. by injection Hp as <-.
    + intros t1 t2 p1 p2 o [[<- <-]|[N1 H1]]%lookup_insert_Some [[<- <-]|[N2 H2]]%lookup_insert_Some O1 O2;
        [done| | |by apply (I3 t1 t2 p1 p2 o)].
      * injection O1 as <-. by destruct (Hown t2 p2 H2).
      * injection O2 as <-. by destruct (Hown t1 p1 H1).
    + intros k1 k2 i [[<- <-]|[N1 H1]]%lookup_insert_Some [[<- Hi]|[N2 H2]]%lookup_insert_Some; [done| | |].
      * by destruct (Hnew k2).
      * subst i. by destruct (Hnew k1).
      * by apply (I4 k1 k2 i).
    + intros i x Hx. apply I5 in Hx. lia.
Qed.

Lemma finish_inv t k i err p c :
  threads c !! t ≫= owns = Some (k, i) -> owns p = None ->
  match p with Waiting _ _ => False | _ => True end ->
  cache_inv c -> cache_inv (finish t k i err p c).
Proof.
  intros Ht Hp Hw [I1 I2 I3 I4 I5].
  destruct (threads c !! t) as [q|] eqn:Hq; [|done]. cbn in Ht.
  assert (Hk : inflight c !! k = Some i).
  { specialize (I1 t q Hq). unfold thread_ok in I1. by destruct q; cbn in *; try done; injection Ht as -> ->. }
  assert (Hother : forall t' p' k' i', threads c !! t' = Some p' -> t ≠ t' -> owns p' = Some (k', i') ->
            k' ≠ k /\ i' ≠ i).
  { intros t' p' k' i' Hp' Hne Ho.
    assert (inflight c !! k' = Some i') as Hi'.
    { specialize (I1 t' p' Hp'). unfold thread_ok in I1.
      by destruct p'; cbn in *; try done; injection Ho as -> ->. }
    split.
    - intros ->. rewrite Hk in Hi'. injection Hi' as <-. by apply Hne, (I3 t t' q p' (k, i)).
    - intros ->. assert (k' = k) as -> by by apply (I4 k' k i). by apply Hne, (I3 t t' q p' (k, i)). }
  constructor; cbn.
  - intros t' p' [[<- <-]|[Hne Hp']]%lookup_insert_Some.
    { unfold thread_ok. rewrite Hp. by destruct p. }
    specialize (I1 t' p' Hp'). specialize (Hother t' p').
    unfold thread_ok in *. destruct p'; cbn in *; auto.
    + rewrite lookup_delete_ne; [done|]. by destruct (Hother k0 i0 Hp' Hne eq_refl) as [? _].
    + rewrite lookup_delete_ne; [done|]. by destruct (Hother k0 i0 Hp' Hne eq_refl) as [? _].
    + rewrite lookup_delete_ne; [done|]. by destruct (Hother k0 i0 Hp' Hne eq_refl) as [? _].
    + rewrite lookup_delete_ne; [done|]. by destruct (Hother k0 i0 Hp' Hne eq_refl) as [? _].
    + destruct I1 as [? I1]. split; [done|]. intros Hf.
      destruct (decide (i0 = i)) as [->|Hni]; [by rewrite lookup_insert_eq in Hf|].
      rewrite lookup_insert_ne in Hf by done. specialize (I1 Hf).
      rewrite lookup_delete_ne; [done|]. intros <-. congruence.
  - intros k' i' [Hne Hi']%lookup_delete_Some.
    destruct (I2 k' i' Hi') as (? & Hf & t' & p' & Hp' & Ho).
    assert (i' ≠ i) as Hni. { intros ->. by apply Hne, (I4 k k' i). }
    split_and!; [done|by rewrite lookup_insert_ne|].
    exists t', p'. split; [|done]. rewrite lookup_insert_ne; [done|]. intros <-.
    rewrite Hq in Hp'. injection Hp' as <-. rewrite Ht in Ho. by injection Ho as <- <-.
  - intros t1 t2 p1 p2 o [[<- <-]|[N1 H1]]%lookup_insert_Some [[<- <-]|[N2 H2]]%lookup_insert_Some O1 O2;
      [done|congruence|congruence|by apply (I3 t1 t2 p1 p2 o)].
  - intros k1 k2 i' [_ H1]%lookup_delete_Some [_ H2]%lookup_delete_Some. by apply (I4 k1 k2 i').
  - intros i' x [[<- _]|[_ Hx]]%lookup_insert_Some; [|by apply (I5 i' x)].
    by destruct (I2 k i Hk).
Qed.

Lemma get_inv k c : cache_inv c -> cache_inv (get k c).2.
Proof.
  unfold get. destruct (entries c !! k) as [[e v]|]; [|done]. case_match; [|done].
  by apply cache_inv_ext.
Qed.

Lemma get_threads k c : threads (get k c).2 = threads c.
Proof. unfold get. destruct (entries c !! k) as [[e v]|]; [|done]. by case_match. Qed.

Lemma step_inv ev c c' : cache_inv c -> step ev c = Some c' -> cache_inv c'.
Proof.
  intros Hinv. destruct ev as [t k|t|t v|t e| |d]; cbn [step].
  - case_decide as Ht; [|done]. intros [= <-]. apply set_phase_inv; [|done|done].
    unfold old_owner. by rewrite Ht.
  - destruct (threads c !! t) as [p|] eqn:Ht; [|done].
    destruct p as [k|k|k i|k i v|k i v|k i e|k i|k v n|k v|k e]; try done.
    + pose proof (get_inv k c Hinv) as Hg. pose proof (get_threads k c) as Hgt.
      destruct (get k c) as [[v|] c1]; cbn in Hg, Hgt; intros [= <-];
        (apply set_phase_inv; [unfold old_owner; by rewrite Hgt, Ht|done|done]).
    + intros [= <-]. by apply join_inflight_inv.
    + intros [= <-]. apply (set_phase_inv t (Stored k i v) (put k v c)).
      * unfold old_owner. cbn. by rewrite Ht.
      * by apply (inv_threads c Hinv t) in Ht.
      * by apply (cache_inv_ext c).
    + intros [= <-]. apply finish_inv; [by rewrite Ht|done|done|done].
    + intros [= <-]. apply finish_inv; [by rewrite Ht|done|done|done].
    + destruct (finished c !! i) as [[e|]|]; intros [= <-];
        (apply set_phase_inv; [unfold old_owner; by rewrite Ht|done|done]).
  - destruct (threads c !! t) as [p|] eqn:Ht; [|done]. destruct p; try done. intros [= <-].
    apply set_phase_inv; [unfold old_owner; by rewrite Ht| |done].
    by apply (inv_threads c Hinv t) in Ht.
  - destruct (threads c !! t) as [p|] eqn:Ht; [|done]. destruct p; try done. intros [= <-].
    apply set_phase_inv; [unfold old_owner; by rewrite Ht| |done].
    by apply (inv_threads c Hinv t) in Ht.
  - intros [= <-]. by apply (cache_inv_ext c).
  - case_match; [|done]. intros [= <-]. by apply (cache_inv_ext c).
Qed.

Lemma empty_cache_inv now : cache_inv (empty_cache now).
Proof. constructor; cbn; intros *; by intros ?%lookup_empty_Some. Qed.

Lemma run_inv evs c c' : cache_inv c -> run evs c = Some c' -> cache_inv c'.
Proof.
  revert c. induction evs as [|ev evs IH]; intros c Hinv; cbn; [by intros [= <-]|].
  destruct (step ev c) as [c1|] eqn:E1; cbn; [|done]. apply IH. by eapply step_inv.
Qed.
End cache.

Arguments Calling {K V E} k.
Arguments Computed {K V E} k i v.
Arguments Computing {K V E} k i.
Arguments Waiting {K V E} k i.
Arguments Hit {K V E} k v time.
Arguments Call {K V E} t k.
Arguments Step {K V E} t.
Arguments FactoryReturns {K V E} t v.
Arguments FactoryRaises {K V E} t e.
Arguments Clear {K V E}.
Arguments Tick {K V E} d.
Arguments Cache K V E {_ _}.
Arguments event K V E : clear implicits.

Section guarantees.
Context {K V E : Type} `{Countable K} (ttl_seconds : Z).
Implicit Types (c : Cache K V E) (evs : list (event K V E)).

Lemma run_app evs evs' c : run ttl_seconds (evs ++ evs') c = run ttl_seconds evs c ≫= run ttl_seconds evs'.
Proof.
  revert c. induction evs as [|ev evs IH]; intros c; cbn; [done|].
  destruct (step ttl_seconds ev c); cbn; [apply IH|done].
Qed.

(** The value of [k] was stored by a [put] of this run, at this time, and the cache
    has not been cleared since. *)
Definition stored_by evs c0 (k : K) (v : V) (time : Z) : Prop :=
  exists evs1 t i evs2 c1, evs = evs1 ++ Step t :: evs2 /\ run ttl_seconds evs1 c0 = Some c1 /\
    threads c1 !! t = Some (Computed k i v) /\ clock c1 = time /\ Clear ∉ evs2.

Lemma stored_by_snoc evs ev c0 k v time :
  stored_by evs c0 k v time -> ev ≠ Clear -> stored_by (evs ++ [ev]) c0 k v time.
Proof.
  intros (evs1 & t & i & evs2 & c1 & -> & Hr & Ht & Hc & Hn) Hev.
  exists evs1, t, i, (evs2 ++ [ev]), c1. rewrite <- app_assoc. split_and!; try done. set_solver.
Qed.

Lemma get_entries k c k' x : entries (get k c).2 !! k' = Some x -> entries c !! k' = Some x.
Proof.
  unfold get. destruct (entries c !! k) as [[e v]|]; [|done]. case_match; [|done].
  cbn. by intros [_ ?]%lookup_delete_Some.
Qed.

(** Only [put] writes an entry. *)
Lemma step_entries ev c c' k e v :
  step ttl_seconds ev c = Some c' -> entries c' !! k = Some (e, v) ->
  (entries c !! k = Some (e, v) /\ ev ≠ Clear) \/
  exists t i, ev = Step t /\ threads c !! t = Some (Computed k i v) /\ e = clock c + ttl_seconds.
Proof.
  destruct ev as [t k0|t|t w|t w| |d]; cbn [step].
  - case_decide; [|done]. intros [= <-] He. by left.
  - destruct (threads c !! t) as [p|] eqn:Ht; [|done].
    destruct p as [k0|k0|k0 i|k0 i w|k0 i w|k0 i w|k0 i|k0 w n|k0 w|k0 w]; try done.
    + pose proof (get_entries k0 c k (e, v)) as Hg. destruct (get k0 c) as [[w|] c1]; cbn in Hg;
        intros [= <-] He; left; split; try done; by apply Hg.
    + unfold join_inflight. destruct (inflight c !! k0); intros [= <-] He; by left.
    + intros [= <-] He. cbn in He. apply lookup_insert_Some in He as [[<- [= <- <-]]|[_ He]]; [right; eauto|by left].
    + intros [= <-] He. by left.
    + intros [= <-] He. by left.
    + destruct (finished c !! i) as [[w|]|]; intros [= <-] He; by left.
  - destruct (threads c !! t) as [[]|]; try done. intros [= <-] He. by left.
  - destruct (threads c !! t) as [[]|]; try done. intros [= <-] He. by left.
  - intros [= <-] He. cbn in He. by apply lookup_empty_Some in He.
  - case_match; [|done]. intros [= <-] He. by left.
Qed.

Lemma get_clock k c : clock (get k c).2 = clock c.
Proof. unfold get. destruct (entries c !! k) as [[e v]|]; [|done]. by case_match. Qed.

Lemma step_clock ev c c' : step ttl_seconds ev c = Some c' -> clock c <= clock c'.
Proof.
  destruct ev as [t k0|t|t w|t w| |d]; cbn [step].
  - case_decide; [|done]. intros [= <-]. cbn. lia.
  - destruct (threads c !! t) as [p|]; [|done].
    destruct p as [k0|k0|k0 i|k0 i w|k0 i w|k0 i w|k0 i|k0 w n|k0 w|k0 w]; try done.
    + pose proof (get_clock k0 c) as Hg. destruct (get k0 c) as [[w|] c1]; cbn in Hg;
        intros [= <-]; cbn; lia.
    + unfold join_inflight. destruct (inflight c !! k0); intros [= <-]; cbn; lia.
    + intros [= <-]. cbn. lia.
    + intros [= <-]. cbn. lia.
    + intros [= <-]. cbn. lia.
    + destruct (finished c !! i) as [[w|]|]; intros [= <-]; cbn; lia.
  - destruct (threads c !! t) as [[]|]; try done. intros [= <-]. cbn. lia.
  - destruct (threads c !! t) as [[]|]; try done. intros [= <-]. cbn. lia.
  - intros [= <-]. cbn. lia.
  - destruct (Z.leb_spec 0 d); [|done]. intros [= <-]. cbn. lia.
Qed.

Lemma run_clock evs c c' : run ttl_seconds evs c = Some c' -> clock c <= clock c'.
Proof.
  revert c. induction evs as [|ev evs IH]; intros c; cbn; [by intros [= <-]|].
  destruct (step ttl_seconds ev c) as [c1|] eqn:E1; cbn; [|done]. intros Hr.
  apply step_clock in E1. apply IH in Hr. lia.
Qed.

Lemma entries_stored evs c k e v now :
  run ttl_seconds evs (empty_cache now) = Some c -> entries c !! k = Some (e, v) ->
  exists time, stored_by evs (empty_cache now) k v time /\ e = time + ttl_seconds /\ time <= clock c.
Proof.
  revert c e v. induction evs as [|ev evs IH] using rev_ind; intros c e v.
  { intros [= <-] He. cbn in He. by apply lookup_empty_Some in He. }
  rewrite run_app. destruct (run ttl_seconds evs (empty_cache now)) as [c1|] eqn:E1; [|done]. cbn.
  destruct (step ttl_seconds ev c1) as [c2|] eqn:E2; [|done]. intros [= <-] He.
  pose proof (step_clock _ _ _ E2).
  destruct (step_entries _ _ _ _ _ _ E2 He) as [[He1 Hev]|(t & i & -> & Ht & ->)].
  - destruct (IH c1 e v eq_refl He1) as (time & Hs & -> & ?). exists time.
    split_and!; [by apply stored_by_snoc|done|lia].
  - exists (clock c1). split_and!; [|done|done]. exists evs, t, i, [], c1. split_and!; try done.
    by apply not_elem_of_nil.
Qed.

(** C24. Single flight: in every reachable state of the cache, at most one thread
    computes or is about to publish a value for a key, whatever the interleaving of
    calls, factory results, failures, clears and expirations. *)
Theorem cache_single_flight evs c now t t' p p' k i i' :
  run ttl_seconds evs (empty_cache now) = Some c ->
  threads c !! t = Some p -> threads c !! t' = Some p' ->
  owns p = Some (k, i) -> owns p' = Some (k, i') -> t = t'.
Proof.
  intros Hr Ht Ht' Ho Ho'. pose proof (run_inv ttl_seconds _ _ _ (empty_cache_inv now) Hr) as Hinv.
  assert (Hk : forall t p i, threads c !! t = Some p -> owns p = Some (k, i) -> inflight c !! k = Some i).
  { intros t0 p0 i0 H0 O0. pose proof (inv_threads c Hinv t0 p0 H0) as Hok. unfold thread_ok in Hok.
    by destruct p0; cbn in *; try done; injection O0 as -> ->. }
  assert (i' = i) as -> by (pose proof (Hk _ _ _ Ht Ho); pose proof (Hk _ _ _ Ht' Ho'); congruence).
  by apply (inv_unique c Hinv t t' p p' (k, i)).
Qed.

(** No caller is stranded: a thread waiting for another's computation can either
    go on (the computation has finished, with a value or an error), or the thread
    that owns exactly this computation is still at it, and when that thread
    finishes the waiting one can go on. *)
Theorem cache_waiters_not_stranded evs c now t k i :
  run ttl_seconds evs (empty_cache now) = Some c -> threads c !! t = Some (Waiting k i) ->
  is_Some (step ttl_seconds (Step t) c) \/
  exists t' p, threads c !! t' = Some p /\ owns p = Some (k, i) /\ t' ≠ t /\
    ((exists j, p = Computing k j) \/ is_Some (step ttl_seconds (Step t') c)) /\
    (forall err result, is_Some (step ttl_seconds (Step t) (finish t' k i err result c))).
Proof.
  intros Hr Ht. pose proof (run_inv ttl_seconds _ _ _ (empty_cache_inv now) Hr) as Hinv.
  cbn [step]. rewrite Ht. destruct (finished c !! i) as [[e|]|] eqn:Hf; [left; by eexists|left; by eexists|right].
  destruct (inv_threads c Hinv t _ Ht) as [_ Hin]. specialize (Hin Hf).
  destruct (inv_owner c Hinv k i Hin) as (_ & _ & t' & p & Hp & Ho).
  assert (t' ≠ t) as Hne by (intros ->; rewrite Ht in Hp; injection Hp as <-; done).
  exists t', p. split_and!; [done..| |].
  - rewrite Hp. destruct p; cbn in Ho; try done; injection Ho as -> ->; [left|right|right|right]; by eexists.
  - intros err result. cbn. rewrite lookup_insert_ne by done. rewrite Ht. cbn. rewrite lookup_insert_eq.
    destruct err; by eexists.
Qed.

(** A cached answer is fresh: whenever a call is answered from the cache, the
    value was stored for that very key by an earlier [put] of the run, less than
    the time to live ago, and the cache has not been cleared in between. *)
Theorem cache_hits_are_fresh evs c c' now t k v n :
  run ttl_seconds evs (empty_cache now) = Some c -> threads c !! t = Some (Calling k) ->
  step ttl_seconds (Step t) c = Some c' -> threads c' !! t = Some (Hit k v n) ->
  n = clock c /\ exists time, stored_by evs (empty_cache now) k v time /\ time <= n < time + ttl_seconds.
Proof.
  intros Hr Ht. cbn [step]. rewrite Ht. unfold get.
  destruct (entries c !! k) as [[e w]|] eqn:He.
  2:{ intros [= <-]. cbn. rewrite lookup_insert_eq. by intros [=]. }
  destruct (Z.leb_spec e (clock c)); intros [= <-]; cbn; rewrite lookup_insert_eq; [by intros [=]|].
  intros [= -> <-]. split; [done|].
  destruct (entries_stored evs c k e v now Hr He) as (time & Hs & -> & ?). exists time.
  split; [done|]. lia.
Qed.
End guarantees.

(** ** Witnesses, on a run of two callers of one key *)

Definition demo_events : list (event Z Z Z) :=
  [Call 1 7; Step 1; Step 1; Call 2 7; Step 2; Step 2; FactoryReturns 1 42; Step 1; Tick 5].

Definition demo_cache : Cache Z Z Z := default (empty_cache 0) (run 30 demo_events (empty_cache 0)).

Lemma demo_cache_run : run 30 demo_events (empty_cache 0) = Some demo_cache.
Proof. vm_compute. reflexivity. Qed.

Lemma cache_single_flight_witness :
  (threads demo_cache !! 1 ≫= owns) = Some (7, 0) /\ (threads demo_cache !! 2 ≫= owns) ≠ Some (7, 0).
Proof.
  split; [vm_compute; reflexivity|]. intros E. apply bind_Some in E as (p & Hp & Ho).
  assert (Ht : threads demo_cache !! 1 = Some (Stored 7 0 42)) by (vm_compute; reflexivity).
  discriminate (cache_single_flight 30 demo_events demo_cache 0 1 2 _ p 7 0 0 demo_cache_run Ht Hp eq_refl Ho).
Defined.

Lemma cache_waiters_not_stranded_witness :
  is_Some (step 30 (Step 2) demo_cache) \/
  exists t' p, threads demo_cache !! t' = Some p /\ owns p = Some (7, 0) /\ t' ≠ 2 /\
    ((exists j, p = Computing 7 j) \/ is_Some (step 30 (Step t') demo_cache)) /\
    (forall err result, is_Some (step 30 (Step 2) (finish t' 7 0 err result demo_cache))).
Proof.
  apply (cache_waiters_not_stranded 30 demo_events demo_cache 0 2 7 0).
  - exact demo_cache_run.
  - vm_compute. reflexivity.
Defined.

Definition demo_hit_events : list (event Z Z Z) := demo_events ++ [Step 1; Call 3 7].

Definition demo_hit : Cache Z Z Z := default (empty_cache 0) (run 30 demo_hit_events (empty_cache 0)).

Definition demo_hit_next : Cache Z Z Z := default (empty_cache 0) (step 30 (Step 3) demo_hit).

Lemma cache_hits_are_fresh_witness :
  5 = clock demo_hit /\
  exists time, stored_by 30 demo_hit_events (empty_cache 0) 7 42 time /\ time <= 5 < time + 30.
Proof.
  apply (cache_hits_are_fresh 30 demo_hit_events demo_hit demo_hit_next 0 3 7 42 5).
  - vm_compute. reflexivity.
  - vm_compute. reflexivity.
  - vm_compute. reflexivity.
  - vm_compute. reflexivity.
Defined.

(** Clearing the cache does not stop a computation that is under way: a value
    whose factory had already returned when the cache was cleared is stored
    afterwards, and calls made after the clear are answered with it until its time
    to live ends. *)
Theorem clear_misses_computation_in_flight :
  exists before after c,
    run 300 (before ++ [Clear] ++ after) (empty_cache 0) = Some c /\
    FactoryReturns 1 42 ∈ before /\ (forall t v, FactoryReturns t v ∉ after) /\
    Call 2 7 ∈ after /\ threads c !! 2 = Some (Hit (E := Z) 7 42 299).
Proof.
  exists [Call 1 7; Step 1; Step 1; FactoryReturns 1 42],
         [Step 1; Step 1; Tick 299; Call 2 7; Step 2].
  eexists. split; [vm_compute; reflexivity|].
  split; [set_solver|]. split; [set_solver|]. split; [set_solver|]. reflexivity.
Qed.
