(* ===== verification/DatabaseTransactions.v ===== *)
(** * Transactions with retry and admission control
    (src/app/services/database_transactions.py)

    [run] executes an operation in a session, commits it, and retries PostgreSQL
    deadlocks and serialization failures; [_admit_transaction] bounds the
    transactions in progress.  A failed attempt leaves no trace in the database;
    between attempts other transactions may change it. *)

From S2P Require Import Prelude PyText Models Exceptions.

(** ** What an attempt can raise *)

Inductive raised :=
| DBAPIError (operational : bool) (sqlstate : option text)
| PoolTimeout
| Raised (e : exn).

#[export] Instance raised_eq_dec : EqDecision raised.
Proof. solve_decision. Defined.

Definition RETRYABLE_SQLSTATES : list text := [u "40P01"; u "40001"].

Definition postgres_sqlstate (e : raised) : option text :=
  match e with DBAPIError _ s => s | _ => None end.

Definition retryable (e : raised) : bool :=
  match e with
  | DBAPIError _ (Some s) => bool_decide (s ∈ RETRYABLE_SQLSTATES)
  | _ => false
  end.

(** The exception handlers around one attempt, when it will not be repeated. *)
Definition classify (e : raised) : raised :=
  match e with
  | DBAPIError operational _ =>
      if retryable e then Raised TransactionConflict
      else if operational then Raised DatabaseUnavailable else e
  | PoolTimeout => Raised DatabaseUnavailable
  | Raised _ => e
  end.

(** ** Admission

    [slots] is the semaphore's counter ([None] without a pool limit), [depth] the
    thread's nesting. *)

Record Admission := mkAdmission {
  slots : option Z;
  depth : Z
}.

#[export] Instance Admission_eta : Eta Admission := fun a => mkAdmission (slots a) (depth a).

(** [with self._admit_transaction(): body]; [None] while the semaphore blocks.  The
    body runs between the two halves, and the second half runs however it ends. *)
Definition _admit_transaction {A} (body : Admission -> A * Admission) (a : Admission) :
    option (A * Admission) :=
  match slots a with
  | None => Some (body a)
  | Some n =>
      if negb (depth a =? 0) then
        let d := depth a in
        let '(r, a) := body (a <| depth := d + 1 |>) in
        Some (r, a <| depth := d |>)
      else if n <=? 0 then None
      else
        let '(r, a) := body (a <| slots := Some (n - 1) |> <| depth := 1 |>) in
        Some (r, a <| slots := (fun n => n + 1) <$> slots a |> <| depth := 0 |>)
  end.

(** ** The retry loop *)

Section run.
Context {A : Type}.

(** [operation attempt] is what the operation does in that attempt; [others attempt]
    is what other transactions commit before it. *)
Context (operation : nat -> Db -> result raised (A * Db)) (others : nat -> Db -> Db).

(** The loop from [attempt] on; [delays] are [retry_delays] from [attempt] on.  The
    result is the value or the exception, the database, and the delays slept.  An
    attempt runs inside [_admit_transaction], which may delay it and changes neither
    its result nor the database (its counters are the model above). *)
Fixpoint run_attempts (attempt : nat) (delays : list Z) (d : Db) : result raised A * Db * list Z :=
  let d := others attempt d in
  match operation attempt d with
  | Ok (a, d') => (Ok a, d', [])
  | Raise e =>
      if retryable e then
        match delays with
        | [] => (Raise (classify e), d, [])
        | delay :: delays =>
            let '(r, d, slept) := run_attempts (S attempt) delays d in
            (r, d, delay :: slept)
        end
      else (Raise (classify e), d, [])
  end.

Definition run (nesting : Z) (retry_delays : list Z) (d : Db) : result raised A * Db * list Z :=
  if negb (nesting =? 0) then (Raise (Raised NestedTransactionError), d, [])
  else run_attempts 0 retry_delays d.
End run.

(** [guard]: the same classification around a block of the caller. *)
Definition guard {A} (body : result raised A) : result raised A :=
  match body with
  | Ok a => Ok a
  | Raise e => Raise (classify e)
  end.

(** ** The guarantees *)

Section guarantees.
Context {A : Type} (operation : nat -> Db -> result raised (A * Db)) (others : nat -> Db -> Db).

(** The database attempt [attempt + k] starts from when the [k] attempts before it,
    from [attempt] on, failed: only other transactions have changed it. *)
Fixpoint start_of (attempt k : nat) (d : Db) : Db :=
  match k with
  | O => others attempt d
  | S k' => start_of (S attempt) k' (others attempt d)
  end.

Definition fails_retryably (attempt k : nat) (d : Db) : Prop :=
  exists e, operation (attempt + k) (start_of attempt k d) = Raise e /\ retryable e = true.

Lemma run_attempts_spec attempt delays d :
  exists k, (k <= length delays)%nat /\
    (forall j, (j < k)%nat -> fails_retryably attempt j d) /\
    match operation (attempt + k)%nat (start_of attempt k d) with
    | Ok (a, d') => run_attempts operation others attempt delays d = (Ok a, d', take k delays)
    | Raise e =>
        run_attempts operation others attempt delays d =
          (Raise (classify e), start_of attempt k d, take k delays) /\
        (retryable e = true -> k = length delays)
    end.
Proof.
  revert attempt d. induction delays as [|delay delays IH]; intros attempt d; cbn [run_attempts].
  - exists 0%nat. rewrite Nat.add_0_r. split; [done|]. split; [intros j ?; lia|]. cbn [start_of].
    destruct (operation attempt (others attempt d)) as [[a d']|e]; [done|].
    destruct (retryable e); by split.
  - destruct (operation attempt (others attempt d)) as [[a d']|e] eqn:E.
    { exists 0%nat. rewrite Nat.add_0_r. cbn [start_of]. rewrite E. split; [cbn; lia|].
      split; [intros j ?; lia|done]. }
    destruct (retryable e) eqn:Hr.
    2:{ exists 0%nat. rewrite Nat.add_0_r. cbn [start_of]. rewrite E. split; [cbn; lia|].
        split; [intros j ?; lia|]. split; [done|congruence]. }
    destruct (IH (S attempt) (others attempt d)) as (k & Hk & Hj & Hres).
    exists (S k). split; [cbn; lia|]. split.
    { intros [|j] Hlt.
      - exists e. rewrite Nat.add_0_r. by split.
      - destruct (Hj j ltac:(lia)) as (e' & He' & ?). exists e'. split; [|done].
        cbn [start_of]. by rewrite Nat.add_succ_r. }
    cbn [start_of]. rewrite Nat.add_succ_r. cbn [Nat.add] in Hres.
    destruct (operation (S (attempt + k)) (start_of (S attempt) k (others attempt d))) as [[a d']|e'].
    + by rewrite Hres.
    + destruct Hres as [-> Hlast]. split; [done|]. intros ?. cbn. f_equal. auto.
Qed.

End guarantees.

(** ** Admission *)

(** What a body must do for the bookkeeping to balance: leave the admission as it
    found it, as every [with] statement inside it does. *)
Definition balanced {A} (body : Admission -> A * Admission) : Prop :=
  forall a r a', body a = (r, a') -> a' = a.

(** Admission is re-entrant and never leaks a slot: a body runs at once inside a
    transaction of its own thread, without taking a second slot, waits only when the
    thread holds none and all are taken, runs holding a slot, and whatever its
    result the counter and the nesting are afterwards what they were. *)
Theorem admission_balanced {A} (body : Admission -> A * Admission) a :
  balanced body -> 0 <= depth a ->
  match _admit_transaction body a with
  | None => depth a = 0 /\ exists n, slots a = Some n /\ n <= 0
  | Some (r, a') => a' = a /\ exists inner, r = (body inner).1 /\
      match slots a with
      | None => inner = a
      | Some n => 0 < depth inner /\ (0 <= n -> exists m, slots inner = Some m /\ 0 <= m /\
          m = if depth a =? 0 then n - 1 else n)
      end
  end.
Proof.
  intros Hb Hd. unfold _admit_transaction. destruct a as [[n|] dep]; cbn in *.
  - destruct (Z.eqb_spec dep 0) as [->|Hne]; cbn [negb].
    + destruct (Z.leb_spec n 0); [eauto|]. unfold set_field. cbn.
      destruct (body (mkAdmission (Some (n - 1)) 1)) as [r a'] eqn:E. pose proof (Hb _ _ _ E) as ->. cbn.
      split; [do 2 f_equal; lia|]. exists (mkAdmission (Some (n - 1)) 1). rewrite E. split; [done|].
      split; [done|]. intros _. exists (n - 1). split_and!; [done|lia|done].
    + unfold set_field. cbn. destruct (body (mkAdmission (Some n) (dep + 1))) as [r a'] eqn:E.
      pose proof (Hb _ _ _ E) as ->. cbn. split; [done|].
      exists (mkAdmission (Some n) (dep + 1)). rewrite E. split; [done|]. cbn. split; [lia|].
      intros ?. by exists n.
  - destruct (body (mkAdmission None dep)) as [r a'] eqn:E. pose proof (Hb _ _ _ E) as ->.
    split; [done|]. exists (mkAdmission None dep). by rewrite E.
Qed.

Lemma admission_balanced_witness :
  _admit_transaction (fun a => (depth a, a)) (mkAdmission (Some 3) 0) = Some (1, mkAdmission (Some 3) 0).
Proof.
  assert (Hb : balanced (fun a : Admission => (depth a, a))) by (intros a r a' [= _ <-]; reflexivity).
  pose proof (admission_balanced (fun a => (depth a, a)) (mkAdmission (Some 3) 0) Hb) as H.
  destruct (_admit_transaction (fun a => (depth a, a)) (mkAdmission (Some 3) 0)) as [[r a']|] eqn:E.
  - destruct H as [Ha _]; [discriminate|]. rewrite Ha. cbn in E. injection E as <- _. reflexivity.
  - discriminate E.
Defined.
