(* ===== verification/DeviceListing.v ===== *)
(** * The device list (src/app/services/device_listing.py)

    A page of the devices whose name or host contains the query, in the order of
    the database's collation, and the page links under it.

    A page's items are device identifiers.  [ceil(total_items / page_size)] is a
    float division rounded up; it is exact for any number of rows a table can hold
    in practice (below 2^45), and is written as the integer ceiling. *)

From S2P Require Import Prelude PyText PyDict Models Exceptions.

(** The collation of the database: [ORDER BY] a text column. *)
Class Collation := collate : text -> text -> bool.

Class CollationLaws `{Collation} := {
  collate_total s t : collate s t = true \/ collate t s = true;
  collate_trans s t v : collate s t = true -> collate t v = true -> collate s v = true
}.

Definition ALLOWED_PAGE_SIZES : list Z := [20; 50; 100].

Record DevicePage := mkDevicePage {
  items : list Z;
  query : text;
  page : Z;
  page_size : Z;
  total_items : Z;
  total_pages : Z;
  first_item : Z;
  last_item : Z;
  page_links : list (option Z)
}.

(** ** Page links *)

Definition py_range (start stop : Z) : list Z := seqZ start (stop - start).

(** The loop over [sorted(visible)]. *)
Fixpoint add_links (previous : Z) (visible : list Z) : list (option Z) :=
  match visible with
  | [] => []
  | current :: rest =>
      (if negb (previous =? 0) && (current - previous >? 1) then [None] else [])
      ++ Some current :: add_links current rest
  end.

Definition visible_pages (page total_pages : Z) : gset Z :=
  {[1; total_pages]} ∪
  list_to_set (py_range (Z.max 2 (page - 2)) (Z.min total_pages (page + 2) + 1)).

Definition build_page_links (page total_pages : Z) : list (option Z) :=
  if total_pages <=? 0 then []
  else if total_pages <=? 7 then Some <$> py_range 1 (total_pages + 1)
  else add_links 0 (sorted_ids (visible_pages page total_pages)).

(** ** The page *)

(** [ORDER BY devices.name, devices.id] *)
Definition device_le `{Collation} (d : Db) (i j : Z) : bool :=
  match devices d !! i, devices d !! j with
  | Some x, Some y =>
      let s := device_name x in
      let t := device_name y in
      collate s t && (negb (collate t s) || (i <=? j))
  | _, _ => i <=? j
  end.

(** [Device.name.contains(q, autoescape=True) OR Device.host.contains(...)] *)
Definition device_matches (normalized_query : text) (x : Device) : bool :=
  match normalized_query with
  | [] => true
  | q => contains q (device_name x) || contains q (device_host x)
  end.

Definition matching_devices `{Collation} (normalized_query : text) (d : Db) : list Z :=
  merge_sort (fun i j => Is_true (device_le d i j))
    (elements (select_ids (fun _ x => device_matches normalized_query x) (devices d))).

Definition list_device_page `{Collation} (d : Db) (query : text) (page page_size : Z) :
    result exn DevicePage :=
  if page <? 1 then Raise (ValueError (u "页码必须大于等于 1"))
  else if negb (bool_decide (page_size ∈ ALLOWED_PAGE_SIZES))
  then Raise (ValueError (u "每页数量仅支持 20、50、100"))
  else
    let normalized_query := strip query in
    let total_items :=
      count_where (fun _ x => device_matches normalized_query x) (devices d) in
    let total_pages := if negb (total_items =? 0) then ceil_div total_items page_size else 0 in
    let resolved_page := if negb (total_pages =? 0) then Z.min page total_pages else 1 in
    let items :=
      offset_limit ((resolved_page - 1) * page_size) page_size
        (matching_devices normalized_query d) in
    let first_item := match items with [] => 0 | _ => (resolved_page - 1) * page_size + 1 end in
    let last_item :=
      match items with [] => 0 | _ => first_item + Z.of_nat (length items) - 1 end in
    Ok (mkDevicePage items normalized_query resolved_page page_size total_items total_pages
          first_item last_item (build_page_links resolved_page total_pages)).

(** ** Lemmas on links *)

(** Links in order from page [previous] on: consecutive pages follow each other
    directly, and an ellipsis stands between two pages exactly when pages between
    them are not linked. *)
Inductive spaced : Z -> list (option Z) -> Prop :=
| spaced_end p : spaced p []
| spaced_next p l : spaced (p + 1) l -> spaced p (Some (p + 1) :: l)
| spaced_gap p q l : p + 1 < q -> spaced q l -> spaced p (None :: Some q :: l).

Lemma add_links_spaced p l :
  p ≠ 0 -> Forall (Z.lt p) l -> Forall (Z.lt 0) l -> StronglySorted Z.lt l -> spaced p (add_links p l).
Proof.
  revert p. induction l as [|q l IH]; intros p Hp Hlt Hpos Hs; cbn [add_links]; [constructor|].
  inversion Hlt as [|? ? Hq ?]; inversion Hpos as [|? ? Hq0 ?]; inversion Hs as [|? ? Hs' Hql]; subst.
  destruct (Z.eqb_spec p 0); [done|]. cbn [negb andb].
  assert (spaced q (add_links q l)) by (apply IH; auto; lia).
  rewrite Z.gtb_ltb. destruct (Z.ltb_spec 1 (q - p)); cbn [app].
  - constructor; [lia|done].
  - replace q with (p + 1) in * by lia. by constructor.
Qed.

Lemma add_links_omap p l : omap id (add_links p l) = l.
Proof.
  revert p. induction l as [|q l IH]; intros p; cbn; [done|].
  destruct (negb (p =? 0) && (q - p >? 1)); cbn; by rewrite IH.
Qed.

Lemma elem_of_links_omap (l : list (option Z)) q : Some q ∈ l <-> q ∈ omap id l.
Proof.
  rewrite list_elem_of_omap. split; [intros H; by exists (Some q)|by intros ([] & ? & [= ->])].
Qed.

Lemma elem_of_py_range a b q : q ∈ py_range a b <-> a <= q < b.
Proof. unfold py_range. rewrite elem_of_seqZ. lia. Qed.

Lemma elem_of_visible p n q :
  q ∈ visible_pages p n <-> q = 1 \/ q = n \/ (2 <= q /\ p - 2 <= q <= p + 2 /\ q <= n).
Proof.
  unfold visible_pages. rewrite elem_of_union, elem_of_union, !elem_of_singleton, elem_of_list_to_set,
    elem_of_py_range. lia.
Qed.

Lemma spaced_seqZ p k : spaced p (Some <$> seqZ (p + 1) (Z.of_nat k)).
Proof.
  revert p. induction k as [|k IH]; intros p; [constructor|].
  rewrite seqZ_cons by lia. cbn. constructor. replace (Z.pred (Z.of_nat (S k))) with (Z.of_nat k) by lia.
  replace (Z.succ (p + 1)) with (p + 1 + 1) by lia. apply IH.
Qed.

Lemma page_links_spaced p n : 1 <= p <= n -> spaced 0 (build_page_links p n).
Proof.
  intros Hp. unfold build_page_links. destruct (Z.leb_spec n 0); [lia|].
  destruct (Z.leb_spec n 7).
  { unfold py_range. replace (n + 1 - 1) with (Z.of_nat (Z.to_nat n)) by lia. apply (spaced_seqZ 0). }
  pose proof (sorted_ids_StronglySorted (visible_pages p n)) as Hs.
  assert (H1 : 1 ∈ sorted_ids (visible_pages p n)) by (apply elem_of_sorted_ids, elem_of_visible; lia).
  assert (Hge : Forall (Z.le 1) (sorted_ids (visible_pages p n))).
  { apply Forall_forall. intros q. rewrite elem_of_sorted_ids, elem_of_visible. lia. }
  revert Hs H1 Hge. generalize (sorted_ids (visible_pages p n)). intros [|q l] Hs H1 Hge.
  { by apply elem_of_nil in H1. }
  inversion Hs as [|? ? Hs' Hlt]; inversion Hge as [|? ? Hq Hge']; subst.
  assert (q = 1) as ->.
  { apply elem_of_cons in H1 as [?|H1]; [done|]. rewrite Forall_forall in Hlt. specialize (Hlt 1 H1). lia. }
  cbn [add_links]. cbn [Z.eqb negb andb app]. constructor 2. apply add_links_spaced; [lia|done| |done].
  eapply Forall_impl; [exact Hge'|]. cbn. lia.
Qed.

Lemma elem_of_page_links p n q :
  1 <= p <= n ->
  Some q ∈ build_page_links p n <->
  1 <= q <= n /\ (n <= 7 \/ q = 1 \/ q = n \/ Z.abs (q - p) <= 2).
Proof.
  intros Hp. unfold build_page_links. destruct (Z.leb_spec n 0); [lia|].
  destruct (Z.leb_spec n 7).
  - rewrite list_elem_of_fmap. setoid_rewrite elem_of_py_range. split.
    + intros (? & [= <-] & ?). lia.
    + intros ?. exists q. split; [done|lia].
  - rewrite elem_of_links_omap, add_links_omap, elem_of_sorted_ids, elem_of_visible. lia.
Qed.

(** ** Lemmas on pages *)

Section pages.
Context `{CollationLaws} (d : Db).

Lemma device_le_total i j : device_le d i j = true \/ device_le d j i = true.
Proof.
  unfold device_le. destruct (devices d !! i) as [x|], (devices d !! j) as [y|]; try lia.
  destruct (collate_total (device_name x) (device_name y)) as [E|E]; rewrite E; clear E;
    destruct (collate _ _); cbn [negb orb andb]; rewrite ?Z.leb_le; first [by left|by right|lia].
Qed.

Lemma matching_devices_Permutation q :
  matching_devices q d ≡ₚ elements (select_ids (fun _ x => device_matches q x) (devices d)).
Proof. apply merge_sort_Permutation. Qed.

Lemma elem_of_matching q i :
  i ∈ matching_devices q d <-> exists x, devices d !! i = Some x /\ device_matches q x = true.
Proof. rewrite matching_devices_Permutation, elem_of_elements. apply (elem_of_select_ids (fun _ x => device_matches q x)). Qed.

Lemma NoDup_matching q : NoDup (matching_devices q d).
Proof. rewrite matching_devices_Permutation. apply NoDup_elements. Qed.

Lemma length_matching q :
  Z.of_nat (length (matching_devices q d)) = count_where (fun _ x => device_matches q x) (devices d).
Proof. by rewrite matching_devices_Permutation. Qed.

Lemma device_le_trans q i j k :
  i ∈ matching_devices q d -> j ∈ matching_devices q d -> k ∈ matching_devices q d ->
  device_le d i j = true -> device_le d j k = true -> device_le d i k = true.
Proof.
  rewrite !elem_of_matching. intros (x & Hx & _) (y & Hy & _) (z & Hz & _).
  unfold device_le. rewrite Hx, Hy, Hz.
  rewrite !andb_true_iff, !orb_true_iff, !negb_true_iff, !Z.leb_le.
  intros [H1 H2] [H3 H4]. split; [by eapply collate_trans|].
  destruct (collate (device_name z) (device_name x)) eqn:E; [right|by left].
  pose proof (collate_trans _ _ _ E H1) as E1. pose proof (collate_trans _ _ _ H3 E) as E2.
  destruct H2, H4; try congruence. lia.
Qed.

Lemma matching_sorted q : StronglySorted (fun i j => device_le d i j = true) (matching_devices q d).
Proof.
  apply (Sorted_StronglySorted_on _ (fun i => i ∈ matching_devices q d)).
  - apply device_le_trans.
  - by apply Forall_forall.
  - apply (Sorted_impl (fun i j => Is_true (device_le d i j))); [intros i j; by rewrite Is_true_true|].
    apply Sorted_merge_sort.
    intros i j. destruct (device_le_total i j) as [->| ->]; [by left|by right].
Qed.

End pages.

(** ** The guarantees *)

(** The page links are complete and well spaced: for a page of [total_pages],
    the links are in ascending order from 1, consecutive linked pages stand next to
    each other, an ellipsis stands exactly where pages are left out, and the linked
    pages are the first, the last and those at most two away (all of them when there
    are at most seven). *)
Theorem page_links_complete page total_pages :
  1 <= page <= total_pages ->
  spaced 0 (build_page_links page total_pages) /\
  forall q, Some q ∈ build_page_links page total_pages <->
    1 <= q <= total_pages /\
    (total_pages <= 7 \/ q = 1 \/ q = total_pages \/ Z.abs (q - page) <= 2).
Proof. intros H. split; [by apply page_links_spaced|intros q; by apply elem_of_page_links]. Qed.

Lemma page_links_complete_witness :
  build_page_links 6 12 = [Some 1; None; Some 4; Some 5; Some 6; Some 7; Some 8; None; Some 12] /\
  spaced 0 (build_page_links 6 12).
Proof. split; [vm_compute; reflexivity|]. apply (page_links_complete 6 12). lia. Defined.

(** The items of page [k], as a client sees them. *)
Definition page_items `{Collation} (d : Db) (query : text) (page_size k : Z) : list Z :=
  match list_device_page d query k page_size with Ok p => items p | Raise _ => [] end.

Lemma allowed_page_size s : s ∈ ALLOWED_PAGE_SIZES -> 0 < s.
Proof. unfold ALLOWED_PAGE_SIZES. rewrite !elem_of_cons, elem_of_nil. lia. Qed.

Lemma page_items_eq `{Collation} d q s k :
  s ∈ ALLOWED_PAGE_SIZES ->
  1 <= k <= page_count (Z.of_nat (length (matching_devices (strip q) d))) s ->
  page_items d q s k = offset_limit ((k - 1) * s) s (matching_devices (strip q) d).
Proof.
  intros Hs Hk. rewrite length_matching in Hk. unfold page_items, list_device_page, page_count in *.
  destruct (Z.ltb_spec k 1); [lia|]. rewrite bool_decide_true by done. cbn [negb items].
  set (n := count_where _ _) in *. destruct (Z.eqb_spec n 0); cbn [negb] in *; [lia|].
  destruct (Z.eqb_spec (ceil_div n s) 0); cbn [negb]; [lia|]. by rewrite Z.min_l by lia.
Qed.

(** Paging loses and repeats nothing: the pages of a query, one after the
    other, are the devices whose name or host contains it, each exactly once, in the
    order of the collation and of identifiers under equal names. *)
Theorem device_pages_partition `{CollationLaws} d q s :
  s ∈ ALLOWED_PAGE_SIZES ->
  let m := matching_devices (strip q) d in
  concat (page_items d q s <$> seqZ 1 (page_count (Z.of_nat (length m)) s)) = m /\
  StronglySorted (fun i j => device_le d i j = true) m /\ NoDup m /\
  forall i, i ∈ m <-> exists x, devices d !! i = Some x /\ device_matches (strip q) x = true.
Proof.
  intros Hs m. split; [|split_and!; [apply matching_sorted|apply NoDup_matching|apply elem_of_matching]].
  pose proof (allowed_page_size s Hs) as Hpos.
  rewrite (list_fmap_ext _ (fun k => offset_limit ((k - 1) * s) s m)); [by apply concat_pages|].
  intros i k [-> Hk]%lookup_seqZ. apply page_items_eq; [done|]. fold m. lia.
Qed.

(** What a request for a page returns, on every branch: a bad page number or page
    size is a [ValueError]; a page number past the end is the last page; the page
    holds [page_size] items, or what is left for the last one; and [first_item] and
    [last_item] are the positions of its items in the whole result (0 when empty). *)
Theorem device_page_outcome `{Collation} d q k s :
  let m := matching_devices (strip q) d in
  let n := Z.of_nat (length m) in
  match list_device_page d q k s with
  | Raise e => (k < 1 \/ (s ∉ ALLOWED_PAGE_SIZES)) /\ exists message, e = ValueError message
  | Ok p => 1 <= k /\ s ∈ ALLOWED_PAGE_SIZES /\ total_items p = n /\ total_pages p = page_count n s /\
      page p = Z.min k (Z.max 1 (page_count n s)) /\ query p = strip q /\
      items p = offset_limit (first_item p - 1) (last_item p - first_item p + 1) m /\
      (n = 0 -> items p = [] /\ first_item p = 0 /\ last_item p = 0) /\
      (n ≠ 0 -> first_item p = (page p - 1) * s + 1 /\ last_item p = Z.min n (page p * s) /\
         first_item p <= last_item p)
  end.
Proof.
  intros m n. unfold list_device_page. destruct (Z.ltb_spec k 1); [split; [by left|eauto]|].
  case_bool_decide as Hs; cbn [negb]; [|split; [by right|eauto]].
  rewrite <- length_matching. fold m n. fold (page_count n s).
  pose proof (allowed_page_size s Hs) as Hpos. cbn.
  pose proof (page_count_0 n s Hpos ltac:(lia)) as Hzero.
  assert (Hlen : n ≠ 0 -> s * (page_count n s - 1) < n <= s * page_count n s).
  { unfold page_count. destruct (Z.eqb_spec n 0); [done|]. intros _. by apply ceil_div_bounds. }
  destruct (Z.eqb_spec (page_count n s) 0) as [E|E]; cbn [negb].
  - assert (Em : m = []) by (apply length_zero_iff_nil; lia). rewrite Em, E. unfold offset_limit.
    rewrite !drop_nil, !take_nil. cbn. split_and!; done || lia.
  - specialize (Hlen ltac:(lia)). set (r := Z.min k (page_count n s)).
    assert (Hr : 1 <= r <= page_count n s) by lia.
    assert (Hl : Z.of_nat (length (offset_limit ((r - 1) * s) s m)) = Z.min s (n - (r - 1) * s)).
    { unfold offset_limit. rewrite length_take, length_drop. nia. }
    destruct (offset_limit ((r - 1) * s) s m) as [|i l] eqn:El; [cbn in Hl; nia|].
    rewrite <- El in *. split_and!; try done; try nia.
    rewrite Hl. unfold offset_limit.
    replace (Z.to_nat ((r - 1) * s + 1 - 1)) with (Z.to_nat ((r - 1) * s)) by lia.
    destruct (Z.min_spec s (n - (r - 1) * s)) as [[? ->]|[? ->]]; [f_equal; lia|].
    rewrite !take_ge; [done|..]; rewrite length_drop; lia.
Qed.

(** ** A concrete instance *)

(** The "C" collation compares code points. *)
Lemma codepoint_le_laws : @CollationLaws codepoint_le.
Proof. split; [apply codepoint_le_total|apply codepoint_le_trans]. Qed.

Definition named_device (name : text) : Device :=
  mkDevice name (u "10.0.0.1") LINUX 22 (u "root") (u "secret") None 5 true true None None None 0 0.

Definition listed : Db :=
  empty_db <| devices := list_to_map [(1, named_device (u "web-2")); (2, named_device (u "db-1"));
                                      (3, named_device (u "web-1")); (4, named_device (u "web-1"))] |>.

Lemma device_pages_partition_witness :
  @matching_devices codepoint_le (u "web") listed = [3; 4; 1] /\
  concat (@page_items codepoint_le listed (u " web ") 20 <$> seqZ 1 1) = [3; 4; 1].
Proof.
  pose proof codepoint_le_laws as laws.
  assert (E : @matching_devices codepoint_le (strip (u " web ")) listed = [3; 4; 1]) by (vm_compute; reflexivity).
  split; [vm_compute; reflexivity|].
  destruct (@device_pages_partition codepoint_le laws listed (u " web ") 20) as [H _].
  - apply list_elem_of_here.
  - cbv zeta in H. rewrite E in H. exact H.
Defined.
