(* ===== verification/Retention.v ===== *)
(** * Retention (src/app/services/retention.py and the purges of
    src/app/services/scheduler.py)

    Which policy a device's history follows, and the two purges: expired scans with
    everything that hangs off them, and raw connection rows.  A purge works in chunks,
    each its own transaction; the model runs the chunks one after the other.  The
    loops take fuel; the theorems show that the number of scans and one more is
    enough. *)

From S2P Require Import Prelude PyText Models.

(** ** Policies *)

Inductive RetentionSource := FROM_DEVICE | FROM_CLUSTER | FROM_SYSTEM.

Record RetentionPolicy := mkRetentionPolicy {
  days : Z;
  source : RetentionSource
}.

Definition resolve_device_retention (device : Device) (cluster : option Cluster) (system_days : Z) :
    RetentionPolicy :=
  match device_history_retention_days device with
  | Some n => mkRetentionPolicy n FROM_DEVICE
  | None =>
      match cluster with
      | Some c =>
          match cluster_history_retention_days c with
          | Some n => mkRetentionPolicy n FROM_CLUSTER
          | None => mkRetentionPolicy system_days FROM_SYSTEM
          end
      | None => mkRetentionPolicy system_days FROM_SYSTEM
      end
  end.

(** [device.cluster] *)
Definition cluster_of (d : Db) (device : Device) : option Cluster :=
  match device_cluster_id device with Some c => clusters d !! c | None => None end.

Definition day : Z := 24 * 60 * 60 * 1000000.

(** ** Deleting scans: the foreign keys cascade to connections and observations, and
    clear the reference of a scan task *)

Definition delete_scan_runs (ids : gset Z) (d : Db) : Db :=
  d <| scan_runs := where_ (fun i _ => bool_decide (i ∉ ids)) (scan_runs d) |>
    <| connection_records :=
         where_ (fun _ c => bool_decide (conn_scan_run_id c ∉ ids)) (connection_records d) |>
    <| observations := where_ (fun _ o => bool_decide (obs_scan_run_id o ∉ ids)) (observations d) |>
    <| scan_tasks :=
         update_where (fun _ t => match task_scan_run_id t with
                                  | Some i => bool_decide (i ∈ ids)
                                  | None => false
                                  end)
           (fun t => t <| task_scan_run_id := None |>) (scan_tasks d) |>.

(** [_delete_scans_in_chunks]: [None] when the fuel runs out. *)
Fixpoint _delete_scans_in_chunks (fuel : nat) (conditions : Z -> ScanRun -> bool) (chunk_size : Z)
    (deleted : Z) (d : Db) : option (Z * Db) :=
  match fuel with
  | O => None
  | S fuel =>
      match take (Z.to_nat chunk_size) (sorted_ids (select_ids conditions (scan_runs d))) with
      | [] => Some (deleted, d)
      | scan_ids =>
          _delete_scans_in_chunks fuel conditions chunk_size
            (deleted + Z.of_nat (length scan_ids)) (delete_scan_runs (list_to_set scan_ids) d)
      end
  end.

(** [groups[policy.days].append(device.id)] on a [defaultdict(list)] *)
Fixpoint add_to_group (n i : Z) (groups : list (Z * list Z)) : list (Z * list Z) :=
  match groups with
  | [] => [(n, [i])]
  | (n', ids) :: rest =>
      if n =? n' then (n', ids ++ [i]) :: rest else (n', ids) :: add_to_group n i rest
  end.

Definition retention_groups (d : Db) (system_days : Z) (listed : list (Z * Device)) :
    list (Z * list Z) :=
  foldl (fun groups p =>
           add_to_group (days (resolve_device_retention p.2 (cluster_of d p.2) system_days)) p.1 groups)
    [] listed.

(** [ScanRun.device_id.in_(device_ids), ScanRun.started_at < cutoff] *)
Definition in_group (device_ids : list Z) (cutoff : Z) (_ : Z) (r : ScanRun) : bool :=
  bool_decide (run_device_id r ∈ device_ids) && (run_started_at r <? cutoff).

Fixpoint purge_groups (fuel : nat) (reference chunk_size : Z) (groups : list (Z * list Z))
    (deleted : Z) (d : Db) : option (Z * Db) :=
  match groups with
  | [] => Some (deleted, d)
  | (retention_days, device_ids) :: groups =>
      let cutoff := reference - retention_days * day in
      match _delete_scans_in_chunks fuel (in_group device_ids cutoff) chunk_size 0 d with
      | None => None
      | Some (n, d) => purge_groups fuel reference chunk_size groups (deleted + n) d
      end
  end.

(** [listed]: the devices in the order the database lists them. *)
Definition purge_expired_scans (fuel : nat) (system_days reference chunk_size : Z)
    (listed : list (Z * Device)) (d : Db) : option (Z * Db) :=
  match purge_groups fuel reference chunk_size (retention_groups d system_days listed) 0 d with
  | None => None
  | Some (deleted, d) =>
      Some (deleted, if negb (deleted =? 0) then notify_topology_changed d else d)
  end.

(** ** Raw connection rows *)

Definition RAW_RETENTION_KEPT_SCANS_PER_DEVICE : Z := 2.

Definition run_success (r : ScanRun) : bool := bool_decide (run_status r = SCAN_SUCCESS).

(** [(started_at DESC, id DESC)]: [j] comes before [i] in its device's ranking. *)
Definition ranked_before (j : Z) (s : ScanRun) (i : Z) (r : ScanRun) : bool :=
  (run_started_at r <? run_started_at s) || ((run_started_at s =? run_started_at r) && (i <? j)).

(** [row_number()] of a successful scan among those of its device. *)
Definition position (runs : gmap Z ScanRun) (i : Z) (r : ScanRun) : Z :=
  1 + count_where (fun j s => run_success s && (run_device_id s =? run_device_id r) &&
                              ranked_before j s i r) runs.

Definition kept_scan (runs : gmap Z ScanRun) (i : Z) (r : ScanRun) : bool :=
  run_success r && (position runs i r <=? RAW_RETENTION_KEPT_SCANS_PER_DEVICE).

Definition raw_purgeable (runs : gmap Z ScanRun) (cutoff last_scan_id i : Z) (r : ScanRun) : bool :=
  (run_started_at r <? cutoff) && (last_scan_id <? i) && negb (kept_scan runs i r).

(** [DELETE FROM connection_records WHERE scan_run_id IN scan_ids], with its row count. *)
Definition delete_connections (scan_ids : gset Z) (d : Db) : Z * Db :=
  (count_where (fun _ c => bool_decide (conn_scan_run_id c ∈ scan_ids)) (connection_records d),
   d <| connection_records :=
          where_ (fun _ c => bool_decide (conn_scan_run_id c ∉ scan_ids)) (connection_records d) |>).

Fixpoint purge_raw_loop (fuel : nat) (cutoff chunk_size last_scan_id deleted : Z) (d : Db) :
    option (Z * Db) :=
  match fuel with
  | O => None
  | S fuel =>
      match take (Z.to_nat chunk_size)
              (sorted_ids (select_ids (raw_purgeable (scan_runs d) cutoff last_scan_id) (scan_runs d)))
      with
      | [] => Some (deleted, d)
      | scan_ids =>
          let '(n, d) := delete_connections (list_to_set scan_ids) d in
          purge_raw_loop fuel cutoff chunk_size (List.last scan_ids 0) (deleted + n) d
      end
  end.

Definition purge_raw_connection_records (fuel : nat) (raw_days reference chunk_size : Z) (d : Db) :
    option (Z * Db) :=
  purge_raw_loop fuel (reference - raw_days * day) chunk_size 0 0 d.

(** [_purge_history]: the daily job.  The setting is read first; each purge reads the clock
    for itself.  The answer counts connection rows and scans. *)
Definition _purge_history (fuel : nat) (raw_days chunk_size raw_reference reference : Z)
    (listed : list (Z * Device)) (d : Db) : option (Z * Z * Db) :=
  let system_days := default 7 (system_setting d) in
  match purge_raw_connection_records fuel raw_days raw_reference chunk_size d with
  | None => None
  | Some (raw_deleted, d) =>
      match purge_expired_scans fuel system_days reference chunk_size listed d with
      | None => None
      | Some (deleted, d) => Some (raw_deleted, deleted, d)
      end
  end.

(** ** Deleting in chunks is deleting at once *)

Lemma where_where {A} (P Q : Z -> A -> bool) (m : gmap Z A) :
  where_ P (where_ Q m) = where_ (fun i x => P i x && Q i x) m.
Proof.
  apply map_eq. intros i. apply option_eq. intros x. rewrite !lookup_where, andb_true_iff. naive_solver.
Qed.

Lemma where_ext {A} (P Q : Z -> A -> bool) (m : gmap Z A) :
  (forall i x, m !! i = Some x -> P i x = Q i x) -> where_ P m = where_ Q m.
Proof.
  intros H. apply map_eq. intros i. apply option_eq. intros x. rewrite !lookup_where.
  split; intros [Hx Hp]; split; try done; by rewrite <- Hp, (H i x Hx).
Qed.

Lemma where_all {A} (P : Z -> A -> bool) (m : gmap Z A) :
  (forall i x, m !! i = Some x -> P i x = true) -> where_ P m = m.
Proof.
  intros H. apply map_eq. intros i. apply option_eq. intros x. rewrite lookup_where. naive_solver.
Qed.

Lemma delete_scan_runs_union X Y d :
  delete_scan_runs Y (delete_scan_runs X d) = delete_scan_runs (X ∪ Y) d.
Proof.
  apply Db_ext; try reflexivity; cbn.
  - rewrite where_where. apply where_ext. intros i x _. rewrite <- bool_decide_and. apply bool_decide_ext. set_solver.
  - apply map_eq. intros i. rewrite !lookup_update_where. destruct (_ !! i) as [t|]; [|done]. cbn.
    destruct (task_scan_run_id t) as [r|] eqn:Er; [|by rewrite Er].
    destruct (bool_decide_reflect (r ∈ X)) as [Hx|Hx]; cbn.
    + by rewrite bool_decide_true by set_solver.
    + rewrite Er. f_equal. by rewrite (bool_decide_ext (r ∈ X ∪ Y) (r ∈ Y)) by set_solver.
  - rewrite where_where. apply where_ext. intros i x _. rewrite <- bool_decide_and. apply bool_decide_ext. set_solver.
  - rewrite where_where. apply where_ext. intros i x _. rewrite <- bool_decide_and. apply bool_decide_ext. set_solver.
Qed.

Lemma delete_scan_runs_empty d : delete_scan_runs ∅ d = d.
Proof.
  apply Db_ext; try reflexivity; cbn.
  1,3,4: apply where_all; intros; apply bool_decide_true; set_solver.
  apply update_where_none. intros i t _. destruct (task_scan_run_id t); [|done].
  apply bool_decide_false. set_solver.
Qed.

Lemma select_ids_deleted P X d :
  select_ids P (scan_runs (delete_scan_runs X d)) = select_ids P (scan_runs d) ∖ X.
Proof.
  apply set_eq. intros i. rewrite elem_of_difference, !elem_of_select_ids. cbn. setoid_rewrite lookup_where.
  setoid_rewrite bool_decide_eq_true. naive_solver.
Qed.

(** A chunk of a set of identifiers: nothing only when the set is empty. *)
Lemma chunk_spec (n : Z) (X : gset Z) :
  0 < n ->
  match take (Z.to_nat n) (sorted_ids X) with
  | [] => X = ∅
  | ids => NoDup ids /\ list_to_set ids ⊆ X /\ Z.of_nat (length ids) = Z.of_nat (size (list_to_set ids : gset Z)) /\
      (size (X ∖ list_to_set ids) < size X)%nat
  end.
Proof.
  intros Hn. pose proof (list_to_set_sorted_ids X) as HX. pose proof (NoDup_sorted_ids X) as Hnd.
  destruct (take (Z.to_nat n) (sorted_ids X)) as [|i ids] eqn:E.
  { destruct (sorted_ids X) as [|j l]; [done|]. destruct (Z.to_nat n) eqn:En; [lia|done]. }
  rewrite <- E. set (l := take (Z.to_nat n) (sorted_ids X)) in *.
  assert (Hl : NoDup l) by (eapply sublist_NoDup; [exact Hnd|apply sublist_take]).
  assert (Hsub : (list_to_set l : gset Z) ⊆ X).
  { rewrite <- HX. intros j. rewrite !elem_of_list_to_set. intros (k & Hk & _)%elem_of_take. by eapply list_elem_of_lookup_2. }
  split_and!; [done|done|by rewrite size_list_to_set|].
  rewrite size_difference by done. rewrite size_list_to_set by done.
  assert (length l <= size X)%nat.
  { rewrite <- (size_list_to_set (C := gset Z) l) by done. by apply subseteq_size. }
  rewrite E in *. cbn [length] in *. lia.
Qed.

Lemma delete_chunks_spec fuel P n deleted d :
  0 < n -> (size (select_ids P (scan_runs d)) < fuel)%nat ->
  _delete_scans_in_chunks fuel P n deleted d =
    Some (deleted + count_where P (scan_runs d), delete_scan_runs (select_ids P (scan_runs d)) d).
Proof.
  intros Hn. revert deleted d. induction fuel as [|fuel IH]; intros deleted d Hf; [lia|].
  cbn [_delete_scans_in_chunks]. unfold count_where. set (X := select_ids P (scan_runs d)) in *.
  pose proof (chunk_spec n X Hn) as Hc.
  destruct (take (Z.to_nat n) (sorted_ids X)) as [|i ids].
  { rewrite Hc. by rewrite size_empty, Z.add_0_r, delete_scan_runs_empty. }
  destruct Hc as (_ & Hsub & Hlen & Hlt).
  set (C := list_to_set (i :: ids) : gset Z). fold C in Hsub, Hlen, Hlt |- *.
  rewrite IH; rewrite select_ids_deleted; fold X; [|lia].
  unfold count_where. rewrite select_ids_deleted. fold X. rewrite delete_scan_runs_union, Hlen.
  rewrite <- union_difference_L by done. rewrite size_difference by done.
  pose proof (subseteq_size C X Hsub). do 2 f_equal. lia.
Qed.

(** ** Purging group by group is purging every expired scan *)

(** Scans whose device's policy no longer keeps them. *)
Definition expired_scan (d : Db) (system_days reference : Z) (_ : Z) (r : ScanRun) : bool :=
  match devices d !! run_device_id r with
  | Some device =>
      run_started_at r <?
        reference - days (resolve_device_retention device (cluster_of d device) system_days) * day
  | None => false
  end.

Lemma add_to_group_spec n i groups n' j :
  (exists ids, (n', ids) ∈ add_to_group n i groups /\ j ∈ ids) <->
  (n' = n /\ j = i) \/ exists ids, (n', ids) ∈ groups /\ j ∈ ids.
Proof.
  induction groups as [|[m ids] rest IH]; cbn [add_to_group].
  - setoid_rewrite elem_of_nil. setoid_rewrite list_elem_of_singleton. split.
    + intros (ids & [= -> ->] & Hj). rewrite list_elem_of_singleton in Hj. by left.
    + intros [[-> ->]|(? & [] & _)]. exists [i]. by rewrite list_elem_of_singleton.
  - setoid_rewrite elem_of_cons. destruct (Z.eqb_spec n m) as [->|].
    + setoid_rewrite elem_of_cons. split.
      * intros (ids' & [[= -> ->]|H] & Hj); [|eauto 6].
        apply elem_of_app in Hj as [Hj|Hj%list_elem_of_singleton]; eauto 6.
      * intros [[-> ->]|(ids' & [[= -> ->]|H] & Hj)]; [| |eauto].
        -- exists (ids ++ [i]). rewrite elem_of_app, list_elem_of_singleton. eauto.
        -- exists (ids ++ [i]). rewrite elem_of_app. eauto.
    + setoid_rewrite elem_of_cons. split.
      * intros (ids' & [[= -> ->]|H] & Hj); [eauto 6|].
        destruct (proj1 IH) as [?|(ids'' & ? & ?)]; eauto 6.
      * intros [H|(ids' & [[= -> ->]|H] & Hj)]; [|eauto|].
        -- destruct (proj2 IH (or_introl H)) as (ids' & ? & ?). eauto.
        -- destruct (proj2 IH) as (ids'' & ? & ?); eauto.
Qed.

Lemma retention_groups_spec d system_days listed n j :
  (exists ids, (n, ids) ∈ retention_groups d system_days listed /\ j ∈ ids) <->
  exists device, (j, device) ∈ listed /\
    days (resolve_device_retention device (cluster_of d device) system_days) = n.
Proof.
  unfold retention_groups.
  assert (H : forall groups,
    (exists ids, (n, ids) ∈ foldl (fun groups p => add_to_group
        (days (resolve_device_retention p.2 (cluster_of d p.2) system_days)) p.1 groups) groups listed /\ j ∈ ids) <->
    (exists device, (j, device) ∈ listed /\
       days (resolve_device_retention device (cluster_of d device) system_days) = n) \/
    exists ids, (n, ids) ∈ groups /\ j ∈ ids).
  2:{ rewrite H. setoid_rewrite elem_of_nil. naive_solver. }
  induction listed as [|[i device] listed IH]; intros groups; cbn [foldl].
  { setoid_rewrite elem_of_nil. naive_solver. }
  rewrite IH, add_to_group_spec. setoid_rewrite elem_of_cons. cbn [fst snd]. split.
  - intros [(dev & ? & ?)|[[-> ->]|?]]; [left; eauto|left; eauto|by right].
  - intros [(dev & [[= -> ->]|?] & <-)|?]; [right; by left|left; eauto|right; by right].
Qed.

Definition group_ids (reference : Z) (groups : list (Z * list Z)) (d : Db) : gset Z :=
  ⋃ ((fun g => select_ids (in_group g.2 (reference - g.1 * day)) (scan_runs d)) <$> groups).

Lemma group_ids_deleted reference groups X d :
  group_ids reference groups (delete_scan_runs X d) = group_ids reference groups d ∖ X.
Proof.
  unfold group_ids. induction groups as [|g groups IH]; [cbn; set_solver|].
  rewrite !fmap_cons, !union_list_cons, IH, select_ids_deleted. set_solver.
Qed.

Lemma size_scan_runs_select P d : (size (select_ids P (scan_runs d)) <= size (scan_runs d))%nat.
Proof.
  rewrite <- size_dom. apply subseteq_size. intros i (x & Hx & _)%elem_of_select_ids.
  by apply elem_of_dom_2 in Hx.
Qed.

Lemma size_scan_runs_deleted X d : (size (scan_runs (delete_scan_runs X d)) <= size (scan_runs d))%nat.
Proof.
  rewrite <- !size_dom. apply subseteq_size. intros i [x Hx]%elem_of_dom.
  cbn in Hx. apply lookup_where in Hx as [Hx _]. by apply elem_of_dom_2 in Hx.
Qed.

Lemma purge_groups_spec fuel reference n groups deleted d :
  0 < n -> (size (scan_runs d) < fuel)%nat ->
  purge_groups fuel reference n groups deleted d =
    Some (deleted + Z.of_nat (size (group_ids reference groups d)),
          delete_scan_runs (group_ids reference groups d) d).
Proof.
  intros Hn. revert deleted d. induction groups as [|[days ids] groups IH]; intros deleted d Hf; cbn [purge_groups].
  { unfold group_ids. cbn. by rewrite Z.add_0_r, delete_scan_runs_empty. }
  rewrite delete_chunks_spec by (done || pose proof (size_scan_runs_select (in_group ids (reference - days * day)) d); lia).
  set (X := select_ids _ _). rewrite IH by (pose proof (size_scan_runs_deleted X d); lia).
  rewrite group_ids_deleted, delete_scan_runs_union.
  change (group_ids reference ((days, ids) :: groups) d) with (X ∪ group_ids reference groups d).
  set (G := group_ids reference groups d). assert (HU : X ∪ G = X ∪ G ∖ X).
  { apply set_eq. intros i. destruct (decide (i ∈ X)); set_solver. }
  rewrite HU. unfold count_where. fold X.
  pose proof (size_union X (G ∖ X) ltac:(set_solver)) as ->. do 2 f_equal. lia.
Qed.

Lemma group_ids_expired d system_days reference listed :
  listed ≡ₚ map_to_list (devices d) ->
  group_ids reference (retention_groups d system_days listed) d =
    select_ids (expired_scan d system_days reference) (scan_runs d).
Proof.
  intros Hl. apply set_eq. intros i. unfold group_ids. rewrite elem_of_union_list, elem_of_select_ids.
  setoid_rewrite list_elem_of_fmap. unfold expired_scan. split.
  - intros (X & ([n ids] & -> & Hg) & (r & Hr & Hin)%elem_of_select_ids). exists r. split; [done|].
    unfold in_group in Hin. cbn in Hin. apply andb_true_iff in Hin as [Hid%bool_decide_eq_true Hlt].
    destruct (proj1 (retention_groups_spec d system_days listed n (run_device_id r))) as (dev & Hdev & <-); [eauto|].
    rewrite Hl, elem_of_map_to_list in Hdev. by rewrite Hdev.
  - intros (r & Hr & Hlt). destruct (devices d !! run_device_id r) as [dev|] eqn:Hdev; [|done].
    destruct (proj2 (retention_groups_spec d system_days listed
      (days (resolve_device_retention dev (cluster_of d dev) system_days)) (run_device_id r))) as (ids & Hg & Hid).
    { exists dev. by rewrite Hl, elem_of_map_to_list. }
    eexists. split; [eexists; split; [reflexivity|exact Hg]|]. apply elem_of_select_ids. exists r.
    split; [done|]. unfold in_group. cbn. by rewrite bool_decide_true.
Qed.

(** ** The watermark loop deletes the rows of every purgeable scan *)

Lemma StronglySorted_app_inv {A} (R : A -> A -> Prop) l1 l2 x y :
  StronglySorted R (l1 ++ l2) -> x ∈ l1 -> y ∈ l2 -> R x y.
Proof.
  induction l1 as [|z l1 IH]; [by intros _ ?%elem_of_nil|]. cbn. intros Hs [->|Hx]%elem_of_cons Hy;
    inversion Hs as [|? ? Hs' Hall]; subst; [|by apply IH].
  rewrite Forall_forall in Hall. apply Hall. rewrite elem_of_app. by right.
Qed.

Lemma List_last_snoc {A} (l : list A) x (z : A) : List.last (l ++ [x]) z = x.
Proof. apply List.last_last. Qed.

(** The part of a set after the last element of a chunk is what the chunk leaves. *)
Lemma chunk_last (n : Z) (X : gset Z) i ids :
  take (Z.to_nat n) (sorted_ids X) = i :: ids ->
  forall j, j ∈ X -> List.last (i :: ids) 0 < j <-> j ∉ (list_to_set (i :: ids) : gset Z).
Proof.
  intros E j Hj. pose proof (sorted_ids_StronglySorted X) as Hs.
  rewrite <- (take_drop (Z.to_nat n) (sorted_ids X)), E in Hs.
  destruct (exists_last (l := i :: ids) ltac:(done)) as (l & x & El). rewrite El in *.
  rewrite List_last_snoc, elem_of_list_to_set. split.
  - intros Hlt Hin. apply elem_of_app in Hin as [Hin|Hin%list_elem_of_singleton]; [|lia].
    rewrite <- app_assoc in Hs. assert (j < x) by (apply (StronglySorted_app_inv _ _ _ _ _ Hs Hin); set_solver). lia.
  - intros Hin. apply (StronglySorted_app_inv _ _ _ _ _ Hs); [set_solver|].
    rewrite <- elem_of_sorted_ids, <- (take_drop (Z.to_nat n)), E, elem_of_app in Hj. naive_solver.
Qed.

Definition without_connections (X : gset Z) (d : Db) : Db :=
  d <| connection_records := where_ (fun _ c => bool_decide (conn_scan_run_id c ∉ X)) (connection_records d) |>.

Definition connections_of (X : gset Z) (d : Db) : Z :=
  count_where (fun _ c => bool_decide (conn_scan_run_id c ∈ X)) (connection_records d).

Lemma without_connections_empty d : without_connections ∅ d = d.
Proof.
  apply Db_ext; try reflexivity. cbn. apply where_all. intros. apply bool_decide_true. set_solver.
Qed.

Lemma without_connections_union X Y d :
  without_connections Y (without_connections X d) = without_connections (X ∪ Y) d.
Proof.
  apply Db_ext; try reflexivity. cbn. rewrite where_where. apply where_ext. intros i x _.
  rewrite <- bool_decide_and. apply bool_decide_ext. set_solver.
Qed.

Lemma connections_of_union X Y d :
  X ## Y -> connections_of (X ∪ Y) d = connections_of X d + connections_of Y (without_connections X d).
Proof.
  intros Hd. unfold connections_of, count_where.
  rewrite <- Nat2Z.inj_add. f_equal. rewrite <- size_union.
  - f_equal. apply set_eq. intros i. rewrite elem_of_union, !elem_of_select_ids. cbn.
    setoid_rewrite lookup_where. setoid_rewrite bool_decide_eq_true. set_solver.
  - intros i. rewrite !elem_of_select_ids. cbn. setoid_rewrite lookup_where.
    setoid_rewrite bool_decide_eq_true. naive_solver.
Qed.

Lemma raw_purgeable_after runs cutoff last last' i r :
  raw_purgeable runs cutoff last i r = true -> last' < i -> raw_purgeable runs cutoff last' i r = true.
Proof. unfold raw_purgeable. rewrite !andb_true_iff, !Z.ltb_lt. tauto. Qed.

Lemma raw_purgeable_lt runs cutoff last i r : raw_purgeable runs cutoff last i r = true -> last < i.
Proof. unfold raw_purgeable. rewrite !andb_true_iff, !Z.ltb_lt. tauto. Qed.

Lemma purge_raw_loop_spec fuel cutoff n last deleted d :
  0 < n ->
  let X := select_ids (raw_purgeable (scan_runs d) cutoff last) (scan_runs d) in
  (size X < fuel)%nat ->
  purge_raw_loop fuel cutoff n last deleted d =
    Some (deleted + connections_of X d, without_connections X d).
Proof.
  intros Hn. revert last deleted d. induction fuel as [|fuel IH]; intros last deleted d X Hf; [lia|].
  cbn [purge_raw_loop]. fold X. pose proof (chunk_spec n X Hn) as Hc.
  destruct (take (Z.to_nat n) (sorted_ids X)) as [|i ids] eqn:E.
  { rewrite Hc, without_connections_empty. unfold connections_of.
    do 2 f_equal. unfold count_where. replace (select_ids _ _) with (∅ : gset Z); [by rewrite size_empty, Z.add_0_r|].
    apply set_eq. intros j. rewrite elem_of_select_ids. setoid_rewrite bool_decide_eq_true. set_solver. }
  pose proof (chunk_last n X i ids E) as Hlast. destruct Hc as (_ & Hsub & _ & Hlt).
  set (C := list_to_set (i :: ids) : gset Z). fold C in Hsub, Hlt, Hlast.
  change (delete_connections C d) with (connections_of C d, without_connections C d). cbv iota beta.
  assert (HX : select_ids (raw_purgeable (scan_runs d) cutoff (List.last (i :: ids) 0)) (scan_runs d) = X ∖ C).
  { apply set_eq. intros j. rewrite elem_of_difference. assert (Hi : i ∈ X) by (apply Hsub; set_solver).
    assert (Hlw : last < i) by (apply elem_of_select_ids in Hi as (r & _ & H); by eapply raw_purgeable_lt).
    assert (Hle : i <= List.last (i :: ids) 0).
    { destruct (Z.lt_ge_cases (List.last (i :: ids) 0) i) as [H|]; [|done]. apply (Hlast i Hi) in H. set_solver. }
    split.
    - intros (r & Hr & H)%elem_of_select_ids. pose proof (raw_purgeable_lt _ _ _ _ _ H).
      assert (Hj : j ∈ X).
      { apply elem_of_select_ids. exists r. split; [done|]. eapply raw_purgeable_after; [exact H|lia]. }
      split; [done|]. by apply Hlast.
    - intros [HjX HjC]. apply (Hlast j HjX) in HjC. apply elem_of_select_ids in HjX as (r & Hr & H).
      apply elem_of_select_ids. exists r. split; [done|]. eapply raw_purgeable_after; [exact H|lia]. }
  rewrite IH; change (scan_runs (without_connections C d)) with (scan_runs d); rewrite HX; [|lia].
  assert (HU : C ∪ X ∖ C = X) by (symmetry; by apply union_difference_L).
  rewrite without_connections_union, HU, <- Z.add_assoc, <- connections_of_union by set_solver. by rewrite HU.
Qed.

Lemma connections_of_size X d :
  connections_of X d =
    Z.of_nat (size (connection_records d)) - Z.of_nat (size (connection_records (without_connections X d))).
Proof.
  unfold connections_of, count_where. cbn.
  rewrite <- (size_dom (connection_records d)), <- (size_dom (where_ _ _)).
  set (K := select_ids _ _). set (L := dom (where_ _ _)).
  assert (HKL : K ## L /\ dom (connection_records d) = K ∪ L); [|destruct HKL as [? ->]; rewrite size_union by done; lia].
  unfold K, L. split.
  - intros i. rewrite elem_of_select_ids, elem_of_dom. intros (c & Hc & H) [c' Hc'].
    apply lookup_where in Hc' as [Hc' H']. simplify_eq. rewrite bool_decide_eq_true in H, H'. done.
  - apply set_eq. intros i. rewrite elem_of_union, elem_of_select_ids, !elem_of_dom. unfold is_Some.
    setoid_rewrite lookup_where. setoid_rewrite bool_decide_eq_true. split.
    + intros (c & Hc). destruct (decide (conn_scan_run_id c ∈ X)); eauto.
    + naive_solver.
Qed.

(** The latest successful scan of a device is the first of its ranking. *)
Lemma latest_kept runs i r b :
  run_success r = true ->
  (forall j s, runs !! j = Some s -> run_success s = true -> run_device_id s = run_device_id r ->
     ranked_before j s i r = true -> j = b) ->
  kept_scan runs i r = true.
Proof.
  intros Hs Hlast. unfold kept_scan, position, count_where, RAW_RETENTION_KEPT_SCANS_PER_DEVICE. rewrite Hs. cbn [andb].
  apply Z.leb_le. set (X := select_ids _ runs).
  assert (HX : X ⊆ {[b]}).
  { intros j (s & Hj & H)%elem_of_select_ids. rewrite !andb_true_iff, Z.eqb_eq in H.
    apply elem_of_singleton. destruct H as [[? ?] ?]. by apply (Hlast j s). }
  apply subseteq_size in HX. rewrite size_singleton in HX. lia.
Qed.

(** ** The guarantees *)


(** C27. The raw purge is exact, terminates, and never touches a baseline.  Scans and
    observations stay; a connection row goes exactly when its scan is older than the
    cutoff and not one of the two latest successful scans of its device; a successful
    scan with at most one later successful scan of its device keeps all its rows.  The
    result is the number of rows deleted. *)
Theorem purge_raw_keeps_baselines fuel raw_days reference chunk_size d :
  0 < chunk_size -> (size (scan_runs d) < fuel)%nat -> map_Forall (fun i _ => 0 < i) (scan_runs d) ->
  let gone c := exists r, scan_runs d !! conn_scan_run_id c = Some r /\
    run_started_at r < reference - raw_days * day /\ kept_scan (scan_runs d) (conn_scan_run_id c) r = false in
  exists d', purge_raw_connection_records fuel raw_days reference chunk_size d =
      Some (Z.of_nat (size (connection_records d)) - Z.of_nat (size (connection_records d')), d') /\
    scan_runs d' = scan_runs d /\ observations d' = observations d /\
    (forall i c, connection_records d' !! i = Some c <-> connection_records d !! i = Some c /\ ¬ gone c) /\
    (forall i r b, scan_runs d !! i = Some r -> run_success r = true ->
       (forall j s, scan_runs d !! j = Some s -> run_success s = true ->
          run_device_id s = run_device_id r -> ranked_before j s i r = true -> j = b) ->
       forall k c, connection_records d !! k = Some c -> conn_scan_run_id c = i ->
         connection_records d' !! k = Some c).
Proof.
  intros Hn Hf Hpos gone. unfold purge_raw_connection_records.
  set (X := select_ids (raw_purgeable (scan_runs d) (reference - raw_days * day) 0) (scan_runs d)).
  rewrite purge_raw_loop_spec; [|done|]; fold X.
  2:{ pose proof (size_scan_runs_select (raw_purgeable (scan_runs d) (reference - raw_days * day) 0) d). fold X in H. lia. }
  assert (HX : forall c, conn_scan_run_id c ∈ X <-> gone c).
  { intros c. unfold X, gone. rewrite elem_of_select_ids. unfold raw_purgeable.
    split; intros (r & Hr & H); exists r; (split; [done|]).
    - rewrite !andb_true_iff, negb_true_iff, !Z.ltb_lt in H. tauto.
    - pose proof (Hpos _ _ Hr). cbn in *. rewrite !andb_true_iff, negb_true_iff, !Z.ltb_lt. tauto. }
  assert (Hrows : forall i c, connection_records (without_connections X d) !! i = Some c <->
    connection_records d !! i = Some c /\ ¬ gone c).
  { intros i c. cbn. by rewrite lookup_where, bool_decide_eq_true, HX. }
  exists (without_connections X d). split_and!; [|done..| |].
  - do 2 f_equal. apply connections_of_size.
  - done.
  - intros i r b Hr Hs Hlast k c Hc <-. apply Hrows. split; [done|]. intros (r' & Hr' & _ & Hk). simplify_eq.
    by rewrite (latest_kept _ _ _ _ Hs Hlast) in Hk.
Qed.

(** The daily job ends, keeps exactly the scans its policies keep, and leaves every
    connection of a kept scan that is recent or a baseline of its device. *)
Lemma history_purged fuel raw_days chunk_size raw_reference reference listed d :
  0 < chunk_size -> (size (scan_runs d) < fuel)%nat -> listed ≡ₚ map_to_list (devices d) ->
  exists raw_deleted deleted d',
    _purge_history fuel raw_days chunk_size raw_reference reference listed d = Some (raw_deleted, deleted, d') /\
    scan_runs d' =
      where_ (fun i r => negb (expired_scan d (default 7 (system_setting d)) reference i r)) (scan_runs d) /\
    forall k c r, scan_runs d' !! conn_scan_run_id c = Some r -> connection_records d !! k = Some c ->
      raw_reference - raw_days * day <= run_started_at r \/ kept_scan (scan_runs d) (conn_scan_run_id c) r = true ->
      connection_records d' !! k = Some c.
Proof.
  intros Hn Hf Hl. unfold _purge_history, purge_raw_connection_records, purge_expired_scans.
  set (X := select_ids (raw_purgeable (scan_runs d) (raw_reference - raw_days * day) 0) (scan_runs d)).
  rewrite purge_raw_loop_spec; [|done|]; fold X.
  2:{ pose proof (size_scan_runs_select (raw_purgeable (scan_runs d) (raw_reference - raw_days * day) 0) d). fold X in H. lia. }
  set (d1 := without_connections X d).
  rewrite (purge_groups_spec fuel reference chunk_size (retention_groups d1 _ listed) 0 d1), (group_ids_expired d1 _ _ _ Hl) by done.
  set (system_days := default 7 (system_setting d)). change (expired_scan d1) with (expired_scan d).
  change (scan_runs d1) with (scan_runs d). set (E := select_ids (expired_scan d system_days reference) (scan_runs d)).
  set (e := delete_scan_runs E d1). eexists _, _, _. split; [reflexivity|].
  assert (Hruns : scan_runs e = where_ (fun i r => negb (expired_scan d system_days reference i r)) (scan_runs d)).
  { apply where_ext. intros i r Hr. unfold E. destruct (expired_scan d system_days reference i r) eqn:Ex; cbn.
    - apply bool_decide_false. intros H. apply H. apply elem_of_select_ids. eauto.
    - apply bool_decide_true. rewrite elem_of_select_ids. intros (r' & ? & ?). congruence. }
  set (b := negb _).
  assert (Hb : scan_runs (if b then notify_topology_changed e else e) = scan_runs e /\
    connection_records (if b then notify_topology_changed e else e) = connection_records e) by (by destruct b).
  destruct Hb as [-> ->]. split; [exact Hruns|]. rewrite Hruns. intros k c r [Hr Hx]%lookup_where Hc Hkept.
  apply negb_true_iff in Hx. subst e. cbn. rewrite lookup_where, bool_decide_eq_true. split.
  - rewrite lookup_where, bool_decide_eq_true. split; [exact Hc|].
    unfold X. rewrite elem_of_select_ids. unfold raw_purgeable. intros (r' & Hr' & H). simplify_eq.
    rewrite !andb_true_iff, negb_true_iff, Z.ltb_lt in H. destruct Hkept as [?|Hk]; [lia|].
    destruct H as [_ H]. congruence.
  - unfold E. rewrite elem_of_select_ids. intros (r' & Hr' & H). simplify_eq. congruence.
Qed.

(** ** A concrete history: device 1 follows its cluster (2 days), device 2 the system *)

Definition run_of (device_id started_at : Z) : ScanRun :=
  mkScanRun device_id TRIGGER_SCHEDULED SCAN_SUCCESS started_at (Some started_at) 1 None None None.

Definition purge_device (cluster : option Z) : Device :=
  mkDevice (u "d") (u "h") LINUX 22 (u "root") (u "x") cluster 5 true true None None None 0 0.

Definition raw_connection (run : Z) : ConnectionRecord :=
  mkConnectionRecord run (u "tcp") (u "ipv4") (u "10.0.0.1") 22 None None None None None None.

Definition purge_db : Db :=
  empty_db
    <| clusters := list_to_map [(1, mkCluster (u "c") None (Some 2) 5 true 0 0)] |>
    <| devices := list_to_map [(1, purge_device (Some 1)); (2, purge_device None)] |>
    <| scan_runs := list_to_map [(1, run_of 1 (1 * day)); (2, run_of 2 (1 * day)); (3, run_of 1 (7 * day));
                                 (4, run_of 1 (8 * day)); (5, run_of 1 (9 * day))] |>
    <| connection_records := list_to_map [(1, raw_connection 1); (2, raw_connection 2); (3, raw_connection 3);
                                          (4, raw_connection 4); (5, raw_connection 5)] |>.

Definition purge_listed : list (Z * Device) := [(1, purge_device (Some 1)); (2, purge_device None)].


(** Raw rows older than day 10 go, except those of the last two scans of device 1 and
    of the only one of device 2. *)
Lemma purge_raw_keeps_baselines_witness : exists d',
  purge_raw_connection_records 6 0 (10 * day) 1 purge_db = Some (2, d') /\
  connection_records d' !! 4 = Some (raw_connection 4).
Proof.
  destruct (purge_raw_keeps_baselines 6 0 (10 * day) 1 purge_db) as (d' & H & Hruns & _ & Hconn & Hbase);
    [lia|vm_compute; lia|by apply (bool_decide_unpack _); vm_compute|].
  exists d'. assert (E : option_map fst (purge_raw_connection_records 6 0 (10 * day) 1 purge_db) = Some 2)
    by (vm_compute; reflexivity).
  rewrite H in E. cbn [option_map fst] in E. rewrite H. split; [do 2 f_equal; by injection E|].
  apply (Hbase 4 (run_of 1 (8 * day)) 5); try (vm_compute; reflexivity).
  intros j s Hj _ _. assert (Hm : map_Forall (fun j s => ranked_before j s 4 (run_of 1 (8 * day)) = true -> j = 5) (scan_runs purge_db)).
  { by apply (bool_decide_unpack _); vm_compute. }
  exact (Hm j s Hj).
Defined.
