(* ===== verification/TopologyHistory.v ===== *)
(** * Aggregating connections into services (src/app/services/topology_history.py)

    The current scan of each device, the reference aggregation of raw connection
    records, and the aggregation of service observations the topology pages use.

    The three statements of [_aggregate_observation_groups] each read a database
    state of their own, so a purge may commit between them.  The order in which
    PostgreSQL returns rows and groups is a parameter ([PgOrder]). *)

From S2P Require Import Prelude PyText PyDict IpAddress Addresses Models Exceptions ServiceObservations DeviceListing Retention.

Inductive TopologyWindow := W_current | W_1d | W_3d | W_7d.

#[export] Instance TopologyWindow_eq_dec : EqDecision TopologyWindow.
Proof. solve_decision. Defined.

Definition hours (n : Z) : Z := n * 3600 * 1000000.

Definition WINDOW_DELTAS (w : TopologyWindow) : option Z :=
  match w with
  | W_current => None
  | W_1d => Some (hours 24)
  | W_3d => Some (hours 72)
  | W_7d => Some (hours 168)
  end.

(** ** The current scan of each device *)

Definition in_devices (ids : gset Z) (_ : Z) (r : ScanRun) : bool :=
  run_success r && bool_decide (run_device_id r ∈ ids).

Definition current_scan (ids : gset Z) (d : Db) (i : Z) (r : ScanRun) : bool :=
  in_devices ids i r && (position (where_ (in_devices ids) (scan_runs d)) i r =? 1).

(** Device to scan. *)
Definition load_current_scans (device_ids : gset Z) (d : Db) : gmap Z Z :=
  list_to_map ((fun p => (run_device_id p.2, p.1)) <$>
    map_to_list (where_ (current_scan device_ids d) (scan_runs d))).

(** ** Services *)

(** [connection_dict] (src/app/services/topology.py) *)
Record ConnectionDict := mkConnectionDict {
  cd_id : Z;
  cd_protocol : text;
  cd_address_family : text;
  cd_local_ip : text;
  cd_local_port : option Z;
  cd_remote_ip : option text;
  cd_remote_port : option Z;
  cd_state : option text;
  cd_pid : option Z;
  cd_process_name : option text;
  cd_remote_hostname : option text
}.

#[export] Instance ConnectionDict_eq_dec : EqDecision ConnectionDict.
Proof. solve_decision. Defined.

Definition connection_dict (i : Z) (row : ConnectionRecord) : ConnectionDict :=
  let local_ip := _normalize_ip_address_uncached (conn_local_ip row) in
  mkConnectionDict i (conn_protocol row) (address_family local_ip) local_ip
    (Some (conn_local_port row)) (normalize_ip_address (conn_remote_ip row)) (conn_remote_port row)
    (conn_state row) (conn_pid row) (conn_process_name row) (conn_remote_hostname row).

Record Service := mkService {
  sv_connection : ConnectionDict;
  sv_source_device_id : Z;
  sv_scan_id : Z;
  sv_scan_time : Z;
  sv_is_current : bool;
  sv_first_seen : Z;
  sv_last_seen : Z;
  sv_observation_count : Z;
  sv_observed_local_ips : list text;
  sv_observed_local_ports : list Z;
  sv_observed_pids : list Z
}.

#[export] Instance Service_eq_dec : EqDecision Service.
Proof. solve_decision. Defined.

#[export] Instance ConnectionDict_eta : Eta ConnectionDict := fun r =>
  mkConnectionDict (cd_id r) (cd_protocol r) (cd_address_family r) (cd_local_ip r) (cd_local_port r)
    (cd_remote_ip r) (cd_remote_port r) (cd_state r) (cd_pid r) (cd_process_name r)
    (cd_remote_hostname r).
#[export] Instance Service_eta : Eta Service := fun r =>
  mkService (sv_connection r) (sv_source_device_id r) (sv_scan_id r) (sv_scan_time r)
    (sv_is_current r) (sv_first_seen r) (sv_last_seen r) (sv_observation_count r)
    (sv_observed_local_ips r) (sv_observed_local_ports r) (sv_observed_pids r).

(** The entry of a service while it is built: the sets [_scan_ids], [_local_ips],
    [_local_ports] and [_pids] beside the service. *)
Record Bucket := mkBucket {
  b_service : Service;
  b_scan_ids : gset Z;
  b_local_ips : gset text;
  b_local_ports : gset Z;
  b_pids : gset Z
}.

#[export] Instance Bucket_eta : Eta Bucket := fun r =>
  mkBucket (b_service r) (b_scan_ids r) (b_local_ips r) (b_local_ports r) (b_pids r).

(** What both aggregations do with a finished entry. *)
Definition finish_bucket (b : Bucket) : Service :=
  b_service b <| sv_observation_count := Z.of_nat (size (b_scan_ids b)) |>
              <| sv_observed_local_ips := sorted_texts (b_local_ips b) |>
              <| sv_observed_local_ports := sorted_ids (b_local_ports b) |>
              <| sv_observed_pids := sorted_ids (b_pids b) |>.

(** A text that Python treats as true. *)
Definition nonempty (s : option text) : option text :=
  match s with Some (c :: t) => Some (c :: t) | _ => None end.

(** ** The reference aggregation of raw records *)

Record ConnectionObservation := mkConnObs {
  co_scan_id : Z;
  co_device_id : Z;
  co_started_at : Z;
  co_row_id : Z;
  co_row : ConnectionRecord
}.

(** The sort key [(started_at, scan_id, row.id)]. *)
Definition marker_lt (a b : Z * Z * Z) : Prop :=
  let '(t, s, i) := a in let '(t', s', i') := b in
  t < t' \/ (t = t' /\ (s < s' \/ (s = s' /\ i < i'))).

#[export] Instance marker_lt_dec : RelDecision marker_lt.
Proof. intros [[t s] i] [[t' s'] i']. unfold marker_lt. apply _. Defined.

(** [sorted(xs, key=...)] with such a key. *)
Definition by_marker {A} (mk : A -> Z * Z * Z) (a b : A) : Prop := ¬ marker_lt (mk b) (mk a).

#[export] Instance by_marker_dec {A} (mk : A -> Z * Z * Z) : RelDecision (by_marker mk).
Proof. intros a b. unfold by_marker. apply _. Defined.

Definition chronological {A} (mk : A -> Z * Z * Z) (xs : list A) : list A := merge_sort (by_marker mk) xs.

Definition co_marker (o : ConnectionObservation) : Z * Z * Z := (co_started_at o, co_scan_id o, co_row_id o).

Definition service_tuple : Type := Z * text * text * option Z * text.

Definition _service_key (device_id : Z) (row : ConnectionRecord) (normalized_remote : text) : service_tuple :=
  (device_id, conn_protocol row, normalized_remote, conn_remote_port row, default [] (conn_process_name row)).

(** The normalized remote address of a row the aggregation keeps. *)
Definition service_remote (row : ConnectionRecord) : option text :=
  match conn_remote_ip row with
  | None => None
  | Some _ => if is_loopback_address (conn_remote_ip row) then None
              else normalize_ip_address (conn_remote_ip row)
  end.

Definition add_seen (scan_id : Z) (values : ConnectionDict) (b : Bucket) : Bucket :=
  b <| b_local_ips := {[cd_local_ip values]} ∪ b_local_ips b |>
    <| b_local_ports := (match cd_local_port values with Some p => {[p]} | None => ∅ end) ∪ b_local_ports b |>
    <| b_pids := (match cd_pid values with Some p => {[p]} | None => ∅ end) ∪ b_pids b |>
    <| b_scan_ids := {[scan_id]} ∪ b_scan_ids b |>.

Definition observe (current_ids : gset Z) (o : ConnectionObservation) (bucket : option Bucket) : Bucket :=
  let values := connection_dict (co_row_id o) (co_row o) in
  let bucket :=
    match bucket with
    | None =>
        mkBucket (mkService values (co_device_id o) (co_scan_id o) (co_started_at o) false
                    (co_started_at o) (co_started_at o) 0 [] [] []) ∅ ∅ ∅ ∅
    | Some b =>
        let old_hostname := cd_remote_hostname (sv_connection (b_service b)) in
        let values := match nonempty (cd_remote_hostname values) with
                      | Some _ => values
                      | None => values <| cd_remote_hostname := old_hostname |>
                      end in
        b <| b_service := b_service b <| sv_connection := values |>
                                      <| sv_scan_id := co_scan_id o |>
                                      <| sv_scan_time := co_started_at o |>
                                      <| sv_last_seen := co_started_at o |> |>
    end in
  let bucket := bucket <| b_service := b_service bucket
      <| sv_is_current := sv_is_current (b_service bucket) || bool_decide (co_scan_id o ∈ current_ids) |> |> in
  add_seen (co_scan_id o) values bucket.

Definition observation_tuple (o : ConnectionObservation) : service_tuple :=
  _service_key (co_device_id o) (co_row o) (default [] (service_remote (co_row o))).

Definition key_text `{UnicodePrintable} (k : service_tuple) : text :=
  let '(device_id, protocol, remote, port, process) := k in
  repr_tuple [str_of_Z device_id; repr_text protocol; repr_text remote; repr_option str_of_Z port; repr_text process].

(** [for key in sorted(groups, key=str): result.append(...)] *)
Definition sorted_groups {K V} (key_str : K -> text) (finish : V -> Service) (groups : dict K V) : list Service :=
  (fun p => finish p.2) <$> sorted_by_text (fun p => key_str p.1) groups.

Definition _aggregate_connection_observations `{UnicodePrintable}
    (observations : list ConnectionObservation) (current_scan_ids : gset Z) : list Service :=
  let rows := filter (fun o => is_Some (service_remote (co_row o))) (chronological co_marker observations) in
  sorted_groups key_text finish_bucket (group_by observation_tuple (observe current_scan_ids) rows []).

(** The connections of a scan, and [aggregate_service_connections]. *)
Definition scan_connections (d : Db) (scan_id : Z) : list (Z * ConnectionRecord) :=
  omap (fun i => pair i <$> connection_records d !! i)
    (sorted_ids (select_ids (fun _ c => conn_scan_run_id c =? scan_id) (connection_records d))).

Definition scan_observations (d : Db) (scan_id : Z) : list ConnectionObservation :=
  match scan_runs d !! scan_id with
  | None => []
  | Some scan =>
      (fun p => mkConnObs scan_id (run_device_id scan) (run_started_at scan) p.1 p.2) <$> scan_connections d scan_id
  end.

Definition aggregate_service_connections `{UnicodePrintable} (scans : list Z) (current_scan_ids : gset Z)
    (d : Db) : list Service :=
  _aggregate_connection_observations (concat (scan_observations d <$> scans)) current_scan_ids.

(** ** The aggregation of observations *)

(** The order of the rows of a statement without [ORDER BY]. *)
Class PgOrder := {
  pg_order {A} : list A -> list A;
  pg_order_Permutation {A} (l : list A) : pg_order l ≡ₚ l
}.

Definition as_listed : PgOrder := {| pg_order A l := l; pg_order_Permutation A l := Permutation_refl l |}.

(** The grouping columns: device, protocol, remote address, port, process. *)
Definition raw_key : Type := Z * text * text * Z * text.

Definition raw_key_of (o : ConnectionServiceObservation) : raw_key :=
  (obs_device_id o, obs_protocol o, obs_remote_ip o, obs_remote_port o, obs_process_name o).

(** The filters of a call. *)
Record Narrowing := mkNarrowing {
  n_source_device_ids : option (gset Z);
  n_inbound_addresses : option (gset text);
  n_remote_addresses : option (gset text)
}.

Definition unrestricted : Narrowing := mkNarrowing None None None.

Definition narrowed (n : Narrowing) (device_id : Z) (remote_ip : text) : bool :=
  match n_source_device_ids n, n_inbound_addresses n with
  | None, None => true
  | source, inbound =>
      bool_decide (device_id ∈ default ∅ source) || bool_decide (remote_ip ∈ default ∅ inbound)
  end &&
  match n_remote_addresses n with None => true | Some addresses => bool_decide (remote_ip ∈ addresses) end.

(** The [WHERE] clause. *)
Definition in_window (ids current_ids : gset Z) (cutoff : option Z) (n : Narrowing) (_ : Z)
    (o : ConnectionServiceObservation) : bool :=
  bool_decide (obs_device_id o ∈ ids) &&
  match cutoff with
  | None => bool_decide (obs_scan_run_id o ∈ current_ids)
  | Some c => (c <=? obs_started_at o) || bool_decide (obs_scan_run_id o ∈ current_ids)
  end && narrowed n (obs_device_id o) (obs_remote_ip o).

Definition BAR : N := 124.
Definition UNIT_SEPARATOR : N := 31.

(** [lpad(epoch micros) | lpad(scan_run_id) | lpad(sample_connection_id)] *)
Definition marker_text (m : Z * Z * Z) : text :=
  let '(micros, scan_id, sample_id) := m in
  lpad 20 48 (str_of_Z micros) ++ BAR :: lpad 20 48 (str_of_Z scan_id) ++ BAR :: lpad 20 48 (str_of_Z sample_id).

Definition obs_marker (o : ConnectionServiceObservation) : Z * Z * Z :=
  (obs_started_at o, obs_scan_run_id o, obs_sample_connection_id o).

Record AggregateRow := mkAggregateRow {
  agg_key : raw_key;
  agg_first_seen : Z;
  agg_last_seen : Z;
  agg_latest_marker : text;
  agg_scan_ids : text;
  agg_hostname_payload : option text
}.

Record CsvRow := mkCsvRow {
  csv_local_ips : option text;
  csv_local_ports : option text;
  csv_pids : option text
}.

(** A row of the sample query, or its stand-in. *)
Record Sample := mkSample {
  sample_connection_id : Z;
  sample_protocol : text;
  sample_local_ip : text;
  sample_local_port : option Z;
  sample_remote_port : option Z;
  sample_state : option text;
  sample_pid : option Z;
  sample_process_name : option text;
  sample_scan_id : Z;
  sample_started_at : Z;
  sample_device_id : Z
}.

Section aggregate.
Context `{UnicodePrintable, UnicodeDigits, PgAggregates, PgOrder, Collation}.

Definition pg_max_text (xs : list text) : option text :=
  match xs with [] => None | x :: xs => Some (foldl (fun m y => if collate m y then y else m) x xs) end.

Definition scanned (cond : Z -> ConnectionServiceObservation -> bool) (d : Db) :
    list ConnectionServiceObservation :=
  pg_order (map_to_list (where_ cond (observations d))).*2.

Definition aggregate_row (k : raw_key) (rows : list ConnectionServiceObservation) : AggregateRow :=
  mkAggregateRow k
    (foldr Z.min (default 0 (head (obs_started_at <$> rows))) (obs_started_at <$> rows))
    (foldr Z.max (default 0 (head (obs_started_at <$> rows))) (obs_started_at <$> rows))
    (default [] (pg_max_text ((fun o => marker_text (obs_marker o)) <$> rows)))
    (join 44 ((fun o => str_of_Z (obs_scan_run_id o)) <$> rows))
    (pg_max_text (omap (fun o => (fun h => marker_text (obs_marker o) ++ UNIT_SEPARATOR :: h) <$> obs_remote_hostname o) rows)).

(** The first statement: one row per group. *)
Definition aggregate_rows (cond : Z -> ConnectionServiceObservation -> bool) (d : Db) : list AggregateRow :=
  let rows := scanned cond d in
  (fun k => aggregate_row k (with_key raw_key_of k rows)) <$> pg_order (remove_dups (raw_key_of <$> rows)).

(** The second statement: the distinct CSV columns of each group. *)
Definition csv_columns (o : ConnectionServiceObservation) : raw_key * (text * text * option text) :=
  (raw_key_of o, (obs_local_ips o, obs_local_ports o, obs_pids o)).

Definition csv_row (k : raw_key) (distinct_csvs : list (raw_key * (text * text * option text))) : CsvRow :=
  let rows := snd <$> with_key fst k distinct_csvs in
  mkCsvRow (string_agg_distinct ((fun r => r.1.1) <$> rows)) (string_agg_distinct ((fun r => r.1.2) <$> rows))
    (string_agg_distinct (omap snd rows)).

Definition csv_by_key (cond : Z -> ConnectionServiceObservation -> bool) (d : Db) : dict raw_key CsvRow :=
  let distinct_csvs := remove_dups (csv_columns <$> scanned cond d) in
  (fun k => (k, csv_row k distinct_csvs)) <$> remove_dups distinct_csvs.*1.

(** The third statement: the sample connections that still exist. *)
Definition latest_row (sample_ids : gset Z) (d : Db) (i : Z) : option Sample :=
  if decide (i ∈ sample_ids) then
    match connection_records d !! i with
    | None => None
    | Some c =>
        match scan_runs d !! conn_scan_run_id c with
        | None => None
        | Some scan =>
            Some (mkSample i (conn_protocol c) (conn_local_ip c) (Some (conn_local_port c)) (conn_remote_port c)
                    (conn_state c) (conn_pid c) (conn_process_name c) (conn_scan_run_id c) (run_started_at scan)
                    (run_device_id scan))
        end
    end
  else None.

(** ** Reading the rows back *)

Definition int_of (s : text) : result exn Z :=
  match py_int s with
  | Some z => Ok z
  | None => Raise (ValueError (u "invalid literal for int() with base 10: " ++ repr_text s))
  end.

Definition _csv_int_set (value : option text) : result exn (gset Z) :=
  match nonempty value with
  | None => Ok ∅
  | Some v => list_to_set <$> mapM int_of (split_on 44 v)
  end.

Definition _csv_str_set (value : option text) : gset text :=
  match nonempty value with None => ∅ | Some v => list_to_set (split_on 44 v) end.

Definition _degraded_sample (k : raw_key) (marker_parts : list text) (local_ips : gset text)
    (local_ports pids : gset Z) : result exn (option Sample) :=
  let '(device_id, protocol, _, remote_port, process_key) := k in
  match min_text local_ips with
  | None => Ok None
  | Some local_ip =>
      match marker_parts with
      | [a; b; c] =>
          epoch_micros ← int_of a; scan_id ← int_of b; sample_id ← int_of c;
          Ok (Some (mkSample sample_id protocol local_ip (head (sorted_ids local_ports))
                (if remote_port =? 0 then None else Some remote_port) None (head (sorted_ids pids))
                (nonempty (Some process_key)) scan_id epoch_micros device_id))
      | _ => Raise (ValueError (u "not enough values to unpack"))
      end
  end.

(** The fields a sample gives to a service. *)
Definition sample_connection (latest : Sample) (local_ip remote_ip : text) (hostname : option text) : ConnectionDict :=
  mkConnectionDict (sample_connection_id latest) (sample_protocol latest)
    (if bool_decide (COLON ∈ local_ip) then u "ipv6" else u "ipv4") local_ip (sample_local_port latest)
    (Some remote_ip) (sample_remote_port latest) (sample_state latest) (sample_pid latest)
    (sample_process_name latest) hostname.

Definition sample_marker (latest : Sample) : Z * Z * Z :=
  (sample_started_at latest, sample_scan_id latest, sample_connection_id latest).

Definition new_bucket (row : AggregateRow) (latest : Sample) (local_ip remote_ip : text) (hostname : option text)
    (scan_ids : gset Z) (local_ips : gset text) (local_ports pids : gset Z) : Bucket :=
  mkBucket (mkService (sample_connection latest local_ip remote_ip hostname) (sample_device_id latest)
              (sample_scan_id latest) (sample_started_at latest) false (agg_first_seen row) (agg_last_seen row)
              0 [] [] [])
    scan_ids local_ips local_ports pids.

(** Merging a group into the entry of another raw key with the same normal form. *)
Definition merge_bucket (row : AggregateRow) (latest : Sample) (local_ip remote_ip : text) (hostname : option text)
    (scan_ids : gset Z) (local_ips : gset text) (local_ports pids : gset Z) (entry : Bucket * (Z * Z * Z)) :
    Bucket * (Z * Z * Z) :=
  let '(b, marker) := entry in
  let s := b_service b in
  let s := s <| sv_first_seen := Z.min (agg_first_seen row) (sv_first_seen s) |>
             <| sv_last_seen := Z.max (agg_last_seen row) (sv_last_seen s) |> in
  let own := nonempty (cd_remote_hostname (sv_connection s)) in
  let s := match nonempty hostname, own with
           | Some _, None => s <| sv_connection := sv_connection s <| cd_remote_hostname := hostname |> |>
           | _, _ => s
           end in
  let b := mkBucket s (b_scan_ids b ∪ scan_ids) (b_local_ips b ∪ local_ips) (b_local_ports b ∪ local_ports)
             (b_pids b ∪ pids) in
  if decide (marker_lt marker (sample_marker latest)) then
    let previous_hostname := cd_remote_hostname (sv_connection s) in
    let hostname := match nonempty hostname with Some _ => hostname | None => previous_hostname end in
    (b <| b_service := s <| sv_connection := (sample_connection latest local_ip remote_ip hostname)
                              <| cd_remote_ip := cd_remote_ip (sv_connection s) |> |>
                         <| sv_scan_id := sample_scan_id latest |>
                         <| sv_scan_time := sample_started_at latest |> |>,
     sample_marker latest)
  else (b, marker).

Definition last_part (parts : list text) : text := List.last parts [].

Definition buckets : Type := dict raw_key (Bucket * (Z * Z * Z)).

Definition hostname_of (payload : option text) : result exn (option text) :=
  match nonempty payload with
  | None => Ok None
  | Some p => match after UNIT_SEPARATOR p with
              | Some h => Ok (Some h)
              | None => Raise (OtherError (u "list index out of range"))
              end
  end.

(** One iteration of the merging loop. *)
Definition merge_row (csvs : dict raw_key CsvRow) (latest_by_id : Z -> option Sample) (groups : buckets)
    (row : AggregateRow) : result exn buckets :=
  let '(device_id, protocol, remote_ip, remote_port, process_key) := agg_key row in
  let csv := dict_get (agg_key row) csvs in
  hostname ← hostname_of (agg_hostname_payload row);
  let normalized_remote := _normalize_ip_address_uncached remote_ip in
  if is_loopback_address (Some normalized_remote) then Ok groups else
  let normalized_key := (device_id, protocol, normalized_remote, remote_port, process_key) in
  scan_ids ← _csv_int_set (Some (agg_scan_ids row));
  let local_ips := set_map _normalize_ip_address_uncached (_csv_str_set (csv ≫= csv_local_ips)) in
  local_ports ← _csv_int_set (csv ≫= csv_local_ports);
  pids ← _csv_int_set (csv ≫= csv_pids);
  let marker_parts := rsplit 2 BAR (agg_latest_marker row) in
  sample_id ← int_of (last_part marker_parts);
  latest ← match latest_by_id sample_id with
           | Some s => Ok (Some s)
           | None => _degraded_sample (agg_key row) marker_parts local_ips local_ports pids
           end;
  match latest with
  | None => Ok groups
  | Some latest =>
      let local_ip := _normalize_ip_address_uncached (sample_local_ip latest) in
      Ok (dict_upsert (fun entry =>
            match entry with
            | None => (new_bucket row latest local_ip normalized_remote hostname scan_ids local_ips local_ports pids,
                       sample_marker latest)
            | Some entry =>
                merge_bucket row latest local_ip normalized_remote hostname scan_ids local_ips local_ports pids entry
            end) normalized_key groups)
  end.

Fixpoint merge_rows (csvs : dict raw_key CsvRow) (latest_by_id : Z -> option Sample) (groups : buckets)
    (rows : list AggregateRow) : result exn buckets :=
  match rows with
  | [] => Ok groups
  | row :: rows => groups ← merge_row csvs latest_by_id groups row; merge_rows csvs latest_by_id groups rows
  end.

Definition raw_key_text (k : raw_key) : text :=
  let '(device_id, protocol, remote, port, process) := k in
  repr_tuple [str_of_Z device_id; repr_text protocol; repr_text remote; str_of_Z port; repr_text process].

Definition finish_group (current_ids : gset Z) (entry : Bucket * (Z * Z * Z)) : Service :=
  finish_bucket entry.1 <| sv_is_current := bool_decide (b_scan_ids entry.1 ∩ current_ids ≠ ∅) |>.

(** [d], [d_csv] and [d_sample] are the states the three statements read. *)
Definition _aggregate_observation_groups (device_ids current_scan_ids : gset Z) (cutoff : option Z)
    (n : Narrowing) (d d_csv d_sample : Db) : result exn (list Service) :=
  if decide (device_ids = ∅) then Ok [] else
  let cond := in_window device_ids current_scan_ids cutoff n in
  let rows := aggregate_rows cond d in
  match rows with
  | [] => Ok []
  | _ =>
      sample_ids ← mapM (fun row => int_of (last_part (rsplit 1 BAR (agg_latest_marker row)))) rows;
      groups ← merge_rows (csv_by_key cond d_csv) (latest_row (list_to_set sample_ids) d_sample) [] rows;
      Ok (sorted_groups raw_key_text (finish_group current_scan_ids) groups)
  end.

(** [current_scans] maps devices to their scans. *)
Definition aggregate_current_connections (current_scans : gmap Z Z) (n : Narrowing) (d d_csv d_sample : Db) :
    result exn (list Service) :=
  let current_ids := map_to_set (fun _ s => s) current_scans in
  if decide (current_ids = ∅) then Ok []
  else _aggregate_observation_groups (dom current_scans) current_ids None n d d_csv d_sample.

Definition aggregate_historical_connections (device_ids current_scan_ids : gset Z) (window : TopologyWindow)
    (reference : Z) (n : Narrowing) (d d_csv d_sample : Db) : result exn (list Service) :=
  match WINDOW_DELTAS window with
  | None => Raise (ValueError (u "历史聚合不接受 current 时间范围"))
  | Some delta =>
      _aggregate_observation_groups device_ids current_scan_ids (Some (reference - delta)) n d d_csv d_sample
  end.
End aggregate.
