(* ===== verification/HistoryTheorems.v ===== *)
(** * The aggregation of observations is the aggregation of connections

    The lemmas behind src/app/services/topology_history.py: markers compare as the
    numbers they are written from, each group is read back exactly, and the services
    found are those of an abstract specification that forgets every order PostgreSQL
    chooses. *)

From S2P Require Import Prelude PyText PyDict IpAddress Addresses Models Exceptions ServiceObservations ObservationTheorems DeviceListing Retention TopologyHistory.

(** ** Numbers padded with zeros *)

Definition digits (s : text) : Prop := Forall (fun c => is_digit c = true) s.

Lemma digits_value_cons c s : digits_value (c :: s) = (Z.of_N c - 48) * 10 ^ Z.of_nat (length s) + digits_value s.
Proof.
  assert (Hgen : forall s acc, foldl (fun acc c => acc * 10 + (Z.of_N c - 48)) acc s =
                               acc * 10 ^ Z.of_nat (length s) + digits_value s).
  { clear. induction s as [|c s IH]; intros acc; [cbn; lia|].
    unfold digits_value in *. cbn [foldl length]. rewrite IH, (IH (0 * 10 + _)), Nat2Z.inj_succ, Z.pow_succ_r by lia. lia. }
  unfold digits_value at 1. cbn [foldl]. rewrite Hgen. lia.
Qed.

Lemma digits_value_bounds s : digits s -> 0 <= digits_value s < 10 ^ Z.of_nat (length s).
Proof.
  induction 1 as [|c s Hc _ IH]; [cbn; lia|]. rewrite digits_value_cons. apply is_digit_bounds in Hc.
  cbn [length]. rewrite Nat2Z.inj_succ, Z.pow_succ_r by lia. nia.
Qed.

Lemma digits_value_zeros n s : digits_value (replicate n 48%N ++ s) = digits_value s.
Proof. induction n as [|n IH]; [done|]. cbn [replicate app]. rewrite digits_value_cons, IH. lia. Qed.

Lemma length_str_of_Z z n : 0 <= z < 10 ^ Z.of_nat n -> (0 < n)%nat -> (length (str_of_Z z) <= n)%nat.
Proof.
  intros [H0 Hz] Hn. destruct (decide (z = 0)) as [->|Hne]; [cbn; lia|].
  unfold str_of_Z. destruct (Z.ltb_spec z 0); [lia|].
  destruct (str_of_N_spec (Z.to_N z)) as (Hv & Hd & Hh & _). rewrite Z2N.id in Hv by done.
  destruct (str_of_N (Z.to_N z)) as [|c s]; [cbn; lia|]. cbn [length].
  destruct Hh as [Hz0|Hc]; [lia|].
  rewrite digits_value_cons in Hv. apply Forall_cons in Hd as [Hc' Hs]. apply is_digit_bounds in Hc'.
  pose proof (digits_value_bounds s Hs). assert (c ≠ 48%N) by (intros ->; by apply Hc).
  assert (Hlt : 10 ^ Z.of_nat (length s) < 10 ^ Z.of_nat n) by nia.
  apply Z.pow_lt_mono_r_iff in Hlt; lia.
Qed.

(** A number that fits in a padded field. *)
Definition in_field (z : Z) : Prop := 0 <= z < 10 ^ 20.

Definition field (z : Z) : text := lpad 20 48 (str_of_Z z).

Lemma field_spec z : in_field z -> length (field z) = 20%nat /\ digits (field z) /\ digits_value (field z) = z.
Proof.
  intros Hz. pose proof (length_str_of_Z z 20 Hz ltac:(lia)) as Hl. unfold field, lpad.
  assert (Hs : digits (str_of_Z z) /\ digits_value (str_of_Z z) = z).
  { unfold str_of_Z. destruct Hz. destruct (Z.ltb_spec z 0); [lia|].
    destruct (str_of_N_spec (Z.to_N z)) as (Hv & Hd & _). rewrite Z2N.id in Hv by done. done. }
  destruct Hs as [Hd Hv]. destruct (Nat.ltb_spec (length (str_of_Z z)) 20).
  - rewrite length_app, length_replicate, digits_value_zeros. split_and!; [lia| |done].
    apply Forall_app. split; [|done]. by apply Forall_replicate.
  - rewrite take_ge by lia. split_and!; [lia|done|done].
Qed.

Lemma py_int_field `{UnicodeDigits} z : in_field z -> py_int (field z) = Some z.
Proof.
  intros Hz. destruct (field_spec z Hz) as (Hl & Hd & Hv). unfold py_int.
  rewrite strip_no_space by by apply digits_no_space. destruct (field z) as [|c s]; [done|].
  pose proof Hd as Hc. apply Forall_cons in Hc as [Hc%is_digit_bounds _].
  destruct (N.eqb_spec c 43); [lia|]. destruct (N.eqb_spec c 45); [lia|].
  rewrite int_digits_digits by (done || by left). unfold digits_value in Hv. by rewrite Hv.
Qed.

(** ** Texts of the same length compare part by part *)

Lemma codepoint_le_app s t x y :
  length s = length t -> codepoint_le (s ++ x) (t ++ y) = if decide (s = t) then codepoint_le x y else codepoint_le s t.
Proof.
  revert t. induction s as [|a s IH]; intros [|b t] Hl; try done; cbn [app codepoint_le].
  injection Hl as Hl. destruct (N.eqb_spec a b) as [->|Hne].
  - rewrite IH by done. destruct (decide (s = t)) as [->|]; [by rewrite decide_True|].
    rewrite decide_False; [done|]. congruence.
  - rewrite decide_False; [done|]. congruence.
Qed.

Lemma codepoint_le_digits s t :
  digits s -> digits t -> length s = length t -> codepoint_le s t = (digits_value s <=? digits_value t).
Proof.
  intros Hs. revert t. induction Hs as [|a s Ha Hs IH]; intros [|b t] Ht Hl; try done.
  injection Hl as Hl. apply Forall_cons in Ht as [Hb Ht]. cbn [codepoint_le]. rewrite !digits_value_cons, Hl.
  apply is_digit_bounds in Ha, Hb. pose proof (digits_value_bounds s Hs) as Bs.
  pose proof (digits_value_bounds t Ht) as Bt. rewrite Hl in Bs. set (p := 10 ^ _) in *.
  destruct (N.eqb_spec a b) as [->|Hne]; [rewrite IH by done; lia|].
  destruct (N.ltb_spec a b); destruct (Z.leb_spec ((Z.of_N a - 48) * p + digits_value s) ((Z.of_N b - 48) * p + digits_value t));
    try done; exfalso; nia.
Qed.

Lemma field_inj x y : in_field x -> in_field y -> field x = field y -> x = y.
Proof. intros Hx Hy E. destruct (field_spec x Hx) as (_ & _ & <-), (field_spec y Hy) as (_ & _ & <-). by rewrite E. Qed.

Lemma field_le x y r r' :
  in_field x -> in_field y ->
  codepoint_le (field x ++ r) (field y ++ r') = if decide (x = y) then codepoint_le r r' else x <=? y.
Proof.
  intros Hx Hy. destruct (field_spec x Hx) as (Lx & Dx & Vx), (field_spec y Hy) as (Ly & Dy & Vy).
  rewrite codepoint_le_app by congruence. destruct (decide (x = y)) as [->|Hne]; [by rewrite decide_True|].
  rewrite decide_False by (intros E; by apply Hne, field_inj). rewrite codepoint_le_digits by congruence. by rewrite Vx, Vy.
Qed.

(** ** Markers *)

Definition marker_ok (m : Z * Z * Z) : Prop := in_field m.1.1 /\ in_field m.1.2 /\ in_field m.2.

Lemma marker_text_eq m : marker_text m = field m.1.1 ++ BAR :: field m.1.2 ++ BAR :: field m.2.
Proof. by destruct m as [[t s] i]. Qed.

Lemma marker_lt_irrefl m : ¬ marker_lt m m.
Proof. destruct m as [[t s] i]. unfold marker_lt. lia. Qed.

Lemma marker_lt_trans a b c : marker_lt a b -> marker_lt b c -> marker_lt a c.
Proof. destruct a as [[]], b as [[]], c as [[]]. unfold marker_lt. lia. Qed.

Lemma marker_lt_total a b : marker_lt a b \/ a = b \/ marker_lt b a.
Proof.
  destruct a as [[t s] i], b as [[t' s'] i']. unfold marker_lt.
  destruct (Z.lt_trichotomy t t') as [?|[->|?]]; [auto| |auto].
  destruct (Z.lt_trichotomy s s') as [?|[->|?]]; [auto| |auto 6].
  destruct (Z.lt_trichotomy i i') as [?|[->|?]]; auto 7.
Qed.

(** Markers compare as texts the way their numbers compare. *)
Lemma codepoint_le_marker m m' r r' :
  marker_ok m -> marker_ok m' -> m ≠ m' ->
  codepoint_le (marker_text m ++ r) (marker_text m' ++ r') = bool_decide (marker_lt m m').
Proof.
  intros (Ht & Hs & Hi) (Ht' & Hs' & Hi') Hne. rewrite !marker_text_eq.
  destruct m as [[t s] i], m' as [[t' s'] i']. cbn [fst snd] in *.
  rewrite <- !app_assoc, field_le by done. cbn [app codepoint_le]. rewrite N.eqb_refl.
  rewrite <- !app_assoc, field_le by done. cbn [app codepoint_le]. rewrite N.eqb_refl, field_le by done.
  destruct (decide (t = t')) as [->|]; [destruct (decide (s = s')) as [->|]; [destruct (decide (i = i')) as [->|]; [done|]|]|];
    match goal with |- (?a <=? ?b) = _ => destruct (Z.leb_spec a b) end; symmetry;
    first [apply bool_decide_true; unfold marker_lt; lia|apply bool_decide_false; unfold marker_lt; lia].
Qed.

Lemma bar_not_digit s : digits s -> BAR ∉ s.
Proof. intros Hs Hin. unfold digits in Hs. rewrite Forall_forall in Hs. by specialize (Hs _ Hin). Qed.

Lemma after_app sep s t : sep ∉ s -> after sep (s ++ sep :: t) = Some t.
Proof.
  induction s as [|c s IH]; cbn; [by rewrite N.eqb_refl|]. intros [Hc Hs]%not_elem_of_cons.
  destruct (N.eqb_spec c sep); [done|auto].
Qed.

Lemma after_marker m h : marker_ok m -> after UNIT_SEPARATOR (marker_text m ++ UNIT_SEPARATOR :: h) = Some h.
Proof.
  intros (Ht & Hs & Hi). apply after_app. rewrite marker_text_eq.
  assert (Hd : forall z, in_field z -> UNIT_SEPARATOR ∉ field z).
  { intros z Hz Hin. apply field_spec in Hz as (_ & Hz & _). unfold digits in Hz. rewrite Forall_forall in Hz. by specialize (Hz _ Hin). }
  rewrite !elem_of_app, !elem_of_cons, !elem_of_app, !elem_of_cons. intros H. destruct_or!; try done; by eapply Hd, H.
Qed.

Lemma split_marker m : marker_ok m -> split_on BAR (marker_text m) = [field m.1.1; field m.1.2; field m.2].
Proof.
  intros (Ht & Hs & Hi). rewrite marker_text_eq.
  apply field_spec in Ht as (_ & Ht & _), Hs as (_ & Hs & _), Hi as (_ & Hi & _).
  apply (split_join BAR [field m.1.1; field m.1.2; field m.2]); [done|].
  repeat apply Forall_cons_2; try apply bar_not_digit; done.
Qed.

Lemma rsplit_marker m :
  marker_ok m ->
  rsplit 2 BAR (marker_text m) = [field m.1.1; field m.1.2; field m.2] /\
  last_part (rsplit 1 BAR (marker_text m)) = field m.2.
Proof. intros Hm. unfold rsplit. by rewrite split_marker. Qed.

(** ** Chronological order *)

Section chronological.
Context {A : Type} (mk : A -> Z * Z * Z).

#[local] Instance by_marker_total : Total (by_marker mk).
Proof.
  intros a b. unfold by_marker. destruct (decide (marker_lt (mk b) (mk a))) as [H|]; [|by left].
  right. intros H'. by apply (marker_lt_irrefl (mk a)), (marker_lt_trans _ (mk b)).
Qed.

#[local] Instance by_marker_trans : Transitive (by_marker mk).
Proof.
  intros a b c Hab Hbc Hca. destruct (marker_lt_total (mk a) (mk b)) as [H|[E|H]].
  - apply Hbc. by apply (marker_lt_trans _ (mk a)).
  - apply Hbc. by rewrite <- E.
  - by apply Hab.
Qed.

Lemma chronological_sorted l : StronglySorted (by_marker mk) (chronological mk l).
Proof. apply (StronglySorted_merge_sort (by_marker mk)). Qed.

Lemma chronological_Permutation l : chronological mk l ≡ₚ l.
Proof. apply merge_sort_Permutation. Qed.

Lemma marker_inj l a b : NoDup (mk <$> l) -> a ∈ l -> b ∈ l -> mk a = mk b -> a = b.
Proof.
  intros Hnd (i & Ha)%list_elem_of_lookup (j & Hb)%list_elem_of_lookup E.
  assert (i = j) as ->; [|congruence].
  eapply NoDup_lookup; [exact Hnd| |]; rewrite list_lookup_fmap; [rewrite Ha|rewrite Hb]; cbn; [done|by rewrite E].
Qed.

Lemma by_marker_antisymm l a b :
  NoDup (mk <$> l) -> a ∈ l -> b ∈ l -> by_marker mk a b -> by_marker mk b a -> a = b.
Proof.
  intros Hnd Ha Hb Hab Hba. apply (marker_inj l); try done.
  by destruct (marker_lt_total (mk a) (mk b)) as [?|[?|?]].
Qed.

(** With distinct markers, the order of the input does not matter. *)
Lemma sorted_chronological l l' :
  NoDup (mk <$> l) -> StronglySorted (by_marker mk) l' -> l' ≡ₚ l -> chronological mk l = l'.
Proof.
  intros Hnd Hs Hp. apply (StronglySorted_unique_strong (by_marker mk)).
  - intros a b Ha Hb. rewrite chronological_Permutation in Ha. rewrite Hp in Hb. by apply (by_marker_antisymm l).
  - apply chronological_sorted.
  - done.
  - by rewrite chronological_Permutation.
Qed.

Lemma chronological_proper l l' : NoDup (mk <$> l) -> l ≡ₚ l' -> chronological mk l = chronological mk l'.
Proof.
  intros Hnd Hp. apply sorted_chronological; [done|apply chronological_sorted|].
  by rewrite chronological_Permutation.
Qed.

Lemma StronglySorted_filter (P : A -> Prop) `{forall x, Decision (P x)} (R : A -> A -> Prop) l :
  StronglySorted R l -> StronglySorted R (filter P l).
Proof.
  induction 1 as [|x l _ IH Hx]; [constructor|]. rewrite filter_cons. destruct (decide (P x)); [|done].
  constructor; [done|]. rewrite Forall_forall in Hx |- *. intros y [_ Hy]%list_elem_of_filter. auto.
Qed.

Lemma chronological_filter (P : A -> Prop) `{forall x, Decision (P x)} l :
  NoDup (mk <$> l) -> chronological mk (filter P l) = filter P (chronological mk l).
Proof.
  intros Hnd. apply sorted_chronological.
  - eapply sublist_NoDup; [|by apply fmap_sublist, sublist_filter]. done.
  - by apply StronglySorted_filter, chronological_sorted.
  - by rewrite chronological_Permutation.
Qed.

Lemma chronological_strict l :
  NoDup (mk <$> l) -> StronglySorted (fun a b => marker_lt (mk a) (mk b)) (chronological mk l).
Proof.
  intros Hnd. pose proof (chronological_sorted l) as Hs. rewrite <- (chronological_Permutation l) in Hnd.
  induction Hs as [|x xs _ IH Hx]; [constructor|]. rewrite fmap_cons in Hnd. apply NoDup_cons in Hnd as [Hn Hnd].
  constructor; [auto|]. rewrite Forall_forall in Hx |- *. intros y Hy.
  destruct (marker_lt_total (mk x) (mk y)) as [?|[E|H]]; [done| |].
  - destruct Hn. rewrite E. by apply list_elem_of_fmap_2.
  - by destruct (Hx y Hy).
Qed.

(** A list is known by its elements and a strict chronological order. *)
Lemma strict_chronological l l' :
  NoDup (mk <$> l) -> StronglySorted (fun a b => marker_lt (mk a) (mk b)) l' ->
  (forall x, x ∈ l' <-> x ∈ l) -> chronological mk l = l'.
Proof.
  intros Hnd Hs Hel. apply sorted_chronological; [done| |].
  - clear -Hs. induction Hs as [|a l _ IH Ha]; constructor; [done|]. eapply Forall_impl; [exact Ha|].
    intros b Hab Hba. by apply (marker_lt_irrefl (mk a)), (marker_lt_trans _ (mk b)).
  - apply NoDup_Permutation; [|by apply (NoDup_fmap_1 mk)|done].
    clear -Hs. induction Hs as [|a l _ IH Ha]; constructor; [|done]. intros Hin. rewrite Forall_forall in Ha.
    by apply (marker_lt_irrefl (mk a)), Ha.
Qed.

(** The last is the greatest. *)
Definition greatest (m : A) (l : list A) : Prop := m ∈ l /\ forall a, a ∈ l -> ¬ marker_lt (mk m) (mk a).

Lemma last_greatest l m : last (chronological mk l) = Some m -> greatest m l.
Proof.
  intros (l' & E)%last_Some. pose proof (chronological_sorted l) as Hs. rewrite E in Hs.
  pose proof (chronological_Permutation l) as Hp. rewrite E in Hp. split.
  - rewrite <- Hp. apply elem_of_app. right. left.
  - intros a. rewrite <- Hp. intros [Ha|Ha]%elem_of_app.
    + by apply (StronglySorted_app_1_elem_of _ l' [m] a m Hs Ha (list_elem_of_here _ _)).
    + apply list_elem_of_singleton in Ha as ->. apply marker_lt_irrefl.
Qed.

Lemma greatest_last l m : NoDup (mk <$> l) -> greatest m l -> last (chronological mk l) = Some m.
Proof.
  intros Hnd [Hm Hg]. destruct (last (chronological mk l)) as [m'|] eqn:E.
  - apply last_greatest in E as [Hm' Hg']. f_equal. apply (by_marker_antisymm l); try done; [by apply Hg|by apply Hg'].
  - apply last_None in E. apply (f_equal length) in E. rewrite chronological_Permutation in E.
    destruct l; [by apply elem_of_nil in Hm|done].
Qed.

Lemma head_least l m : head (chronological mk l) = Some m -> m ∈ l /\ forall a, a ∈ l -> ¬ marker_lt (mk a) (mk m).
Proof.
  intros (l' & E)%head_Some. pose proof (chronological_sorted l) as Hs. rewrite E in Hs.
  pose proof (chronological_Permutation l) as Hp. rewrite E in Hp. split.
  - rewrite <- Hp. left.
  - intros a. rewrite <- Hp. inversion Hs as [|? ? _ Hall]; subst. rewrite Forall_forall in Hall.
    intros [->|Ha]%elem_of_cons; [apply marker_lt_irrefl|]. by apply Hall.
Qed.
End chronological.

(** ** [max] over markers *)

Definition field_tail (r r' : text) : Prop :=
  (r = [] /\ r' = []) \/ (head r = Some UNIT_SEPARATOR /\ head r' = Some UNIT_SEPARATOR).

(** What the query relies on: the collation of the database orders markers, and
    markers followed by a separator and a payload, by their digits. *)
Class MarkerCollation `{Collation} : Prop :=
  collate_marker m m' r r' : marker_ok m -> marker_ok m' -> m ≠ m' -> field_tail r r' ->
    collate (marker_text m ++ r) (marker_text m' ++ r') = bool_decide (marker_lt m m').

#[export] Instance codepoint_markers : @MarkerCollation codepoint_le.
Proof. intros m m' r r' Hm Hm' Hne _. by apply codepoint_le_marker. Qed.

Lemma pg_max_marker `{MarkerCollation} {A} (mk : A -> Z * Z * Z) (tail : A -> text) (l : list A) :
  l ≠ [] -> NoDup (mk <$> l) -> (forall a, a ∈ l -> marker_ok (mk a)) ->
  (forall a b, a ∈ l -> b ∈ l -> field_tail (tail a) (tail b)) ->
  exists m, greatest mk m l /\ pg_max_text ((fun a => marker_text (mk a) ++ tail a) <$> l) = Some (marker_text (mk m) ++ tail m).
Proof.
  intros Hne Hnd Hok Htl. destruct l as [|x l]; [done|]. clear Hne. cbn [fmap list_fmap pg_max_text].
  assert (Hgen : forall rest seen m, x :: l ≡ₚ seen ++ rest -> greatest mk m seen -> exists m', greatest mk m' (x :: l) /\
    foldl (fun m y => if collate m y then y else m) (marker_text (mk m) ++ tail m)
      ((fun a => marker_text (mk a) ++ tail a) <$> rest) = marker_text (mk m') ++ tail m').
  2:{ destruct (Hgen l [x] x) as (m' & Hm' & E); [done| |exists m'; split; [done|by f_equal]].
      split; [left|]. intros a ->%list_elem_of_singleton. apply marker_lt_irrefl. }
  induction rest as [|y rest IH]; intros seen m Hp [Hm Hg].
  - rewrite app_nil_r in Hp. exists m. split; [|done]. split; [by rewrite Hp|]. intros a. rewrite Hp. apply Hg.
  - cbn [fmap list_fmap foldl].
    assert (Hin : forall a, a ∈ seen \/ a = y -> a ∈ x :: l).
    { intros a Ha. rewrite Hp, elem_of_app, elem_of_cons. naive_solver. }
    assert (Hmy : mk m ≠ mk y).
    { rewrite Hp, fmap_app, fmap_cons in Hnd. apply NoDup_app in Hnd as (_ & Hdis & _).
      intros E. apply (Hdis (mk m)); [by apply list_elem_of_fmap_2|]. rewrite E. left. }
    rewrite collate_marker; [|by apply Hok, Hin; left|by apply Hok, Hin; right|done|by apply Htl; apply Hin; [left|right]].
    assert (Hp' : x :: l ≡ₚ (seen ++ [y]) ++ rest) by by rewrite <- app_assoc.
    destruct (decide (marker_lt (mk m) (mk y))) as [Hlt|Hge].
    + rewrite bool_decide_true by done. apply (IH (seen ++ [y]) y Hp'). split; [apply elem_of_app; right; left|].
      intros a [Ha| ->%list_elem_of_singleton]%elem_of_app; [|apply marker_lt_irrefl].
      intros Hya. apply (Hg a Ha). by apply (marker_lt_trans _ (mk y)).
    + rewrite bool_decide_false by done. apply (IH (seen ++ [y]) m Hp'). split; [apply elem_of_app; by left|].
      intros a [Ha| ->%list_elem_of_singleton]%elem_of_app; auto.
Qed.

(** ** Reading aggregated columns back *)

Lemma split_on_app_sep sep x s : split_on sep (x ++ sep :: s) = split_on sep x ++ split_on sep s.
Proof.
  induction x as [|c x IH]; cbn [app split_on]; [by rewrite N.eqb_refl|].
  destruct (N.eqb_spec c sep); [by rewrite IH|]. rewrite IH.
  destruct (split_on sep x) as [|y ys] eqn:E; [by apply split_on_not_nil in E|]. done.
Qed.

Lemma split_join_concat sep ys : ys ≠ [] -> split_on sep (join sep ys) = concat (split_on sep <$> ys).
Proof.
  induction ys as [|y ys IH]; [done|]. intros _. destruct ys as [|z ys].
  - cbn. by rewrite app_nil_r.
  - change (join sep (y :: z :: ys)) with (y ++ sep :: join sep (z :: ys)).
    by rewrite split_on_app_sep, IH.
Qed.

Lemma join_nonempty sep ys : ys ≠ [] -> Forall (fun y => y ≠ []) ys -> join sep ys ≠ [].
Proof.
  intros Hne Hall. destruct ys as [|y [|z ys]]; [done| |]; apply Forall_cons in Hall as [Hy _]; [done|].
  cbn. by destruct y.
Qed.

Lemma nonempty_Some s : s ≠ [] -> nonempty (Some s) = Some s.
Proof. by destruct s. Qed.

Lemma list_to_set_concat_ext `{Countable B} {A} (f : A -> list B) (xs ys : list A) :
  (forall x, x ∈ xs <-> x ∈ ys) ->
  (list_to_set (concat (f <$> xs)) : gset B) = list_to_set (concat (f <$> ys)).
Proof.
  intros E. apply set_eq. intros b. rewrite !elem_of_list_to_set, !elem_of_concat_fmap.
  split; intros (x & Hx & Hb); exists x; (split; [by apply E|done]).
Qed.

Lemma elem_of_set_concat `{Countable B} {A} (f : A -> list B) (xs : list A) b :
  b ∈ (list_to_set (concat (f <$> xs)) : gset B) <-> exists x, x ∈ xs /\ b ∈ f x.
Proof. by rewrite elem_of_list_to_set, elem_of_concat_fmap. Qed.

Lemma omap_concat_fmap {A B C} (g : B -> option C) (f : A -> list B) xs :
  omap (M:=list) g (concat (f <$> xs)) = concat ((fun x => omap (M:=list) g (f x)) <$> xs).
Proof. induction xs as [|x xs IH]; [done|]. cbn [fmap list_fmap concat]. by rewrite omap_app, IH. Qed.

Section csv.
Context `{UnicodePrintable, UnicodeDigits, PgAggregates}.

Definition int_csv (v : text) : Prop := v ≠ [] /\ Forall (fun s => is_Some (py_int s)) (split_on 44 v).

Definition csv_values (v : text) : list Z := omap (M:=list) py_int (split_on 44 v).

Lemma mapM_int_of l : Forall (fun s => is_Some (py_int s)) l -> mapM int_of l = Ok (omap (M:=list) py_int l).
Proof.
  induction 1 as [|s l [z Hz] _ IH]; [reflexivity|].
  change (mapM int_of (s :: l)) with (y ← int_of s; k ← mapM int_of l; mret (y :: k)).
  rewrite IH. unfold int_of at 1. rewrite Hz. cbn [omap list_omap]. rewrite Hz. reflexivity.
Qed.

Lemma string_agg_some xs :
  xs ≠ [] -> exists ys, string_agg_distinct xs = Some (join 44 ys) /\ ys ≠ [] /\ forall x, x ∈ ys <-> x ∈ xs.
Proof.
  intros Hne. unfold string_agg_distinct. pose proof (elem_of_distinct_values xs) as Hd.
  destruct (distinct_values xs) as [|y ys]; [|by exists (y :: ys)].
  destruct xs as [|x xs]; [done|]. destruct (Hd x) as [_ Hx]. by apply elem_of_nil in Hx; [|left].
Qed.

Lemma csv_str_set_agg xs :
  Forall (fun x => x ≠ []) xs -> _csv_str_set (string_agg_distinct xs) = list_to_set (concat (split_on 44 <$> xs)).
Proof.
  intros Hall. destruct (decide (xs = [])) as [->|Hne].
  - unfold string_agg_distinct. destruct (distinct_values []) as [|y ys] eqn:E; [done|].
    destruct (elem_of_distinct_values [] y) as [Hy _]. rewrite E in Hy. by apply elem_of_nil in Hy; [|left].
  - destruct (string_agg_some xs Hne) as (ys & -> & Hys & Hel). unfold _csv_str_set.
    rewrite nonempty_Some.
    + rewrite split_join_concat by done. by apply list_to_set_concat_ext.
    + apply join_nonempty; [done|]. rewrite Forall_forall in Hall |- *. intros y Hy. by apply Hall, Hel.
Qed.

Lemma csv_int_set_join ys :
  ys ≠ [] -> Forall int_csv ys ->
  _csv_int_set (Some (join 44 ys)) = Ok (list_to_set (concat (csv_values <$> ys))).
Proof.
  intros Hne Hall. unfold _csv_int_set. rewrite nonempty_Some.
  - rewrite split_join_concat by done. rewrite mapM_int_of.
    + cbn. by rewrite omap_concat_fmap.
    + rewrite Forall_concat, Forall_fmap. eapply Forall_impl; [exact Hall|]. by intros y [_ ?].
  - apply join_nonempty; [done|]. eapply Forall_impl; [exact Hall|]. by intros y [? _].
Qed.

Lemma csv_int_set_agg xs :
  Forall int_csv xs -> _csv_int_set (string_agg_distinct xs) = Ok (list_to_set (concat (csv_values <$> xs))).
Proof.
  intros Hall. destruct (decide (xs = [])) as [->|Hne].
  - unfold string_agg_distinct. destruct (distinct_values []) as [|y ys] eqn:E; [done|].
    destruct (elem_of_distinct_values [] y) as [Hy _]. rewrite E in Hy. by apply elem_of_nil in Hy; [|left].
  - destruct (string_agg_some xs Hne) as (ys & -> & Hys & Hel). rewrite csv_int_set_join; [|done|].
    + f_equal. by apply list_to_set_concat_ext.
    + rewrite Forall_forall in Hall |- *. intros y Hy. by apply Hall, Hel.
Qed.

Lemma py_int_str_of_Z z : 0 <= z -> py_int (str_of_Z z) = Some z.
Proof.
  intros Hz. unfold str_of_Z. destruct (Z.ltb_spec z 0); [lia|]. rewrite py_int_str. by rewrite Z2N.id.
Qed.

Lemma str_of_Z_csv z : 0 <= z -> int_csv (str_of_Z z) /\ csv_values (str_of_Z z) = [z].
Proof.
  intros Hz. assert (Hd : digits (str_of_Z z) /\ str_of_Z z ≠ []).
  { unfold str_of_Z. destruct (Z.ltb_spec z 0); [lia|]. destruct (str_of_N_spec (Z.to_N z)) as (_ & ? & _ & ?). done. }
  assert (E : split_on 44 (str_of_Z z) = [str_of_Z z]).
  { apply split_on_none. intros Hin. destruct Hd as [Hd _]. unfold digits in Hd. rewrite Forall_forall in Hd. by specialize (Hd _ Hin). }
  unfold int_csv, csv_values. rewrite E. cbn. rewrite py_int_str_of_Z by done.
  split; [|done]. split; [apply Hd|]. apply Forall_singleton. rewrite py_int_str_of_Z by done. eauto.
Qed.

Lemma csv_scan_ids (ids : list Z) :
  ids ≠ [] -> Forall (fun i => 0 <= i) ids ->
  _csv_int_set (Some (join 44 (str_of_Z <$> ids))) = Ok (list_to_set ids).
Proof.
  intros Hne Hall. rewrite csv_int_set_join.
  - f_equal. f_equal. induction Hall as [|i ids Hi _ IH]; [done|]. cbn.
    rewrite (proj2 (str_of_Z_csv i Hi)). cbn. f_equal. by destruct ids; [|apply IH].
  - by destruct ids.
  - rewrite Forall_fmap. eapply Forall_impl; [exact Hall|]. intros i Hi. by apply str_of_Z_csv.
Qed.
End csv.

(** ** One group *)

Section group_spec.
Context `{UnicodeDigits}.

(** The columns of an observation can be read back. *)
Record obs_readable (o : ConnectionServiceObservation) : Prop := {
  or_marker : marker_ok (obs_marker o);
  or_ips : obs_local_ips o ≠ [];
  or_ports : int_csv (obs_local_ports o);
  or_pids : match obs_pids o with Some p => int_csv p | None => True end
}.

Definition obs_ips (o : ConnectionServiceObservation) : list text :=
  _normalize_ip_address_uncached <$> split_on 44 (obs_local_ips o).
Definition obs_ports (o : ConnectionServiceObservation) : list Z := csv_values (obs_local_ports o).
Definition obs_pid_values (o : ConnectionServiceObservation) : list Z :=
  match obs_pids o with Some p => csv_values p | None => [] end.

(** The sample row of an observation, if it still exists. *)
Definition sample_of (d : Db) (i : Z) : option Sample := latest_row {[i]} d i.

Definition stand_in (k : raw_key) (o : ConnectionServiceObservation) (ips : gset text) (ports pids : gset Z) : Sample :=
  let '(device_id, protocol, _, remote_port, process_key) := k in
  mkSample (obs_sample_connection_id o) protocol (default [] (min_text ips)) (head (sorted_ids ports))
    (if remote_port =? 0 then None else Some remote_port) None (head (sorted_ids pids))
    (nonempty (Some process_key)) (obs_scan_run_id o) (obs_started_at o) device_id.

(** The service of a group, from its observations in chronological order. *)
Definition group_service (current_ids : gset Z) (d_sample : Db) (k : raw_key)
    (os : list ConnectionServiceObservation) : option Service :=
  match head os, last os with
  | Some first, Some latest =>
      let ips : gset text := list_to_set (concat (obs_ips <$> os)) in
      let ports : gset Z := list_to_set (concat (obs_ports <$> os)) in
      let pids : gset Z := list_to_set (concat (obs_pid_values <$> os)) in
      let scans : gset Z := list_to_set (obs_scan_run_id <$> os) in
      let sample := default (stand_in k latest ips ports pids) (sample_of d_sample (obs_sample_connection_id latest)) in
      let local_ip := _normalize_ip_address_uncached (sample_local_ip sample) in
      Some (mkService
        (sample_connection sample local_ip k.1.1.2 (last (omap (M:=list) obs_remote_hostname os)))
        (sample_device_id sample) (sample_scan_id sample) (sample_started_at sample)
        (bool_decide (scans ∩ current_ids ≠ ∅)) (obs_started_at first) (obs_started_at latest)
        (Z.of_nat (size scans)) (sorted_texts ips) (sorted_ids ports) (sorted_ids pids))
  | _, _ => None
  end.
End group_spec.

Lemma foldr_min l z : z ∈ l -> (forall x, x ∈ l -> z <= x) -> foldr Z.min (default 0 (head l)) l = z.
Proof.
  intros Hz Hle. assert (Hgen : forall l a, (forall x, x ∈ l -> z <= x) -> z <= a -> z ∈ l \/ a = z ->
    foldr Z.min a l = z).
  { clear. induction l as [|x l IH]; intros a Hle Ha Hz; cbn.
    - destruct Hz as [Hz|Hz]; [by apply elem_of_nil in Hz|done].
    - assert (Hx : z <= x) by (apply Hle; left). assert (Hl : forall y, y ∈ l -> z <= y) by (intros y Hy; apply Hle; by right).
      assert (Hb : z <= foldr Z.min a l) by (clear -Hl Ha; induction l as [|y l IH]; cbn; [done|];
        pose proof (Hl y ltac:(left)); specialize (IH ltac:(intros w Hw; apply Hl; by right)); lia).
      destruct Hz as [Hz|Hz]; [|rewrite IH by auto; lia]. apply elem_of_cons in Hz as [<-|Hz]; [lia|]. rewrite IH by auto. lia. }
  apply Hgen; [done| |by left]. destruct l as [|x l]; [by apply elem_of_nil in Hz|]. cbn. apply Hle. left.
Qed.

Lemma foldr_max l z : z ∈ l -> (forall x, x ∈ l -> x <= z) -> foldr Z.max (default 0 (head l)) l = z.
Proof.
  intros Hz Hle. pose proof (foldr_min (Z.opp <$> l) (- z)) as Hmin.
  assert (E : foldr Z.min (default 0 (head (Z.opp <$> l))) (Z.opp <$> l) = - foldr Z.max (default 0 (head l)) l).
  { assert (Hd : default 0 (head (Z.opp <$> l)) = - default 0 (head l)) by by destruct l.
    rewrite Hd. generalize (default 0 (head l)). clear. intros a. induction l as [|x l IH]; cbn in *; [done|]. rewrite IH. lia. }
  rewrite E in Hmin. enough (- foldr Z.max (default 0 (head l)) l = - z) by lia. apply Hmin.
  - by apply list_elem_of_fmap_2.
  - intros x (y & -> & Hy)%list_elem_of_fmap. specialize (Hle y Hy). lia.
Qed.

Section group.
Context `{UnicodePrintable, UnicodeDigits, PgAggregates, PgOrder, MarkerCollation}.
Context (cond : Z -> ConnectionServiceObservation -> bool) (d d_sample : Db) (current_ids : gset Z).
Context (Hunique : obs_unique d).
Context (Hread : forall i o, observations d !! i = Some o -> cond i o = true -> obs_readable o).

Lemma elem_of_scanned o : o ∈ scanned cond d <-> exists i, observations d !! i = Some o /\ cond i o = true.
Proof.
  unfold scanned. rewrite pg_order_Permutation, list_elem_of_fmap. setoid_rewrite elem_of_map_to_list'.
  setoid_rewrite lookup_where. split.
  - intros ([i x] & -> & Hx). eauto.
  - intros (i & Hi). by exists (i, o).
Qed.

Definition group (k : raw_key) : list ConnectionServiceObservation := with_key raw_key_of k (scanned cond d).

Lemma elem_of_group k o :
  o ∈ group k <-> raw_key_of o = k /\ exists i, observations d !! i = Some o /\ cond i o = true.
Proof. unfold group, with_key. by rewrite list_elem_of_filter, elem_of_scanned. Qed.

Lemma group_readable k o : o ∈ group k -> obs_readable o.
Proof. intros (_ & i & Hi & Hc)%elem_of_group. by apply (Hread i). Qed.

Lemma group_markers k : NoDup (obs_marker <$> group k).
Proof.
  unfold group, with_key, scanned. rewrite pg_order_Permutation.
  rewrite filter_fmap, <- list_fmap_compose. apply NoDup_fmap_2_strong.
  - intros [i o] [j o'] [E Hi]%list_elem_of_filter [E' Hj]%list_elem_of_filter Em.
    apply elem_of_map_to_list', lookup_where in Hi as [Hi _], Hj as [Hj _]. cbn in *.
    assert (i = j) as ->; [|congruence]. apply (Hunique i o Hi j o' Hj).
    unfold raw_key_of, obs_marker, observation_key in *. congruence.
  - apply NoDup_filter, NoDup_map_to_list.
Qed.

Definition ordered (k : raw_key) : list ConnectionServiceObservation := chronological obs_marker (group k).

Lemma elem_of_ordered k o : o ∈ ordered k <-> o ∈ group k.
Proof. unfold ordered. by rewrite chronological_Permutation. Qed.

Lemma ordered_ends k :
  group k ≠ [] -> exists first latest, head (ordered k) = Some first /\ last (ordered k) = Some latest.
Proof.
  intros Hne. destruct (ordered k) as [|x l] eqn:E.
  - apply (f_equal length) in E. unfold ordered in E. rewrite chronological_Permutation in E. by destruct (group k).
  - exists x. destruct (last (x :: l)) as [y|] eqn:El; [eauto|]. by apply last_None in El.
Qed.

Lemma started_le a b : ¬ marker_lt (obs_marker a) (obs_marker b) -> obs_started_at b <= obs_started_at a.
Proof. unfold marker_lt, obs_marker. lia. Qed.

Lemma first_seen_group k first :
  head (ordered k) = Some first -> agg_first_seen (aggregate_row k (group k)) = obs_started_at first.
Proof.
  intros (Hin & Hle)%head_least. cbn. apply foldr_min; [by apply list_elem_of_fmap_2|].
  intros x (o & -> & Ho)%list_elem_of_fmap. by apply started_le, Hle.
Qed.

Lemma last_seen_group k latest :
  last (ordered k) = Some latest -> agg_last_seen (aggregate_row k (group k)) = obs_started_at latest.
Proof.
  intros (Hin & Hle)%last_greatest. cbn. apply foldr_max; [by apply list_elem_of_fmap_2|].
  intros x (o & -> & Ho)%list_elem_of_fmap. by apply started_le, Hle.
Qed.

Lemma marker_group k latest :
  last (ordered k) = Some latest ->
  agg_latest_marker (aggregate_row k (group k)) = marker_text (obs_marker latest) /\ marker_ok (obs_marker latest).
Proof.
  intros Hl. pose proof (last_greatest _ _ _ Hl) as [Hin _]. unfold aggregate_row. cbn [agg_latest_marker].
  destruct (pg_max_marker obs_marker (fun _ => []) (group k)) as (m & Hm & E).
  - intros E. rewrite E in Hin. by apply elem_of_nil in Hin.
  - apply group_markers.
  - intros o Ho. by apply (group_readable k).
  - intros. by left.
  - apply greatest_last in Hm; [|apply group_markers]. unfold ordered in Hl. rewrite Hl in Hm. injection Hm as <-.
    split; [|by apply (group_readable k)].
    assert (Eq : (fun o => marker_text (obs_marker o)) <$> group k = (fun a => marker_text (obs_marker a) ++ []) <$> group k)
      by (apply list_fmap_ext; intros; by rewrite app_nil_r).
    rewrite Eq, E. cbn. by rewrite app_nil_r.
Qed.

Lemma hostname_group k :
  hostname_of (agg_hostname_payload (aggregate_row k (group k))) = Ok (last (omap (M:=list) obs_remote_hostname (ordered k))).
Proof.
  unfold aggregate_row. cbn [agg_hostname_payload]. set (named := filter (fun o => is_Some (obs_remote_hostname o)) (group k)).
  set (tail o := UNIT_SEPARATOR :: default [] (obs_remote_hostname o)).
  assert (E : omap (M:=list) (fun o => (fun h => marker_text (obs_marker o) ++ UNIT_SEPARATOR :: h) <$> obs_remote_hostname o) (group k) =
              (fun o => marker_text (obs_marker o) ++ tail o) <$> named).
  { unfold named, tail. induction (group k) as [|o l IH]; [done|]. rewrite filter_cons. cbn [omap list_omap].
    destruct (obs_remote_hostname o) as [h|] eqn:Eh; cbn [fmap option_fmap option_map].
    - rewrite decide_True by eauto. rewrite fmap_cons, Eh. cbn [default]. by rewrite <- IH.
    - rewrite decide_False by by intros []. done. }
  assert (Eo : omap (M:=list) obs_remote_hostname (ordered k) = omap (M:=list) obs_remote_hostname (chronological obs_marker named)).
  { unfold named. rewrite chronological_filter by apply group_markers. fold (ordered k). induction (ordered k) as [|o l IH]; [done|].
    rewrite filter_cons. cbn [omap list_omap]. destruct (obs_remote_hostname o) as [h|] eqn:Eh.
    - rewrite decide_True by eauto. cbn [omap list_omap]. rewrite Eh. by rewrite IH.
    - by rewrite decide_False by by intros []. }
  assert (Hnd : NoDup (obs_marker <$> named)).
  { eapply sublist_NoDup; [apply group_markers|]. apply fmap_sublist, sublist_filter. }
  rewrite E, Eo. destruct (decide (named = [])) as [->|Hne]; [done|].
  destruct (pg_max_marker obs_marker tail named Hne Hnd) as (m & Hm & ->).
  - intros o [_ Ho]%list_elem_of_filter. by apply (group_readable k).
  - intros. by right.
  - apply greatest_last in Hm as Hl; [|done]. destruct Hm as [[[h Hh] Hin]%list_elem_of_filter _].
    apply last_Some in Hl as (l & ->). rewrite omap_app. cbn [omap list_omap]. rewrite Hh, last_snoc.
    unfold hostname_of. rewrite nonempty_Some by (intros [_ ?]%app_eq_nil; done). unfold tail. rewrite Hh. change (default [] (Some h)) with h.
    by rewrite after_marker by by apply (group_readable k).
Qed.

(** *** The CSV columns of a group *)

Lemma elem_of_csv_rows k r :
  r ∈ snd <$> with_key fst k (remove_dups (csv_columns <$> scanned cond d)) <->
  exists o, o ∈ ordered k /\ r = (obs_local_ips o, obs_local_ports o, obs_pids o).
Proof.
  setoid_rewrite elem_of_ordered. unfold group, with_key. rewrite list_elem_of_fmap.
  setoid_rewrite list_elem_of_filter. setoid_rewrite elem_of_remove_dups. setoid_rewrite list_elem_of_fmap.
  split.
  - intros ([k' r'] & -> & <- & o & [= -> ->] & Ho). eauto.
  - intros (o & [Hk Ho] & ->). exists (csv_columns o). cbn. eauto.
Qed.

Lemma dict_get_keys_fmap {K V} `{EqDecision K} (f : K -> V) (keys : list K) k :
  k ∈ keys -> dict_get k ((fun k => (k, f k)) <$> keys) = Some (f k).
Proof.
  induction keys as [|k0 keys IH]; [by intros ?%elem_of_nil|]. cbn.
  destruct (decide (k = k0)) as [->|]; [done|]. intros [?|?]%elem_of_cons; [done|auto].
Qed.

Lemma csv_group k :
  group k ≠ [] ->
  exists c, dict_get k (csv_by_key cond d) = Some c /\
    set_map _normalize_ip_address_uncached (_csv_str_set (csv_local_ips c)) =
      (list_to_set (concat (obs_ips <$> ordered k)) : gset text) /\
    _csv_int_set (csv_local_ports c) = Ok (list_to_set (concat (obs_ports <$> ordered k))) /\
    _csv_int_set (csv_pids c) = Ok (list_to_set (concat (obs_pid_values <$> ordered k))).
Proof.
  intros Hne. set (rows := snd <$> with_key fst k (remove_dups (csv_columns <$> scanned cond d))).
  assert (Hrows : forall r, r ∈ rows <-> exists o, o ∈ ordered k /\ r = (obs_local_ips o, obs_local_ports o, obs_pids o))
    by apply elem_of_csv_rows.
  assert (Hr : forall r, r ∈ rows -> exists o, r = (obs_local_ips o, obs_local_ports o, obs_pids o) /\ obs_readable o).
  { intros r (o & Ho & ->)%Hrows. exists o. split; [done|]. by apply (group_readable k), elem_of_ordered. }
  eexists. split.
  { apply dict_get_keys_fmap. rewrite elem_of_remove_dups, list_elem_of_fmap.
    destruct (group k) as [|o l] eqn:E; [done|]. assert (Ho : o ∈ group k) by (rewrite E; left).
    unfold group, with_key in Ho. apply list_elem_of_filter in Ho as [Hk Ho]. exists (csv_columns o). split; [done|].
    apply elem_of_remove_dups. by apply list_elem_of_fmap_2. }
  unfold csv_row. fold rows. cbn [csv_local_ips csv_local_ports csv_pids]. split_and!.
  - rewrite csv_str_set_agg.
    + apply set_eq. intros x. rewrite elem_of_map, elem_of_set_concat. split.
      * intros (y & -> & (v & (r & -> & (o & Ho & ->)%Hrows)%list_elem_of_fmap & Hy)%elem_of_set_concat).
        exists o. split; [done|]. by apply list_elem_of_fmap_2.
      * intros (o & Ho & (y & -> & Hy)%list_elem_of_fmap). exists y. split; [done|]. apply elem_of_set_concat.
        exists (obs_local_ips o). split; [|done]. apply list_elem_of_fmap. eexists. split; [|apply Hrows; by exists o]. done.
    + rewrite Forall_fmap, Forall_forall. by intros r (o & -> & ?%or_ips)%Hr.
  - rewrite csv_int_set_agg.
    + f_equal. apply set_eq. intros x. rewrite !elem_of_set_concat. split.
      * intros (v & (r & -> & (o & Ho & ->)%Hrows)%list_elem_of_fmap & Hx). by exists o.
      * intros (o & Ho & Hx). exists (obs_local_ports o). split; [|done]. apply list_elem_of_fmap.
        eexists. split; [|apply Hrows; by exists o]. done.
    + rewrite Forall_fmap, Forall_forall. by intros r (o & -> & ?%or_ports)%Hr.
  - rewrite csv_int_set_agg.
    + f_equal. apply set_eq. intros x. rewrite !elem_of_set_concat. split.
      * intros (v & (r & (o & Ho & ->)%Hrows & Hv)%list_elem_of_omap & Hx). cbn in Hv. exists o.
        unfold obs_pid_values. by rewrite Hv.
      * intros (o & Ho & Hx). unfold obs_pid_values in Hx. destruct (obs_pids o) as [p|] eqn:Ep; [|by apply elem_of_nil in Hx].
        exists p. split; [|done]. apply list_elem_of_omap. eexists. split; [apply Hrows; by exists o|]. done.
    + rewrite Forall_forall. intros v (r & (o & -> & Hro)%Hr & Hv)%list_elem_of_omap. cbn in Hv.
      apply or_pids in Hro. by rewrite Hv in Hro.
Qed.

Lemma scan_ids_group k :
  group k ≠ [] -> _csv_int_set (Some (agg_scan_ids (aggregate_row k (group k)))) = Ok (list_to_set (obs_scan_run_id <$> ordered k)).
Proof.
  intros Hne. unfold aggregate_row. cbn [agg_scan_ids].
  rewrite (list_fmap_compose obs_scan_run_id str_of_Z), csv_scan_ids.
  - f_equal. apply set_eq. intros x. rewrite !elem_of_list_to_set. unfold ordered. by rewrite chronological_Permutation.
  - by destruct (group k).
  - rewrite Forall_fmap, Forall_forall. intros o [(_ & Hs & _) _ _ _]%group_readable. apply Hs.
Qed.

(** *** Merging a group whose address is in normal form *)

Definition sample_lookup (latest_by_id : Z -> option Sample) (k : raw_key) : Prop :=
  forall o, last (ordered k) = Some o ->
    latest_by_id (obs_sample_connection_id o) = sample_of d_sample (obs_sample_connection_id o).

Lemma dict_upsert_new {K V} `{EqDecision K} (f : option V -> V) (k : K) (m : dict K V) :
  k ∉ m.*1 -> dict_upsert f k m = m ++ [(k, f None)].
Proof.
  induction m as [|[k0 v] m IH]; [done|]. cbn. intros [Hk Hm]%not_elem_of_cons.
  rewrite decide_False by done. by rewrite IH.
Qed.

Lemma degraded_stand_in k o ips ports pids :
  ips ≠ ∅ -> marker_ok (obs_marker o) ->
  _degraded_sample k [field (obs_marker o).1.1; field (obs_marker o).1.2; field (obs_marker o).2] ips ports pids =
    Ok (Some (stand_in k o ips ports pids)).
Proof.
  intros Hne (Ht & Hs & Hi). destruct k as [[[[dev proto] remote] port] proc]. unfold _degraded_sample, stand_in.
  destruct (min_text ips) as [ip|] eqn:E.
  - unfold int_of. by rewrite !py_int_field.
  - destruct Hne. unfold min_text in E. apply head_None in E. apply set_eq. intros x.
    rewrite <- elem_of_sorted_texts, E. set_solver.
Qed.

Lemma ips_nonempty k o : o ∈ ordered k -> (list_to_set (concat (obs_ips <$> ordered k)) : gset text) ≠ ∅.
Proof.
  intros Ho E. destruct (split_on 44 (obs_local_ips o)) as [|x l] eqn:Ex; [by apply split_on_not_nil in Ex|].
  assert (Hx : _normalize_ip_address_uncached x ∈ (list_to_set (concat (obs_ips <$> ordered k)) : gset text)).
  { apply elem_of_set_concat. exists o. split; [done|]. unfold obs_ips. rewrite Ex. left. }
  rewrite E in Hx. by apply elem_of_empty in Hx.
Qed.

Definition remote_of (k : raw_key) : text := k.1.1.2.

Lemma merge_row_group latest_by_id groups k :
  group k ≠ [] -> k ∉ groups.*1 -> sample_lookup latest_by_id k ->
  _normalize_ip_address_uncached (remote_of k) = remote_of k ->
  if is_loopback_address (Some (remote_of k))
  then merge_row (csv_by_key cond d) latest_by_id groups (aggregate_row k (group k)) = Ok groups
  else exists e s, merge_row (csv_by_key cond d) latest_by_id groups (aggregate_row k (group k)) = Ok (groups ++ [(k, e)]) /\
         group_service current_ids d_sample k (ordered k) = Some s /\ finish_group current_ids e = s.
Proof.
  intros Hne Hk Hsample Hn. destruct (ordered_ends k Hne) as (first & latest & Hf & Hl).
  destruct (csv_group k Hne) as (c & Hc & Hips & Hports & Hpids).
  unfold merge_row. change (agg_key (aggregate_row k (group k))) with k. rewrite Hc, hostname_group.
  pose proof (scan_ids_group k Hne) as Hscans. destruct (marker_group k latest Hl) as [Hmark Hok].
  pose proof (first_seen_group k first Hf) as Hfirst. pose proof (last_seen_group k latest Hl) as Hlast.
  assert (Hin : latest ∈ ordered k) by (by apply last_Some_elem_of).
  destruct (rsplit_marker _ Hok) as [Hr2 _].
  destruct k as [[[[dev proto] remote] port] proc] eqn:Ek. cbn [remote_of fst snd] in Hn |- *.
  rewrite <- Ek in *. cbn [mbind result_bind]. rewrite Hn.
  destruct (is_loopback_address (Some remote)); [done|].
  rewrite Hscans. cbn [mbind result_bind option_bind]. rewrite Hports. cbn [mbind result_bind].
  rewrite Hpids. cbn [mbind result_bind]. rewrite Hmark, Hr2.
  change (last_part [?a; ?b; ?x]) with x. unfold int_of at 1. rewrite py_int_field by apply Hok. cbn [mbind result_bind].
  rewrite Hips. set (ips := list_to_set (concat (obs_ips <$> ordered k)) : gset text).
  set (ports := list_to_set (concat (obs_ports <$> ordered k)) : gset Z).
  set (pids := list_to_set (concat (obs_pid_values <$> ordered k)) : gset Z).
  set (sample := default (stand_in k latest ips ports pids) (sample_of d_sample (obs_sample_connection_id latest))).
  match goal with |- exists e s, (?x ≫= _) = _ /\ _ => assert (E : x = Ok (Some sample)) end.
  { change (obs_marker latest).2 with (obs_sample_connection_id latest) at 1. rewrite Hsample by done. unfold sample.
    destruct (sample_of d_sample (obs_sample_connection_id latest)) as [s|]; [done|]. cbn [default].
    apply degraded_stand_in; [|done]. by apply ips_nonempty with latest. }
  rewrite E. cbn [mbind result_bind]. rewrite <- Ek, dict_upsert_new by done.
  eexists _, _. split; [reflexivity|]. unfold group_service. rewrite Hf, Hl. split; [reflexivity|].
  unfold finish_group, finish_bucket, new_bucket. cbn [fst b_service b_scan_ids b_local_ips b_local_ports b_pids].
  rewrite Hfirst, Hlast. subst k. reflexivity.
Qed.

(** *** All the groups *)

Definition visible (k : raw_key) : Prop := is_loopback_address (Some (remote_of k)) = false.

Definition group_keys : list raw_key := remove_dups (raw_key_of <$> scanned cond d).

Definition services : list Service :=
  omap (M:=list) (fun k => group_service current_ids d_sample k (ordered k)) (filter visible group_keys).

Lemma elem_of_group_keys k : k ∈ group_keys <-> group k ≠ [].
Proof.
  unfold group_keys. rewrite elem_of_remove_dups, list_elem_of_fmap. split.
  - intros (o & -> & Ho) E. assert (Hin : o ∈ group (raw_key_of o)) by (apply list_elem_of_filter; done).
    rewrite E in Hin. by apply elem_of_nil in Hin.
  - intros Hne. destruct (group k) as [|o l] eqn:E; [done|]. assert (Ho : o ∈ group k) by (rewrite E; left).
    apply list_elem_of_filter in Ho as [<- Ho]. eauto.
Qed.

Context (Hcanonical : forall i o, observations d !! i = Some o -> cond i o = true ->
  _normalize_ip_address_uncached (obs_remote_ip o) = obs_remote_ip o).

Lemma group_canonical k : group k ≠ [] -> _normalize_ip_address_uncached (remote_of k) = remote_of k.
Proof.
  intros Hne. destruct (group k) as [|o l] eqn:E; [done|]. assert (Ho : o ∈ group k) by (rewrite E; left).
  apply elem_of_group in Ho as (<- & i & Hi & Hc). by apply (Hcanonical i).
Qed.

Lemma merge_rows_groups latest_by_id keys groups :
  NoDup keys -> (forall k, k ∈ keys -> group k ≠ [] /\ (k ∉ groups.*1) /\ sample_lookup latest_by_id k) ->
  exists es, merge_rows (csv_by_key cond d) latest_by_id groups ((fun k => aggregate_row k (group k)) <$> keys) = Ok (groups ++ es) /\
    (fun e => finish_group current_ids e.2) <$> es =
      omap (M:=list) (fun k => group_service current_ids d_sample k (ordered k)) (filter visible keys).
Proof.
  revert groups. induction keys as [|k keys IH]; intros groups Hnd Hk; [exists []; by rewrite app_nil_r|].
  apply NoDup_cons in Hnd as [Hnk Hnd]. destruct (Hk k ltac:(left)) as (Hne & Hg & Hs).
  pose proof (merge_row_group latest_by_id groups k Hne Hg Hs (group_canonical k Hne)) as Hrow.
  cbn [fmap list_fmap merge_rows]. destruct (is_loopback_address (Some (remote_of k))) eqn:El.
  - rewrite Hrow. cbn [mbind result_bind]. rewrite filter_cons, decide_False by (unfold visible; by rewrite El). apply IH; [done|]. intros k' Hk'. apply Hk. by right.
  - destruct Hrow as (e & s & -> & Hspec & Hfin). cbn [mbind result_bind]. rewrite filter_cons, decide_True by done.
    destruct (IH (groups ++ [(k, e)]) Hnd) as (es & -> & Hes).
    + intros k' Hk'. destruct (Hk k' ltac:(by right)) as (? & ? & ?). split_and!; try done.
      rewrite fmap_app, not_elem_of_app. split; [done|]. intros ->%list_elem_of_singleton. done.
    + exists ((k, e) :: es). rewrite <- app_assoc. split; [done|]. cbn [fmap list_fmap omap list_omap snd].
      rewrite Hspec, Hfin. by f_equal.
Qed.

Lemma mapM_Ok {A B} (f : A -> result exn B) (g : A -> B) l :
  (forall x, x ∈ l -> f x = Ok (g x)) -> mapM f l = Ok (g <$> l).
Proof.
  induction l as [|x l IH]; intros Hf; [done|].
  change (mapM f (x :: l)) with (y ← f x; k ← mapM f l; mret (y :: k)).
  rewrite (Hf x ltac:(left)), IH; [done|]. intros y Hy. apply Hf. by right.
Qed.

Definition latest_id (k : raw_key) : Z := default 0 (obs_sample_connection_id <$> last (ordered k)).

Lemma aggregate_rows_groups :
  exists rows_keys, rows_keys ≡ₚ group_keys /\ aggregate_rows cond d = (fun k => aggregate_row k (group k)) <$> rows_keys /\
    exists groups, (sample_ids ← mapM (fun row => int_of (last_part (rsplit 1 BAR (agg_latest_marker row)))) (aggregate_rows cond d);
       merge_rows (csv_by_key cond d) (latest_row (list_to_set sample_ids) d_sample) [] (aggregate_rows cond d)) = Ok groups /\
     (fun e => finish_group current_ids e.2) <$> groups ≡ₚ services.
Proof.
  set (keys := pg_order (remove_dups (raw_key_of <$> scanned cond d))).
  assert (Hp : keys ≡ₚ group_keys) by apply pg_order_Permutation. exists keys. split; [done|].
  assert (Hrows : aggregate_rows cond d = (fun k => aggregate_row k (group k)) <$> keys) by done. split; [done|]. rewrite Hrows.
  assert (Hne : forall k, k ∈ keys -> group k ≠ []) by (intros k; rewrite Hp; apply elem_of_group_keys).
  rewrite (mapM_Ok _ (fun row => default 0 (py_int (last_part (rsplit 1 BAR (agg_latest_marker row)))))).
  2:{ intros row (k & -> & Hk)%list_elem_of_fmap. destruct (ordered_ends k (Hne k Hk)) as (_ & latest & _ & Hl).
      destruct (marker_group k latest Hl) as [-> Hok]. destruct (rsplit_marker _ Hok) as [_ ->].
      unfold int_of. by rewrite py_int_field by apply Hok. }
  cbn [mbind result_bind]. rewrite <- list_fmap_compose.
  assert (Hids : forall k, k ∈ keys -> forall o, last (ordered k) = Some o ->
    default 0 (py_int (last_part (rsplit 1 BAR (agg_latest_marker (aggregate_row k (group k)))))) = obs_sample_connection_id o).
  { intros k Hk o Hl. destruct (marker_group k o Hl) as [-> Hok]. destruct (rsplit_marker _ Hok) as [_ ->].
    by rewrite py_int_field by apply Hok. }
  match goal with |- context [latest_row ?X d_sample] => set (ids := X) end.
  destruct (merge_rows_groups (latest_row ids d_sample) keys []) as (es & -> & Hes).
  - rewrite Hp. apply NoDup_remove_dups.
  - intros k Hk. split_and!; [by apply Hne|by apply not_elem_of_nil|]. intros o Ho. unfold sample_of, latest_row.
    rewrite decide_True, (decide_True (P := _ ∈ {[_]})); [done|set_solver|].
    apply elem_of_list_to_set, list_elem_of_fmap. exists k. split; [|done]. symmetry. by apply Hids.
  - exists es. split; [done|]. rewrite Hes. unfold services. by rewrite Hp.
Qed.
End group.

(** The aggregation, as a specification without any order: one service for each group
    of the observations in the window, loopback addresses excepted. *)
Lemma aggregate_observation_groups_spec `{UnicodePrintable, UnicodeDigits, PgAggregates, PgOrder, MarkerCollation}
    ids current_ids cutoff n d d_sample :
  obs_unique d ->
  (forall i o, observations d !! i = Some o -> in_window ids current_ids cutoff n i o = true ->
     obs_readable o /\ _normalize_ip_address_uncached (obs_remote_ip o) = obs_remote_ip o) ->
  exists l, _aggregate_observation_groups ids current_ids cutoff n d d d_sample = Ok l /\
    l ≡ₚ services (in_window ids current_ids cutoff n) d d_sample current_ids.
Proof.
  intros Hu Hall. set (cond := in_window ids current_ids cutoff n) in *.
  destruct (aggregate_rows_groups cond d d_sample current_ids Hu) as (keys & Hp & Hrows & groups & E & Hg).
  - intros i o Hi Hc. by apply (Hall i).
  - intros i o Hi Hc. by apply (Hall i).
  - unfold _aggregate_observation_groups. fold cond. destruct (decide (ids = ∅)) as [->|Hne].
    + exists []. split; [done|]. unfold services, group_keys.
      assert (scanned cond d = []) as ->; [|done]. destruct (scanned cond d) as [|o l] eqn:Eo; [done|].
      assert (Ho : o ∈ scanned cond d) by (rewrite Eo; left). apply elem_of_scanned in Ho as (i & _ & Hc).
      unfold cond, in_window in Hc. rewrite bool_decide_false in Hc; [done|]. apply not_elem_of_empty.
    + destruct (aggregate_rows cond d) as [|row rows] eqn:Er.
      * exists []. split; [done|]. injection E as <-. by rewrite <- Hg.
      * cbn [mbind result_bind] in E |- *. destruct (mapM _ _) as [sids|]; [|done]. cbn [mbind result_bind] in E |- *.
        rewrite E. cbn [mbind result_bind]. eexists. split; [reflexivity|]. unfold sorted_groups.
        rewrite sorted_by_text_Permutation. by rewrite <- Hg.
Qed.
