(* ===== verification/HistoryEquivalence.v ===== *)
(** * Observations against raw records

    The aggregation of service observations, the one the pages read
    ([_aggregate_observation_groups]), gives the services that the aggregation of the
    raw connection records of the same scans gives ([aggregate_service_connections]),
    as long as those records are in the form the collectors produce. *)

From S2P Require Import Prelude PyText PyDict IpAddress Addresses Models Exceptions Collectors Scans ServiceObservations ObservationTheorems DeviceListing Retention TopologyHistory HistoryTheorems.

(** ** The fold over raw records *)

Definition no_empty_hostname (o : ConnectionObservation) : Prop := conn_remote_hostname (co_row o) ≠ Some [].

Definition co_values (o : ConnectionObservation) : ConnectionDict := connection_dict (co_row_id o) (co_row o).

(** The entry of a key, from its rows. *)
Definition folded (current_ids : gset Z) (os : list ConnectionObservation) : option Bucket :=
  match head os, last os with
  | Some first, Some latest =>
      Some (mkBucket
        (mkService (co_values latest <| cd_remote_hostname := last (omap (M:=list) (fun o => conn_remote_hostname (co_row o)) os) |>)
           (co_device_id first) (co_scan_id latest) (co_started_at latest)
           (existsb (fun o => bool_decide (co_scan_id o ∈ current_ids)) os)
           (co_started_at first) (co_started_at latest) 0 [] [] [])
        (list_to_set (co_scan_id <$> os))
        (list_to_set ((fun o => _normalize_ip_address_uncached (conn_local_ip (co_row o))) <$> os))
        (list_to_set ((fun o => conn_local_port (co_row o)) <$> os))
        (list_to_set (omap (M:=list) (fun o => conn_pid (co_row o)) os)))
  | _, _ => None
  end.

Lemma list_to_set_snoc `{Countable A} (l : list A) x : (list_to_set (l ++ [x]) : gset A) = {[x]} ∪ list_to_set l.
Proof. rewrite list_to_set_app_L. set_solver. Qed.

Definition pid_set (row : ConnectionRecord) : gset Z :=
  match conn_pid row with Some p => {[p]} | None => ∅ end.

Lemma observe_first current_ids x :
  observe current_ids x None =
    mkBucket (mkService (co_values x) (co_device_id x) (co_scan_id x) (co_started_at x)
                (bool_decide (co_scan_id x ∈ current_ids)) (co_started_at x) (co_started_at x) 0 [] [] [])
      ({[co_scan_id x]} ∪ ∅) ({[_normalize_ip_address_uncached (conn_local_ip (co_row x))]} ∪ ∅)
      ({[conn_local_port (co_row x)]} ∪ ∅) (pid_set (co_row x) ∪ ∅).
Proof. reflexivity. Qed.

Lemma observe_again current_ids x s scans ips ports pids :
  observe current_ids x (Some (mkBucket s scans ips ports pids)) =
    mkBucket (mkService (match nonempty (conn_remote_hostname (co_row x)) with
                         | Some _ => co_values x
                         | None => co_values x <| cd_remote_hostname := cd_remote_hostname (sv_connection s) |>
                         end) (sv_source_device_id s) (co_scan_id x) (co_started_at x)
                (sv_is_current s || bool_decide (co_scan_id x ∈ current_ids)) (sv_first_seen s) (co_started_at x)
                (sv_observation_count s) (sv_observed_local_ips s) (sv_observed_local_ports s) (sv_observed_pids s))
      ({[co_scan_id x]} ∪ scans) ({[_normalize_ip_address_uncached (conn_local_ip (co_row x))]} ∪ ips)
      ({[conn_local_port (co_row x)]} ∪ ports) (pid_set (co_row x) ∪ pids).
Proof.
  destruct s. unfold observe, co_values. change (cd_remote_hostname (connection_dict _ _)) with (conn_remote_hostname (co_row x)).
  destruct (nonempty (conn_remote_hostname (co_row x))); reflexivity.
Qed.

Lemma list_to_set_pids (os : list ConnectionObservation) x :
  (list_to_set (omap (M:=list) (fun o => conn_pid (co_row o)) (os ++ [x])) : gset Z) =
    pid_set (co_row x) ∪ list_to_set (omap (M:=list) (fun o => conn_pid (co_row o)) os).
Proof.
  rewrite omap_app, list_to_set_app_L. unfold pid_set. cbn [omap list_omap]. destruct (conn_pid (co_row x)); set_solver.
Qed.

Lemma fold_observe current_ids os :
  Forall no_empty_hostname os ->
  foldl (fun o x => Some (observe current_ids x o)) None os = folded current_ids os.
Proof.
  induction os as [|x os IH] using rev_ind; [done|]. intros [Hos [Hx _]%Forall_cons]%Forall_app.
  rewrite foldl_snoc, IH by done. unfold folded. rewrite last_snoc, list_to_set_pids, omap_app, !fmap_app, existsb_app.
  cbn [fmap list_fmap existsb omap list_omap]. rewrite !list_to_set_snoc, orb_false_r. unfold no_empty_hostname in Hx.
  destruct os as [|first os].
  - rewrite observe_first. cbn [head app existsb orb]. f_equal. f_equal. f_equal. cbn [omap list_omap app].
    unfold co_values, connection_dict. by destruct (conn_remote_hostname (co_row x)).
  - assert (Hl : is_Some (last (first :: os))) by by apply last_is_Some. destruct Hl as [latest Hl]. rewrite Hl. cbn [head app].
    rewrite observe_again. f_equal. f_equal. f_equal.
    change (cd_remote_hostname (sv_connection (mkService ?v _ _ _ _ _ _ _ _ _ _))) with (cd_remote_hostname v).
    change (cd_remote_hostname (?v <| cd_remote_hostname := ?h |>)) with h. unfold co_values, connection_dict.
    destruct (conn_remote_hostname (co_row x)) as [[|c h]|] eqn:Eh; [done|by rewrite last_snoc|by rewrite app_nil_r].
Qed.

Lemma last_concat {A} (ls : list (list A)) : last (concat ls) = last (omap (M:=list) last ls).
Proof.
  induction ls as [|l ls IH] using rev_ind; [done|]. rewrite concat_app, omap_app, last_app. cbn [concat].
  rewrite app_nil_r, IH, last_app. cbn [omap list_omap]. by destruct (last l).
Qed.

Lemma omap_of_fmap {A B C} (f : A -> B) (g : B -> option C) l : omap (M:=list) g (f <$> l) = omap (M:=list) (fun x => g (f x)) l.
Proof. induction l as [|x l IH]; [done|]. cbn [fmap list_fmap omap list_omap]. by rewrite IH. Qed.

Lemma omap_total {A B} (f : A -> option B) (g : A -> B) l :
  (forall x, x ∈ l -> f x = Some (g x)) -> omap (M:=list) f l = g <$> l.
Proof.
  induction l as [|x l IH]; intros Hf; [done|]. cbn [omap list_omap]. rewrite (Hf x ltac:(left)), IH; [done|].
  intros y Hy. apply Hf. by right.
Qed.

(** The family of a normalized address shows in its colons. *)
Lemma address_family_colon x :
  address_family (_normalize_ip_address_uncached x) =
    if bool_decide (COLON ∈ _normalize_ip_address_uncached x) then u "ipv6" else u "ipv4".
Proof.
  rewrite normalize_denoted. destruct (denoted x) as [a|] eqn:E.
  - apply denoted_canonical in E as Ha. destruct (loopback_family_of a Ha) as [_ <-]. destruct Ha as [Hwf _].
    destruct a as [n|n]; cbn [text_of_ip].
    + rewrite bool_decide_false; [done|]. by apply text_of_ipv4_no.
    + rewrite bool_decide_true; [done|]. by apply colon_in_text_of_ipv6.
  - unfold address_family. rewrite normalize_denoted, E. destruct (ip_address x) as [a|] eqn:Ei; [|done].
    apply parsed_denoted in Ei as [b Hb]. congruence.
Qed.

(** ** Records and observations that agree *)

Lemma omap_sorted {A} (f : Z -> option (Z * A)) (l : list Z) :
  (forall i p, f i = Some p -> p.1 = i) ->
  StronglySorted Z.lt l -> StronglySorted (fun p q => p.1 < q.1) (omap (M:=list) f l).
Proof.
  intros Hf. induction 1 as [|i l _ IH Hi]; [constructor|]. cbn [omap list_omap].
  destruct (f i) as [x|] eqn:Ex; [|done]. constructor; [done|].
  rewrite Forall_forall in Hi. rewrite Forall_forall. intros p (j & Hj & E)%list_elem_of_omap.
  rewrite (Hf _ _ Ex), (Hf _ _ E). by apply Hi.
Qed.

Lemma rows_sorted {A} (m : gmap Z A) (l : list Z) :
  StronglySorted Z.lt l -> StronglySorted (fun p q => p.1 < q.1) (omap (M:=list) (fun i => pair i <$> m !! i) l).
Proof. apply omap_sorted. intros i p E. destruct (m !! i); [|done]. by injection E as <-. Qed.

Lemma sorted_NoDup {A} (l : list (Z * A)) : StronglySorted (fun p q => p.1 < q.1) l -> NoDup l.
Proof.
  induction 1 as [|p l _ IH Hp]; constructor; [|done]. intros Hin. rewrite Forall_forall in Hp.
  specialize (Hp p Hin). lia.
Qed.

Lemma sorted_rows_eq {A} (l l' : list (Z * A)) :
  StronglySorted (fun p q => p.1 < q.1) l -> StronglySorted (fun p q => p.1 < q.1) l' ->
  (forall p, p ∈ l <-> p ∈ l') -> l = l'.
Proof.
  intros Hl Hl' Hel. apply (StronglySorted_unique_strong (fun p q => p.1 < q.1)); try done; [intros; lia|].
  apply NoDup_Permutation; [by apply sorted_NoDup|by apply sorted_NoDup|done].
Qed.

(** The records of a service in one scan, by ascending identifier. *)
Definition service_rows (d : Db) (k : service_key) : list (Z * ConnectionRecord) :=
  omap (fun i => pair i <$> connection_records d !! i)
    (sorted_ids (select_ids (fun _ r => bool_decide (record_key r = Some k)) (connection_records d))).

Lemma elem_of_service_rows d k i r :
  (i, r) ∈ service_rows d k <-> connection_records d !! i = Some r /\ record_key r = Some k.
Proof.
  unfold service_rows. rewrite list_elem_of_omap. setoid_rewrite elem_of_sorted_ids. setoid_rewrite elem_of_select_ids. split.
  - intros (j & (x & Hx & Hk) & E). rewrite Hx in E. injection E as -> ->. by apply bool_decide_eq_true in Hk.
  - intros [Hi Hk]. exists i. rewrite Hi. split; [|done]. exists r. by rewrite bool_decide_eq_true.
Qed.

(** What the collectors store (src/app/collectors): canonical addresses, a port beside
    every remote address, no empty host name. *)
Record record_canonical (r : ConnectionRecord) : Prop := {
  rc_local_ip : conn_local_ip r ≠ [] /\ (44%N ∉ conn_local_ip r);
  rc_local_port : 0 <= conn_local_port r;
  rc_pid : match conn_pid r with Some p => 0 <= p | None => True end;
  rc_hostname : conn_remote_hostname r ≠ Some [];
  rc_remote : match conn_remote_ip r with
              | Some a => _normalize_ip_address_uncached a = a /\ is_Some (conn_remote_port r)
              | None => True
              end
}.

(** ** What an aggregated observation says *)

Lemma agg_split `{PgAggregates} xs :
  xs ≠ [] -> Forall (fun x => x ≠ [] /\ (44%N ∉ x)) xs ->
  exists v, string_agg_distinct xs = Some v /\ v ≠ [] /\ forall x, x ∈ split_on 44 v <-> x ∈ xs.
Proof.
  intros Hne Hall. destruct (string_agg_some xs Hne) as (ys & -> & Hys & Hel). exists (join 44 ys).
  assert (Hall' : Forall (fun x => x ≠ [] /\ (44%N ∉ x)) ys).
  { rewrite Forall_forall in Hall |- *. intros y Hy. by apply Hall, Hel. }
  split_and!; [done| |].
  - apply join_nonempty; [done|]. eapply Forall_impl; [exact Hall'|]. by intros y [? _].
  - intros x. rewrite split_join; [apply Hel|done|]. eapply Forall_impl; [exact Hall'|]. by intros y [_ ?].
Qed.

Lemma last_id_snoc rows p : last_id (rows ++ [p]) = p.1.
Proof. unfold last_id. by rewrite foldl_snoc. Qed.

Lemma last_hostname_last rows : last_hostname rows = last (omap (M:=list) (fun p => conn_remote_hostname p.2) rows).
Proof.
  induction rows as [|p rows IH] using rev_ind; [done|]. unfold last_hostname in *. rewrite foldl_snoc, omap_app, IH.
  cbn [omap list_omap]. destruct (conn_remote_hostname p.2); [by rewrite last_snoc|by rewrite app_nil_r].
Qed.

Lemma str_of_Z_plain z : 0 <= z -> str_of_Z z ≠ [] /\ (44%N ∉ str_of_Z z).
Proof.
  intros Hz. unfold str_of_Z. destruct (Z.ltb_spec z 0); [lia|]. destruct (str_of_N_spec (Z.to_N z)) as (_ & Hd & _ & Hne).
  split; [done|]. intros Hin. rewrite Forall_forall in Hd. by specialize (Hd _ Hin).
Qed.

(** A column of decimal numerals reads back as the numbers. *)
Lemma agg_ints `{UnicodeDigits, PgAggregates} zs :
  zs ≠ [] -> Forall (fun z => 0 <= z) zs ->
  exists v, string_agg_distinct (str_of_Z <$> zs) = Some v /\ int_csv v /\ forall z, z ∈ csv_values v <-> z ∈ zs.
Proof.
  intros Hne Hall. destruct (agg_split (str_of_Z <$> zs)) as (v & E & Hv & Hel).
  - by destruct zs.
  - rewrite Forall_fmap. eapply Forall_impl; [exact Hall|]. intros z Hz. by apply str_of_Z_plain.
  - exists v. split; [done|]. assert (Hp : forall s, s ∈ split_on 44 v -> exists z, z ∈ zs /\ s = str_of_Z z /\ py_int s = Some z).
    { intros s Hs. apply Hel, list_elem_of_fmap in Hs as (z & -> & Hz). exists z. split_and!; [done..|].
      apply py_int_str_of_Z. rewrite Forall_forall in Hall. by apply Hall. }
    split; [split; [done|]|].
    + rewrite Forall_forall. intros s (z & _ & _ & Hz)%Hp. eauto.
    + intros z. unfold csv_values. rewrite list_elem_of_omap. split.
      * intros (s & (z' & Hz' & _ & E')%Hp & Hz). rewrite E' in Hz. by injection Hz as <-.
      * intros Hz. exists (str_of_Z z). split; [by apply Hel, list_elem_of_fmap_2|].
        apply py_int_str_of_Z. rewrite Forall_forall in Hall. by apply Hall.
Qed.

Lemma omap_fmap_str {A} (f : A -> option Z) (l : list A) :
  omap (M:=list) (fun x => str_of_Z <$> f x) l = str_of_Z <$> omap (M:=list) f l.
Proof. induction l as [|x l IH]; [done|]. cbn [omap list_omap]. rewrite IH. by destruct (f x). Qed.

Section observation.
Context `{UnicodeDigits, PgAggregates}.
Context (d : Db) (o : ConnectionServiceObservation) (rows : list (Z * ConnectionRecord)) (scan : ScanRun).
Context (Hrun : scan_runs d !! obs_scan_run_id o = Some scan).
Context (Hg : group_observation d (observation_key o) rows = Some o) (Hne : rows ≠ []).
Context (Hrows : forall j r, (j, r) ∈ rows -> record_canonical r /\ in_field j).
Context (Hfield : in_field (obs_scan_run_id o) /\ in_field (run_started_at scan)).

Lemma group_fields :
  obs_device_id o = run_device_id scan /\ obs_started_at o = run_started_at scan /\
  obs_sample_connection_id o = last_id rows /\
  obs_remote_hostname o = last (omap (M:=list) (fun p => conn_remote_hostname p.2) rows) /\
  obs_local_ips o = default [] (string_agg_distinct ((fun p => conn_local_ip p.2) <$> rows)) /\
  obs_local_ports o = default [] (string_agg_distinct (str_of_Z <$> ((fun p => conn_local_port p.2) <$> rows))) /\
  obs_pids o = string_agg_distinct (str_of_Z <$> omap (M:=list) (fun p => conn_pid p.2) rows).
Proof.
  unfold group_observation, observation_key in Hg. rewrite Hrun in Hg.
  assert (Ep : (fun p : Z * ConnectionRecord => str_of_Z (conn_local_port p.2)) <$> rows = str_of_Z <$> ((fun p => conn_local_port p.2) <$> rows))
    by (by rewrite <- list_fmap_compose).
  assert (Ei : omap (M:=list) (fun p : Z * ConnectionRecord => str_of_Z <$> conn_pid p.2) rows = str_of_Z <$> omap (M:=list) (fun p => conn_pid p.2) rows).
  { apply (omap_fmap_str (fun p => conn_pid p.2)). }
  rewrite <- Ep, <- Ei, <- last_hostname_last. injection Hg as Eo. split_and!; by rewrite <- Eo.
Qed.

Lemma rows_facts (P : Z * ConnectionRecord -> Prop) : (forall j r, record_canonical r -> in_field j -> P (j, r)) -> Forall P rows.
Proof. intros HP. rewrite Forall_forall. intros [j r] Hin. by apply HP; apply (Hrows j r). Qed.

Lemma group_columns :
  obs_readable o /\
  (forall x, x ∈ obs_ips o <-> exists p, p ∈ rows /\ x = _normalize_ip_address_uncached (conn_local_ip p.2)) /\
  (forall z, z ∈ obs_ports o <-> exists p, p ∈ rows /\ z = conn_local_port p.2) /\
  (forall z, z ∈ obs_pid_values o <-> exists p, p ∈ rows /\ conn_pid p.2 = Some z).
Proof.
  destruct group_fields as (Hdev & Hst & Hid & _ & Hips & Hports & Hpids).
  destruct (agg_split ((fun p => conn_local_ip p.2) <$> rows)) as (vi & Ei & Hvi & Heli).
  { by destruct rows. }
  { rewrite Forall_fmap. apply rows_facts. intros j r Hr _. apply (rc_local_ip _ Hr). }
  destruct (agg_ints ((fun p => conn_local_port p.2) <$> rows)) as (vp & Ep & Hvp & Help).
  { by destruct rows. }
  { rewrite Forall_fmap. apply rows_facts. intros j r Hr _. apply (rc_local_port _ Hr). }
  rewrite Ei in Hips. rewrite Ep in Hports. cbn [default] in Hips, Hports.
  assert (Hpid : match obs_pids o with Some p => int_csv p | None => True end /\
    forall z, z ∈ obs_pid_values o <-> z ∈ omap (M:=list) (fun p => conn_pid p.2) rows).
  { unfold obs_pid_values. rewrite Hpids. destruct (decide (omap (M:=list) (fun p => conn_pid p.2) rows = [])) as [->|Hn].
    - unfold string_agg_distinct. destruct (distinct_values (str_of_Z <$> [])) as [|y ys] eqn:E; [done|].
      destruct (elem_of_distinct_values (str_of_Z <$> []) y) as [Hy _]. rewrite E in Hy. by apply elem_of_nil in Hy; [|left].
    - destruct (agg_ints (omap (M:=list) (fun p => conn_pid p.2) rows) Hn) as (v & -> & Hv & Hel); [|done].
      rewrite Forall_forall. intros z ([j r] & Hin & Hz)%list_elem_of_omap. destruct (Hrows j r Hin) as [Hr _].
      apply rc_pid in Hr. cbn in Hz. by rewrite Hz in Hr. }
  destruct Hpid as [Hpid Helpid]. split_and!.
  - constructor; [|by rewrite Hips|by rewrite Hports|done]. unfold marker_ok, obs_marker. cbn [fst snd].
    rewrite Hst, Hid. split_and!; [apply Hfield|apply Hfield|]. destruct (exists_last Hne) as (l & p & ->).
    rewrite last_id_snoc. destruct p as [j r]. apply (Hrows j r). apply elem_of_app. right. left.
  - intros x. unfold obs_ips. rewrite list_elem_of_fmap, Hips. setoid_rewrite Heli. setoid_rewrite list_elem_of_fmap.
    naive_solver.
  - intros z. unfold obs_ports. rewrite Hports, Help, list_elem_of_fmap. naive_solver.
  - intros z. rewrite Helpid, list_elem_of_omap. done.
Qed.
End observation.

(** The observations of the scans [S] are those of the records that are there: what the
    synchronization after each scan establishes and a purge of raw records ends. *)
Record synced `{PgAggregates} (d : Db) (S : gset Z) : Prop := {
  sy_unique : obs_unique d;
  sy_runs : forall i o, observations d !! i = Some o -> exists r, scan_runs d !! obs_scan_run_id o = Some r /\
    run_success r = true /\ run_device_id r = obs_device_id o /\ run_started_at r = obs_started_at o;
  sy_exact : forall i o, observations d !! i = Some o -> obs_scan_run_id o ∈ S ->
    service_rows d (observation_key o) ≠ [] /\
    group_observation d (observation_key o) (service_rows d (observation_key o)) = Some o;
  sy_complete : forall i r k, connection_records d !! i = Some r -> conn_scan_run_id r ∈ S ->
    record_key r = Some k -> observed k d;
  sy_canonical : forall i r, connection_records d !! i = Some r -> conn_scan_run_id r ∈ S ->
    record_canonical r /\ in_field i;
  sy_range : forall i r, scan_runs d !! i = Some r -> in_field i /\ in_field (run_started_at r)
}.

Section equivalence.
Context `{UnicodePrintable, UnicodeDigits, PgAggregates, PgOrder, MarkerCollation}.
Context (d : Db) (ids current_ids : gset Z) (cutoff : option Z).

(** The scans of a window. *)
Definition window_scan (i : Z) (r : ScanRun) : bool :=
  run_success r && bool_decide (run_device_id r ∈ ids) &&
  match cutoff with
  | None => bool_decide (i ∈ current_ids)
  | Some c => (c <=? run_started_at r) || bool_decide (i ∈ current_ids)
  end.

Definition window_scans : gset Z := select_ids window_scan (scan_runs d).

Context (Hs : synced d window_scans).

Definition cond := in_window ids current_ids cutoff unrestricted.

Lemma cond_window i o : observations d !! i = Some o -> cond i o = true <-> obs_scan_run_id o ∈ window_scans.
Proof.
  intros Hi. destruct (sy_runs _ _ Hs i o Hi) as (r & Hr & Hok & Hdev & Hst). unfold cond, in_window, narrowed. cbn [n_source_device_ids n_inbound_addresses n_remote_addresses unrestricted].
  unfold window_scans. rewrite elem_of_select_ids, <- Hdev, <- Hst, !andb_true_r. split.
  - intros Hc. exists r. split; [done|]. unfold window_scan. rewrite Hok. exact Hc.
  - intros (r' & Hr' & Hc). rewrite Hr in Hr'. injection Hr' as <-. unfold window_scan in Hc. rewrite Hok in Hc. exact Hc.
Qed.

Lemma cond_exact i o :
  observations d !! i = Some o -> cond i o = true ->
  service_rows d (observation_key o) ≠ [] /\
  group_observation d (observation_key o) (service_rows d (observation_key o)) = Some o /\
  forall j r, (j, r) ∈ service_rows d (observation_key o) -> record_canonical r /\ in_field j.
Proof.
  intros Hi Hc. apply (cond_window i o Hi) in Hc. destruct (sy_exact _ _ Hs i o Hi Hc) as [Hne Hg]. split_and!; [done..|].
  intros j r [Hj Hk]%elem_of_service_rows. apply (sy_canonical _ _ Hs j r Hj).
  unfold record_key in Hk. destruct (conn_remote_ip r); [|done]. injection Hk as Hk. by rewrite Hk.
Qed.

(** *** The rows of the reference aggregation *)

Definition all_rows : list ConnectionObservation := concat (scan_observations d <$> sorted_ids window_scans).

Lemma elem_of_scan_connections s i r :
  (i, r) ∈ scan_connections d s <-> connection_records d !! i = Some r /\ conn_scan_run_id r = s.
Proof.
  unfold scan_connections. rewrite list_elem_of_omap. setoid_rewrite elem_of_sorted_ids. setoid_rewrite elem_of_select_ids. split.
  - intros (j & (x & Hx & Hk) & E). rewrite Hx in E. injection E as -> ->. split; [done|lia].
  - intros [Hi Hk]. exists i. rewrite Hi. split; [|done]. exists r. split; [done|lia].
Qed.

Lemma elem_of_scan_observations s c :
  c ∈ scan_observations d s <->
  exists run, scan_runs d !! s = Some run /\ co_scan_id c = s /\ co_device_id c = run_device_id run /\
    co_started_at c = run_started_at run /\ connection_records d !! co_row_id c = Some (co_row c) /\
    conn_scan_run_id (co_row c) = s.
Proof.
  unfold scan_observations. destruct (scan_runs d !! s) as [run|]; [|split; [by intros ?%elem_of_nil|by intros (? & ? & _)]].
  rewrite list_elem_of_fmap. split.
  - intros ([i r] & -> & [Hi Hr]%elem_of_scan_connections). by exists run.
  - intros (run' & [= <-] & <- & Hd & Ht & Hi & Hr). exists (co_row_id c, co_row c). split; [|by apply elem_of_scan_connections].
    destruct c. cbn in *. by subst.
Qed.

Lemma elem_of_all_rows c :
  c ∈ all_rows <-> co_scan_id c ∈ window_scans /\ c ∈ scan_observations d (co_scan_id c).
Proof.
  unfold all_rows. rewrite elem_of_concat_fmap. setoid_rewrite elem_of_sorted_ids. split.
  - intros (s & Hw & Hc). pose proof Hc as Hc'. apply elem_of_scan_observations in Hc' as (_ & _ & <- & _). done.
  - intros [Hw Hc]. by exists (co_scan_id c).
Qed.

Lemma NoDup_all_rows : NoDup (co_marker <$> all_rows).
Proof.
  apply NoDup_fmap_2_strong.
  - intros c c' [_ Hc]%elem_of_all_rows [_ Hc']%elem_of_all_rows E. unfold co_marker in E. injection E as Et Es Ei.
    apply elem_of_scan_observations in Hc as (run & Hr & _ & Hd & Ht & Hi & _), Hc' as (run' & Hr' & _ & Hd' & Ht' & Hi' & _).
    rewrite Es in Hr. rewrite Hr in Hr'. injection Hr' as <-. rewrite Ei in Hi. rewrite Hi in Hi'. injection Hi' as Er.
    destruct c, c'. cbn in *. by subst.
  - apply NoDup_concat_fmap; [apply NoDup_sorted_ids| |].
    + intros s _. unfold scan_observations. destruct (scan_runs d !! s); [|constructor].
      apply (NoDup_fmap_2_strong (fun p => mkConnObs s _ _ p.1 p.2)); [intros [] [] _ _ [= -> ->]; done|].
      apply sorted_NoDup, rows_sorted, sorted_ids_StronglySorted.
    + intros s s' c _ _ Hc Hc'. apply elem_of_scan_observations in Hc as (_ & _ & <- & _), Hc' as (_ & _ & <- & _). done.
Qed.

(** *** The rows of one service *)

Definition obs_rows (o : ConnectionServiceObservation) : list ConnectionObservation :=
  (fun p => mkConnObs (obs_scan_run_id o) (obs_device_id o) (obs_started_at o) p.1 p.2) <$> service_rows d (observation_key o).

Definition tuple_of (k : raw_key) : service_tuple :=
  let '(device_id, protocol, remote, port, process) := k in (device_id, protocol, remote, Some port, process).

#[export] Instance tuple_of_inj : Inj (=) (=) tuple_of.
Proof. intros [[[[]]]] [[[[]]]]. cbn. congruence. Qed.

Definition kept_rows : list ConnectionObservation :=
  filter (fun o => is_Some (service_remote (co_row o))) (chronological co_marker all_rows).

Abbreviation grouped := (group cond d) (only parsing).
Abbreviation in_order := (ordered cond d) (only parsing).

Lemma elem_of_obs_rows k o c :
  o ∈ grouped k ->
  c ∈ obs_rows o <-> c ∈ all_rows /\ record_key (co_row c) = Some (observation_key o).
Proof.
  intros (_ & i & Hi & Hc)%elem_of_group. destruct (sy_runs _ _ Hs i o Hi) as (run & Hrun & _ & Hdev & Hst).
  apply (cond_window i o Hi) in Hc as Hw. unfold obs_rows. rewrite list_elem_of_fmap, elem_of_all_rows. split.
  - intros ([j r] & -> & [Hj Hk]%elem_of_service_rows). cbn [co_scan_id co_row fst snd]. split; [|done]. split; [done|].
    apply elem_of_scan_observations. exists run. cbn. split_and!; try done.
    unfold record_key in Hk. destruct (conn_remote_ip r); [|done]. by injection Hk as ->.
  - intros [[_ Hco] Hk]. apply elem_of_scan_observations in Hco as (run' & Hrun' & _ & Hd & Ht & Hj & Hr).
    assert (Es : co_scan_id c = obs_scan_run_id o).
    { unfold record_key in Hk. destruct (conn_remote_ip (co_row c)); [|done]. injection Hk as Hk. congruence. }
    rewrite Es, Hrun in Hrun'. injection Hrun' as <-. exists (co_row_id c, co_row c). split; [|by apply elem_of_service_rows].
    destruct c. cbn in *. congruence.
Qed.

Lemma row_canonical c : c ∈ all_rows -> record_canonical (co_row c).
Proof.
  intros [Hw Hc]%elem_of_all_rows. apply elem_of_scan_observations in Hc as (_ & _ & _ & _ & _ & Hi & Hr).
  apply (sy_canonical _ _ Hs (co_row_id c)); [done|by rewrite Hr].
Qed.

(** A row of the window with the tuple of a service belongs to an observation of it. *)
Lemma row_observed k c :
  c ∈ all_rows -> is_Some (service_remote (co_row c)) ->
  observation_tuple c = tuple_of k <-> exists o, o ∈ grouped k /\ record_key (co_row c) = Some (observation_key o).
Proof.
  intros Hc [a Ha]. pose proof (row_canonical c Hc) as Hcan. apply rc_remote in Hcan as Hrem.
  unfold observation_tuple, _service_key. rewrite Ha. cbn [default]. unfold service_remote in Ha.
  pose proof Hc as Hc'. apply elem_of_all_rows in Hc' as [Hw (run & Hrun & _ & Hdev & _ & Hi & Hr)%elem_of_scan_observations].
  unfold record_key. destruct (conn_remote_ip (co_row c)) as [a'|] eqn:Erem; [|done].
  destruct (is_loopback_address (Some a')); [done|]. destruct Hrem as [Hn [p Hp]].
  injection Ha as Ha. rewrite Hn in Ha. subst a'. rewrite Hp. cbn [default]. split.
  - intros E. destruct (sy_complete _ _ Hs (co_row_id c) (co_row c)
      (conn_scan_run_id (co_row c), conn_protocol (co_row c), a, p, default [] (conn_process_name (co_row c)))) as (i & o & Ho & Hk).
    + done.
    + by rewrite Hr.
    + unfold record_key. by rewrite Erem, Hp.
    + exists o. rewrite Hk. split; [|done]. apply elem_of_group. unfold observation_key in Hk. injection Hk as Hk1 Hk2 Hk3 Hk4 Hk5.
      destruct (sy_runs _ _ Hs i o Ho) as (run' & Hrun' & _ & Hdev' & _). rewrite Hk1, Hr, Hrun in Hrun'. injection Hrun' as <-.
      split.
      * unfold raw_key_of. rewrite Hk2, Hk3, Hk4, Hk5, <- Hdev', <- Hdev. apply (inj tuple_of). by rewrite <- E.
      * exists i. split; [done|]. apply (cond_window i o Ho). by rewrite Hk1, Hr.
  - intros (o & (<- & i & Ho & _)%elem_of_group & Hk). unfold observation_key in Hk. injection Hk as Hk1 Hk2 Hk3 Hk4 Hk5.
    destruct (sy_runs _ _ Hs i o Ho) as (run' & Hrun' & _ & Hdev' & _). rewrite <- Hk1, Hr, Hrun in Hrun'. injection Hrun' as <-.
    unfold tuple_of, raw_key_of. cbn. congruence.
Qed.

Lemma cond_readable i o : observations d !! i = Some o -> cond i o = true -> obs_readable o.
Proof.
  intros Hi Hc. destruct (sy_runs _ _ Hs i o Hi) as (run & Hrun & _).
  destruct (cond_exact i o Hi Hc) as (Hne & Hg & Hrows).
  by apply (group_columns d o _ run Hrun Hg Hne Hrows (sy_range _ _ Hs _ _ Hrun)).
Qed.

Lemma group_facts k o :
  o ∈ grouped k -> exists run, scan_runs d !! obs_scan_run_id o = Some run /\
    service_rows d (observation_key o) ≠ [] /\
    group_observation d (observation_key o) (service_rows d (observation_key o)) = Some o /\
    (forall j r, (j, r) ∈ service_rows d (observation_key o) -> record_canonical r /\ in_field j) /\
    in_field (obs_scan_run_id o) /\ in_field (run_started_at run).
Proof.
  intros (_ & i & Hi & Hc)%elem_of_group. destruct (sy_runs _ _ Hs i o Hi) as (run & Hrun & _). exists run.
  destruct (cond_exact i o Hi Hc) as (? & ? & ?). split_and!; try done; by apply (sy_range _ _ Hs _ _ Hrun).
Qed.

Lemma obs_rows_sorted o : StronglySorted (fun a b => marker_lt (co_marker a) (co_marker b)) (obs_rows o).
Proof.
  unfold obs_rows, service_rows.
  pose proof (rows_sorted (connection_records d) _ (sorted_ids_StronglySorted
    (select_ids (fun _ r => bool_decide (record_key r = Some (observation_key o))) (connection_records d)))) as Hsort.
  induction Hsort as [|p l _ IH Hp]; [constructor|]. cbn [fmap list_fmap]. constructor; [done|].
  rewrite Forall_fmap. eapply Forall_impl; [exact Hp|]. intros q Hq. cbn in Hq |- *. lia.
Qed.

Lemma rows_of_service k :
  visible k -> with_key observation_tuple (tuple_of k) kept_rows = concat (obs_rows <$> in_order k).
Proof.
  intros Hv. unfold with_key, kept_rows. rewrite <- !chronological_filter.
  2:{ eapply sublist_NoDup; [apply NoDup_all_rows|]. apply fmap_sublist, sublist_filter. }
  2:{ apply NoDup_all_rows. }
  assert (Hsorted : StronglySorted (fun a b => marker_lt (co_marker a) (co_marker b)) (concat (obs_rows <$> in_order k))).
  { apply (StronglySorted_concat_fmap (fun a b => marker_lt (obs_marker a) (obs_marker b))).
    - unfold ordered. apply chronological_strict, (group_markers _ _ (sy_unique _ _ Hs)).
    - intros o _. apply obs_rows_sorted.
    - intros o o' c c' Ho Ho' Hlt (p & -> & _)%list_elem_of_fmap (p' & -> & _)%list_elem_of_fmap.
      apply elem_of_ordered in Ho, Ho'. assert (Hne : obs_scan_run_id o ≠ obs_scan_run_id o').
      { intros Es. apply elem_of_group in Ho as (Hk & i & Hi & _), Ho' as (Hk' & j & Hj & _).
        assert (i = j) as ->; [|rewrite Hi in Hj; injection Hj as <-; by apply marker_lt_irrefl in Hlt].
        apply (sy_unique _ _ Hs i o Hi j o' Hj). unfold raw_key_of, observation_key in *. congruence. }
      unfold marker_lt, obs_marker, co_marker in *. cbn. lia. }
  apply strict_chronological; [|done|].
  - eapply sublist_NoDup; [apply NoDup_all_rows|]. apply fmap_sublist. by rewrite !sublist_filter.
  - intros c. rewrite elem_of_concat_fmap, !list_elem_of_filter. setoid_rewrite elem_of_ordered. split.
    + intros (o & Ho & Hc). apply (elem_of_obs_rows k o c Ho) in Hc as [Hc Hk].
        assert (Hrem : is_Some (service_remote (co_row c))).
        { unfold record_key in Hk. unfold service_remote. destruct (conn_remote_ip (co_row c)) as [a|]; [|done].
          injection Hk as _ _ Ha _ _. apply elem_of_group in Ho as (<- & _). unfold visible in Hv.
          change (remote_of (raw_key_of o)) with (obs_remote_ip o) in Hv.
          rewrite <- Ha in Hv. rewrite Hv. eauto. }
        split; [|split; done]. apply row_observed; eauto.
    + intros (Ht & Hrem & Hc). apply row_observed in Ht as (o & Ho & Hk); [|done..]. exists o. split; [done|].
        by apply (elem_of_obs_rows k o c Ho).
Qed.

Lemma obs_rows_ends k o :
  o ∈ grouped k -> exists j r, connection_records d !! j = Some r /\ conn_scan_run_id r = obs_scan_run_id o /\
    record_key r = Some (observation_key o) /\ obs_sample_connection_id o = j /\
    last (obs_rows o) = Some (mkConnObs (obs_scan_run_id o) (obs_device_id o) (obs_started_at o) j r) /\
    exists c, head (obs_rows o) = Some c /\ co_started_at c = obs_started_at o /\ co_device_id c = obs_device_id o.
Proof.
  intros Ho. destruct (group_facts k o Ho) as (run & Hrun & Hne & Hg & Hrows & Hf).
  destruct (group_fields d o _ run Hrun Hg) as (_ & _ & Hid & _).
  destruct (exists_last Hne) as (l & [j r] & El). rewrite El, last_id_snoc in Hid. exists j, r.
  assert (Hin : (j, r) ∈ service_rows d (observation_key o)) by (rewrite El; apply elem_of_app; right; left).
  apply elem_of_service_rows in Hin as [Hj Hk]. split_and!; [done| |done|done| |].
  - unfold record_key in Hk. destruct (conn_remote_ip r); [|done]. by injection Hk.
  - unfold obs_rows. rewrite El, fmap_app. cbn [fmap list_fmap]. by rewrite last_snoc.
  - unfold obs_rows. destruct (service_rows d (observation_key o)) as [|p rows]; [by apply app_cons_not_nil in El|].
    eexists. split; [reflexivity|]. done.
Qed.

Lemma hostnames_of_rows k :
  last (omap (M:=list) (fun c => conn_remote_hostname (co_row c)) (concat (obs_rows <$> in_order k))) =
  last (omap (M:=list) obs_remote_hostname (in_order k)).
Proof.
  rewrite omap_concat_fmap, last_concat. f_equal.
  assert (Hall : forall o, o ∈ in_order k -> o ∈ grouped k) by (intros o; apply elem_of_ordered).
  induction (in_order k) as [|o l IH]; [done|]. cbn [fmap list_fmap omap list_omap].
  destruct (group_facts k o (Hall o ltac:(left))) as (run & Hrun & Hne & Hg & Hrows & Hf).
  destruct (group_fields d o _ run Hrun Hg) as (_ & _ & _ & Hh & _). rewrite Hh, IH by (intros o' Ho'; apply Hall; by right).
  unfold obs_rows at 1. by rewrite omap_of_fmap.
Qed.

(** A set of values of the rows, from the same values of the observations. *)
Lemma rows_set `{Countable B} (f : ConnectionServiceObservation -> list B) (g : ConnectionObservation -> option B) k :
  (forall o b, o ∈ grouped k -> b ∈ f o <-> exists c, c ∈ obs_rows o /\ g c = Some b) ->
  (list_to_set (omap (M:=list) g (concat (obs_rows <$> in_order k))) : gset B) = list_to_set (concat (f <$> in_order k)).
Proof.
  intros Hfg. apply set_eq. intros b. rewrite elem_of_set_concat, elem_of_list_to_set, list_elem_of_omap.
  setoid_rewrite elem_of_concat_fmap. setoid_rewrite elem_of_ordered. split.
  - intros (c & (o & Ho & Hc) & Hb). exists o. split; [done|]. apply (Hfg o b Ho). eauto.
  - intros (o & Ho & Hb). apply (Hfg o b Ho) in Hb as (c & Hc & Hb). eauto.
Qed.

Lemma rows_columns k :
  let R := concat (obs_rows <$> in_order k) in
  list_to_set (co_scan_id <$> R) = (list_to_set (obs_scan_run_id <$> in_order k) : gset Z) /\
  list_to_set ((fun c => _normalize_ip_address_uncached (conn_local_ip (co_row c))) <$> R) =
    (list_to_set (concat (obs_ips <$> in_order k)) : gset text) /\
  list_to_set ((fun c => conn_local_port (co_row c)) <$> R) = (list_to_set (concat (obs_ports <$> in_order k)) : gset Z) /\
  list_to_set (omap (M:=list) (fun c => conn_pid (co_row c)) R) = (list_to_set (concat (obs_pid_values <$> in_order k)) : gset Z).
Proof.
  assert (Hc : forall o, o ∈ grouped k -> forall p, p ∈ service_rows d (observation_key o) <->
    exists c, c ∈ obs_rows o /\ p = (co_row_id c, co_row c)).
  { intros o _ p. unfold obs_rows. setoid_rewrite list_elem_of_fmap. split.
    - intros Hp. eexists. split; [by exists p|]. by destruct p.
    - by intros (c & ([j r] & -> & Hp) & ->). }
  cbv zeta. split_and!.
  - rewrite <- (omap_total (fun c => Some (co_scan_id c)) co_scan_id) by done.
    rewrite (rows_set (fun o => [obs_scan_run_id o]) (fun c => Some (co_scan_id c))).
    + f_equal. by induction (in_order k) as [|o l IH]; [|cbn; f_equal].
    + intros o b Ho. rewrite list_elem_of_singleton. destruct (obs_rows_ends k o Ho) as (j & r & _ & _ & _ & _ & Hl & _).
      apply last_Some_elem_of in Hl. split; [intros ->; by eexists|].
      intros (c & (p & -> & _)%list_elem_of_fmap & [= <-]). done.
  - rewrite <- (omap_total (fun c => Some (_normalize_ip_address_uncached (conn_local_ip (co_row c))))) by done.
    apply rows_set. intros o b Ho. destruct (group_facts k o Ho) as (run & Hrun & Hne & Hg & Hrows & Hf).
    destruct (group_columns d o _ run Hrun Hg Hne Hrows Hf) as (_ & -> & _). setoid_rewrite (Hc o Ho). naive_solver.
  - rewrite <- (omap_total (fun c => Some (conn_local_port (co_row c)))) by done.
    apply rows_set. intros o b Ho. destruct (group_facts k o Ho) as (run & Hrun & Hne & Hg & Hrows & Hf).
    destruct (group_columns d o _ run Hrun Hg Hne Hrows Hf) as (_ & _ & -> & _). setoid_rewrite (Hc o Ho). naive_solver.
  - apply rows_set. intros o b Ho. destruct (group_facts k o Ho) as (run & Hrun & Hne & Hg & Hrows & Hf).
    destruct (group_columns d o _ run Hrun Hg Hne Hrows Hf) as (_ & _ & _ & ->). setoid_rewrite (Hc o Ho). naive_solver.
Qed.

Lemma existsb_scans os :
  existsb (fun o => bool_decide (co_scan_id o ∈ current_ids)) os =
    bool_decide ((list_to_set (co_scan_id <$> os) : gset Z) ∩ current_ids ≠ ∅).
Proof.
  apply eq_true_iff_eq. rewrite existsb_exists, bool_decide_eq_true. setoid_rewrite bool_decide_eq_true. split.
  - intros (c & Hc%list_elem_of_In & Hw). assert (co_scan_id c ∈ (list_to_set (co_scan_id <$> os) : gset Z)) as Hin
      by (apply elem_of_list_to_set; by apply list_elem_of_fmap_2). set_solver.
  - intros (x & [Hx Hw]%elem_of_intersection)%set_choose_L. apply elem_of_list_to_set, list_elem_of_fmap in Hx as (c & -> & Hc).
    exists c. split; [by apply list_elem_of_In|done].
Qed.

Lemma head_concat {A B} (f : A -> list B) x l b : head (f x) = Some b -> head (concat (f <$> x :: l)) = Some b.
Proof. cbn. by destruct (f x). Qed.

Lemma finish_service c dev sid st cur f l n a b p S I P D :
  finish_bucket (mkBucket (mkService c dev sid st cur f l n a b p) S I P D) =
    mkService c dev sid st cur f l (Z.of_nat (size S)) (sorted_texts I) (sorted_ids P) (sorted_ids D).
Proof. reflexivity. Qed.

(** Folding the rows of a service gives what the observations of its group give. *)
Lemma service_of_rows k :
  grouped k ≠ [] ->
  exists b, folded current_ids (concat (obs_rows <$> in_order k)) = Some b /\
    group_service current_ids d k (in_order k) = Some (finish_bucket b).
Proof.
  intros Hne. destruct (ordered_ends cond d k Hne) as (first & latest & Hf & Hl).
  assert (Hfirst : first ∈ grouped k) by (apply elem_of_ordered; by apply head_Some_elem_of).
  assert (Hlatest : latest ∈ grouped k) by (apply elem_of_ordered; by apply last_Some_elem_of).
  destruct (rows_columns k) as (Hscans & Hips & Hports & Hpids).
  pose proof (hostnames_of_rows k) as Hnames.
  destruct (obs_rows_ends k first Hfirst) as (_ & _ & _ & _ & _ & _ & _ & c0 & Hc0 & Hst0 & Hdev0).
  destruct (obs_rows_ends k latest Hlatest) as (j & r & Hj & Hr & Hk & Hid & Hlast & _).
  assert (Hh : head (concat (obs_rows <$> in_order k)) = Some c0).
  { destruct (in_order k) as [|o l]; [done|]. injection Hf as ->. by apply head_concat. }
  assert (Hlr : last (concat (obs_rows <$> in_order k)) = Some (mkConnObs (obs_scan_run_id latest) (obs_device_id latest) (obs_started_at latest) j r)).
  { apply last_Some in Hl as (l & ->). rewrite fmap_app, concat_app, last_app. cbn [fmap list_fmap concat]. by rewrite app_nil_r, Hlast. }
  unfold folded, group_service. rewrite Hh, Hlr, Hf, Hl, existsb_scans, Hscans, Hips, Hports, Hpids, Hnames.
  eexists. split; [reflexivity|]. destruct (group_facts k latest Hlatest) as (run & Hrun & _).
  assert (Hsample : sample_of d (obs_sample_connection_id latest) =
    Some (mkSample j (conn_protocol r) (conn_local_ip r) (Some (conn_local_port r)) (conn_remote_port r)
            (conn_state r) (conn_pid r) (conn_process_name r) (obs_scan_run_id latest) (run_started_at run) (run_device_id run))).
  { unfold sample_of, latest_row. rewrite Hid, decide_True by set_solver. by rewrite Hj, Hr, Hrun. }
  rewrite Hsample. cbn [default sample_local_ip sample_device_id sample_scan_id sample_started_at].
  assert (Hg' : exists i, observations d !! i = Some latest) by (apply elem_of_group in Hlatest as (_ & i & Hi & _); eauto).
  destruct Hg' as [i Hi]. destruct (sy_runs _ _ Hs i latest Hi) as (run' & Hrun' & _ & Hdev & Hst).
  rewrite Hrun in Hrun'. injection Hrun' as <-. rewrite finish_service, Hdev0, Hst0, Hdev, Hst. f_equal.
  assert (Hkeys : obs_device_id latest = obs_device_id first /\ obs_remote_ip latest = k.1.1.2).
  { apply elem_of_group in Hfirst as (<- & _), Hlatest as (Ek & _). unfold raw_key_of in Ek. by injection Ek. }
  destruct Hkeys as [<- <-]. f_equal.
  assert (Hcan : record_canonical r) by (by apply (row_canonical (mkConnObs (obs_scan_run_id latest) (obs_device_id latest)
    (obs_started_at latest) j r)), (elem_of_obs_rows k latest _ Hlatest), last_Some_elem_of).
  apply rc_remote in Hcan. unfold sample_connection, co_values, connection_dict. cbn [co_row_id co_row sample_connection_id
    sample_protocol sample_local_port sample_remote_port sample_state sample_pid sample_process_name].
  unfold record_key in Hk. rewrite <- address_family_colon. destruct (conn_remote_ip r) as [a|]; [|done].
  injection Hk as _ _ <- _ _. cbn [normalize_ip_address fmap option_fmap option_map]. destruct Hcan as [-> _]. done.
Qed.

Definition raw_groups : dict service_tuple Bucket := group_by observation_tuple (observe current_ids) kept_rows [].

Definition visible_keys : list raw_key := filter visible (group_keys cond d).

Lemma raw_group_keys : raw_groups.*1 ≡ₚ tuple_of <$> visible_keys.
Proof.
  apply NoDup_Permutation.
  - apply group_by_NoDup. constructor.
  - apply NoDup_fmap_2; [apply _|]. apply NoDup_filter, NoDup_remove_dups.
  - intros t. unfold raw_groups. rewrite group_by_keys, (list_elem_of_fmap observation_tuple), (list_elem_of_fmap tuple_of).
    unfold visible_keys.
    setoid_rewrite list_elem_of_filter. setoid_rewrite elem_of_group_keys. split.
    + intros [Ht|(c & -> & Hrem & Hc)]; [by apply elem_of_nil in Ht|]. rewrite chronological_Permutation in Hc. pose proof Hrem as [a Ha].
      pose proof (rc_remote _ (row_canonical c Hc)) as Hcan. pose proof Ha as Ha'. unfold service_remote in Ha'.
      destruct (conn_remote_ip (co_row c)) as [a'|] eqn:Er; [|done].
      destruct (is_loopback_address (Some a')) eqn:El; [done|]. injection Ha' as Ha'. destruct Hcan as [Hn [p Hp]].
      assert (a' = a) as -> by congruence.
      set (k := (co_device_id c, conn_protocol (co_row c), a, p, default [] (conn_process_name (co_row c)))).
      assert (Ek : observation_tuple c = tuple_of k).
      { unfold observation_tuple, _service_key. by rewrite Ha, Hp. }
      exists k. split; [done|]. split; [done|]. apply row_observed in Ek as (o & Ho & _); [|done..].
      intros E. rewrite E in Ho. by apply elem_of_nil in Ho.
    + intros (k & -> & Hv & Hne). right. destruct (group cond d k) as [|o l] eqn:E; [done|].
      assert (Ho : o ∈ grouped k) by (rewrite E; left). destruct (obs_rows_ends k o Ho) as (j & r & _ & _ & _ & _ & Hl & _).
      apply last_Some_elem_of in Hl. set (c := mkConnObs _ _ _ j r) in *.
      assert (Hin : c ∈ with_key observation_tuple (tuple_of k) kept_rows).
      { rewrite rows_of_service by done. apply elem_of_concat_fmap. exists o. split; [by apply elem_of_ordered|done]. }
      apply list_elem_of_filter in Hin as [Ht [? ?]%list_elem_of_filter]. exists c. split_and!; done.
Qed.

Lemma raw_group_service k :
  k ∈ visible_keys -> finish_bucket <$> dict_get (tuple_of k) raw_groups = group_service current_ids d k (in_order k).
Proof.
  intros [Hv Hne%elem_of_group_keys]%list_elem_of_filter. unfold raw_groups. rewrite group_by_get. cbn [dict_get].
  rewrite rows_of_service by done. rewrite fold_observe by (apply Forall_forall; intros c (o & Ho%elem_of_ordered & Hc)%elem_of_concat_fmap;
    apply (elem_of_obs_rows k o c Ho) in Hc as [Hc _]; apply (rc_hostname _ (row_canonical c Hc))).
  destruct (service_of_rows k Hne) as (b & -> & ->). done.
Qed.

Lemma reference_services :
  aggregate_service_connections (sorted_ids window_scans) current_ids d ≡ₚ services cond d d current_ids.
Proof.
  change (aggregate_service_connections _ _ _) with (sorted_groups key_text finish_bucket raw_groups).
  unfold sorted_groups. rewrite sorted_by_text_Permutation.
  assert (Hd : NoDup raw_groups.*1) by (apply group_by_NoDup; constructor).
  pose proof (dict_items raw_groups Hd) as Hitems.
  assert (E : (fun p => finish_bucket p.2) <$> omap (M:=list) (fun t => pair t <$> dict_get t raw_groups) raw_groups.*1 =
              omap (M:=list) (fun t => finish_bucket <$> dict_get t raw_groups) raw_groups.*1).
  { generalize raw_groups.*1 as ts. induction ts as [|t ts IH]; [done|]. cbn [omap list_omap].
    destruct (dict_get t raw_groups); cbn [fmap option_fmap option_map list_fmap]; by rewrite IH. }
  rewrite Hitems, E, raw_group_keys, omap_of_fmap. unfold services. fold visible_keys.
  apply reflexive_eq. pose proof raw_group_service as Hk. induction visible_keys as [|k ks IH]; [done|]. cbn [omap list_omap].
  rewrite (Hk k ltac:(left)), IH; [done|]. intros k' Hk'. apply Hk. by right.
Qed.
End equivalence.

(** The services read from the observations of a window are the services of the raw
    records of its scans, whatever order and collation PostgreSQL uses. *)
Lemma observations_match_records `{UnicodePrintable, UnicodeDigits, PgAggregates, PgOrder, MarkerCollation}
    d ids current_ids cutoff :
  synced d (window_scans d ids current_ids cutoff) ->
  exists l, _aggregate_observation_groups ids current_ids cutoff unrestricted d d d = Ok l /\
    l ≡ₚ aggregate_service_connections (sorted_ids (window_scans d ids current_ids cutoff)) current_ids d.
Proof.
  intros Hs. destruct (aggregate_observation_groups_spec ids current_ids cutoff unrestricted d d (sy_unique _ _ Hs)) as (l & E & Hl).
  - intros i o Hi Hc. split; [by apply (cond_readable d ids current_ids cutoff Hs i)|].
    destruct (cond_exact d ids current_ids cutoff Hs i o Hi Hc) as (Hne & _ & Hrows).
    destruct (service_rows d (observation_key o)) as [|[j r] rows] eqn:Er; [done|].
    assert (Hin : (j, r) ∈ service_rows d (observation_key o)) by (rewrite Er; left). rewrite <- Er in Hrows.
    destruct (Hrows j r Hin) as [Hcan _]. apply elem_of_service_rows in Hin as [_ Hk]. apply rc_remote in Hcan.
    unfold record_key in Hk. destruct (conn_remote_ip r); [|done]. injection Hk as _ _ <- _ _. apply Hcan.
  - exists l. split; [done|]. rewrite Hl. symmetry. by apply reference_services.
Qed.

(** ** Persisting a scan keeps records and observations in agreement *)

Definition success_scans (d : Db) : gset Z := select_ids (fun _ r => run_success r) (scan_runs d).

Lemma elem_of_success_scans d i : i ∈ success_scans d <-> exists r, scan_runs d !! i = Some r /\ run_success r = true.
Proof. apply elem_of_select_ids. Qed.

Section persisting.
Context `{UnicodeCase, PgAggregates}.

(** The rows the synchronization of a scan reads for a service are the service's records. *)
Lemma key_rows_service run d k :
  run ∈ success_scans d -> k.1.1.1.1 = run -> key_rows (sync_records run (run + 1) d) k = service_rows d k.
Proof.
  intros (scan & Hscan & Hok)%elem_of_success_scans Hk. apply sorted_rows_eq.
  - apply StronglySorted_filter. unfold sync_records. apply omap_sorted; [|apply sorted_ids_StronglySorted].
    intros i p E. destruct (connection_records d !! i); [|done]. by injection E as <-.
  - apply rows_sorted, sorted_ids_StronglySorted.
  - intros [i r]. unfold key_rows. rewrite list_elem_of_filter, elem_of_sync_records, elem_of_service_rows.
    unfold of_key. cbn [snd]. rewrite bool_decide_eq_true. split; [naive_solver|]. intros [Hi Hr]. split_and!; [done..|].
    unfold record_key in Hr. destruct (conn_remote_ip r) as [a|] eqn:Ea; [|done]. injection Hr as Hr. subst k. cbn in Hk.
    unfold in_sync_range. rewrite Hk, Hscan, Ea, !andb_true_iff. unfold run_success in Hok. split_and!; try done; lia.
Qed.

Lemma service_rows_ext d d' k :
  (forall i r, record_key r = Some k -> connection_records d' !! i = Some r <-> connection_records d !! i = Some r) ->
  service_rows d' k = service_rows d k.
Proof.
  intros E. apply sorted_rows_eq; [apply rows_sorted, sorted_ids_StronglySorted..|].
  intros [i r]. rewrite !elem_of_service_rows. split; intros [Hi Hk]; (split; [by apply (E i r Hk)|done]).
Qed.

Lemma record_key_run r k : record_key r = Some k -> conn_scan_run_id r = k.1.1.1.1.
Proof. unfold record_key. destruct (conn_remote_ip r); [|done]. by intros [= <-]. Qed.

Lemma group_observation_at d d' k rows :
  scan_runs d' !! k.1.1.1.1 = scan_runs d !! k.1.1.1.1 -> group_observation d' k rows = group_observation d k rows.
Proof. destruct k as [[[[]]]]. unfold group_observation. cbn. by intros ->. Qed.

Lemma synchronized_exact run d x :
  run ∈ success_scans d -> synchronized run d x ->
  service_rows d (observation_key x) ≠ [] /\
  group_observation d (observation_key x) (service_rows d (observation_key x)) = Some x.
Proof.
  intros Hok (Hr & (i & r & Hi & _ & Hk) & Hg). rewrite (key_rows_service run d (observation_key x) Hok Hr) in Hg.
  split; [|done]. intros E. assert (Hin : (i, r) ∈ service_rows d (observation_key x)) by by apply elem_of_service_rows.
  rewrite E in Hin. by apply elem_of_nil in Hin.
Qed.

Definition canonical_connection (row : NormalizedConnection) : Prop := record_canonical (connection_record 0 row).

Lemma canonical_record run row : canonical_connection row -> record_canonical (connection_record run row).
Proof. intros [? ? ? ? ?]. by constructor. Qed.

Lemma persist_synced wall o d run d' :
  history_wf d -> synced d (success_scans d) ->
  in_field (next_id d T_scan_runs) -> in_field (outcome_started_at o) ->
  0 <= next_id d T_connection_records -> next_id d T_connection_records + Z.of_nat (length (kept o)) <= 10 ^ 20 ->
  Forall canonical_connection (kept o) ->
  add_scan_outcome wall o d = Ok (run, d') -> synced d' (success_scans d').
Proof.
  intros Hwf Hs Hrunid Hstart Hlo Hhi Hcan E. unfold add_scan_outcome in E.
  destruct (devices d !! outcome_device_id o) as [device|] eqn:Hdev; [|done].
  destruct (add_scan_outcome_spec wall o d device Hwf Hdev) as
    (d1 & E1 & [[Hids Huniq] _ _ _ _] & Hfresh & Hruns & _ & Hsub & Hosub & Hobs & _ & Hnew & Hxs).
  unfold add_scan_outcome in E1. rewrite Hdev in E1. rewrite E in E1. injection E1 as -> <-. clear E.
  set (run := next_id d T_scan_runs) in *.
  assert (Hrun : scan_runs d' !! run = Some (outcome_run o (kept o))) by (rewrite Hruns; apply lookup_insert_eq).
  assert (Hrunof : forall i r k, connection_records d !! i = Some r -> record_key r = Some k -> k.1.1.1.1 ≠ run).
  { intros i r k Hi Hk E. destruct (history_record_run _ Hwf i r Hi) as [s Hsr]. rewrite (record_key_run r k Hk), E in Hsr. congruence. }
  assert (Hrows : forall k, k.1.1.1.1 ≠ run -> service_rows d' k = service_rows d k).
  { intros k Hk. apply service_rows_ext. intros i r Hr. split; [|intros Hi; by eapply lookup_weaken].
    intros Hi. destruct (Hnew i r Hi) as [?|[(row & _ & ->) _]]; [done|]. by apply record_key_run in Hr. }
  assert (Hsucc : forall i, i ≠ run -> i ∈ success_scans d' <-> i ∈ success_scans d)
    by (intros i Hi; rewrite !elem_of_success_scans, Hruns; by rewrite lookup_insert_ne).
  constructor; [done|..].
  - intros i x Hx. destruct (Hxs i x Hx) as [Hold|[Hok (Hr & _ & Hg)]].
    + destruct (sy_runs _ _ Hs i x Hold) as (r & Hr & Hrest). exists r. split; [|done].
      rewrite Hruns, lookup_insert_ne; [done|congruence].
    + unfold group_observation, observation_key in Hg. rewrite Hr, Hrun in Hg. exists (outcome_run o (kept o)).
      rewrite Hr. split; [done|]. injection Hg as Hg. rewrite <- Hg. split_and!; [|done..]. unfold run_success. cbn. by rewrite Hok, bool_decide_true.
  - intros i x Hx Hin. destruct (Hxs i x Hx) as [Hold|[Hok Hsync]].
    + destruct (history_obs_run _ Hwf i x Hold) as [r Hr]. assert (Hne : obs_scan_run_id x ≠ run) by congruence.
      rewrite (Hsucc _ Hne) in Hin. rewrite (Hrows (observation_key x) Hne). destruct (sy_exact _ _ Hs i x Hold Hin) as [H1 H2].
      split; [done|]. rewrite <- H2. apply group_observation_at. rewrite Hruns, lookup_insert_ne; [done|]. intros E. by apply Hne.
    + apply (synchronized_exact run); [|done]. by destruct Hsync as [<- _].
  - intros i r k Hi Hin Hk. apply Hobs. destruct (Hnew i r Hi) as [Hold|[(row & Hrow & ->) _]].
    + left. apply (sy_complete _ _ Hs i r k Hold); [|done]. apply Hsucc; [|done].
      rewrite (record_key_run r k Hk). by apply (Hrunof i r k).
    + right. apply elem_of_success_scans in Hin as (r & Hr & Hok). change (conn_scan_run_id (connection_record run row)) with run in Hr.
      rewrite Hrun in Hr. injection Hr as <-. split; [by apply bool_decide_eq_true in Hok|]. by exists row.
  - intros i r Hi Hin. destruct (Hnew i r Hi) as [Hold|[(row & Hrow & ->) Hb]].
    + apply (sy_canonical _ _ Hs i r Hold). destruct (history_record_run _ Hwf i r Hold) as [s Hsr].
      apply Hsucc; [congruence|done].
    + rewrite Forall_forall in Hcan. split; [by apply canonical_record, Hcan|unfold in_field; lia].
  - intros i r Hr. rewrite Hruns in Hr. apply lookup_insert_Some in Hr as [[<- <-]|[_ Hr]]; [done|by apply (sy_range _ _ Hs)].
Qed.
End persisting.

(** ** A history of scans *)

Section history.
Context `{UnicodeCase, PgAggregates}.

Lemma add_records_next run rows d :
  let d' := foldl (add_connection_record run) d rows in
  next_id d' T_connection_records = next_id d T_connection_records + Z.of_nat (length rows).
Proof.
  revert d. induction rows as [|row rows IH]; intros d; cbn [foldl length]; [cbv zeta; lia|]. cbv zeta in IH |- *. rewrite IH.
  assert (En : next_id (add_connection_record run d row) T_connection_records = next_id d T_connection_records + 1)
    by apply take_id_next.
  rewrite En. lia.
Qed.

Lemma add_scan_outcome_next wall o d run d' :
  history_wf d -> add_scan_outcome wall o d = Ok (run, d') ->
  next_id d' T_scan_runs = next_id d T_scan_runs + 1 /\
  next_id d' T_connection_records = next_id d T_connection_records + Z.of_nat (length (kept o)).
Proof.
  intros Hwf E. destruct (persisted_rows o d Hwf) as (_ & R5 & R8 & _ & _ & _ & R3 & _ & _ & _ & S1 & S0).
  unfold add_scan_outcome in E. destruct (devices d !! outcome_device_id o); [|done]. fold (kept o) in E. cbn in E.
  pose proof (add_records_next (next_id d T_scan_runs) (kept o) ((take_id T_scan_runs d).2 <| scan_runs :=
    <[next_id d T_scan_runs := outcome_run o (kept o)]> (scan_runs d) |>)) as Hn. cbv zeta in Hn.
  set (d2 := foldl _ _ (kept o)) in *.
  assert (Hrun2 : scan_runs d2 !! next_id d T_scan_runs = Some (outcome_run o (kept o))) by (rewrite R5; apply lookup_insert_eq).
  destruct (sync_service_observations_spec _ (outcome_status o) o d2 _ S1 S0 Hrun2 eq_refl R3) as (_ & S2 & _).
  injection S2 as _ _ _ S5 S6. injection E as <- <-. clearbody d2. cbn. rewrite S5, S6, R8, Hn. split; [done|].
  by f_equal.
Qed.

Definition persist_all (outcomes : list (Z * ScanOutcome)) (d : Db) : Db :=
  foldl (fun d p => (commit (add_scan_outcome p.1 p.2) d).2) d outcomes.

Definition new_records (outcomes : list (Z * ScanOutcome)) : Z :=
  foldr (fun p n => Z.of_nat (length (kept p.2)) + n) 0 outcomes.

Lemma new_records_nonneg outcomes : 0 <= new_records outcomes.
Proof. induction outcomes as [|p os IH]; cbn [new_records foldr]; [lia|]. fold (new_records os). lia. Qed.

(** The collectors' rows are canonical, and no number needs more than twenty digits. *)
Record storable (outcomes : list (Z * ScanOutcome)) (d : Db) : Prop := {
  st_runs : 0 <= next_id d T_scan_runs /\ next_id d T_scan_runs + Z.of_nat (length outcomes) <= 10 ^ 20;
  st_records : 0 <= next_id d T_connection_records /\ next_id d T_connection_records + new_records outcomes <= 10 ^ 20;
  st_outcomes : Forall (fun p => in_field (outcome_started_at p.2) /\ Forall canonical_connection (kept p.2)) outcomes
}.

(** Every sequence of scans, successful or not, of devices that exist or not, keeps the
    observations of the successful scans those of their records. *)
Lemma persist_all_synced outcomes d :
  history_wf d -> synced d (success_scans d) -> storable outcomes d ->
  let d' := persist_all outcomes d in history_wf d' /\ synced d' (success_scans d').
Proof.
  revert d. induction outcomes as [|[wall o] os IH]; intros d Hwf Hs [[Hr0 Hr] [Hc0 Hc] Hos]; [done|].
  apply Forall_cons in Hos as [[Hst Hcan] Hos]. cbn [new_records foldr length snd] in *. fold (new_records os) in Hc.
  pose proof (new_records_nonneg os) as Hnn. cbn zeta.
  change (persist_all ((wall, o) :: os) d) with (persist_all os (commit (add_scan_outcome wall o) d).2). unfold commit.
  destruct (add_scan_outcome wall o d) as [[run d1]|e] eqn:E.
  - destruct (add_scan_outcome_next wall o d run d1 Hwf E) as [En1 En2].
    assert (Hwf1 : history_wf d1).
    { destruct (devices d !! outcome_device_id o) as [device|] eqn:Hd; [|by unfold add_scan_outcome in E; rewrite Hd in E].
      destruct (add_scan_outcome_spec wall o d device Hwf Hd) as (d2 & E2 & Hwf2 & _). rewrite E in E2. injection E2 as _ ->. done. }
    cbn [snd]. apply IH; [done| |].
    + apply (persist_synced wall o d run d1); try done; [unfold in_field|]; lia.
    + constructor; [rewrite En1; split; lia|rewrite En2; split; lia|done].
  - cbn [snd]. apply IH; [done..|]. constructor; [split; lia|split; lia|done].
Qed.
End history.

Lemma synced_subset `{PgAggregates} d S S' : S' ⊆ S -> synced d S -> synced d S'.
Proof.
  intros Hsub [H1 H2 H3 H4 H5 H6]. constructor; [done|done| | | |done]; eauto.
Qed.

Lemma window_scans_success d ids current_ids cutoff : window_scans d ids current_ids cutoff ⊆ success_scans d.
Proof.
  intros i (r & Hr & Hw)%elem_of_select_ids. apply elem_of_success_scans. exists r. split; [done|].
  unfold window_scan in Hw. by destruct (run_success r).
Qed.


(** ** On a concrete history: two scans of a device, an hour apart *)

Definition hist_later : ScanOutcome :=
  mkScanOutcome 1 TRIGGER_SCHEDULED SCAN_SUCCESS 3600 3610 [hist_row 4005 (u "ESTAB")] None None None.

Definition hist_scans : list (Z * ScanOutcome) := [(30, hist_outcome); (3620, hist_later)].

Definition hist_db : Db := @persist_all ascii_only first_occurrences hist_scans hist_empty.

Lemma hist_row_canonical lport state :
  0 <= lport -> canonical_connection (hist_row lport state).
Proof.
  intros Hp. constructor; [|exact Hp|done|done|].
  - split; [done|]. change (44%N ∉ u "10.0.0.1"). apply (bool_decide_unpack _). vm_compute. exact I.
  - split; [|by eexists]. vm_compute. reflexivity.
Qed.

Lemma hist_row_kept (o : ScanOutcome) :
  Forall (fun row => exists lport state, row = hist_row lport state /\ 0 <= lport) (outcome_connections o) ->
  Forall canonical_connection (@kept ascii_only o).
Proof.
  intros Hall. unfold kept. rewrite Forall_forall in Hall |- *. intros row [_ Hin]%list_elem_of_filter.
  destruct (Hall row Hin) as (lport & state & -> & Hp). by apply hist_row_canonical.
Qed.

Lemma hist_empty_synced : @synced first_occurrences hist_empty (success_scans hist_empty).
Proof. constructor; [apply history_obs, hist_empty_wf|..]; intros i x;
    try (intros Hx; cbn in Hx; by apply lookup_empty_Some in Hx). intros k Hx. cbn in Hx. by apply lookup_empty_Some in Hx.
Qed.

Lemma hist_storable : @storable ascii_only hist_scans hist_empty.
Proof.
  constructor; [vm_compute; split; discriminate|vm_compute; split; discriminate|].
  constructor; [|constructor; [|constructor]]; (split; [split; vm_compute; (done || discriminate)|]); apply hist_row_kept;
    repeat constructor; eexists _, _; (split; [reflexivity|lia]).
Qed.

(** The window holds the second scan only, by its start time. *)
Definition hist_window : gset Z := window_scans hist_db {[1]} ∅ (Some 3600).

