(* ===== verification/Topology.v ===== *)
(** * The topology graphs (src/app/services/topology.py)

    The graph of one scan ([build_topology]), the graph of clusters and devices
    ([build_cluster_topology]) and the connections of one of its edges
    ([build_edge_connections]), with the difference of two scans ([diff_scans]).  A
    request reads the database several times; each function takes the states its
    statements read ([Reads]). *)

From S2P Require Import Prelude PyText PyDict IpAddress Addresses Networks Models Exceptions ServiceObservations DeviceListing Retention TopologyHistory Resolver.

(** The order in which Python iterates a set. *)
Class SetOrder := {
  set_order {A} : list A -> list A;
  set_order_Permutation {A} (l : list A) : set_order l ≡ₚ l
}.

Definition as_elements : SetOrder := {| set_order A l := l; set_order_Permutation A l := Permutation_refl l |}.

(** ** The difference of two scans *)

Definition connection_tuple : Type := text * text * Z * option text * option Z * option Z * option text.

Definition connection_key (row : ConnectionRecord) : connection_tuple :=
  (conn_protocol row, _normalize_ip_address_uncached (conn_local_ip row), conn_local_port row,
   normalize_ip_address (conn_remote_ip row), conn_remote_port row, conn_pid row, conn_process_name row).

Definition connection_key_text `{UnicodePrintable} (k : connection_tuple) : text :=
  let '(protocol, local_ip, local_port, remote_ip, remote_port, pid, process_name) := k in
  repr_tuple [repr_text protocol; repr_text local_ip; str_of_Z local_port; repr_option repr_text remote_ip;
              repr_option str_of_Z remote_port; repr_option str_of_Z pid; repr_option repr_text process_name].

Record ScanDiff := mkScanDiff {
  previous_scan_id : Z;
  current_scan_id : Z;
  added : list ConnectionDict;
  removed : list ConnectionDict
}.

(** [{connection_key(row): row for row in rows}] *)
Definition by_key (rows : list (Z * ConnectionRecord)) : dict connection_tuple (Z * ConnectionRecord) :=
  group_by (fun p => connection_key p.2) (fun p _ => p) rows [].

Definition only_in `{UnicodePrintable, SetOrder} (a b : dict connection_tuple (Z * ConnectionRecord)) : list ConnectionDict :=
  (fun e => connection_dict e.2.1 e.2.2) <$>
    sorted_by_text (fun e => connection_key_text e.1) (set_order (filter (fun e => e.1 ∉ b.*1) a)).

Definition diff_scans `{UnicodePrintable, SetOrder} (d : Db) (previous current : Z) : ScanDiff :=
  let previous_by_key := by_key (scan_connections d previous) in
  let current_by_key := by_key (scan_connections d current) in
  mkScanDiff previous current (only_in current_by_key previous_by_key) (only_in previous_by_key current_by_key).

(** ** Nodes and edges *)

Record Member := mkMember {
  member_id : Z;
  member_name : text;
  member_host : text;
  member_last_scan_status : option ScanStatus;
  member_scan_id : option Z;
  member_scan_time : option Z
}.

Record Node := mkNode {
  node_id : text;
  node_label : text;
  node_kind : text;
  node_subtitle : text;
  node_count : option Z;
  node_members : list Member;
  node_scan_id : option Z;
  node_scan_time : option Z
}.

(** [edge_connections] is absent when the connections are not embedded. *)
Record Edge (D : Type) := mkEdge {
  edge_id : text;
  edge_source : text;
  edge_target : text;
  edge_label : text;
  edge_count : Z;
  edge_current_count : Z;
  edge_historical_count : Z;
  edge_observation_count : Z;
  edge_is_current : bool;
  edge_connections : option (list D)
}.
Arguments mkEdge {D}.
Arguments edge_id {D}.
Arguments edge_source {D}.
Arguments edge_target {D}.
Arguments edge_label {D}.
Arguments edge_count {D}.
Arguments edge_current_count {D}.
Arguments edge_historical_count {D}.
Arguments edge_observation_count {D}.
Arguments edge_is_current {D}.
Arguments edge_connections {D}.

Definition sum_of {A} (f : A -> Z) (l : list A) : Z := foldr (fun a n => f a + n) 0 l.

Definition count_if {A} (f : A -> bool) (l : list A) : Z := sum_of (fun a => if f a then 1 else 0) l.

(** The figures both graphs put on an edge. *)
Definition summarize {D} (service : D -> Service) (id_ source target : text) (embed : bool) (rows : list D) : Edge D :=
  let count := Z.of_nat (length rows) in
  let current_count := count_if (fun r => sv_is_current (service r)) rows in
  mkEdge id_ source target (str_of_Z count) count current_count (count - current_count)
    (sum_of (fun r => sv_observation_count (service r)) rows) (0 <? current_count)
    (if embed then Some rows else None).

(** The remote address of a service, which is always set. *)
Definition sv_remote_ip (s : Service) : text := default [] (cd_remote_ip (sv_connection s)).

(** ** The graph of one scan *)

Record DeviceGraph := mkDeviceGraph {
  dg_window : TopologyWindow;
  dg_scan_id : Z;
  dg_device_id : Z;
  dg_device_name : text;
  dg_started_at : Z;
  dg_connection_count : Z;
  dg_nodes : list Node;
  dg_edges : list (Edge Service);
  dg_listeners : list ConnectionDict
}.

Definition peer_id (index : nat) : text := u "peer-" ++ str_of_Z (Z.of_nat index).

Definition peer_node (index : nat) (group : text * list Service) : Node :=
  let '(remote_ip, rows) := group in
  let hostname := head (omap (fun s => nonempty (cd_remote_hostname (sv_connection s))) rows) in
  mkNode (peer_id index) (default remote_ip hostname) (u "peer") remote_ip
    (Some (Z.of_nat (length rows))) [] None None.

Definition peer_edge (server_id : text) (index : nat) (group : text * list Service) : Edge Service :=
  summarize id (u "edge-" ++ str_of_Z (Z.of_nat index)) server_id (peer_id index) true group.2.

(** [device] is the device of the scan, [services] the argument of the same name or the
    aggregation of the selected scans. *)
Definition build_topology `{UnicodePrintable} (scan_run : Z) (scan : ScanRun) (device : Device)
    (scans : option (list Z)) (window : TopologyWindow) (services : option (list Service)) (d : Db) : DeviceGraph :=
  let server_id := u "device-" ++ str_of_Z (run_device_id scan) in
  let selected_scans := default [scan_run] scans in
  let selected_services :=
    match services with
    | Some services => services
    | None => aggregate_service_connections selected_scans {[scan_run]} d
    end in
  let listeners :=
    (fun p => connection_dict p.1 p.2) <$> filter (fun p => conn_remote_ip p.2 = None) (scan_connections d scan_run) in
  let groups := sorted_by_text fst (group_by sv_remote_ip (append_to id) selected_services []) in
  mkDeviceGraph window scan_run (run_device_id scan) (device_name device) (run_started_at scan) (run_connection_count scan)
    (mkNode server_id (device_name device) (u "server") (device_host device) None [] None None :: imap peer_node groups)
    (imap (peer_edge server_id) groups) listeners.

(** ** The context of the cluster graph *)

Definition _managed_node_id (p : Z * Device) : text :=
  match device_cluster_id p.2 with
  | Some c => if c =? 0 then u "device-" ++ str_of_Z p.1 else u "cluster-" ++ str_of_Z c
  | None => u "device-" ++ str_of_Z p.1
  end.

Definition _is_cluster_internal_address (remote_ip : text) (cluster_id : option Z)
    (networks_by_cluster : gmap Z (list network)) : bool :=
  match cluster_id with
  | None => false
  | Some c =>
      match ip_address remote_ip with
      | Some (IPv4 address) => existsb (in_network address) (default [] (networks_by_cluster !! c))
      | _ => false
      end
  end.

Record ClusterGraphContext := mkContext {
  ctx_devices : list (Z * Device);
  ctx_clusters : list (Z * Cluster);
  ctx_devices_by_id : gmap Z Device;
  ctx_cluster_members : dict Z (list (Z * Device));
  ctx_address_owners : dict text (list (Z * Device));
  ctx_networks_by_cluster : gmap Z (list network);
  ctx_warnings : list text
}.

(** [cluster_members.get(cluster_id, [])] and [address_owners.get(address, [])] *)
Definition members_of (c : Z) (context : ClusterGraphContext) : list (Z * Device) :=
  default [] (dict_get c (ctx_cluster_members context)).

Definition owners_of (address : text) (context : ClusterGraphContext) : list (Z * Device) :=
  default [] (dict_get address (ctx_address_owners context)).

(** ** Edges *)

Record EdgeDetail := mkEdgeDetail {
  ed_service : Service;
  ed_source_device_name : text;
  ed_target_device_id : option Z;
  ed_target_device_name : option text
}.

Definition external_id (address : text) : text := u "external-" ++ address.

Definition _service_edge_target (service : Service) (source_device : Z * Device) (context : ClusterGraphContext) :
    option (text * option (Z * Device)) :=
  let normalized_remote := sv_remote_ip service in
  let owners := owners_of normalized_remote context in
  match owners with
  | [target_device] =>
      if target_device.1 =? source_device.1 then None
      else if bool_decide (is_Some (device_cluster_id source_device.2) /\
                           device_cluster_id source_device.2 = device_cluster_id target_device.2) then None
      else Some (_managed_node_id target_device, Some target_device)
  | _ =>
      if bool_decide (owners = []) &&
         _is_cluster_internal_address normalized_remote (device_cluster_id source_device.2) (ctx_networks_by_cluster context)
      then None
      else Some (external_id normalized_remote, None)
  end.

(** The body of the loop of [group_cluster_edges]: the edge of a service, if any. *)
Definition place_service (context : ClusterGraphContext) (service : Service) :
    result exn (option (text * text * EdgeDetail)) :=
  match ctx_devices_by_id context !! sv_source_device_id service with
  | None => Raise (LookupError (str_of_Z (sv_source_device_id service)))
  | Some device =>
      let source_device := (sv_source_device_id service, device) in
      let source_id := _managed_node_id source_device in
      match _service_edge_target service source_device context with
      | None => Ok None
      | Some (target_id, target_device) =>
          if decide (source_id = target_id) then Ok None
          else Ok (Some (source_id, target_id,
                 mkEdgeDetail service (device_name device) (fst <$> target_device)
                   ((fun t => device_name t.2) <$> target_device)))
      end
  end.

Definition group_cluster_edges (services : list Service) (context : ClusterGraphContext) :
    result exn (dict (text * text) (list EdgeDetail)) :=
  placed ← mapM (place_service context) services;
  Ok (group_by fst (append_to snd) (omap id placed) []).

(** ** Filters *)

Definition service_pids (s : Service) : text :=
  match join 32 (str_of_Z <$> sv_observed_pids s), cd_pid (sv_connection s) with
  | [], Some pid => str_of_Z pid
  | pids, _ => pids
  end.

Definition process_matches `{UnicodeCase} (query : text) (s : Service) : bool :=
  contains query (lower (default [] (cd_process_name (sv_connection s)) ++ u " " ++ service_pids s)).

(** The tests of the loop; an empty filter is no filter. *)
Definition service_matches `{UnicodeCase} (protocol state : option text) (process_query : text) (s : Service) : bool :=
  match protocol with Some p => bool_decide (cd_protocol (sv_connection s) = p) | None => true end &&
  match state with Some st => bool_decide (cd_state (sv_connection s) = Some st) | None => true end &&
  match process_query with [] => true | query => process_matches query s end.

Definition filter_service_connections `{UnicodeCase} (services : list Service) (protocol state process : option text) :
    list Service :=
  let process_query := match nonempty process with Some p => lower (strip p) | None => [] end in
  match nonempty protocol, nonempty state, process_query with
  | None, None, [] => services
  | protocol, state, query => filter (fun s => service_matches protocol state query s = true) services
  end.

(** ** Requests *)

(** What the statements of one request read: devices and clusters, current scans, and
    the three statements of the aggregation. *)
Record Reads := mkReads {
  r_context : Db;
  r_scans : Db;
  r_rows : Db;
  r_csvs : Db;
  r_samples : Db
}.

(** No other transaction commits during the request. *)
Definition at_rest (d : Db) : Reads := mkReads d d d d d.

Section graph.
Context `{UnicodePrintable, UnicodeDigits, UnicodeCase, PgAggregates, PgOrder, Collation, SetOrder, Resolver}.

(** [ORDER BY name]: rows with equal names in any order. *)
Definition by_collation {A} (f : A -> text) (x y : A) : Prop := Is_true (collate (f x) (f y)).

#[export] Instance by_collation_dec {A} (f : A -> text) : RelDecision (by_collation f).
Proof. intros x y. unfold by_collation. apply _. Defined.

Definition order_by {A} (f : A -> text) (rows : list A) : list A := merge_sort (by_collation f) (pg_order rows).

(** The rules of a cluster, by cidr, and its networks with the warnings they raise. *)
Definition internal_networks (c : Z) (d : Db) : list text :=
  order_by id ((fun p => network_cidr p.2) <$> map_to_list (where_ (fun _ n => network_cluster_id n =? c) (cluster_internal_networks d))).

Definition cluster_networks (cidrs : list text) : list network :=
  omap (fun cidr => match ip_network cidr with Some (Net4 n) => Some n | _ => None end) cidrs.

Definition cluster_warnings (name : text) (cidrs : list text) : list text :=
  (fun cidr => u "集群 " ++ name ++ u " 存在无效内部地址段，已忽略：" ++ cidr) <$> filter (fun cidr => ip_network cidr = None) cidrs.

Definition _cluster_network_map (clusters : list (Z * Cluster)) (d : Db) : gmap Z (list network) * list text :=
  (list_to_map ((fun p => (p.1, cluster_networks (internal_networks p.1 d))) <$> clusters),
   concat ((fun p => cluster_warnings (cluster_name p.2) (internal_networks p.1 d)) <$> clusters)).

(** [(address, device)] for each address of the device. *)
Definition device_addresses (device : Z * Device) : result exn (list (text * (Z * Device))) :=
  xs ← resolve (device_host device.2);
  Ok ((fun a => (a, device)) <$> set_order (elements (xs : gset text))).

Definition truthy_cluster (p : Z * Device) : option (Z * (Z * Device)) :=
  match device_cluster_id p.2 with
  | Some c => if c =? 0 then None else Some (c, p)
  | None => None
  end.

Definition owner_warnings (address_owners : dict text (list (Z * Device))) : list text :=
  (fun e => u "地址 " ++ e.1 ++ u " 同时匹配多台设备，已按外部地址处理") <$>
    filter (fun e => (1 < length e.2)%nat) address_owners.

Definition load_cluster_graph_context (d : Db) : result exn ClusterGraphContext :=
  let devices := order_by (fun p => device_name p.2) (map_to_list (devices d)) in
  let clusters := order_by (fun p => cluster_name p.2) (map_to_list (clusters d)) in
  let '(networks_by_cluster, warnings) := _cluster_network_map clusters d in
  owned ← mapM device_addresses devices;
  let address_owners := group_by fst (append_to snd) (concat owned) [] in
  Ok (mkContext devices clusters (list_to_map devices)
        (group_by fst (append_to snd) (omap truthy_cluster devices) [])
        address_owners networks_by_cluster (warnings ++ owner_warnings address_owners)).

(** ** The cluster graph *)

Record ClusterGraph := mkClusterGraph {
  cg_generated_at : Z;
  cg_window : TopologyWindow;
  cg_nodes : list Node;
  cg_edges : list (Edge EdgeDetail);
  cg_warnings : list text
}.

Definition scan_time_of (d : Db) (scan : option Z) : option Z :=
  match scan with Some s => run_started_at <$> scan_runs d !! s | None => None end.

Definition cluster_member (latest_scans : gmap Z Z) (d : Db) (p : Z * Device) : Member :=
  mkMember p.1 (device_name p.2) (device_host p.2) (device_last_scan_status p.2)
    (latest_scans !! p.1) (scan_time_of d (latest_scans !! p.1)).

Definition cluster_node (context : ClusterGraphContext) (latest_scans : gmap Z Z) (d : Db) (p : Z * Cluster) : Node :=
  let members := members_of p.1 context in
  let node_id := u "cluster-" ++ str_of_Z p.1 in
  mkNode node_id (cluster_name p.2) (u "cluster") (str_of_Z (Z.of_nat (length members)) ++ u " 台设备") None
    (cluster_member latest_scans d <$> members) None None.

Definition device_node (latest_scans : gmap Z Z) (d : Db) (p : Z * Device) : Node :=
  mkNode (u "device-" ++ str_of_Z p.1) (device_name p.2) (u "device") (device_host p.2) None []
    (latest_scans !! p.1) (scan_time_of d (latest_scans !! p.1)).

Definition external_node (target_id : text) : Node :=
  mkNode target_id (default target_id (strip_prefix (u "external-") target_id)) (u "external") (u "外部地址") None [] None None.

Definition managed_nodes (context : ClusterGraphContext) (latest_scans : gmap Z Z) (d : Db) : dict text Node :=
  let add := fun nodes_by_id n => dict_set (node_id n) n nodes_by_id in
  let nodes_by_id := foldl add [] (cluster_node context latest_scans d <$> ctx_clusters context) in
  foldl add nodes_by_id
    (device_node latest_scans d <$> filter (fun p => device_cluster_id p.2 = None) (ctx_devices context)).

Definition add_external_nodes (edge_groups : dict (text * text) (list EdgeDetail)) (nodes_by_id : dict text Node) :
    dict text Node :=
  foldl (fun nodes_by_id target_id => dict_setdefault target_id (external_node target_id) nodes_by_id) nodes_by_id
    (filter (fun target_id => Is_true (startswith (u "external-") target_id)) ((fun e => e.1.2) <$> edge_groups)).

(** The order of [(source_id, target_id)] pairs. *)
Definition pair_le : text * text -> text * text -> Prop := lex_le text_le text_le.

Definition by_pair {V} (a b : text * text * V) : Prop := pair_le a.1 b.1.

#[export] Instance by_pair_dec {V} : RelDecision (@by_pair V).
Proof. intros a b. unfold by_pair, pair_le. apply _. Defined.

Definition cluster_edge (embed : bool) (index : nat) (group : text * text * list EdgeDetail) : Edge EdgeDetail :=
  summarize ed_service (u "cluster-edge-" ++ str_of_Z (Z.of_nat index)) group.1.1 group.1.2 embed group.2.

Definition cluster_edges (embed : bool) (edge_groups : dict (text * text) (list EdgeDetail)) : list (Edge EdgeDetail) :=
  imap (cluster_edge embed) (merge_sort by_pair edge_groups).

Definition mapped_addresses (addresses : gset text) : gset text :=
  addresses ∪ set_map (fun a => u "::ffff:" ++ a) (filter (fun a => COLON ∉ a) addresses).

(** The addresses of some devices. *)
Definition all_addresses (ds : list (Z * Device)) : result exn (gset text) :=
  xs ← mapM (fun p => resolve (device_host p.2)) ds; Ok (⋃ xs).

(** The filter of a request for one cluster. *)
Definition cluster_narrowing (context : ClusterGraphContext) (target_cluster_id : option Z) : result exn Narrowing :=
  match target_cluster_id with
  | None => Ok unrestricted
  | Some c =>
      normalized_addresses ← all_addresses (members_of c context);
      Ok (mkNarrowing (Some (list_to_set (members_of c context).*1)) (Some (mapped_addresses normalized_addresses)) None)
  end.

Definition window_services (r : Reads) (device_ids : gset Z) (latest_scans : gmap Z Z) (window : TopologyWindow)
    (reference : Z) (n : Narrowing) : result exn (list Service) :=
  match window with
  | W_current => aggregate_current_connections latest_scans n (r_rows r) (r_csvs r) (r_samples r)
  | _ => aggregate_historical_connections device_ids (map_to_set (fun _ s => s) latest_scans) window reference n
           (r_rows r) (r_csvs r) (r_samples r)
  end.

(** The nodes and edges of one cluster. *)
Definition touches (target_node_id : text) (e : Edge EdgeDetail) : Prop :=
  edge_source e = target_node_id \/ edge_target e = target_node_id.

#[export] Instance touches_dec t e : Decision (touches t e).
Proof. unfold touches. apply _. Defined.

Definition visible_node_ids (target_node_id : text) (edges : list (Edge EdgeDetail)) : gset text :=
  {[target_node_id]} ∪ list_to_set (edge_source <$> edges) ∪ list_to_set (edge_target <$> edges).

Definition restrict_to_cluster (target_cluster_id : option Z) (nodes : list Node) (edges : list (Edge EdgeDetail)) :
    list Node * list (Edge EdgeDetail) :=
  match target_cluster_id with
  | None => (nodes, edges)
  | Some c =>
      let target_node_id := u "cluster-" ++ str_of_Z c in
      let edges := filter (touches target_node_id) edges in
      (filter (fun n => node_id n ∈ visible_node_ids target_node_id edges) nodes, edges)
  end.

Definition build_cluster_topology (r : Reads) (window : TopologyWindow) (reference : Z) (target_cluster_id : option Z)
    (embed_connections : bool) (protocol state process : option text) (wall : Z) : result exn ClusterGraph :=
  context ← load_cluster_graph_context (r_context r);
  if (match target_cluster_id with Some c => bool_decide (c ∉ (ctx_clusters context).*1) | None => false end)
  then Raise (ValueError (u "集群不存在"))
  else
    let device_ids : gset Z := list_to_set (ctx_devices context).*1 in
    let latest_scans := load_current_scans device_ids (r_scans r) in
    n ← cluster_narrowing context target_cluster_id;
    services ← window_services r device_ids latest_scans window reference n;
    let services := filter_service_connections services protocol state process in
    let nodes_by_id := managed_nodes context latest_scans (r_scans r) in
    edge_groups ← group_cluster_edges services context;
    let nodes_by_id := add_external_nodes edge_groups nodes_by_id in
    let edges := cluster_edges embed_connections edge_groups in
    let '(nodes, edges) := restrict_to_cluster target_cluster_id nodes_by_id.*2 edges in
    Ok (mkClusterGraph wall window nodes edges (ctx_warnings context)).

(** ** The connections of one edge *)

Definition _node_source_devices (node_id : text) (context : ClusterGraphContext) : list (Z * Device) :=
  match strip_prefix (u "cluster-") node_id with
  | Some rest => match py_int rest with Some c => members_of c context | None => [] end
  | None =>
      match strip_prefix (u "device-") node_id with
      | Some rest =>
          match py_int rest with
          | Some i => match ctx_devices_by_id context !! i with Some x => [(i, x)] | None => [] end
          | None => []
          end
      | None => []
      end
  end.

Definition _node_target_addresses (node_id : text) (context : ClusterGraphContext) : result exn (gset text) :=
  match strip_prefix (u "external-") node_id with
  | Some rest => Ok {[rest]}
  | None => addresses ← all_addresses (_node_source_devices node_id context); Ok (mapped_addresses addresses)
  end.

Definition sort_key : Type := text * (Z * (text * (text * (Z * Z)))).

Definition _connection_group_sort_key (row : EdgeDetail) : sort_key :=
  let c := sv_connection (ed_service row) in
  (default [] (cd_remote_ip c), (default 0 (cd_remote_port c), (cd_protocol c, (default [] (cd_process_name c),
   (sv_source_device_id (ed_service row), cd_id c))))).

Definition sort_key_le : sort_key -> sort_key -> Prop :=
  lex_le text_le (lex_le Z.le (lex_le text_le (lex_le text_le (lex_le Z.le Z.le)))).

Definition by_sort_key (a b : EdgeDetail) : Prop := sort_key_le (_connection_group_sort_key a) (_connection_group_sort_key b).

#[export] Instance by_sort_key_dec : RelDecision by_sort_key.
Proof. intros a b. unfold by_sort_key, sort_key_le. apply _. Defined.

Definition build_edge_connections (r : Reads) (source_id target_id : text) (window : TopologyWindow) (reference : Z)
    (protocol state process : option text) : result exn (list EdgeDetail) :=
  context ← load_cluster_graph_context (r_context r);
  let source_devices := _node_source_devices source_id context in
  target_addresses ← _node_target_addresses target_id context;
  if bool_decide (source_devices = []) || bool_decide (target_addresses = ∅) then Ok []
  else
    let source_device_ids : gset Z := list_to_set source_devices.*1 in
    let latest_scans := load_current_scans source_device_ids (r_scans r) in
    services ← window_services r source_device_ids latest_scans window reference (mkNarrowing None None (Some target_addresses));
    let services := filter_service_connections services protocol state process in
    edge_groups ← group_cluster_edges services context;
    Ok (merge_sort by_sort_key (default [] (dict_get (source_id, target_id) edge_groups))).
End graph.
