(* ===== verification/TopologyServices.v ===== *)
(** * The services a graph request reads

    What the aggregation answers for a window and a set of devices, independently of the
    other devices and of the filters of the call: the lemmas with which the graph, the
    graph of one cluster and the connections of one edge are compared. *)

From S2P Require Import Prelude PyText PyDict IpAddress Addresses Models Exceptions ServiceObservations ObservationTheorems DeviceListing Retention TopologyHistory HistoryTheorems HistoryEquivalence Resolver Topology.

(** ** Current scans *)

(** The last successful scan of its device. *)
Definition latest_scan (d : Db) (i : Z) (r : ScanRun) : Prop :=
  run_success r = true /\
  forall j s, scan_runs d !! j = Some s -> run_success s = true -> run_device_id s = run_device_id r ->
    ranked_before j s i r = false.

Lemma count_where_0 {A} (P : Z -> A -> bool) (m : gmap Z A) :
  count_where P m = 0 <-> forall i x, m !! i = Some x -> P i x = false.
Proof.
  unfold count_where. split.
  - intros Hc i x Hi. assert (Hs : size (select_ids P m) = 0%nat) by lia. apply size_empty_inv in Hs.
    destruct (P i x) eqn:E; [|done]. assert (Hin : i ∈ select_ids P m) by (apply elem_of_select_ids; eauto). rewrite Hs in Hin. by apply elem_of_empty in Hin.
  - intros Hall. replace (select_ids P m) with (∅ : gset Z); [done|]. apply set_eq. intros i.
    rewrite elem_of_select_ids. split; [set_solver|]. intros (x & Hx & HP). by rewrite (Hall i x Hx) in HP.
Qed.

Lemma current_scan_spec ids d i r :
  scan_runs d !! i = Some r -> current_scan ids d i r = true <-> run_device_id r ∈ ids /\ latest_scan d i r.
Proof.
  intros Hi. unfold current_scan, in_devices, position, latest_scan. rewrite !andb_true_iff, bool_decide_eq_true, Z.eqb_eq.
  assert (E : 1 + count_where (fun j s => run_success s && (run_device_id s =? run_device_id r) && ranked_before j s i r)
                (where_ (in_devices ids) (scan_runs d)) = 1 <->
    forall j s, where_ (in_devices ids) (scan_runs d) !! j = Some s ->
      run_success s && (run_device_id s =? run_device_id r) && ranked_before j s i r = false).
  { rewrite <- count_where_0. pose proof (count_where_nonneg (fun j s => run_success s && (run_device_id s =? run_device_id r) &&
      ranked_before j s i r) (where_ (in_devices ids) (scan_runs d))). lia. }
  unfold in_devices in E. rewrite E. clear E. split.
  - intros [[Hs Hd] Hall]. split_and!; [done..|]. intros j s Hj Hss Hds. specialize (Hall j s).
    rewrite lookup_where, Hss, Hds, Z.eqb_refl in Hall. apply Hall. split; [done|]. by rewrite bool_decide_true.
  - intros (Hd & Hs & Hall). split_and!; [done..|]. intros j s [Hj _]%lookup_where.
    destruct (run_success s) eqn:Es; [|done]. destruct (Z.eqb_spec (run_device_id s) (run_device_id r)); [|done].
    by apply Hall.
Qed.

Lemma latest_scan_unique d i r j s :
  scan_runs d !! i = Some r -> scan_runs d !! j = Some s -> latest_scan d i r -> latest_scan d j s ->
  run_device_id r = run_device_id s -> i = j.
Proof.
  intros Hi Hj [Hr Hri] [Hs Hsj] Hd. specialize (Hri j s Hj Hs ltac:(done)). specialize (Hsj i r Hi Hr Hd).
  unfold ranked_before in *. rewrite !orb_false_iff, !andb_false_iff in *. lia.
Qed.

Lemma load_current_scans_spec ids d dev i :
  load_current_scans ids d !! dev = Some i <->
  exists r, scan_runs d !! i = Some r /\ run_device_id r = dev /\ dev ∈ ids /\ latest_scan d i r.
Proof.
  unfold load_current_scans. set (l := (fun p : Z * ScanRun => (run_device_id p.2, p.1)) <$> _).
  assert (Hel : forall p, p ∈ l <-> exists r, scan_runs d !! p.2 = Some r /\ run_device_id r = p.1 /\ p.1 ∈ ids /\ latest_scan d p.2 r).
  { intros [dv j]. unfold l. rewrite list_elem_of_fmap. cbn [fst snd]. split.
    - intros ([j' r] & [= -> ->] & Hin). apply elem_of_map_to_list, lookup_where in Hin as [Hj Hc].
      apply current_scan_spec in Hc as [Hd Hl]; [|done]. eauto.
    - intros (r & Hj & <- & Hd & Hl). exists (j, r). split; [done|]. apply elem_of_map_to_list, lookup_where.
      split; [done|]. by apply current_scan_spec. }
  assert (Hnd : NoDup l.*1).
  { apply NoDup_fmap_fst; [|unfold l].
    - intros dv j j' (r & Hj & Hd & _ & Hl)%Hel (r' & Hj' & Hd' & _ & Hl')%Hel. cbn [fst snd] in *.
      apply (latest_scan_unique d j r j' r'); congruence.
    - apply NoDup_fmap_2_strong; [|apply NoDup_map_to_list]. intros [j r] [j' r'] Hj Hj' [= _ ->].
      apply elem_of_map_to_list in Hj, Hj'. by simplify_eq. }
  rewrite <- elem_of_list_to_map by done. apply (Hel (dev, i)).
Qed.

Lemma elem_of_current_ids ids d i :
  i ∈ (map_to_set (fun _ s => s) (load_current_scans ids d) : gset Z) <->
  exists r, scan_runs d !! i = Some r /\ run_device_id r ∈ ids /\ latest_scan d i r.
Proof.
  rewrite elem_of_map_to_set. setoid_rewrite load_current_scans_spec. naive_solver.
Qed.

(** ** Observations the aggregation can read *)

Record observations_ready `{UnicodeDigits} (d : Db) : Prop := {
  rd_unique : obs_unique d;
  rd_readable : forall i o, observations d !! i = Some o ->
    obs_readable o /\ _normalize_ip_address_uncached (obs_remote_ip o) = obs_remote_ip o;
  rd_run : forall i o, observations d !! i = Some o ->
    exists r, scan_runs d !! obs_scan_run_id o = Some r /\ run_device_id r = obs_device_id o;
  rd_sample : forall i o s, observations d !! i = Some o -> sample_of d (obs_sample_connection_id o) = Some s ->
    sample_device_id s = obs_device_id o /\ sample_protocol s = obs_protocol o /\
    default 0 (sample_remote_port s) = obs_remote_port o /\ default [] (sample_process_name s) = obs_process_name o
}.

(** A history kept in agreement with its records is ready. *)
Lemma synced_ready `{UnicodeDigits, PgAggregates} d : synced d (success_scans d) -> observations_ready d.
Proof.
  intros Hs. assert (Hobs : forall i o, observations d !! i = Some o -> exists run,
    scan_runs d !! obs_scan_run_id o = Some run /\ run_device_id run = obs_device_id o /\
    service_rows d (observation_key o) ≠ [] /\
    group_observation d (observation_key o) (service_rows d (observation_key o)) = Some o /\
    forall j r, (j, r) ∈ service_rows d (observation_key o) ->
      connection_records d !! j = Some r /\ record_key r = Some (observation_key o) /\ record_canonical r /\ in_field j).
  { intros i o Hi. destruct (sy_runs _ _ Hs i o Hi) as (run & Hrun & Hok & Hdev & _). exists run.
    assert (Hin : obs_scan_run_id o ∈ success_scans d) by (apply elem_of_success_scans; eauto).
    destruct (sy_exact _ _ Hs i o Hi Hin) as [Hne Hg]. split_and!; [done..|].
    intros j r [Hj Hk]%elem_of_service_rows. split_and!; [done..| |]; apply (sy_canonical _ _ Hs j r Hj);
      by rewrite (record_key_run r _ Hk). }
  constructor; [apply Hs| | |].
  - intros i o Hi. destruct (Hobs i o Hi) as (run & Hrun & _ & Hne & Hg & Hrows). split.
    + apply (group_columns d o _ run Hrun Hg Hne); [intros j r Hin; by apply Hrows|by apply (sy_range _ _ Hs)].
    + destruct (service_rows d (observation_key o)) as [|[j r] rows]; [done|].
      destruct (Hrows j r ltac:(left)) as (_ & Hk & Hcan & _). apply rc_remote in Hcan.
      unfold record_key in Hk. destruct (conn_remote_ip r); [|done]. injection Hk as _ _ <- _ _. apply Hcan.
  - intros i o Hi. destruct (Hobs i o Hi) as (run & Hrun & Hdev & _). eauto.
  - intros i o s Hi Hsample. destruct (Hobs i o Hi) as (run & Hrun & Hdev & Hne & Hg & Hrows).
    destruct (group_fields d o _ run Hrun Hg) as (_ & _ & Hid & _). rewrite Hid in Hsample.
    destruct (exists_last Hne) as (l & [j r] & El). rewrite El, last_id_snoc in Hsample.
    destruct (Hrows j r) as (Hj & Hk & _); [rewrite El; apply elem_of_app; right; left|].
    unfold sample_of, latest_row in Hsample. rewrite decide_True in Hsample by set_solver. cbn [fst] in Hsample.
    rewrite Hj, (record_key_run r _ Hk) in Hsample. change ((observation_key o).1.1.1.1) with (obs_scan_run_id o) in Hsample.
    rewrite Hrun in Hsample. injection Hsample as <-. unfold record_key in Hk. destruct (conn_remote_ip r); [|done].
    injection Hk as _ Hp _ Hport Hproc. split_and!; done.
Qed.

(** ** One service for each group, with the key of the group *)

Section services.
Context `{UnicodePrintable, UnicodeDigits, PgAggregates, PgOrder, MarkerCollation}.
Context (d : Db) (Hready : observations_ready d).

Lemma ready_readable cond i o : observations d !! i = Some o -> cond i o = true -> obs_readable o.
Proof. intros Hi _. by apply (rd_readable d Hready i). Qed.

Lemma elem_of_group_ready cond k o :
  o ∈ group cond d k <-> raw_key_of o = k /\ exists i, observations d !! i = Some o /\ cond i o = true.
Proof. apply elem_of_group. Qed.

(** The key a service shows. *)
Definition service_raw_key (s : Service) : raw_key :=
  (sv_source_device_id s, cd_protocol (sv_connection s), sv_remote_ip s,
   default 0 (cd_remote_port (sv_connection s)), default [] (cd_process_name (sv_connection s))).

Lemma group_service_key cond cur k s :
  group_service cur d k (ordered cond d k) = Some s -> service_raw_key s = k.
Proof.
  unfold group_service. destruct (head (ordered cond d k)) as [first|]; [|done].
  destruct (last (ordered cond d k)) as [latest|] eqn:El; [|done].
  assert (Hin : latest ∈ ordered cond d k) by (apply last_Some in El as [l ->]; apply elem_of_app; right; left).
  apply elem_of_ordered, elem_of_group_ready in Hin as (Hk & i & Hi & _).
  match goal with |- context [default ?st (sample_of d ?j)] => set (stand := st) end.
  intros [= <-]. unfold service_raw_key, sv_remote_ip. cbn [sv_source_device_id sv_connection].
  destruct (sample_of d (obs_sample_connection_id latest)) as [smp|] eqn:Es; cbn [default].
  - destruct (rd_sample d Hready i latest smp Hi Es) as (H1' & H2' & H3' & H4').
    rewrite <- Hk. unfold sample_connection, raw_key_of. cbn. by rewrite H1', H2', H3', H4'.
  - unfold stand, stand_in. destruct k as [[[[dev proto] remote] port] process]. cbn.
    destruct (Z.eqb_spec port 0) as [->|]; cbn; destruct process; done.
Qed.

(** Only the scans of the group decide whether a service is current. *)
Lemma group_service_current cur cur' k os :
  (forall o, o ∈ os -> obs_scan_run_id o ∈ cur <-> obs_scan_run_id o ∈ cur') ->
  group_service cur d k os = group_service cur' d k os.
Proof.
  intros Hcur. unfold group_service. destruct (head os); [|done]. destruct (last os); [|done]. do 2 f_equal.
  apply bool_decide_ext. assert (E : (list_to_set (obs_scan_run_id <$> os) : gset Z) ∩ cur = list_to_set (obs_scan_run_id <$> os) ∩ cur'); [|by rewrite E].
  apply set_eq. intros i. rewrite !elem_of_intersection, elem_of_list_to_set, list_elem_of_fmap. naive_solver.
Qed.

(** ** Narrowing a call to some keys *)

Section narrow.
Context (cond cond' : Z -> ConnectionServiceObservation -> bool) (P : raw_key -> Prop) `{forall k, Decision (P k)}.
Context (Hc : forall i o, observations d !! i = Some o -> cond' i o = cond i o && bool_decide (P (raw_key_of o))).

Lemma narrowed_group k : P k -> group cond' d k ≡ₚ group cond d k.
Proof.
  intros HP. apply NoDup_Permutation; [eapply NoDup_fmap_1, (group_markers _ _ (rd_unique d Hready))..|].
  intros o. rewrite !elem_of_group. split; (intros (Hk & i & Hi & E); split; [done|]; exists i; split; [done|]).
  - rewrite (Hc i o Hi) in E. by apply andb_true_iff in E as [E _].
  - by rewrite (Hc i o Hi), E, Hk, bool_decide_true.
Qed.

Lemma narrowed_group_none k : ¬ P k -> group cond' d k = [].
Proof.
  intros HP. destruct (group cond' d k) as [|o l] eqn:E; [done|]. assert (Hin : o ∈ group cond' d k) by (rewrite E; left).
  apply elem_of_group in Hin as (Hk & i & Hi & Ho). rewrite (Hc i o Hi), Hk, bool_decide_false in Ho by done.
  by rewrite andb_false_r in Ho.
Qed.

Lemma narrowed_keys : group_keys cond' d ≡ₚ filter P (group_keys cond d).
Proof.
  apply NoDup_Permutation; [apply NoDup_remove_dups|apply NoDup_filter, NoDup_remove_dups|].
  intros k. rewrite list_elem_of_filter, !elem_of_group_keys. split.
  - intros Hne. destruct (decide (P k)) as [HP|HP]; [|by rewrite narrowed_group_none in Hne].
    split; [done|]. intros E. apply Hne. by apply Permutation_nil_r; rewrite narrowed_group, E.
  - intros [HP Hne] E. apply Hne. apply Permutation_nil_r. by rewrite <- narrowed_group, E.
Qed.

Lemma narrowed_services cur cur' :
  (forall i o, observations d !! i = Some o -> cond i o = true -> P (raw_key_of o) -> obs_scan_run_id o ∈ cur' <-> obs_scan_run_id o ∈ cur) ->
  services cond' d d cur' ≡ₚ
    omap (M:=list) (fun k => group_service cur d k (ordered cond d k)) (filter P (filter visible (group_keys cond d))).
Proof.
  intros Hcur. unfold services. rewrite narrowed_keys. rewrite !list_filter_filter.
  rewrite (list_filter_iff _ (fun k => P k /\ visible k)) by (intros k; tauto). apply reflexive_eq.
  assert (Hall : Forall P (filter (fun k => P k /\ visible k) (group_keys cond d)))
    by (rewrite Forall_forall; intros k [[HP _] _]%list_elem_of_filter; done).
  induction Hall as [|k ks HP _ IH]; [done|]. cbn [omap list_omap].
  assert (E : ordered cond' d k = ordered cond d k).
  { apply chronological_proper; [apply (group_markers _ _ (rd_unique d Hready))|by apply narrowed_group]. }
  rewrite E, IH, (group_service_current cur' cur); [done|].
  intros o Ho. apply elem_of_ordered, elem_of_group in Ho as (Hk & i & Hi & Ho). apply (Hcur i o Hi Ho). by rewrite Hk.
Qed.
End narrow.

(** ** The services of a request *)

(** The observations of some devices in a window. *)
Definition request_cond (ids : gset Z) (window : TopologyWindow) (reference : Z) (n : Narrowing) :
    Z -> ConnectionServiceObservation -> bool :=
  in_window ids (map_to_set (fun _ s => s) (load_current_scans ids d))
    ((fun delta => reference - delta) <$> WINDOW_DELTAS window) n.

Abbreviation current_ids ids := (map_to_set (fun _ s => s) (load_current_scans ids d) : gset Z) (only parsing).

Lemma observation_current ids i o :
  observations d !! i = Some o -> obs_scan_run_id o ∈ current_ids ids ->
  obs_device_id o ∈ ids /\ load_current_scans ids d !! obs_device_id o = Some (obs_scan_run_id o).
Proof.
  intros Hi (r & Hr & Hd & Hl)%elem_of_current_ids. destruct (rd_run d Hready i o Hi) as (r' & Hr' & Hdev).
  rewrite Hr in Hr'. injection Hr' as <-. rewrite Hdev in Hd. split; [done|]. apply load_current_scans_spec. eauto.
Qed.

Lemma observation_current_iff ids ids' i o :
  observations d !! i = Some o -> obs_device_id o ∈ ids' -> ids' ⊆ ids ->
  obs_scan_run_id o ∈ current_ids ids' <-> obs_scan_run_id o ∈ current_ids ids.
Proof.
  intros Hi Hd Hsub. rewrite !elem_of_current_ids. destruct (rd_run d Hready i o Hi) as (r' & Hr' & Hdev).
  split; intros (r & Hr & _ & Hl); exists r; (split_and!; [done| |done]); rewrite Hr in Hr'; injection Hr' as ->;
    rewrite Hdev; set_solver.
Qed.

Lemma ready_services ids current_ids cutoff n :
  exists l, _aggregate_observation_groups ids current_ids cutoff n d d d = Ok l /\
    l ≡ₚ services (in_window ids current_ids cutoff n) d d current_ids.
Proof.
  apply aggregate_observation_groups_spec; [apply (rd_unique d Hready)|]. intros i o Hi _. by apply (rd_readable d Hready i).
Qed.

Lemma services_ext cond cond' cur :
  (forall i o, observations d !! i = Some o -> cond' i o = cond i o) -> services cond' d d cur ≡ₚ services cond d d cur.
Proof.
  intros Hc. rewrite (narrowed_services cond cond' (fun _ => True)) with (cur := cur).
  - unfold services. apply reflexive_eq. f_equal. rewrite !list_filter_filter. apply list_filter_iff. intros k. tauto.
  - intros i o Hi. by rewrite bool_decide_true, andb_true_r, (Hc i o Hi).
  - done.
Qed.

Lemma window_services_spec ids window reference n :
  exists l, window_services (at_rest d) ids (load_current_scans ids d) window reference n = Ok l /\
    l ≡ₚ services (request_cond ids window reference n) d d (current_ids ids).
Proof.
  unfold request_cond. destruct window; try (apply (ready_services ids (current_ids ids))).
  cbn [window_services WINDOW_DELTAS fmap option_fmap option_map]. unfold aggregate_current_connections, at_rest. cbn [r_rows r_csvs r_samples].
  destruct (ready_services (dom (load_current_scans ids d)) (current_ids ids) None n) as (l & E & Hl).
  assert (Hext : forall i o, observations d !! i = Some o ->
    in_window (dom (load_current_scans ids d)) (current_ids ids) None n i o = in_window ids (current_ids ids) None n i o).
  { intros i o Hi. unfold in_window. destruct (decide (obs_scan_run_id o ∈ current_ids ids)) as [Hin|Hin].
    - destruct (observation_current ids i o Hi Hin) as [Hd Hl']. rewrite (bool_decide_true (_ ∈ ids)) by done.
      rewrite (bool_decide_true (_ ∈ dom _)) by (by eapply elem_of_dom_2). done.
    - rewrite (bool_decide_false (_ ∈ map_to_set _ _)) by done. cbn [andb]. by rewrite !andb_false_r. }
  destruct (decide (current_ids ids = ∅)) as [Hempty|Hne].
  - exists []. split; [done|]. unfold services. assert (Hk : group_keys (in_window ids (current_ids ids) None n) d = []); [|by rewrite Hk].
    destruct (group_keys _ d) as [|k ks] eqn:Ek; [done|]. assert (Hin : k ∈ group_keys (in_window ids (current_ids ids) None n) d) by (rewrite Ek; left).
    apply elem_of_group_keys in Hin. destruct (group _ d k) as [|o os] eqn:Eo; [done|].
    assert (Ho : o ∈ group (in_window ids (current_ids ids) None n) d k) by (rewrite Eo; left).
    apply elem_of_group in Ho as (_ & i & _ & Hc). unfold in_window in Hc. rewrite Hempty in Hc.
    rewrite (bool_decide_false (_ ∈ ∅)) in Hc by set_solver. by rewrite andb_false_r in Hc.
  - exists l. split; [exact E|]. rewrite Hl. by apply services_ext.
Qed.

(** The services of a narrowed request are those of the whole one with a key in the
    narrow range. *)
Definition in_range (ids : gset Z) (n : Narrowing) (k : raw_key) : Prop :=
  k.1.1.1.1 ∈ ids /\ narrowed n k.1.1.1.1 (remote_of k) = true.

#[export] Instance in_range_dec ids n k : Decision (in_range ids n k).
Proof. unfold in_range. apply _. Defined.

Lemma omap_key_filter cur cond (P : raw_key -> Prop) `{forall k, Decision (P k)} ks :
  omap (M:=list) (fun k => group_service cur d k (ordered cond d k)) (filter P ks) =
  filter (fun s => P (service_raw_key s)) (omap (M:=list) (fun k => group_service cur d k (ordered cond d k)) ks).
Proof.
  induction ks as [|k ks IH]; [done|]. rewrite filter_cons. cbn [omap list_omap].
  destruct (group_service cur d k (ordered cond d k)) as [s|] eqn:E.
  - rewrite filter_cons, (group_service_key _ _ _ _ E). case_decide; [|done]. cbn [omap list_omap]. by rewrite E, IH.
  - case_decide; [|done]. cbn [omap list_omap]. by rewrite E.
Qed.

Lemma window_services_narrowed ids ids' window reference n :
  ids' ⊆ ids -> exists l l',
    window_services (at_rest d) ids (load_current_scans ids d) window reference unrestricted = Ok l /\
    window_services (at_rest d) ids' (load_current_scans ids' d) window reference n = Ok l' /\
    l' ≡ₚ filter (fun s => in_range ids' n (service_raw_key s)) l.
Proof.
  intros Hsub. destruct (window_services_spec ids window reference unrestricted) as (l & E & Hl).
  destruct (window_services_spec ids' window reference n) as (l' & E' & Hl'). exists l, l'. split_and!; [done..|].
  rewrite Hl', Hl. rewrite (narrowed_services (request_cond ids window reference unrestricted) _ (in_range ids' n)).
  - unfold services. by rewrite omap_key_filter.
  - intros i o Hi. unfold request_cond, in_window, in_range.
    change (remote_of (raw_key_of o)) with (obs_remote_ip o). change ((raw_key_of o).1.1.1.1) with (obs_device_id o).
    assert (En0 : narrowed unrestricted (obs_device_id o) (obs_remote_ip o) = true) by reflexivity. rewrite En0, andb_true_r.
    destruct (decide (obs_device_id o ∈ ids')) as [Hd|Hd].
    + rewrite (bool_decide_true (_ ∈ ids')), (bool_decide_true (_ ∈ ids)) by set_solver. cbn [andb].
      rewrite (bool_decide_ext (_ ∈ current_ids ids') (_ ∈ current_ids ids)) by (by apply (observation_current_iff _ _ i o)).
      f_equal. apply eq_true_iff_eq. rewrite bool_decide_eq_true. naive_solver.
    + rewrite (bool_decide_false (_ ∈ ids')) by done. cbn [andb]. rewrite (bool_decide_false (_ /\ _)) by naive_solver. by rewrite andb_false_r.
  - intros i o Hi _ [Hd _]. by apply (observation_current_iff _ _ i o).
Qed.
End services.
