(* ===== verification/TopologyGraph.v ===== *)
(** * The edges of the cluster graph

    Which services the graph puts on an edge, independently of the order in which rows
    and set elements come. *)

From S2P Require Import Prelude PyText PyDict IpAddress Addresses Networks Models Exceptions ServiceObservations DeviceListing Retention TopologyHistory HistoryTheorems Resolver Topology TopologyServices.

Lemma mapM_result_Ok {A B} (f : A -> result exn B) (g : A -> B) l :
  (forall x, x ∈ l -> f x = Ok (g x)) -> mapM f l = Ok (g <$> l).
Proof. apply mapM_Ok. Qed.

Lemma mapM_Ok_inv {A B} (f : A -> result exn B) l k : mapM f l = Ok k -> forall x, x ∈ l -> exists y, f x = Ok y.
Proof.
  revert k. induction l as [|x l IH]; intros k; [by intros _ y ?%elem_of_nil|].
  change (mapM f (x :: l)) with (y ← f x; k ← mapM f l; mret (y :: k)).
  destruct (f x) as [y|] eqn:E; [|done]. destruct (mapM f l) as [k'|] eqn:El; [|done]. intros _ z [->|Hz]%elem_of_cons; [by exists y|].
  by apply (IH k').
Qed.

(** ** Filters *)

Lemma filter_services_eq `{UnicodeCase} protocol state process :
  exists Q : Service -> bool, forall l, filter_service_connections l protocol state process = filter (fun s => Q s = true) l.
Proof.
  exists (service_matches (nonempty protocol) (nonempty state) (match nonempty process with Some p => lower (strip p) | None => [] end)).
  intros l. unfold filter_service_connections.
  destruct (nonempty protocol); [done|]. destruct (nonempty state); [done|]. destruct (match nonempty process with Some p => _ | None => [] end); [|done].
  induction l as [|s l IH]; [done|]. rewrite filter_cons, decide_True by done. by rewrite <- IH.
Qed.

(** ** Placing services *)

Section edges.
Context (context : ClusterGraphContext).

Definition known (s : Service) : Prop := is_Some (ctx_devices_by_id context !! sv_source_device_id s).

Definition edge_of (s : Service) : option (text * text * EdgeDetail) :=
  match place_service context s with Ok e => e | Raise _ => None end.

(** The details of an edge, from the services of the request. *)
Definition details (k : text * text) (l : list Service) : list EdgeDetail :=
  snd <$> with_key fst k (omap edge_of l).

Lemma place_known s : known s -> place_service context s = Ok (edge_of s).
Proof.
  intros [x Hx]. unfold edge_of, place_service. rewrite Hx. destruct (_service_edge_target s _ context) as [[target dev]|]; [|done].
  by case_decide.
Qed.

Lemma group_cluster_edges_spec l :
  Forall known l -> exists g, group_cluster_edges l context = Ok g /\ NoDup g.*1 /\
    (forall k rows, (k, rows) ∈ g <-> rows = details k l /\ rows ≠ []) /\
    forall k, default [] (dict_get k g) = details k l.
Proof.
  intros Hl. rewrite Forall_forall in Hl. unfold group_cluster_edges.
  rewrite (mapM_result_Ok _ edge_of) by (intros s Hs; by apply place_known, Hl). cbn [mbind result_bind].
  assert (E : omap (M:=list) id (edge_of <$> l) = omap (M:=list) edge_of l).
  { clear. induction l as [|s l IH]; [done|]. cbn [fmap list_fmap omap list_omap]. unfold id at 1. by rewrite IH. }
  rewrite E. eexists. split; [reflexivity|].
  assert (Hnd : NoDup (group_by fst (append_to snd) (omap (M:=list) edge_of l) []).*1) by (apply group_by_NoDup; constructor).
  split_and!; [done| |].
  - intros k rows. rewrite <- dict_get_Some by done. apply collect_get_Some.
  - intros k. apply collect_get.
Qed.

Lemma elem_of_details k l e :
  e ∈ details k l <-> exists s, s ∈ l /\ edge_of s = Some (k, e).
Proof.
  unfold details, with_key. rewrite list_elem_of_fmap. setoid_rewrite list_elem_of_filter. setoid_rewrite list_elem_of_omap.
  split.
  - intros ([k' e'] & -> & <- & s & Hs & E). by exists s.
  - intros (s & Hs & E). exists (k, e). naive_solver.
Qed.

Lemma details_Permutation k l l' : l ≡ₚ l' -> details k l ≡ₚ details k l'.
Proof. intros Hp. unfold details, with_key. by rewrite Hp. Qed.

(** Services that are not on the edge do not matter. *)
Lemma details_filter k (P : Service -> Prop) `{forall s, Decision (P s)} l :
  (forall s e, s ∈ l -> edge_of s = Some (k, e) -> P s) -> details k (filter P l) = details k l.
Proof.
  unfold details, with_key. induction l as [|s l IH]; intros HP; [done|]. rewrite filter_cons.
  assert (IH' := IH (fun s' e Hs' => HP s' e ltac:(by right))). clear IH. cbn [omap list_omap].
  destruct (edge_of s) as [[k' e]|] eqn:E.
  - case_decide as Hd; cbn [omap list_omap]; rewrite ?E, ?filter_cons; [case_decide; cbn [fmap list_fmap]; by rewrite IH'|].
    rewrite decide_False; [done|]. intros <-. apply Hd. apply (HP s e); [by left|done].
  - case_decide; cbn [omap list_omap]; by rewrite ?E.
Qed.

(** A detail is the service it was made from, with names. *)
Lemma edge_of_service s k e : edge_of s = Some (k, e) -> ed_service e = s.
Proof.
  unfold edge_of, place_service. destruct (ctx_devices_by_id context !! _); [|done].
  destruct (_service_edge_target s _ context) as [[target dev]|]; [|done]. case_decide; [done|]. by intros [= _ <-].
Qed.
End edges.

(** ** The edges of a graph *)

Section figures.

(** The details of the edges between two nodes. *)
Definition edge_rows (source target : text) (edges : list (Edge EdgeDetail)) : list EdgeDetail :=
  concat (omap edge_connections (filter (fun e => edge_source e = source /\ edge_target e = target) edges)).

Lemma filter_imap {A B} (f : nat -> A -> B) (P : B -> Prop) (Q : A -> Prop) `{forall b, Decision (P b), forall a, Decision (Q a)} {C} (g : B -> option C) (h : A -> option C) l :
  (forall i a, P (f i a) <-> Q a) -> (forall i a, g (f i a) = h a) ->
  omap (M:=list) g (filter P (imap f l)) = omap (M:=list) h (filter Q l).
Proof.
  intros HP Hg. revert f HP Hg. induction l as [|a l IH]; intros f HP Hg; [done|]. cbn [imap]. rewrite !filter_cons.
  assert (IH' := IH (fun i => f (S i)) (fun i => HP (S i)) (fun i => Hg (S i))).
  change ((fun i => f (S i))) with (f ∘ S) in IH'.
  destruct (decide (Q a)) as [Hq|Hq].
  - rewrite decide_True by (by apply HP). cbn [omap list_omap]. by rewrite Hg, IH'.
  - rewrite decide_False by (by rewrite HP). done.
Qed.

Lemma edge_rows_cluster_edges source target (g : dict (text * text) (list EdgeDetail)) :
  NoDup g.*1 -> edge_rows source target (cluster_edges true g) = default [] (dict_get (source, target) g).
Proof.
  intros Hnd. unfold edge_rows, cluster_edges.
  rewrite (filter_imap _ _ (fun p => p.1 = (source, target)) _ (fun p => Some p.2)); [| |done].
  2:{ intros i [[s t] rows]. cbn. split; [by intros [-> ->]|by intros [= -> ->]]. }
  assert (Hp : filter (fun p : text * text * list EdgeDetail => p.1 = (source, target)) (merge_sort by_pair g) ≡ₚ
               filter (fun p => p.1 = (source, target)) g) by (by rewrite merge_sort_Permutation).
  assert (Hf : filter (fun p : text * text * list EdgeDetail => p.1 = (source, target)) g =
    match dict_get (source, target) g with Some rows => [((source, target), rows)] | None => [] end).
  { clear Hp. induction g as [|[k rows] g IH]; [done|]. cbn [fmap list_fmap fst] in Hnd. apply NoDup_cons in Hnd as [Hk Hnd].
    rewrite filter_cons. cbn [fst dict_get]. destruct (decide (k = (source, target))) as [->|Hne].
    - rewrite decide_True by done. rewrite IH by done. by rewrite (proj2 (dict_get_None _ _) Hk).
    - rewrite decide_False by congruence. by apply IH. }
  rewrite Hf in Hp. destruct (dict_get (source, target) g) as [rows|].
  - symmetry in Hp. apply Permutation_singleton_r in Hp || apply Permutation_length_1_inv in Hp. rewrite Hp. cbn. by rewrite app_nil_r.
  - symmetry in Hp. apply Permutation_nil in Hp. by rewrite Hp.
Qed.
End figures.
