(* ===== verification/TopologyTheorems.v ===== *)
(** * The cluster graph and its requests agree

    The connections of an edge, the graph of one cluster and the whole graph describe
    the same services, and the graph is well formed. *)

From S2P Require Import Prelude PyText PyDict IpAddress Addresses Networks Models Exceptions Collectors Scans ServiceObservations ObservationTheorems DeviceListing Retention TopologyHistory HistoryTheorems HistoryEquivalence Resolver Topology TopologyServices TopologyGraph.

(** ** The identifiers a database gives: positive, and clusters that exist *)

Record graph_ids (d : Db) : Prop := {
  gi_devices : forall i x, devices d !! i = Some x -> 0 < i;
  gi_clusters : forall c x, clusters d !! c = Some x -> 0 < c;
  gi_members : forall i x c, devices d !! i = Some x -> device_cluster_id x = Some c -> is_Some (clusters d !! c)
}.

Definition cluster_node_id (c : Z) : text := u "cluster-" ++ str_of_Z c.
Definition device_node_id (i : Z) : text := u "device-" ++ str_of_Z i.

Section context.
Context `{UnicodePrintable, UnicodeDigits, UnicodeCase, PgAggregates, PgOrder, Collation, SetOrder, Resolver}.

Definition hosts_resolve (d : Db) : Prop := forall i x, devices d !! i = Some x -> exists xs, resolve (device_host x) = Ok xs.

Lemma order_by_Permutation {A} (f : A -> text) (l : list A) : order_by f l ≡ₚ l.
Proof. unfold order_by. by rewrite merge_sort_Permutation, pg_order_Permutation. Qed.

Lemma elem_of_ordered_table {A} (f : Z * A -> text) (m : gmap Z A) p : p ∈ order_by f (map_to_list m) <-> m !! p.1 = Some p.2.
Proof. rewrite order_by_Permutation. destruct p. apply elem_of_map_to_list. Qed.

Lemma load_context_Ok d : hosts_resolve d -> exists context, load_cluster_graph_context d = Ok context.
Proof.
  intros Hh. unfold load_cluster_graph_context. destruct (_cluster_network_map _ d) as [nets ws].
  rewrite (mapM_result_Ok _ (fun p => match device_addresses p with Ok l => l | Raise _ => [] end)); [by eexists|].
  intros p Hp%elem_of_ordered_table. destruct (Hh _ _ Hp) as [xs Hx]. unfold device_addresses. by rewrite Hx.
Qed.

Section loaded.
Context (d : Db) (context : ClusterGraphContext) (Hload : load_cluster_graph_context d = Ok context).

Lemma context_inv :
  ctx_devices context = order_by (fun p => device_name p.2) (map_to_list (devices d)) /\
  ctx_clusters context = order_by (fun p => cluster_name p.2) (map_to_list (clusters d)) /\
  ctx_devices_by_id context = list_to_map (ctx_devices context) /\
  ctx_cluster_members context = group_by fst (append_to snd) (omap truthy_cluster (ctx_devices context)) [] /\
  exists owned, mapM device_addresses (ctx_devices context) = Ok owned /\
    ctx_address_owners context = group_by fst (append_to snd) (concat owned) [].
Proof.
  unfold load_cluster_graph_context in Hload. destruct (_cluster_network_map _ d) as [nets ws].
  destruct (mapM device_addresses _) as [owned|] eqn:E; [|done]. injection Hload as <-. cbn. split_and!; try done. eauto.
Qed.

Lemma elem_of_ctx_devices p : p ∈ ctx_devices context <-> devices d !! p.1 = Some p.2.
Proof. destruct context_inv as (-> & _). apply elem_of_ordered_table. Qed.

Lemma elem_of_ctx_clusters p : p ∈ ctx_clusters context <-> clusters d !! p.1 = Some p.2.
Proof. destruct context_inv as (_ & -> & _). apply elem_of_ordered_table. Qed.

Lemma ctx_devices_Permutation : ctx_devices context ≡ₚ map_to_list (devices d).
Proof. destruct context_inv as (-> & _). apply order_by_Permutation. Qed.

Lemma ctx_by_id : ctx_devices_by_id context = devices d.
Proof.
  destruct context_inv as (_ & _ & -> & _). rewrite <- (list_to_map_to_list (devices d)). symmetry.
  apply list_to_map_proper; [apply NoDup_fst_map_to_list|]. symmetry. apply ctx_devices_Permutation.
Qed.

Lemma ctx_device_ids : list_to_set (ctx_devices context).*1 = dom (devices d).
Proof.
  apply set_eq. intros i. rewrite elem_of_list_to_set, list_elem_of_fmap, elem_of_dom. split.
  - intros ([j x] & -> & Hp%elem_of_ctx_devices). cbn in *. eauto.
  - intros [x Hx]. exists (i, x). split; [done|]. by apply elem_of_ctx_devices.
Qed.

Lemma elem_of_members c p :
  p ∈ members_of c context <-> devices d !! p.1 = Some p.2 /\ device_cluster_id p.2 = Some c /\ c ≠ 0.
Proof.
  destruct context_inv as (_ & _ & _ & Hm & _). unfold members_of. rewrite Hm, collect_get, list_elem_of_fmap.
  unfold with_key. setoid_rewrite list_elem_of_filter. setoid_rewrite list_elem_of_omap. unfold truthy_cluster. split.
  - intros ([c' q] & -> & Hc & (q' & Hq%elem_of_ctx_devices & E)). cbn in *.
    destruct (device_cluster_id q'.2) as [c0|] eqn:Ec; [|done]. destruct (Z.eqb_spec c0 0); [done|]. injection E as -> ->. by subst.
  - intros (Hp & Hc & Hne). exists (c, p). split; [done|]. split; [done|]. exists p. rewrite elem_of_ctx_devices, Hc.
    split; [done|]. by rewrite (proj2 (Z.eqb_neq c 0)).
Qed.

Lemma resolved p : devices d !! p.1 = Some p.2 -> exists xs, resolve (device_host p.2) = Ok xs.
Proof.
  intros Hp%elem_of_ctx_devices. destruct context_inv as (_ & _ & _ & _ & owned & E & _).
  destruct (mapM_Ok_inv _ _ _ E p Hp) as [l Hl]. unfold device_addresses in Hl.
  destruct (resolve (device_host p.2)) as [xs|]; [eauto|done].
Qed.

Lemma elem_of_owners a p :
  p ∈ owners_of a context <-> devices d !! p.1 = Some p.2 /\ exists xs, resolve (device_host p.2) = Ok xs /\ a ∈ xs.
Proof.
  destruct context_inv as (_ & _ & _ & _ & owned & E & Ho). unfold owners_of. rewrite Ho, collect_get, list_elem_of_fmap.
  set (addrs := fun p => match device_addresses p with Ok l => l | Raise _ => [] end).
  assert (Hr : forall p, p ∈ ctx_devices context -> device_addresses p = Ok (addrs p)).
  { intros q Hq. destruct (mapM_Ok_inv _ _ _ E q Hq) as [l Hl]. unfold addrs. by rewrite Hl. }
  rewrite (mapM_result_Ok _ addrs _ Hr) in E. injection E as <-.
  unfold with_key. setoid_rewrite list_elem_of_filter. setoid_rewrite elem_of_concat_fmap.
  assert (Hel : forall q b t, q ∈ ctx_devices context -> (b, t) ∈ addrs q <-> t = q /\ exists xs, resolve (device_host q.2) = Ok xs /\ b ∈ xs).
  { intros q b t Hq. specialize (Hr q Hq). unfold device_addresses in Hr. destruct (resolve (device_host q.2)) as [xs|]; [|done].
    injection Hr as <-. rewrite list_elem_of_fmap. setoid_rewrite set_order_Permutation. setoid_rewrite elem_of_elements.
    split; [intros (b' & [= -> ->] & Hb); eauto|]. intros (-> & xs' & [= <-] & Hb). eauto. }
  split.
  - intros ([b t] & -> & Hb & q & Hq & Hin). apply (Hel q) in Hin as [-> Hx]; [|done]. cbn in *. subst.
    split; [by apply elem_of_ctx_devices|done].
  - intros [Hp%elem_of_ctx_devices Hx]. exists (a, p). split; [done|]. split; [done|]. exists p. split; [done|]. by apply Hel.
Qed.

Lemma all_addresses_Ok ds :
  (forall p, p ∈ ds -> devices d !! p.1 = Some p.2) ->
  exists xs, all_addresses ds = Ok xs /\
    forall a, a ∈ xs <-> exists p ys, p ∈ ds /\ resolve (device_host p.2) = Ok ys /\ a ∈ ys.
Proof.
  intros Hds. unfold all_addresses.
  rewrite (mapM_result_Ok _ (fun p => match resolve (device_host p.2) with Ok xs => xs | Raise _ => ∅ end)).
  - eexists. split; [reflexivity|]. intros a. rewrite elem_of_union_list. setoid_rewrite list_elem_of_fmap. split.
    + intros (X & (p & -> & Hp) & Ha). destruct (resolved p (Hds p Hp)) as [xs Hx]. rewrite Hx in Ha. eauto.
    + intros (p & ys & Hp & Hy & Ha). exists ys. split; [|done]. exists p. by rewrite Hy.
  - intros p Hp. destruct (resolved p (Hds p Hp)) as [xs Hx]. by rewrite Hx.
Qed.
(** *** Nodes and their devices *)

Context (Hids : graph_ids d).

Lemma managed_id p :
  devices d !! p.1 = Some p.2 ->
  _managed_node_id p = match device_cluster_id p.2 with Some c => cluster_node_id c | None => device_node_id p.1 end.
Proof.
  intros Hp. unfold _managed_node_id. destruct (device_cluster_id p.2) as [c|] eqn:Ec; [|done].
  destruct (gi_members d Hids _ _ c Hp Ec) as [x Hx]. pose proof (gi_clusters d Hids c x Hx). by rewrite (proj2 (Z.eqb_neq c 0)) by lia.
Qed.

Lemma sources_of_cluster c : 0 <= c -> _node_source_devices (cluster_node_id c) context = members_of c context.
Proof.
  intros Hc. unfold _node_source_devices, cluster_node_id. rewrite strip_prefix_app. by rewrite py_int_str_of_Z.
Qed.

Lemma sources_of_device i :
  0 <= i -> _node_source_devices (device_node_id i) context = match devices d !! i with Some x => [(i, x)] | None => [] end.
Proof.
  intros Hi. unfold _node_source_devices, device_node_id.
  change (strip_prefix (u "cluster-") (u "device-" ++ str_of_Z i)) with (@None text). cbn iota.
  by rewrite strip_prefix_app, py_int_str_of_Z, ctx_by_id.
Qed.

(** The node of a device leads back to the device. *)
Lemma managed_sources p : devices d !! p.1 = Some p.2 -> p ∈ _node_source_devices (_managed_node_id p) context.
Proof.
  intros Hp. rewrite managed_id by done. destruct (device_cluster_id p.2) as [c|] eqn:Ec.
  - destruct (gi_members d Hids _ _ c Hp Ec) as [x Hx]. pose proof (gi_clusters d Hids c x Hx).
    rewrite sources_of_cluster by lia. apply elem_of_members. split_and!; [done|done|lia].
  - pose proof (gi_devices d Hids _ _ Hp). rewrite sources_of_device by lia. rewrite Hp. destruct p. left.
Qed.

Lemma sources_are_devices n p : p ∈ _node_source_devices n context -> devices d !! p.1 = Some p.2.
Proof.
  unfold _node_source_devices. destruct (strip_prefix (u "cluster-") n) as [rest|].
  - destruct (py_int rest); [|by intros ?%elem_of_nil]. by intros [Hp _]%elem_of_members.
  - destruct (strip_prefix (u "device-") n) as [rest|]; [|by intros ?%elem_of_nil].
    destruct (py_int rest) as [i|]; [|by intros ?%elem_of_nil]. rewrite ctx_by_id.
    destruct (devices d !! i) eqn:E; [|by intros ?%elem_of_nil]. by intros ->%list_elem_of_singleton.
Qed.

Lemma targets_Ok n :
  exists xs, _node_target_addresses n context = Ok xs /\
    (forall p ys a, strip_prefix (u "external-") n = None -> p ∈ _node_source_devices n context ->
       resolve (device_host p.2) = Ok ys -> a ∈ ys -> a ∈ xs) /\
    (forall a, n = external_id a -> a ∈ xs).
Proof.
  unfold _node_target_addresses. destruct (strip_prefix (u "external-") n) as [rest|] eqn:En.
  - exists {[rest]}. split_and!; [done|done|]. intros a ->. unfold external_id in En. rewrite strip_prefix_app in En.
    injection En as ->. by apply elem_of_singleton.
  - destruct (all_addresses_Ok (_node_source_devices n context) (sources_are_devices n)) as (xs & -> & Hxs).
    exists (mapped_addresses xs). split_and!; [done| |].
    + intros p ys a _ Hp Hy Ha. apply elem_of_union_l, Hxs. eauto.
    + intros a ->. unfold external_id in En. by rewrite strip_prefix_app in En.
Qed.

(** *** Where a service is placed *)

Lemma edge_of_inv s source target e :
  edge_of context s = Some (source, target, e) ->
  exists x, devices d !! sv_source_device_id s = Some x /\ source = _managed_node_id (sv_source_device_id s, x) /\ source ≠ target /\
    ((exists t, owners_of (sv_remote_ip s) context = [t] /\ target = _managed_node_id t) \/ target = external_id (sv_remote_ip s)).
Proof.
  unfold edge_of, place_service. rewrite ctx_by_id. destruct (devices d !! sv_source_device_id s) as [x|]; [|done].
  destruct (_service_edge_target s _ context) as [[target' dev]|] eqn:Et; [|done]. case_decide as Hne; [done|].
  intros [= <- <- _]. exists x. split_and!; [done..|]. unfold _service_edge_target in Et.
  destruct (owners_of (sv_remote_ip s) context) as [|t [|]] eqn:Eo.
  - destruct (_ && _) in Et; [done|]. injection Et as <- _. by right.
  - destruct (_ =? _) in Et; [done|]. case_bool_decide; [done|]. injection Et as <- _. left. by exists t.
  - cbn [andb bool_decide] in Et. destruct (_ && _) in Et; [done|]. injection Et as <- _. by right.
Qed.

Lemma not_external p : devices d !! p.1 = Some p.2 -> strip_prefix (u "external-") (_managed_node_id p) = None.
Proof. intros Hp. rewrite managed_id by done. by destruct (device_cluster_id p.2). Qed.

Lemma placed_in_range s source target e :
  edge_of context s = Some (source, target, e) ->
  exists xs, _node_target_addresses target context = Ok xs /\ sv_remote_ip s ∈ xs /\
    sv_source_device_id s ∈ (_node_source_devices source context).*1.
Proof.
  intros (x & Hx & -> & Hne & Ht)%edge_of_inv. destruct (targets_Ok target) as (xs & E & Hxs & Hext). exists xs. split; [done|]. split.
  - destruct Ht as [(t & Ho & ->)| ->]; [|by apply Hext].
    assert (Hin : t ∈ owners_of (sv_remote_ip s) context) by (rewrite Ho; left).
    apply elem_of_owners in Hin as (Hp & ys & Hy & Ha). apply (Hxs t ys); [by apply not_external|by apply managed_sources|done|done].
  - apply (list_elem_of_fmap_2 fst _ (sv_source_device_id s, x)). by apply managed_sources.
Qed.
End loaded.
End context.

(** ** Requests *)

Section requests.
Context `{UnicodePrintable, UnicodeDigits, UnicodeCase, PgAggregates, PgOrder, MarkerCollation, SetOrder, ResolverLaws}.
Context (d : Db) (Hready : observations_ready d) (Hids : graph_ids d).
Context (context : ClusterGraphContext) (Hload : load_cluster_graph_context d = Ok context).
Context (window : TopologyWindow) (reference : Z) (protocol state process : option text).

Abbreviation services_of ids n := (window_services (at_rest d) ids (load_current_scans ids d) window reference n) (only parsing).
Abbreviation filtered l := (filter_service_connections l protocol state process) (only parsing).

Lemma filtered_Permutation l l' : l ≡ₚ l' -> filtered l ≡ₚ filtered l'.
Proof. intros Hl. destruct (filter_services_eq protocol state process) as [Q HQ]. rewrite !HQ. by rewrite Hl. Qed.

Lemma filtered_filter (P : Service -> Prop) `{forall s, Decision (P s)} l : filtered (filter P l) = filter P (filtered l).
Proof.
  destruct (filter_services_eq protocol state process) as [Q HQ]. rewrite !HQ, !list_filter_filter.
  apply list_filter_iff. intros s. tauto.
Qed.

Lemma elem_of_filtered s l : s ∈ filtered l -> s ∈ l.
Proof. destruct (filter_services_eq protocol state process) as [Q HQ]. rewrite HQ. by intros [_ Hs]%list_elem_of_filter. Qed.

(** The services of some devices, narrowed, and the edges they are placed on. *)
Lemma request_edges ids n :
  ids ⊆ dom (devices d) -> exists l l' g,
    services_of (dom (devices d)) unrestricted = Ok l /\ services_of ids n = Ok l' /\
    group_cluster_edges (filtered l') context = Ok g /\ NoDup g.*1 /\
    (forall k rows, (k, rows) ∈ g <-> rows = details context k (filtered l') /\ rows ≠ []) /\
    (forall k, default [] (dict_get k g) = details context k (filtered l')) /\
    forall k, (forall s e, s ∈ filtered l -> edge_of context s = Some (k, e) -> in_range ids n (service_raw_key s)) ->
      details context k (filtered l') ≡ₚ details context k (filtered l).
Proof.
  intros Hsub. destruct (window_services_narrowed d Hready (dom (devices d)) ids window reference n Hsub) as (l & l' & El & El' & Hl').
  assert (Hknown : Forall (known context) (filtered l')).
  { rewrite Forall_forall. intros s Hs%elem_of_filtered. rewrite Hl' in Hs. apply list_elem_of_filter in Hs as [[Hd _] _].
    unfold known. rewrite (ctx_by_id d context Hload). apply elem_of_dom, Hsub, Hd. }
  destruct (group_cluster_edges_spec context _ Hknown) as (g & Eg & Hnd & Hg & Hget). exists l, l', g. split_and!; try done.
  intros k Hk. rewrite (details_Permutation _ k _ _ (filtered_Permutation _ _ Hl')), filtered_filter.
  apply reflexive_eq. by apply details_filter.
Qed.

(** The connections of a pair of nodes, from the services of the whole request. *)
Lemma edge_connections_rows source target :
  exists l rows,
    services_of (dom (devices d)) unrestricted = Ok l /\
    build_edge_connections (at_rest d) source target window reference protocol state process = Ok (merge_sort by_sort_key rows) /\
    rows ≡ₚ details context (source, target) (filtered l).
Proof.
  unfold build_edge_connections. cbn [at_rest r_context r_scans]. rewrite Hload. cbn [mbind result_bind].
  destruct (targets_Ok d context Hload target) as (xs & Ex & _). rewrite Ex. cbn [mbind result_bind].
  set (ids := list_to_set (_node_source_devices source context).*1 : gset Z). set (n := mkNarrowing None None (Some xs)).
  assert (Hrange : forall s e, edge_of context s = Some ((source, target), e) -> in_range ids n (service_raw_key s)).
  { intros s e He. destruct (placed_in_range d context Hload Hids s source target e He) as (xs' & Ex' & Ha & Hd).
    rewrite Ex in Ex'. injection Ex' as <-. split; [by apply elem_of_list_to_set|]. by apply bool_decide_eq_true. }
  destruct (request_edges ids n) as (l & l' & g & El & El' & Eg & _ & _ & Hget & Hp).
  { intros i Hi%elem_of_list_to_set. apply list_elem_of_fmap in Hi as (p & -> & Hp%(sources_are_devices d context Hload)).
    by eapply elem_of_dom_2. }
  exists l. destruct (_ || _) eqn:Eempty.
  - exists []. split_and!; [done..|]. apply orb_true_iff in Eempty. destruct (details context (source, target) _) as [|e rows] eqn:Ed; [done|].
    assert (Hin : e ∈ details context (source, target) (filtered l)) by (rewrite Ed; left).
    apply elem_of_details in Hin as (s & _ & He). destruct (Hrange s e He) as [Hd Ha]. unfold ids, n in *.
    destruct Eempty as [E%bool_decide_eq_true|E%bool_decide_eq_true].
    + rewrite E in Hd. by apply elem_of_empty in Hd.
    + rewrite E in Ha. by apply bool_decide_eq_true, elem_of_empty in Ha.
  - eexists. split; [done|]. rewrite El'. cbn [mbind result_bind]. rewrite Eg. cbn [mbind result_bind].
    split; [reflexivity|]. rewrite Hget. apply Hp. intros s e _. by apply Hrange.
Qed.

Lemma cluster_topology_whole embed wall l g :
  services_of (dom (devices d)) unrestricted = Ok l -> group_cluster_edges (filtered l) context = Ok g ->
  build_cluster_topology (at_rest d) window reference None embed protocol state process wall =
    Ok (mkClusterGraph wall window
          (add_external_nodes g (managed_nodes context (load_current_scans (dom (devices d)) d) d)).*2
          (cluster_edges embed g) (ctx_warnings context)).
Proof.
  intros El Eg. unfold build_cluster_topology. cbn [at_rest r_context r_scans]. rewrite Hload. cbn [mbind result_bind].
  rewrite (ctx_device_ids d context Hload). cbn [cluster_narrowing mbind result_bind]. rewrite El. cbn [mbind result_bind].
  rewrite Eg. done.
Qed.
End requests.

(** C34. The connections listed for a pair of nodes are the connections the graph puts on the
    edge between them, for every window and filter: the narrow query of one edge (source
    devices and target addresses) neither loses nor adds a service.  A pair without an
    edge has none. *)
Theorem edge_connections_match_graph
    `{UnicodePrintable, UnicodeDigits, UnicodeCase, PgAggregates, PgOrder, MarkerCollation, SetOrder, ResolverLaws}
    d window reference protocol state process wall :
  observations_ready d -> graph_ids d -> hosts_resolve d ->
  exists g, build_cluster_topology (at_rest d) window reference None true protocol state process wall = Ok g /\
    forall source target, exists rows,
      build_edge_connections (at_rest d) source target window reference protocol state process = Ok rows /\
      rows ≡ₚ edge_rows source target (cg_edges g).
Proof.
  intros Hready Hids Hh. destruct (load_context_Ok d Hh) as [context Hload].
  destruct (request_edges d Hready context Hload window reference protocol state process (dom (devices d)) unrestricted (reflexivity _))
    as (l & l0 & g & El & El0 & Eg & Hnd & _ & Hget & _).
  rewrite El in El0. injection El0 as <-. eexists. split; [by eapply cluster_topology_whole|]. cbn [cg_edges].
  intros source target. rewrite edge_rows_cluster_edges, Hget by done.
  destruct (edge_connections_rows d Hready Hids context Hload window reference protocol state process source target) as (l0 & rows & El0 & E & Hp).
  rewrite El in El0. injection El0 as <-. eexists. split; [exact E|]. by rewrite merge_sort_Permutation.
Qed.
