(* ===== verification/TopologyRestriction.v ===== *)
(** * The cluster graph is well formed, and the graph of one cluster is part of it *)

From S2P Require Import Prelude PyText PyDict IpAddress Addresses Networks Models Exceptions ServiceObservations DeviceListing Retention TopologyHistory HistoryTheorems Resolver Topology TopologyServices TopologyGraph TopologyTheorems.

(** ** The order of the edges *)

Lemma sorted_by_pair {V} (g : dict (text * text) V) : StronglySorted pair_le (merge_sort by_pair g).*1.
Proof.
  assert (Hs : StronglySorted by_pair (merge_sort by_pair g)).
  { apply StronglySorted_merge_sort; unfold by_pair, pair_le.
    - intros x y z. apply (transitivity (R := lex_le text_le text_le)).
    - intros x y. apply (total (lex_le text_le text_le)). }
  induction Hs as [|p l _ IH Hp]; [constructor|]. rewrite fmap_cons. constructor; [done|]. by rewrite Forall_fmap.
Qed.

(** ** Figures *)

Definition edge_figures (e : Edge EdgeDetail) : text * text * text * (Z * Z * Z * Z * bool) :=
  (edge_source e, edge_target e, edge_label e,
   (edge_count e, edge_current_count e, edge_historical_count e, edge_observation_count e, edge_is_current e)).

Definition group_figures (p : text * text * list EdgeDetail) : text * text * text * (Z * Z * Z * Z * bool) :=
  edge_figures (cluster_edge false 0 p).

Lemma sum_of_Permutation {A} (f : A -> Z) l l' : l ≡ₚ l' -> sum_of f l = sum_of f l'.
Proof. induction 1; cbn [sum_of foldr] in *; unfold sum_of in *; lia. Qed.

Lemma group_figures_Permutation k rows rows' : rows ≡ₚ rows' -> group_figures (k, rows) = group_figures (k, rows').
Proof.
  intros Hp. unfold group_figures, cluster_edge, summarize, count_if. cbn [fst snd].
  rewrite (Permutation_length Hp), !(sum_of_Permutation _ _ _ Hp). done.
Qed.

Lemma filter_imap_figures embed (P : text * text -> Prop) `{forall k, Decision (P k)} (l : list (text * text * list EdgeDetail)) :
  edge_figures <$> filter (fun e => P (edge_source e, edge_target e)) (imap (cluster_edge embed) l) = group_figures <$> filter (fun p => P p.1) l.
Proof.
  assert (E : forall (A B : Type) (h : A -> B) (xs : list A), h <$> xs = omap (M:=list) (fun x => Some (h x)) xs).
  { intros A B h xs. induction xs as [|x xs IH]; [done|]. cbn [fmap list_fmap omap list_omap]. by rewrite IH. }
  rewrite !E. apply filter_imap; [|done]. by intros i [[s t] rows].
Qed.

Lemma filter_keys {K V} (P : K -> Prop) `{forall k, Decision (P k)} (l : list (K * V)) : (filter (fun p => P p.1) l).*1 = filter P l.*1.
Proof. by rewrite filter_fmap. Qed.

Lemma StronglySorted_filter_on {A} (R : A -> A -> Prop) (P : A -> Prop) `{forall x, Decision (P x)} l :
  StronglySorted R l -> StronglySorted R (filter P l).
Proof. by apply HistoryTheorems.StronglySorted_filter. Qed.

Lemma fmap_ext_in {A B} (f g : A -> B) (l : list A) : (forall x, x ∈ l -> f x = g x) -> f <$> l = g <$> l.
Proof.
  induction l as [|x l IH]; intros E; [done|]. cbn. rewrite (E x ltac:(left)). f_equal. apply IH. intros y Hy. apply E. by right.
Qed.

(** Two groupings that agree on some keys show the same figures there, in the same order. *)
Lemma same_figures (P : text * text -> Prop) `{forall k, Decision (P k)} (g g' : dict (text * text) (list EdgeDetail)) :
  NoDup g.*1 -> NoDup g'.*1 ->
  (forall k rows, P k -> (k, rows) ∈ g -> exists rows', (k, rows') ∈ g' /\ rows' ≡ₚ rows) ->
  (forall k rows, P k -> (k, rows) ∈ g' -> exists rows', (k, rows') ∈ g) ->
  group_figures <$> filter (fun p => P p.1) (merge_sort by_pair g) = group_figures <$> filter (fun p => P p.1) (merge_sort by_pair g').
Proof.
  intros Hg Hg' H1 H2. set (L := filter (fun p => P p.1) (merge_sort by_pair g)). set (L' := filter (fun p => P p.1) (merge_sort by_pair g')).
  assert (HL : forall k rows, (k, rows) ∈ L <-> P k /\ (k, rows) ∈ g).
  { intros k rows. unfold L. by rewrite list_elem_of_filter, merge_sort_Permutation. }
  assert (HL' : forall k rows, (k, rows) ∈ L' <-> P k /\ (k, rows) ∈ g').
  { intros k rows. unfold L'. by rewrite list_elem_of_filter, merge_sort_Permutation. }
  assert (NL : NoDup L.*1) by (unfold L; rewrite filter_keys; apply NoDup_filter; by rewrite merge_sort_Permutation).
  assert (NL' : NoDup L'.*1) by (unfold L'; rewrite filter_keys; apply NoDup_filter; by rewrite merge_sort_Permutation).
  assert (Ek : L.*1 = L'.*1).
  { apply (StronglySorted_unique (lex_le text_le text_le)).
    - unfold L. rewrite filter_keys. apply StronglySorted_filter_on, sorted_by_pair.
    - unfold L'. rewrite filter_keys. apply StronglySorted_filter_on, sorted_by_pair.
    - apply NoDup_Permutation; [done..|]. intros k. rewrite !list_elem_of_fmap. split.
      + intros ([k' rows] & -> & [HP Hin]%HL). destruct (H1 k' rows HP Hin) as (rows' & Hin' & _). exists (k', rows'). by rewrite HL'.
      + intros ([k' rows] & -> & [HP Hin]%HL'). destruct (H2 k' rows HP Hin) as (rows' & Hin'). exists (k', rows'). by rewrite HL. }
  assert (Hf : forall p, p ∈ L' -> group_figures p = group_figures (p.1, default [] (dict_get p.1 L))).
  { intros [k rows'] Hp. cbn [fst]. assert (Hk : k ∈ L.*1) by (rewrite Ek; by apply (list_elem_of_fmap_2 fst _ (k, rows'))).
    apply dict_get_keys in Hk as [rows Hr]. rewrite Hr. cbn [default]. apply dict_get_Some in Hr; [|done]. apply HL in Hr as [HP Hr].
    destruct (H1 k rows HP Hr) as (rows2 & Hin2 & Hp2). assert (E : rows2 = rows').
    { assert (Ha : (k, rows2) ∈ L') by by apply HL'. apply dict_get_Some in Ha, Hp; [|done..]. congruence. }
    rewrite <- E. by apply group_figures_Permutation. }
  assert (Hg0 : forall p, p ∈ L -> group_figures p = group_figures (p.1, default [] (dict_get p.1 L))).
  { intros [k rows] Hp. cbn [fst]. by rewrite (proj2 (dict_get_Some k rows L NL) Hp). }
  rewrite (fmap_ext_in _ _ L Hg0), (fmap_ext_in _ _ L' Hf).
  assert (Ec : forall l : dict (text * text) (list EdgeDetail),
    (fun p : text * text * list EdgeDetail => group_figures (p.1, default [] (dict_get p.1 L))) <$> l =
    (fun k => group_figures (k, default [] (dict_get k L))) <$> l.*1) by (intros l; by rewrite <- list_fmap_compose).
  by rewrite !Ec, Ek.
Qed.

(** ** Nodes *)

Lemma group_by_last {A K} `{EqDecision K} (key : A -> K) (xs : list A) k v :
  dict_get k (group_by key (fun x _ => x) xs []) = Some v -> v ∈ xs /\ key v = k.
Proof.
  rewrite group_by_get. cbn. intros E. assert (Hin : v ∈ with_key key k xs).
  { destruct (with_key key k xs) as [|x l] using rev_ind; [done|]. rewrite foldl_app in E. injection E as <-. apply elem_of_app. right. left. }
  unfold with_key in Hin. apply list_elem_of_filter in Hin. naive_solver.
Qed.

Lemma dict_get_setdefaults {V} (f : text -> V) (ts : list text) (m : dict text V) k :
  dict_get k (foldl (fun m t => dict_setdefault t (f t) m) m ts) =
    match dict_get k m with Some v => Some v | None => if decide (k ∈ ts) then Some (f k) else None end.
Proof.
  revert m. induction ts as [|t ts IH]; intros m; cbn [foldl].
  - destruct (dict_get k m); [done|]. by rewrite decide_False by apply not_elem_of_nil.
  - rewrite IH. unfold dict_setdefault. rewrite dict_get_upsert. destruct (decide (k = t)) as [->|Hne].
    + destruct (dict_get t m); cbn; [done|]. by rewrite decide_True by left.
    + destruct (dict_get k m); [done|]. destruct (decide (k ∈ ts)); [by rewrite decide_True by (by right)|].
      rewrite decide_False; [done|]. by intros [?|?]%elem_of_cons.
Qed.

Lemma NoDup_setdefaults {V} (f : text -> V) (ts : list text) (m : dict text V) :
  NoDup m.*1 -> NoDup (foldl (fun m t => dict_setdefault t (f t) m) m ts).*1.
Proof. revert m. induction ts as [|t ts IH]; intros m Hm; [done|]. cbn [foldl]. by apply IH, NoDup_upsert_keys. Qed.

Section nodes.
Context `{UnicodePrintable, UnicodeDigits, UnicodeCase, PgAggregates, PgOrder, Collation, SetOrder, Resolver}.

(** A table of nodes under their identifiers. *)
Definition by_node_id (m : dict text Node) : Prop := NoDup m.*1 /\ forall k n, (k, n) ∈ m -> node_id n = k.

Definition external_targets (g : dict (text * text) (list EdgeDetail)) : list text :=
  filter (fun target_id => Is_true (startswith (u "external-") target_id)) ((fun e => e.1.2) <$> g).

Lemma managed_nodes_eq context latest d :
  managed_nodes context latest d = group_by node_id (fun n _ => n)
    ((cluster_node context latest d <$> ctx_clusters context) ++
     (device_node latest d <$> filter (fun p => device_cluster_id p.2 = None) (ctx_devices context))) [].
Proof. unfold managed_nodes, group_by. by rewrite foldl_app. Qed.

Lemma managed_by_id context latest d : by_node_id (managed_nodes context latest d).
Proof.
  rewrite managed_nodes_eq. split; [apply group_by_NoDup; constructor|]. intros k n Hin.
  apply dict_get_Some in Hin; [|apply group_by_NoDup; constructor]. by apply group_by_last in Hin as [_ Hin].
Qed.

Lemma elem_of_nodes g m k n :
  by_node_id m -> (k, n) ∈ add_external_nodes g m <->
    (k, n) ∈ m \/ (k ∉ m.*1) /\ k ∈ external_targets g /\ n = external_node k.
Proof.
  intros [Hnd Hm]. unfold add_external_nodes. rewrite <- dict_get_Some by exact (NoDup_setdefaults external_node _ m Hnd).
  rewrite dict_get_setdefaults. fold (external_targets g). destruct (dict_get k m) as [v|] eqn:E.
  - rewrite <- (dict_get_Some k n m), E by done. assert (Hk : k ∈ m.*1) by (apply dict_get_keys; eauto). naive_solver.
  - assert (Hk : k ∉ m.*1) by by apply dict_get_None. rewrite <- (dict_get_Some k n m), E by done.
    case_decide; naive_solver.
Qed.

Lemma nodes_by_id g m : by_node_id m -> by_node_id (add_external_nodes g m).
Proof.
  intros Hm. split; [apply NoDup_setdefaults, Hm|]. intros k n Hin. apply elem_of_nodes in Hin; [|done].
  destruct Hin as [Hin|(_ & _ & ->)]; [by apply Hm|done].
Qed.

Lemma by_node_id_ids m : by_node_id m -> node_id <$> m.*2 = m.*1.
Proof.
  intros [_ Hm]. rewrite <- list_fmap_compose. apply fmap_ext_in. intros [k n] Hin. by apply (Hm k n).
Qed.

(** The nodes seen through a set of identifiers. *)
Lemma visible_nodes (V : gset text) g g' m :
  by_node_id m -> (forall t, t ∈ V -> t ∈ external_targets g <-> t ∈ external_targets g') ->
  filter (fun n => node_id n ∈ V) (add_external_nodes g m).*2 ≡ₚ filter (fun n => node_id n ∈ V) (add_external_nodes g' m).*2.
Proof.
  intros Hm Ht. rewrite !filter_fmap. apply fmap_Permutation. apply NoDup_Permutation.
  - apply NoDup_filter. eapply NoDup_fmap_1. apply (nodes_by_id g m Hm).
  - apply NoDup_filter. eapply NoDup_fmap_1. apply (nodes_by_id g' m Hm).
  - intros [k n]. rewrite !list_elem_of_filter. cbn [snd].
    assert (Hk : forall g, (k, n) ∈ add_external_nodes g m -> node_id n = k) by (intros g0; apply (nodes_by_id g0 m Hm)).
    split; intros [HV Hin]; (split; [done|]); pose proof (Hk _ Hin) as <-; apply elem_of_nodes in Hin; try done;
      apply elem_of_nodes; try done; (destruct Hin as [Hin|(H1' & H2' & H3')]; [by left|right; split_and!; [done| |done]]);
      by apply (Ht _ HV).
Qed.
End nodes.

(** ** Graphs *)

Definition node_ids (g : ClusterGraph) : list text := node_id <$> cg_nodes g.

(** What a client may rely on. *)
Record graph_wf (g : ClusterGraph) : Prop := {
  gw_nodes : NoDup (node_ids g);
  gw_edges : NoDup ((fun e => (edge_source e, edge_target e)) <$> cg_edges g);
  gw_ends : forall e, e ∈ cg_edges g -> edge_source e ∈ node_ids g /\ edge_target e ∈ node_ids g /\ edge_source e ≠ edge_target e;
  gw_counts : forall e, e ∈ cg_edges g ->
    0 < edge_count e /\ 0 <= edge_current_count e /\ 0 <= edge_historical_count e /\
    edge_count e = edge_current_count e + edge_historical_count e /\
    (edge_is_current e = true <-> 0 < edge_current_count e) /\
    match edge_connections e with Some rows => edge_count e = Z.of_nat (length rows) | None => True end
}.

Lemma count_if_bounds {A} (f : A -> bool) l : 0 <= count_if f l <= Z.of_nat (length l).
Proof.
  induction l as [|x l IH]; [done|]. unfold count_if, sum_of in *. cbn [foldr length]. destruct (f x); lia.
Qed.

Lemma elem_of_imap_edges embed (l : list (text * text * list EdgeDetail)) e :
  e ∈ imap (cluster_edge embed) l -> exists i p, p ∈ l /\ e = cluster_edge embed i p.
Proof. intros (i & p & -> & Hi)%elem_of_lookup_imap_1. exists i, p. split; [by eapply list_elem_of_lookup_2|done]. Qed.

Lemma cluster_edge_counts embed i k rows :
  rows ≠ [] -> let e := cluster_edge embed i (k, rows) in
    0 < edge_count e /\ 0 <= edge_current_count e /\ 0 <= edge_historical_count e /\
    edge_count e = edge_current_count e + edge_historical_count e /\
    (edge_is_current e = true <-> 0 < edge_current_count e) /\
    match edge_connections e with Some rows => edge_count e = Z.of_nat (length rows) | None => True end.
Proof.
  intros Hne e. pose proof (count_if_bounds (fun r => sv_is_current (ed_service r)) rows). unfold e, cluster_edge, summarize.
  cbn [fst snd edge_count edge_current_count edge_historical_count edge_is_current edge_connections].
  assert (0 < Z.of_nat (length rows)) by (destruct rows; [done|cbn [length]; lia]).
  rewrite Z.ltb_lt. split_and!; try lia; try done. by destruct embed.
Qed.

Lemma NoDup_edges embed (g : dict (text * text) (list EdgeDetail)) :
  NoDup g.*1 -> NoDup ((fun e => (edge_source e, edge_target e)) <$> cluster_edges embed g).
Proof.
  intros Hg. unfold cluster_edges. assert (E : forall (l : list (text * text * list EdgeDetail)) f,
    (forall i p, (edge_source (f i p : Edge EdgeDetail), edge_target (f i p)) = p.1) ->
    (fun e => (edge_source e, edge_target e)) <$> imap f l = l.*1).
  { induction l as [|p l IH]; intros f Hf; [done|]. cbn [imap]. rewrite !fmap_cons, Hf. f_equal. apply IH. intros i q. apply Hf. }
  rewrite E by (by intros i [[s t] rows]). by rewrite merge_sort_Permutation.
Qed.

Lemma NoDup_fmap_filter {A B} (f : A -> B) (P : A -> Prop) `{forall x, Decision (P x)} l : NoDup (f <$> l) -> NoDup (f <$> filter P l).
Proof.
  induction l as [|x l IH]; [done|]. rewrite fmap_cons, NoDup_cons, filter_cons. intros [Hx Hl]. case_decide; [|by apply IH].
  rewrite fmap_cons, NoDup_cons. split; [|by apply IH]. intros (y & E & [_ Hy]%list_elem_of_filter)%list_elem_of_fmap.
  apply Hx. rewrite E. by apply list_elem_of_fmap_2.
Qed.

Section graphs.
Context `{UnicodePrintable, UnicodeDigits, UnicodeCase, PgAggregates, PgOrder, MarkerCollation, SetOrder, ResolverLaws}.
Context (d : Db) (Hready : observations_ready d) (Hids : graph_ids d).
Context (context : ClusterGraphContext) (Hload : load_cluster_graph_context d = Ok context).

Lemma managed_cluster_inv p c :
  devices d !! p.1 = Some p.2 -> _managed_node_id p = cluster_node_id c -> p ∈ members_of c context.
Proof.
  intros Hp E. rewrite (managed_id d Hids p Hp) in E. destruct (device_cluster_id p.2) as [c'|] eqn:Ec.
  - unfold cluster_node_id in E. apply (inj (app _)) in E. apply (inj str_of_Z) in E. subst c'.
    apply (elem_of_members d context Hload). split_and!; [done|done|].
    destruct (gi_members d Hids _ _ c Hp Ec) as [x Hx]. pose proof (gi_clusters d Hids c x Hx). lia.
  - discriminate E.
Qed.

(** The nodes of the graph without external addresses. *)
Definition base_nodes : dict text Node := managed_nodes context (load_current_scans (dom (devices d)) d) d.

Lemma managed_node_key p : devices d !! p.1 = Some p.2 -> _managed_node_id p ∈ base_nodes.*1.
Proof.
  intros Hp. rewrite (managed_id d Hids p Hp). unfold base_nodes. rewrite managed_nodes_eq. apply group_by_keys. right.
  rewrite fmap_app, elem_of_app. destruct (device_cluster_id p.2) as [c|] eqn:Ec.
  - left. destruct (gi_members d Hids _ _ c Hp Ec) as [x Hx]. apply list_elem_of_fmap. exists (cluster_node context (load_current_scans (dom (devices d)) d) d (c, x)).
    split; [done|]. apply list_elem_of_fmap_2. by apply (elem_of_ctx_clusters d context Hload).
  - right. apply list_elem_of_fmap. exists (device_node (load_current_scans (dom (devices d)) d) d p). split; [done|].
    apply list_elem_of_fmap_2, list_elem_of_filter. split; [done|]. by apply (elem_of_ctx_devices d context Hload).
Qed.

Lemma nodes_keys g k : k ∈ (add_external_nodes g base_nodes).*1 <-> k ∈ base_nodes.*1 \/ k ∈ external_targets g.
Proof.
  pose proof (managed_by_id context (load_current_scans (dom (devices d)) d) d) as Hb. fold base_nodes in Hb. rewrite !list_elem_of_fmap. split.
  - intros ([k' n] & -> & Hin). apply elem_of_nodes in Hin; [|done]. destruct Hin as [Hin|(_ & Hin & _)]; [left; by exists (k', n)|by right].
  - intros [([k' n] & -> & Hin)|Hin].
    + exists (k', n). split; [done|]. apply elem_of_nodes; [done|]. by left.
    + destruct (decide (k ∈ base_nodes.*1)) as [Hk|Hk].
      * apply list_elem_of_fmap in Hk as ([k' n] & -> & Hin'). exists (k', n). split; [done|]. apply elem_of_nodes; [done|]. by left.
      * exists (k, external_node k). split; [done|]. apply elem_of_nodes; [done|]. by right.
Qed.

(** Both ends of a placed service are nodes. *)
Lemma placed_ends (g : dict (text * text) (list EdgeDetail)) l source target rows :
  (source, target, rows) ∈ g -> rows = details context (source, target) l -> rows ≠ [] ->
  source ∈ (add_external_nodes g base_nodes).*1 /\ target ∈ (add_external_nodes g base_nodes).*1 /\ source ≠ target.
Proof.
  intros Hin -> Hne. destruct (details context (source, target) l) as [|e es] eqn:E; [done|].
  assert (He : e ∈ details context (source, target) l) by (rewrite E; left).
  apply elem_of_details in He as (s & _ & He). apply (edge_of_inv d context Hload) in He as (x & Hx & Hsrc & Hst & Ht).
  rewrite !nodes_keys. split_and!; [|..|done].
  - left. rewrite Hsrc. by apply managed_node_key.
  - destruct Ht as [(t & Ho & ->)|Ht].
    + left. apply managed_node_key. assert (Hto : t ∈ owners_of (sv_remote_ip s) context) by (rewrite Ho; left).
      by apply (elem_of_owners d context Hload) in Hto as [? _].
    + right. unfold external_targets. apply list_elem_of_filter. split.
      * rewrite Ht. unfold startswith, external_id. rewrite strip_prefix_app. done.
      * by apply (list_elem_of_fmap_2 (fun e : text * text * list EdgeDetail => e.1.2) g (source, target, e :: es)).
Qed.

(** The graph, whole or of one cluster, from its groups. *)
Lemma restricted_wf target_cluster_id embed wall window l g nodes edges :
  (forall k rows, (k, rows) ∈ g -> rows = details context k l /\ rows ≠ []) -> NoDup g.*1 ->
  restrict_to_cluster target_cluster_id (add_external_nodes g base_nodes).*2 (cluster_edges embed g) = (nodes, edges) ->
  graph_wf (mkClusterGraph wall window nodes edges (ctx_warnings context)).
Proof.
  intros Hg Hnd. pose proof (nodes_by_id g _ (managed_by_id context (load_current_scans (dom (devices d)) d) d)) as Hn.
  fold base_nodes in Hn. assert (Hids0 : node_id <$> (add_external_nodes g base_nodes).*2 = (add_external_nodes g base_nodes).*1) by by apply by_node_id_ids.
  assert (Hends : forall e, e ∈ cluster_edges embed g ->
    edge_source e ∈ (add_external_nodes g base_nodes).*1 /\ edge_target e ∈ (add_external_nodes g base_nodes).*1 /\ edge_source e ≠ edge_target e).
  { intros e (i & [[source target] rows] & Hin & ->)%elem_of_imap_edges. rewrite merge_sort_Permutation in Hin.
    destruct (Hg _ _ Hin) as [Hr Hne]. exact (placed_ends g l source target rows Hin Hr Hne). }
  assert (Hcounts : forall e, e ∈ cluster_edges embed g -> exists i k rows, rows ≠ [] /\ e = cluster_edge embed i (k, rows)).
  { intros e (i & [k rows] & Hin & ->)%elem_of_imap_edges. rewrite merge_sort_Permutation in Hin. destruct (Hg _ _ Hin). eauto. }
  unfold restrict_to_cluster. destruct target_cluster_id as [c|]; intros [= <- <-].
  - set (V := visible_node_ids _ _). constructor; unfold node_ids; cbn [cg_nodes cg_edges].
    + apply NoDup_fmap_filter. rewrite Hids0. apply Hn.
    + by apply NoDup_fmap_filter, NoDup_edges.
    + intros e [Ht Hin]%list_elem_of_filter. destruct (Hends e Hin) as (H1' & H2' & H3'). rewrite <- Hids0 in H1', H2'.
      assert (Hv : forall k, k ∈ node_id <$> (add_external_nodes g base_nodes).*2 -> k ∈ V ->
        k ∈ node_id <$> filter (fun n => node_id n ∈ V) (add_external_nodes g base_nodes).*2).
      { intros k (n & -> & Hn')%list_elem_of_fmap Hk. apply list_elem_of_fmap_2. by apply list_elem_of_filter. }
      assert (He : e ∈ filter (touches (u "cluster-" ++ str_of_Z c)) (cluster_edges embed g)) by by apply list_elem_of_filter.
      split_and!; [apply Hv; [done|]|apply Hv; [done|]|done]; unfold V, visible_node_ids; rewrite !elem_of_union, !elem_of_list_to_set;
        [left; right|right]; by apply list_elem_of_fmap_2.
    + intros e [_ (i & k & rows & Hne & ->)%Hcounts]%list_elem_of_filter. by apply cluster_edge_counts.
  - constructor; unfold node_ids; cbn [cg_nodes cg_edges].
    + rewrite Hids0. apply Hn.
    + by apply NoDup_edges.
    + intros e Hin. rewrite Hids0. by apply Hends.
    + intros e (i & k & rows & Hne & ->)%Hcounts. by apply cluster_edge_counts.
Qed.

(** *** The request of one cluster *)

Context (window : TopologyWindow) (reference : Z) (protocol state process : option text).

Definition member_narrowing (c : Z) (xs : gset text) : Narrowing :=
  mkNarrowing (Some (list_to_set (members_of c context).*1)) (Some (mapped_addresses xs)) None.

Lemma cluster_narrowing_Ok c :
  exists xs, cluster_narrowing context (Some c) = Ok (member_narrowing c xs) /\
    forall a p ys, p ∈ members_of c context -> resolve (device_host p.2) = Ok ys -> a ∈ ys -> a ∈ xs.
Proof.
  destruct (all_addresses_Ok d context Hload (members_of c context)) as (xs & E & Hxs).
  { by intros p [Hp _]%(elem_of_members d context Hload). }
  exists xs. unfold cluster_narrowing. rewrite E. split; [done|]. intros a p ys Hp Hy Ha. apply Hxs. eauto.
Qed.

(** Every service of an edge that touches the cluster is in the range of the request. *)
Lemma touching_in_range c xs s source target e :
  (forall a p ys, p ∈ members_of c context -> resolve (device_host p.2) = Ok ys -> a ∈ ys -> a ∈ xs) ->
  edge_of context s = Some (source, target, e) -> source = cluster_node_id c \/ target = cluster_node_id c ->
  in_range (dom (devices d)) (member_narrowing c xs) (service_raw_key s).
Proof.
  intros Hxs (x & Hx & Hsrc & _ & Ht)%(edge_of_inv d context Hload) Hc. split; [by eapply elem_of_dom_2|].
  unfold narrowed, member_narrowing. cbn [n_source_device_ids n_inbound_addresses n_remote_addresses default].
  rewrite andb_true_r, orb_true_iff, !bool_decide_eq_true. change (service_raw_key s).1.1.1.1 with (sv_source_device_id s).
  change (remote_of (service_raw_key s)) with (sv_remote_ip s). destruct Hc as [->| ->].
  - left. apply elem_of_list_to_set, (list_elem_of_fmap_2 fst _ (sv_source_device_id s, x)). by apply managed_cluster_inv.
  - right. destruct Ht as [(t & Ho & E)|E]; [|discriminate E].
    assert (Hto : t ∈ owners_of (sv_remote_ip s) context) by (rewrite Ho; left).
    apply (elem_of_owners d context Hload) in Hto as (Hp & ys & Hy & Ha). change (sv_remote_ip s ∈ mapped_addresses xs).
    unfold mapped_addresses. rewrite elem_of_union. left. apply (Hxs _ t ys); [by apply managed_cluster_inv|done|done].
Qed.

Lemma cluster_topology_one c embed wall xs l g :
  is_Some (clusters d !! c) -> cluster_narrowing context (Some c) = Ok (member_narrowing c xs) ->
  window_services (at_rest d) (dom (devices d)) (load_current_scans (dom (devices d)) d) window reference (member_narrowing c xs) = Ok l ->
  group_cluster_edges (filter_service_connections l protocol state process) context = Ok g ->
  build_cluster_topology (at_rest d) window reference (Some c) embed protocol state process wall =
    Ok (mkClusterGraph wall window
          (restrict_to_cluster (Some c) (add_external_nodes g base_nodes).*2 (cluster_edges embed g)).1
          (restrict_to_cluster (Some c) (add_external_nodes g base_nodes).*2 (cluster_edges embed g)).2 (ctx_warnings context)).
Proof.
  intros [x Hx] En El Eg. unfold build_cluster_topology. cbn [at_rest r_context r_scans]. rewrite Hload. cbn [mbind result_bind].
  rewrite bool_decide_false.
  - rewrite (ctx_device_ids d context Hload), En. cbn [mbind result_bind]. rewrite El. cbn [mbind result_bind]. by rewrite Eg.
  - intros Hn. apply Hn, (list_elem_of_fmap_2 fst _ (c, x)). by apply (elem_of_ctx_clusters d context Hload).
Qed.
End graphs.

(** C36. The graph is well formed, whole or of one cluster, for every window and filter:
    every node has an identifier of its own, there is at most one edge for a pair of
    nodes, both its ends are nodes of the graph and differ, and its figures add up. *)
Theorem cluster_graph_well_formed
    `{UnicodePrintable, UnicodeDigits, UnicodeCase, PgAggregates, PgOrder, MarkerCollation, SetOrder, ResolverLaws}
    d window reference target_cluster_id embed protocol state process wall :
  observations_ready d -> graph_ids d -> hosts_resolve d ->
  match target_cluster_id with Some c => is_Some (clusters d !! c) | None => True end ->
  exists g, build_cluster_topology (at_rest d) window reference target_cluster_id embed protocol state process wall = Ok g /\ graph_wf g.
Proof.
  intros Hready Hids Hh Hc. destruct (load_context_Ok d Hh) as [context Hload]. destruct target_cluster_id as [c|].
  - destruct (cluster_narrowing_Ok d context Hload c) as (xs & En & _).
    destruct (request_edges d Hready context Hload window reference protocol state process (dom (devices d)) (member_narrowing context c xs) (reflexivity _))
      as (l & l' & g & _ & El & Eg & Hnd & Hg & _).
    eexists. split; [by apply (cluster_topology_one d context Hload) with (xs := xs) (l := l')|].
    apply (restricted_wf d Hids context Hload (Some c) embed wall window (filter_service_connections l' protocol state process) g);
      [intros k rows; apply Hg|done|apply surjective_pairing].
  - destruct (request_edges d Hready context Hload window reference protocol state process (dom (devices d)) unrestricted (reflexivity _))
      as (l & l' & g & El & El' & Eg & Hnd & Hg & _).
    rewrite El in El'. injection El' as <-. eexists. split; [by eapply cluster_topology_whole|].
    apply (restricted_wf d Hids context Hload None embed wall window (filter_service_connections l protocol state process) g);
      [intros k rows; apply Hg|done|done].
Qed.

Lemma edge_rows_filter (source target : text) t (edges : list (Edge EdgeDetail)) :
  edge_rows source target (filter (touches t) edges) = if decide (source = t \/ target = t) then edge_rows source target edges else [].
Proof.
  unfold edge_rows. rewrite list_filter_filter. case_decide as Ht.
  - f_equal. f_equal. apply list_filter_iff. intros e. unfold touches. naive_solver.
  - assert (E : filter (fun e : Edge EdgeDetail => (edge_source e = source /\ edge_target e = target) /\ touches t e) edges = []); [|by rewrite E].
    induction edges as [|e edges IH]; [done|]. rewrite filter_cons, decide_False; [done|]. unfold touches. naive_solver.
Qed.

Lemma visible_ids_figures t (edges edges' : list (Edge EdgeDetail)) :
  edge_figures <$> edges = edge_figures <$> edges' -> visible_node_ids t edges = visible_node_ids t edges'.
Proof.
  intros E. unfold visible_node_ids. assert (E1 : edge_source <$> edges = edge_source <$> edges').
  { apply (f_equal (fmap (M:=list) (fun x => x.1.1.1))) in E. by rewrite <- !list_fmap_compose in E. }
  assert (E2 : edge_target <$> edges = edge_target <$> edges').
  { apply (f_equal (fmap (M:=list) (fun x => x.1.1.2))) in E. by rewrite <- !list_fmap_compose in E. }
  by rewrite E1, E2.
Qed.

Definition around_cluster (c : Z) (k : text * text) : Prop := k.1 = cluster_node_id c \/ k.2 = cluster_node_id c.

#[export] Instance around_cluster_dec c k : Decision (around_cluster c k).
Proof. unfold around_cluster. apply _. Defined.

(** Two groupings of the same services around a cluster. *)
Section around.
Context (context : ClusterGraphContext) (c : Z) (g g' : dict (text * text) (list EdgeDetail)) (l l' : list Service).
Context (Hnd : NoDup g.*1) (Hnd' : NoDup g'.*1).
Context (Hg : forall k rows, (k, rows) ∈ g <-> rows = details context k l /\ rows ≠ []).
Context (Hg' : forall k rows, (k, rows) ∈ g' <-> rows = details context k l' /\ rows ≠ []).
Context (Htouch : forall k, k.1 = cluster_node_id c \/ k.2 = cluster_node_id c -> details context k l' ≡ₚ details context k l).

Lemma touching_groups k :
  k.1 = cluster_node_id c \/ k.2 = cluster_node_id c -> (exists rows, (k, rows) ∈ g) <-> exists rows, (k, rows) ∈ g'.
Proof.
  intros Hk. specialize (Htouch k Hk). split.
  - intros (rows & [-> Hne]%Hg). exists (details context k l'). apply Hg'. split; [done|]. intros E. rewrite E in Htouch.
    by apply Permutation_nil in Htouch.
  - intros (rows & [-> Hne]%Hg'). exists (details context k l). apply Hg. split; [done|]. intros E. rewrite E in Htouch.
    symmetry in Htouch. by apply Permutation_nil in Htouch.
Qed.

Lemma touching_figures :
  edge_figures <$> filter (touches (cluster_node_id c)) (cluster_edges true g') =
  edge_figures <$> filter (touches (cluster_node_id c)) (cluster_edges true g).
Proof.
  set (P := around_cluster c).
  assert (E : forall g0 : dict (text * text) (list EdgeDetail), edge_figures <$> filter (touches (cluster_node_id c)) (cluster_edges true g0) =
    group_figures <$> filter (fun p => P p.1) (merge_sort by_pair g0)).
  { intros g0. unfold P. rewrite <- (filter_imap_figures true (around_cluster c)). done. }
  rewrite !E. apply same_figures; [done|done| |].
  - intros k rows HP Hin. assert (Hex : exists rows, (k, rows) ∈ g) by (apply touching_groups; [done|by exists rows]).
    destruct Hex as [rows0 H0]. exists rows0. split; [done|]. apply Hg in H0 as [-> _]. apply Hg' in Hin as [-> _]. symmetry. by apply Htouch.
  - intros k rows HP Hin. apply touching_groups; [done|by exists rows].
Qed.

Lemma visible_targets `{UnicodePrintable, UnicodeDigits, UnicodeCase, PgAggregates, PgOrder, Collation, SetOrder, Resolver} d t :
  graph_ids d -> load_cluster_graph_context d = Ok context ->
  t ∈ visible_node_ids (cluster_node_id c) (filter (touches (cluster_node_id c)) (cluster_edges true g)) ->
  t ∈ external_targets g' <-> t ∈ external_targets g.
Proof.
  intros Hids Hload Ht. unfold external_targets. rewrite !list_elem_of_filter.
  destruct (decide (Is_true (startswith (u "external-") t))) as [Hx|Hx]; [|naive_solver].
  assert (Hk : exists s rows, (s, t, rows) ∈ g /\ (s = cluster_node_id c \/ t = cluster_node_id c)).
  { unfold visible_node_ids in Ht. rewrite !elem_of_union, elem_of_singleton, !elem_of_list_to_set, !list_elem_of_fmap in Ht.
    destruct Ht as [[->|(e & -> & [Htc He]%list_elem_of_filter)]|(e & -> & [Htc He]%list_elem_of_filter)].
    - done.
    - exfalso. apply elem_of_imap_edges in He as (i & [[source target] rows] & Hin & ->). rewrite merge_sort_Permutation in Hin.
      apply Hg in Hin as [Er Hne]. destruct rows as [|r rows]; [done|].
      assert (Hr : r ∈ details context (source, target) l) by (rewrite <- Er; left).
      apply elem_of_details in Hr as (s & _ & Hs). apply (edge_of_inv d context Hload) in Hs as (x & Hxd & Es & _).
      cbn [cluster_edge summarize edge_source fst] in Hx. rewrite Es in Hx. unfold startswith in Hx.
      by rewrite (not_external d Hids (sv_source_device_id s, x)) in Hx.
    - apply elem_of_imap_edges in He as (i & [[source target] rows] & Hin & ->). rewrite merge_sort_Permutation in Hin. by exists source, rows. }
  destruct Hk as (s & rows & Hin & Hc).
  assert (Hex : exists rows, (s, t, rows) ∈ g') by (apply (touching_groups (s, t)); [done|by exists rows]). destruct Hex as [rows' Hin'].
  split; intros _; (split; [done|]).
  - by apply (list_elem_of_fmap_2 (fun e : text * text * list EdgeDetail => e.1.2) g (s, t, rows)).
  - by apply (list_elem_of_fmap_2 (fun e : text * text * list EdgeDetail => e.1.2) g' (s, t, rows')).
Qed.
End around.

(** C35. The graph of one cluster, which reads the observations of its members and of the
    addresses of its members only, is the part of the whole graph that touches the
    cluster: the same nodes, the same edges in the same order with the same figures,
    and the same connections on them. *)
Theorem cluster_graph_is_restriction
    `{UnicodePrintable, UnicodeDigits, UnicodeCase, PgAggregates, PgOrder, MarkerCollation, SetOrder, ResolverLaws}
    d window reference c protocol state process wall :
  observations_ready d -> graph_ids d -> hosts_resolve d -> is_Some (clusters d !! c) ->
  exists g part,
    build_cluster_topology (at_rest d) window reference None true protocol state process wall = Ok g /\
    build_cluster_topology (at_rest d) window reference (Some c) true protocol state process wall = Ok part /\
    let edges := filter (touches (cluster_node_id c)) (cg_edges g) in
    edge_figures <$> cg_edges part = edge_figures <$> edges /\
    (forall source target, edge_rows source target (cg_edges part) ≡ₚ edge_rows source target edges) /\
    cg_nodes part ≡ₚ filter (fun n => node_id n ∈ visible_node_ids (cluster_node_id c) edges) (cg_nodes g) /\
    cg_warnings part = cg_warnings g.
Proof.
  intros Hready Hids Hh Hc. destruct (load_context_Ok d Hh) as [context Hload].
  destruct (cluster_narrowing_Ok d context Hload c) as (xs & En & Hxs).
  destruct (request_edges d Hready context Hload window reference protocol state process (dom (devices d)) unrestricted (reflexivity _))
    as (l & l0 & g & El & El0 & Eg & Hnd & Hg & Hget & _). rewrite El in El0. injection El0 as <-.
  destruct (request_edges d Hready context Hload window reference protocol state process (dom (devices d)) (member_narrowing context c xs) (reflexivity _))
    as (l1 & l' & g' & El1 & El' & Eg' & Hnd' & Hg' & Hget' & Hsame). rewrite El in El1. injection El1 as <-.
  eexists _, _. split; [by eapply cluster_topology_whole|].
  split; [by apply (cluster_topology_one d context Hload) with (xs := xs) (l := l')|]. cbn [cg_edges cg_nodes cg_warnings].
  assert (Htouch : forall k, k.1 = cluster_node_id c \/ k.2 = cluster_node_id c ->
    details context k (filter_service_connections l' protocol state process) ≡ₚ details context k (filter_service_connections l protocol state process)).
  { intros [source target] Hk. apply Hsame. intros s e _ He. by apply (touching_in_range d Hids context Hload c xs s source target e). }
  assert (Hfig := touching_figures context c g g' _ _ Hnd Hnd' Hg Hg' Htouch).
  change (restrict_to_cluster (Some c) ?n ?es).2 with (filter (touches (cluster_node_id c)) es). split_and!; [exact Hfig| | |done].
  - intros source target. rewrite !edge_rows_filter. case_decide as Hk; [|done].
    rewrite !edge_rows_cluster_edges, Hget, Hget' by done. by apply Htouch.
  - change (restrict_to_cluster (Some c) ?ns ?es).1 with
      (filter (fun x => node_id x ∈ visible_node_ids (cluster_node_id c) (filter (touches (cluster_node_id c)) es)) ns).
    rewrite (visible_ids_figures _ _ _ Hfig). apply visible_nodes; [apply managed_by_id|].
    intros t Ht. by apply (visible_targets context c g g' _ _ Hg Hg' Htouch d t).
Qed.
