(* ===== verification/TopologyStable.v ===== *)
(** * The connections of an edge come in one order

    A response is the same whatever order PostgreSQL returns rows in, aggregates strings
    in, and Python iterates sets in: pages of it fit together. *)

From S2P Require Import Prelude PyText PyDict IpAddress Addresses Networks Models Exceptions ServiceObservations DeviceListing Retention TopologyHistory HistoryTheorems Resolver Topology TopologyServices TopologyGraph TopologyTheorems TopologyRestriction.

(** ** Services *)

Section services.
Context `{UnicodeDigits} (d : Db) (Hready : observations_ready d).

Lemma group_order (o1 o2 : PgOrder) cond k : @group o1 cond d k ≡ₚ @group o2 cond d k.
Proof.
  apply NoDup_Permutation; [eapply NoDup_fmap_1, (group_markers _ _ (rd_unique d Hready))..|].
  intros o. by rewrite !elem_of_group.
Qed.

Lemma ordered_order (o1 o2 : PgOrder) cond k : @ordered o1 cond d k = @ordered o2 cond d k.
Proof. apply chronological_proper; [apply (group_markers _ _ (rd_unique d Hready))|apply group_order]. Qed.

Lemma services_order (o1 o2 : PgOrder) cond cur : @services _ o1 cond d d cur ≡ₚ @services _ o2 cond d d cur.
Proof.
  unfold services. assert (E : @group_keys o1 cond d ≡ₚ @group_keys o2 cond d).
  { apply NoDup_Permutation; [apply NoDup_remove_dups..|]. intros k. rewrite !elem_of_group_keys.
    split; intros Hne E; apply Hne, Permutation_nil_r; [rewrite (group_order o1 o2)|rewrite (group_order o2 o1)]; by rewrite E. }
  rewrite E. apply reflexive_eq. generalize (filter visible (@group_keys o2 cond d)) as ks.
  induction ks as [|k ks IH]; [done|]. cbn [omap list_omap]. by rewrite (ordered_order o1 o2), IH.
Qed.

(** One service for a key. *)
Lemma services_keys `{PgOrder} cond cur : NoDup (service_raw_key <$> services cond d d cur).
Proof.
  unfold services. assert (Hnd : NoDup (filter visible (group_keys cond d))) by apply NoDup_filter, NoDup_remove_dups.
  induction Hnd as [|k ks Hk _ IH]; [constructor|]. cbn [omap list_omap].
  destruct (group_service cur d k (ordered cond d k)) as [s|] eqn:E; [|done]. rewrite fmap_cons. constructor; [|done].
  rewrite (group_service_key d Hready _ _ _ _ E). intros (s' & -> & (k' & Hk' & E')%list_elem_of_omap)%list_elem_of_fmap.
  by rewrite (group_service_key d Hready _ _ _ _ E') in Hk.
Qed.
End services.

(** ** Edges *)

Section contexts.
Context `{Collation, Resolver} (d : Db).
Context (o1 o2 : PgOrder) (s1 s2 : SetOrder) (c1 c2 : ClusterGraphContext).
Context (H1 : @load_cluster_graph_context o1 _ s1 _ d = Ok c1) (H2 : @load_cluster_graph_context o2 _ s2 _ d = Ok c2).

Lemma mapM_Permutation {A B} (f g : A -> result exn (list B)) (xs ys : list A) fs gs :
  xs ≡ₚ ys -> (forall x l l', x ∈ xs -> f x = Ok l -> g x = Ok l' -> l ≡ₚ l') -> mapM f xs = Ok fs -> mapM g ys = Ok gs -> concat fs ≡ₚ concat gs.
Proof.
  intros Hp Hfg Ef Eg. set (get := fun h : A -> result exn (list B) => fun x => match h x with Ok l => l | Raise _ => [] end).
  assert (E1 : mapM f xs = Ok (get f <$> xs)).
  { apply mapM_result_Ok. intros x Hx. destruct (mapM_Ok_inv _ _ _ Ef x Hx) as [l El]. unfold get. by rewrite El. }
  assert (E2 : mapM g ys = Ok (get g <$> ys)).
  { apply mapM_result_Ok. intros x Hx. destruct (mapM_Ok_inv _ _ _ Eg x Hx) as [l El]. unfold get. by rewrite El. }
  rewrite E1 in Ef. rewrite E2 in Eg. injection Ef as <-. injection Eg as <-.
  assert (Hc : concat (get f <$> xs) ≡ₚ concat (get g <$> xs)).
  { assert (Hall : forall x, x ∈ xs -> get f x ≡ₚ get g x).
    { intros x Hx. destruct (mapM_Ok_inv _ _ _ E1 x Hx) as [l El]. assert (Hy : x ∈ ys) by by rewrite <- Hp.
      destruct (mapM_Ok_inv _ _ _ E2 x Hy) as [l' El']. unfold get. rewrite El, El'. by apply (Hfg x). }
    clear -Hall. induction xs as [|x xs IH]; [done|]. cbn. rewrite (Hall x ltac:(left)). apply Permutation_app_head, IH. intros y Hy. apply Hall. by right. }
  rewrite Hc. clear -Hp. induction Hp; cbn; [done|by rewrite IHHp| |by rewrite IHHp1].
  rewrite !app_assoc. by rewrite (Permutation_app_comm (get g y)).
Qed.

Lemma owners_order a : owners_of a c1 ≡ₚ owners_of a c2.
Proof.
  destruct (@context_inv o1 _ s1 _ d c1 H1) as (_ & _ & _ & _ & owned1 & E1 & Ho1).
  destruct (@context_inv o2 _ s2 _ d c2 H2) as (_ & _ & _ & _ & owned2 & E2 & Ho2).
  assert (Hc : concat owned1 ≡ₚ concat owned2).
  { eapply (mapM_Permutation _ _ _ _ _ _); [| |exact E1|exact E2].
    - by rewrite (@ctx_devices_Permutation o1 _ s1 _ d c1 H1), (@ctx_devices_Permutation o2 _ s2 _ d c2 H2).
    - intros x l l' _. unfold device_addresses. destruct (resolve (device_host x.2)) as [xs|]; [|done].
      intros [= <-] [= <-]. by rewrite !set_order_Permutation. }
  unfold owners_of. rewrite Ho1, Ho2, !collect_get. apply fmap_Permutation. unfold with_key. by rewrite Hc.
Qed.

Lemma networks_order c a :
  existsb (in_network a) (default [] (ctx_networks_by_cluster c1 !! c)) = existsb (in_network a) (default [] (ctx_networks_by_cluster c2 !! c)).
Proof.
  assert (Hnets : forall (o : PgOrder) (s : SetOrder) ctx, @load_cluster_graph_context o _ s _ d = Ok ctx ->
    ctx_networks_by_cluster ctx !! c = match clusters d !! c with
      Some _ => Some (cluster_networks (@internal_networks o _ c d)) | None => None end).
  { intros o s ctx E. unfold load_cluster_graph_context, _cluster_network_map in E.
    destruct (mapM _ _) as [owned|]; [|done]. injection E as <-. cbn [ctx_networks_by_cluster].
    set (l := (fun p : Z * Cluster => (p.1, cluster_networks (internal_networks p.1 d))) <$> order_by _ _).
    assert (El : l.*1 = (order_by (fun p => cluster_name p.2) (map_to_list (clusters d))).*1) by (unfold l; by rewrite <- list_fmap_compose).
    assert (Hl : NoDup l.*1) by (rewrite El, order_by_Permutation; apply NoDup_fst_map_to_list).
    destruct (clusters d !! c) as [x|] eqn:Ex.
    - apply elem_of_list_to_map; [done|]. apply list_elem_of_fmap. exists (c, x). split; [done|]. by apply elem_of_ordered_table.
    - apply not_elem_of_list_to_map. rewrite El. intros (p & -> & Hx)%list_elem_of_fmap. apply elem_of_ordered_table in Hx. by rewrite Ex in Hx. }
  rewrite (Hnets o1 s1 c1 H1), (Hnets o2 s2 c2 H2). destruct (clusters d !! c); [|done]. cbn [default].
  assert (Hp : cluster_networks (@internal_networks o1 _ c d) ≡ₚ cluster_networks (@internal_networks o2 _ c d)).
  { unfold cluster_networks, internal_networks. by rewrite !order_by_Permutation. }
  apply eq_true_iff_eq. rewrite !existsb_exists. split; intros (n & Hn & Ha); exists n; (split; [|done]);
    apply list_elem_of_In; apply list_elem_of_In in Hn; [by rewrite <- Hp|by rewrite Hp].
Qed.

Lemma edge_of_order s : edge_of c1 s = edge_of c2 s.
Proof.
  unfold edge_of, place_service. rewrite (@ctx_by_id o1 _ s1 _ d c1 H1), (@ctx_by_id o2 _ s2 _ d c2 H2).
  destruct (devices d !! sv_source_device_id s) as [x|]; [|done].
  assert (E : _service_edge_target s (sv_source_device_id s, x) c1 = _service_edge_target s (sv_source_device_id s, x) c2); [|by rewrite E].
  unfold _service_edge_target. pose proof (owners_order (sv_remote_ip s)) as Ho.
  assert (En : forall c, _is_cluster_internal_address (sv_remote_ip s) c (ctx_networks_by_cluster c1) = _is_cluster_internal_address (sv_remote_ip s) c (ctx_networks_by_cluster c2)).
  { intros [c|]; [|done]. unfold _is_cluster_internal_address. destruct (ip_address (sv_remote_ip s)) as [[n|n]|]; [|done..]. apply networks_order. }
  rewrite En. destruct (owners_of (sv_remote_ip s) c1) as [|t [|t' l]].
  - apply Permutation_nil in Ho. by rewrite Ho.
  - apply Permutation_length_1_inv in Ho. by rewrite Ho.
  - pose proof (Permutation_length Ho) as Hlen. destruct (owners_of (sv_remote_ip s) c2) as [|q [|q' l']]; done.
Qed.

Lemma details_order k l : details c1 k l = details c2 k l.
Proof. unfold details. f_equal. f_equal. induction l as [|s l IH]; [done|]. cbn [omap list_omap]. by rewrite edge_of_order, IH. Qed.
End contexts.

(** ** Responses *)

Lemma sort_key_raw e e' :
  _connection_group_sort_key e = _connection_group_sort_key e' -> service_raw_key (ed_service e) = service_raw_key (ed_service e').
Proof. unfold _connection_group_sort_key, service_raw_key, sv_remote_ip. by intros [= -> -> -> -> -> _]. Qed.

Lemma details_keys context k l e e' :
  NoDup (service_raw_key <$> l) -> e ∈ details context k l -> e' ∈ details context k l ->
  _connection_group_sort_key e = _connection_group_sort_key e' -> e = e'.
Proof.
  intros Hnd (s & Hs & E)%elem_of_details (s' & Hs' & E')%elem_of_details Hk%sort_key_raw.
  rewrite (edge_of_service _ _ _ _ E), (edge_of_service _ _ _ _ E') in Hk.
  assert (Heq : s = s'); [|congruence]. apply list_elem_of_lookup_1 in Hs as [i Hi], Hs' as [j Hj].
  assert (i = j) as ->; [|congruence]. apply (NoDup_lookup (service_raw_key <$> l) i j (service_raw_key s)); [done|..].
  - by rewrite list_lookup_fmap, Hi.
  - rewrite list_lookup_fmap, Hj. cbn [fmap option_fmap option_map]. by rewrite Hk.
Qed.

Lemma merge_sort_key_unique (l l' : list EdgeDetail) :
  (forall e e', e ∈ l -> e' ∈ l -> _connection_group_sort_key e = _connection_group_sort_key e' -> e = e') ->
  l ≡ₚ l' -> merge_sort by_sort_key l = merge_sort by_sort_key l'.
Proof.
  intros Hk Hp. assert (Hsort : forall xs, StronglySorted by_sort_key (merge_sort by_sort_key xs)).
  { intros xs. apply StronglySorted_merge_sort; unfold by_sort_key, sort_key_le.
    - intros x y z. apply (transitivity (R := lex_le text_le (lex_le Z.le (lex_le text_le (lex_le text_le (lex_le Z.le Z.le)))))).
    - intros x y. apply (total (lex_le text_le (lex_le Z.le (lex_le text_le (lex_le text_le (lex_le Z.le Z.le)))))). }
  apply (StronglySorted_unique_strong by_sort_key); [|apply Hsort..|by rewrite !merge_sort_Permutation].
  intros x y Hx Hy Hxy Hyx. rewrite merge_sort_Permutation in Hx. rewrite merge_sort_Permutation, <- Hp in Hy. apply Hk; [done..|].
  apply (anti_symm (lex_le text_le (lex_le Z.le (lex_le text_le (lex_le text_le (lex_le Z.le Z.le)))))); done.
Qed.

(** The response for an edge does not depend on any order the database or the
    interpreter is free to choose: same database, same request, same list.  So the
    pages a client cuts from several responses fit together. *)
Theorem edge_connections_stable
    `{UnicodePrintable, UnicodeDigits, UnicodeCase, MarkerCollation, ResolverLaws}
    (a1 a2 : PgAggregates) (o1 o2 : PgOrder) (s1 s2 : SetOrder) d source target window reference protocol state process :
  observations_ready d -> graph_ids d -> hosts_resolve d ->
  @build_edge_connections _ _ _ a1 o1 _ s1 _ (at_rest d) source target window reference protocol state process =
  @build_edge_connections _ _ _ a2 o2 _ s2 _ (at_rest d) source target window reference protocol state process.
Proof.
  intros Hready Hids Hh.
  destruct (@load_context_Ok o1 _ s1 _ d Hh) as [c1 H1']. destruct (@load_context_Ok o2 _ s2 _ d Hh) as [c2 H2'].
  destruct (@edge_connections_rows _ _ _ a1 o1 _ _ s1 _ d Hready Hids c1 H1' window reference protocol state process source target)
    as (l1 & r1 & El1 & -> & Hr1).
  destruct (@edge_connections_rows _ _ _ a2 o2 _ _ s2 _ d Hready Hids c2 H2' window reference protocol state process source target)
    as (l2 & r2 & El2 & -> & Hr2).
  destruct (@window_services_spec _ _ a1 o1 _ _ d Hready (dom (devices d)) window reference unrestricted) as (l1' & E1 & Hl1).
  destruct (@window_services_spec _ _ a2 o2 _ _ d Hready (dom (devices d)) window reference unrestricted) as (l2' & E2 & Hl2).
  rewrite El1 in E1. rewrite El2 in E2. injection E1 as <-. injection E2 as <-.
  assert (Hl : l1 ≡ₚ l2) by (rewrite Hl1, Hl2; by apply services_order).
  f_equal. apply merge_sort_key_unique.
  - intros e e' He He'. rewrite Hr1 in He, He'. apply (details_keys c1 (source, target) (filter_service_connections l1 protocol state process) e e'); [|done..].
    destruct (filter_services_eq protocol state process) as [Q HQ]. rewrite HQ. apply NoDup_fmap_filter. rewrite Hl1. by apply services_keys.
  - rewrite Hr1, Hr2, (details_order d o1 o2 s1 s2 c1 c2 H1' H2'). apply details_Permutation.
    destruct (filter_services_eq protocol state process) as [Q HQ]. rewrite !HQ. by rewrite Hl.
Qed.
