(* ===== verification/TopologyViews.v ===== *)
(** * The difference of two scans and the graph of one scan *)

From S2P Require Import Prelude PyText PyDict IpAddress Addresses Models Exceptions ServiceObservations Retention TopologyHistory HistoryTheorems HistoryEquivalence Topology TopologyGraph TopologyRestriction.

(** ** The difference of two scans *)

(** The identity of a listed connection. *)
Definition listed_key (c : ConnectionDict) : connection_tuple :=
  (cd_protocol c, cd_local_ip c, default 0 (cd_local_port c), cd_remote_ip c, cd_remote_port c, cd_pid c, cd_process_name c).

(** The connections a scan saw. *)
Definition scan_keys (d : Db) (s : Z) : list connection_tuple := (fun p => connection_key p.2) <$> scan_connections d s.

Lemma by_key_keys rows k : k ∈ (by_key rows).*1 <-> k ∈ (fun p : Z * ConnectionRecord => connection_key p.2) <$> rows.
Proof. unfold by_key. rewrite group_by_keys. cbn. set_solver. Qed.

Lemma by_key_entry rows k p : (k, p) ∈ by_key rows -> p ∈ rows /\ connection_key p.2 = k.
Proof.
  intros Hin. apply dict_get_Some in Hin; [|apply group_by_NoDup; constructor]. by apply group_by_last in Hin.
Qed.

Lemma only_in_keys `{UnicodePrintable, SetOrder} a b :
  listed_key <$> only_in (by_key a) (by_key b) ≡ₚ filter (fun k => k ∉ (by_key b).*1) (by_key a).*1.
Proof.
  unfold only_in. rewrite sorted_by_text_Permutation, set_order_Permutation, <- list_fmap_compose, filter_fmap.
  apply reflexive_eq, fmap_ext_in. intros [k [i r]] [_ Hin]%list_elem_of_filter. apply by_key_entry in Hin as [_ <-]. done.
Qed.

Lemma only_in_spec `{UnicodePrintable, SetOrder} a b :
  NoDup (listed_key <$> only_in (by_key a) (by_key b)) /\
  (forall k, k ∈ listed_key <$> only_in (by_key a) (by_key b) <->
     k ∈ (fun p : Z * ConnectionRecord => connection_key p.2) <$> a /\ k ∉ (fun p : Z * ConnectionRecord => connection_key p.2) <$> b) /\
  Forall (fun c => exists p, p ∈ a /\ c = connection_dict p.1 p.2) (only_in (by_key a) (by_key b)).
Proof.
  split_and!.
  - rewrite only_in_keys. apply NoDup_filter, group_by_NoDup. constructor.
  - intros k. rewrite only_in_keys, list_elem_of_filter, !by_key_keys. tauto.
  - rewrite Forall_forall. intros c. unfold only_in. rewrite list_elem_of_fmap. intros ([k p] & -> & Hin).
    rewrite sorted_by_text_Permutation, set_order_Permutation in Hin. apply list_elem_of_filter in Hin as [_ Hin].
    apply by_key_entry in Hin as [Hin _]. eauto.
Qed.

(** The difference of two scans is exact: a connection is listed as added when the
    current scan saw it and the previous one did not, once however many rows it has,
    and as removed the other way round; so what the current scan saw is what the
    previous one saw, less the removed and with the added. *)
Theorem diff_scans_exact `{UnicodePrintable, SetOrder} d previous current :
  let diff := diff_scans d previous current in
  let plus := listed_key <$> added diff in
  let minus := listed_key <$> removed diff in
  NoDup plus /\ NoDup minus /\
  (forall k, k ∈ plus <-> k ∈ scan_keys d current /\ k ∉ scan_keys d previous) /\
  (forall k, k ∈ minus <-> k ∈ scan_keys d previous /\ k ∉ scan_keys d current) /\
  (forall k, k ∈ scan_keys d current <-> k ∈ plus \/ (k ∈ scan_keys d previous /\ k ∉ minus)) /\
  (forall c, c ∈ added diff -> exists p, p ∈ scan_connections d current /\ c = connection_dict p.1 p.2).
Proof.
  cbv zeta. unfold diff_scans. cbn [added removed].
  destruct (only_in_spec (scan_connections d current) (scan_connections d previous)) as (N1 & E1 & F1).
  destruct (only_in_spec (scan_connections d previous) (scan_connections d current)) as (N2 & E2 & _).
  split_and!; [exact N1|exact N2|exact E1|exact E2| |].
  - intros k. rewrite E1, E2. fold (scan_keys d current) (scan_keys d previous).
    destruct (decide (k ∈ scan_keys d current)), (decide (k ∈ scan_keys d previous)); tauto.
  - rewrite Forall_forall in F1. exact F1.
Qed.

(** ** The graph of one scan *)

Lemma imap_fmap_index {A B C} (f : nat -> A -> B) (g : B -> C) (h : A -> C) l :
  (forall i a, g (f i a) = h a) -> g <$> imap f l = h <$> l.
Proof.
  revert f. induction l as [|a l IH]; intros f E; [done|]. cbn [imap]. rewrite !fmap_cons, E. f_equal. apply IH. intros i b. apply E.
Qed.

Lemma peer_ids (groups : list (text * list Service)) (f : nat -> nat) :
  (forall i j, f i = f j -> i = j) -> NoDup (node_id <$> imap (fun i g => peer_node (f i) g) groups).
Proof.
  revert f. induction groups as [|g groups IH]; intros f Hf; [constructor|]. cbn [imap]. rewrite fmap_cons. constructor.
  - intros (n & E & Hn)%list_elem_of_fmap. apply elem_of_lookup_imap_1 in Hn as (j & g' & -> & _). destruct g, g'. cbn [peer_node node_id] in E.
    unfold peer_id in E. apply (inj (app _)), (inj str_of_Z), (inj Z.of_nat) in E. by apply Hf in E.
  - apply (IH (fun i => f (S i))). intros i j E. apply Hf in E. lia.
Qed.

(** The graph of a scan shows each service once, on the edge of its remote address:
    the nodes have identifiers of their own, there is one peer for each address, each
    edge leads from the device to the peer of its services and counts them, and the
    listeners are the connections without a remote address. *)
Theorem device_graph_partition `{UnicodePrintable} scan_run scan device scans window services d :
  let g := build_topology scan_run scan device scans window (Some services) d in
  NoDup (node_id <$> dg_nodes g) /\
  NoDup (node_subtitle <$> tail (dg_nodes g)) /\
  concat (omap edge_connections (dg_edges g)) ≡ₚ services /\
  (forall e, e ∈ dg_edges g -> exists n rows,
     n ∈ dg_nodes g /\ node_id n = edge_target e /\ edge_source e = u "device-" ++ str_of_Z (run_device_id scan) /\
     edge_connections e = Some rows /\ rows ≠ [] /\ edge_count e = Z.of_nat (length rows) /\ node_count n = Some (edge_count e) /\
     Forall (fun s => sv_remote_ip s = node_subtitle n) rows) /\
  (forall c, c ∈ dg_listeners g <-> exists p, p ∈ scan_connections d scan_run /\ conn_remote_ip p.2 = None /\ c = connection_dict p.1 p.2).
Proof.
  cbv zeta. unfold build_topology. cbn [dg_nodes dg_edges dg_listeners].
  set (grouped := group_by sv_remote_ip (append_to id) services []). set (groups := sorted_by_text fst grouped).
  assert (Hp : groups ≡ₚ grouped) by apply sorted_by_text_Permutation.
  assert (Hg : NoDup groups.*1) by (rewrite Hp; apply group_by_NoDup; constructor). split_and!.
  - rewrite fmap_cons. constructor; [|by apply (peer_ids groups id)].
    intros (n & E & Hn)%list_elem_of_fmap. apply elem_of_lookup_imap_1 in Hn as (j & [r l] & -> & _). discriminate E.
  - cbn [tail]. rewrite (imap_fmap_index _ _ fst) by (by intros i [r l]). done.
  - assert (E : omap (M:=list) edge_connections (imap (peer_edge (u "device-" ++ str_of_Z (run_device_id scan))) groups) = groups.*2).
    { generalize (u "device-" ++ str_of_Z (run_device_id scan)) as server. clear. intros server.
      assert (Hgen : forall f : nat -> text * list Service -> Edge Service, (forall i g, edge_connections (f i g) = Some g.2) ->
        omap (M:=list) edge_connections (imap f groups) = groups.*2).
      { induction groups as [|g l IH]; intros f Hf; [done|]. cbn [imap omap list_omap]. rewrite Hf. rewrite fmap_cons. f_equal. apply IH. intros i. apply Hf. }
      by apply Hgen. }
    rewrite E, Hp. unfold grouped. rewrite collect_concat. cbn. by rewrite list_fmap_id.
  - intros e He. apply elem_of_lookup_imap_1 in He as (i & [remote rows] & -> & Hi).
    assert (Hin : (remote, rows) ∈ grouped) by (rewrite <- Hp; by eapply list_elem_of_lookup_2).
    apply dict_get_Some in Hin; [|apply group_by_NoDup; constructor]. apply collect_get_Some in Hin as [Hr Hne].
    exists (peer_node i (remote, rows)), rows. split_and!; try done.
    + right. apply elem_of_lookup_imap_2. done.
    + cbn. rewrite Hr, list_fmap_id. rewrite Forall_forall. intros s Hs. unfold with_key in Hs. by apply list_elem_of_filter in Hs as [Hs _].
  - intros c. rewrite list_elem_of_fmap. setoid_rewrite list_elem_of_filter. naive_solver.
Qed.
