(* ===== verification/TopologyDemo.v ===== *)
(** * The topology theorems on a concrete database

    Two clusters of one device each and a device of its own; two scans of the first. *)

From S2P Require Import Prelude PyText PyDict IpAddress Addresses Networks Models Exceptions Collectors Scans ServiceObservations ObservationTheorems DeviceListing Retention TopologyHistory HistoryTheorems HistoryEquivalence Resolver Topology TopologyServices TopologyGraph TopologyTheorems TopologyRestriction TopologyStable TopologyViews.

Definition demo_device (name host : text) (cluster : option Z) : Device :=
  mkDevice name host LINUX 22 (u "root") (u "token") cluster 60 true true None None None 0 0.

Definition demo_cluster (name : text) : Cluster := mkCluster name None None 60 true 0 0.

Definition graph_empty : Db := empty_db
  <| devices := {[1 := demo_device (u "edge-1") (u "10.0.0.1") (Some 1);
                  2 := demo_device (u "db-1") (u "10.0.0.2") (Some 2);
                  3 := demo_device (u "lone") (u "10.0.0.3") None]} |>
  <| clusters := {[1 := demo_cluster (u "edge"); 2 := demo_cluster (u "data")]} |>.

Definition demo_row (lport : Z) (remote : text) (rport : Z) : NormalizedConnection :=
  mkConnection (u "tcp") (u "ipv4") (u "10.0.0.1") lport (Some remote) (Some rport) (Some (u "ESTAB")) (Some 7) (Some (u "curl")).

Definition demo_scan (started : Z) (rows : list NormalizedConnection) : ScanOutcome :=
  mkScanOutcome 1 TRIGGER_MANUAL SCAN_SUCCESS started (started + 10) rows None None None.

Definition graph_scans : list (Z * ScanOutcome) :=
  [(30, demo_scan 10 [demo_row 4001 (u "10.0.0.2") 5432; demo_row 4002 (u "10.0.0.3") 22]);
   (3700, demo_scan 3600 [demo_row 4003 (u "10.0.0.2") 5432; demo_row 4004 (u "8.8.8.8") 53])].

Definition graph_db : Db := @persist_all ascii_only first_occurrences graph_scans graph_empty.

Lemma graph_empty_wf : history_wf graph_empty.
Proof. repeat split; intros i x Hi; cbn in Hi; by apply lookup_empty_Some in Hi. Qed.

Lemma graph_empty_synced : @synced first_occurrences graph_empty (success_scans graph_empty).
Proof.
  constructor; [apply history_obs, graph_empty_wf|..]; intros i x;
    try (intros Hx; cbn in Hx; by apply lookup_empty_Some in Hx). intros k Hx. cbn in Hx. by apply lookup_empty_Some in Hx.
Qed.

Lemma demo_row_canonical lport remote rport :
  0 <= lport -> _normalize_ip_address_uncached remote = remote -> canonical_connection (demo_row lport remote rport).
Proof.
  intros Hp Hr. constructor; [|exact Hp|done|done|split; [exact Hr|by eexists]].
  split; [done|]. change (44%N ∉ u "10.0.0.1"). apply (bool_decide_unpack _). vm_compute. exact I.
Qed.

Lemma graph_storable : @storable ascii_only graph_scans graph_empty.
Proof.
  constructor; [vm_compute; split; discriminate|vm_compute; split; discriminate|].
  assert (Hk : forall started rows, Forall canonical_connection rows -> Forall canonical_connection (@kept ascii_only (demo_scan started rows))).
  { intros started rows Hall. rewrite Forall_forall in Hall |- *. intros row [_ Hin]%list_elem_of_filter. by apply Hall. }
  constructor; [|constructor; [|constructor]]; (split; [split; vm_compute; (done || discriminate)|]); apply Hk;
    repeat constructor; first [lia|vm_compute; reflexivity|idtac].
  all: try apply demo_row_canonical; first [lia|vm_compute; reflexivity].
Qed.

Lemma graph_db_ready : @observations_ready no_unicode_digits graph_db.
Proof.
  apply (@synced_ready no_unicode_digits first_occurrences).
  apply (@persist_all_synced ascii_only first_occurrences graph_scans graph_empty graph_empty_wf graph_empty_synced graph_storable).
Qed.

Definition ids_ok (d : Db) : bool :=
  forallb (fun p => (0 <? p.1) && match device_cluster_id p.2 with Some c => bool_decide (is_Some (clusters d !! c)) | None => true end)
    (map_to_list (devices d)) && forallb (fun p => 0 <? p.1) (map_to_list (clusters d)).

Lemma ids_ok_spec d : ids_ok d = true -> graph_ids d.
Proof.
  unfold ids_ok. rewrite andb_true_iff, !forallb_forall. intros [Hd Hc].
  assert (Hdev : forall i x, devices d !! i = Some x -> 0 < i /\ match device_cluster_id x with Some c => is_Some (clusters d !! c) | None => True end).
  { intros i x Hi. specialize (Hd (i, x)). rewrite <- list_elem_of_In, elem_of_map_to_list in Hd. specialize (Hd Hi).
    rewrite andb_true_iff, Z.ltb_lt in Hd. cbn [fst snd] in Hd. destruct Hd as [? Hd]. split; [done|].
    destruct (device_cluster_id x); [|done]. by apply bool_decide_eq_true in Hd. }
  constructor.
  - intros i x Hi. by apply (Hdev i x).
  - intros c x Hx. specialize (Hc (c, x)). rewrite <- list_elem_of_In, elem_of_map_to_list in Hc. specialize (Hc Hx).
    by apply Z.ltb_lt in Hc.
  - intros i x c Hi Hc'. destruct (Hdev i x Hi) as [_ Hx]. by rewrite Hc' in Hx.
Qed.

Lemma graph_db_ids : graph_ids graph_db.
Proof. apply ids_ok_spec. vm_compute. reflexivity. Qed.

(** No host of the database needs the name service. *)
Definition demo_resolver : Resolver := name_service (fun _ => Unresolved).

Lemma demo_hosts d : @hosts_resolve demo_resolver d.
Proof.
  intros i x _. unfold resolve, demo_resolver, name_service. destruct (literal (device_host x)); eexists; reflexivity.
Qed.

Definition demo_graph (target_cluster_id : option Z) : result exn ClusterGraph :=
  @build_cluster_topology ascii_printable no_unicode_digits ascii_only first_occurrences as_listed codepoint_le as_elements demo_resolver
    (at_rest graph_db) W_7d (3600 * 24) target_cluster_id true None None None 0.

Definition demo_edges (g : result exn ClusterGraph) : list (text * text * Z * Z) :=
  match g with Ok g => (fun e => (edge_source e, edge_target e, edge_count e, edge_current_count e)) <$> cg_edges g | Raise _ => [] end.

(** Two current services and one of the earlier scan. *)
Example demo_graph_edges :
  demo_edges (demo_graph None) =
    [(u "cluster-1", u "cluster-2", 1, 1); (u "cluster-1", u "device-3", 1, 0); (u "cluster-1", u "external-8.8.8.8", 1, 1)].
Proof. vm_compute. reflexivity. Qed.

Example demo_cluster_edges : demo_edges (demo_graph (Some 2)) = [(u "cluster-1", u "cluster-2", 1, 1)].
Proof. vm_compute. reflexivity. Qed.

(** ** The theorems at this database *)

Definition demo_edge_rows (source target : text) : result exn (list EdgeDetail) :=
  @build_edge_connections ascii_printable no_unicode_digits ascii_only first_occurrences as_listed codepoint_le as_elements demo_resolver
    (at_rest graph_db) source target W_7d (3600 * 24) None None None.

Lemma edge_connections_match_graph_witness :
  exists g rows, demo_graph None = Ok g /\ demo_edge_rows (u "cluster-1") (u "cluster-2") = Ok rows /\
    rows ≡ₚ edge_rows (u "cluster-1") (u "cluster-2") (cg_edges g) /\ length rows = 1%nat.
Proof.
  destruct (@edge_connections_match_graph ascii_printable no_unicode_digits ascii_only first_occurrences as_listed codepoint_le codepoint_markers
    as_elements demo_resolver (name_service_laws _) graph_db W_7d (3600 * 24) None None None 0 graph_db_ready graph_db_ids (demo_hosts graph_db))
    as (g & E & Hrows).
  destruct (Hrows (u "cluster-1") (u "cluster-2")) as (rows & Er & Hp). exists g, rows. split_and!; [exact E|exact Er|exact Hp|].
  assert (El : match demo_edge_rows (u "cluster-1") (u "cluster-2") with Ok rows => length rows | Raise _ => 0%nat end = 1%nat) by (vm_compute; reflexivity).
  unfold demo_edge_rows in El. rewrite Er in El. exact El.
Defined.

Lemma cluster_graph_well_formed_witness : exists g, demo_graph (Some 2) = Ok g /\ graph_wf g /\ node_ids g = [u "cluster-2"; u "cluster-1"].
Proof.
  destruct (@cluster_graph_well_formed ascii_printable no_unicode_digits ascii_only first_occurrences as_listed codepoint_le codepoint_markers
    as_elements demo_resolver (name_service_laws _) graph_db W_7d (3600 * 24) (Some 2) true None None None 0 graph_db_ready graph_db_ids (demo_hosts graph_db))
    as (g & E & Hg).
  - exists (demo_cluster (u "data")). vm_compute. reflexivity.
  - exists g. split_and!; [exact E|exact Hg|].
    assert (En : match demo_graph (Some 2) with Ok g => node_ids g | Raise _ => [] end = [u "cluster-2"; u "cluster-1"]) by (vm_compute; reflexivity).
    unfold demo_graph in En. rewrite E in En. exact En.
Defined.

Lemma cluster_graph_is_restriction_witness :
  exists g part, demo_graph None = Ok g /\ demo_graph (Some 2) = Ok part /\
    edge_figures <$> cg_edges part = edge_figures <$> filter (touches (cluster_node_id 2)) (cg_edges g) /\
    length (cg_edges g) = 3%nat /\ length (cg_edges part) = 1%nat.
Proof.
  destruct (@cluster_graph_is_restriction ascii_printable no_unicode_digits ascii_only first_occurrences as_listed codepoint_le codepoint_markers
    as_elements demo_resolver (name_service_laws _) graph_db W_7d (3600 * 24) 2 None None None 0 graph_db_ready graph_db_ids (demo_hosts graph_db))
    as (g & part & E & Ep & Hfig & _).
  - exists (demo_cluster (u "data")). vm_compute. reflexivity.
  - exists g, part. split_and!; [exact E|exact Ep|exact Hfig| |].
    + assert (En : length (demo_edges (demo_graph None)) = 3%nat) by (vm_compute; reflexivity).
      unfold demo_graph, demo_edges in En. rewrite E, length_fmap in En. exact En.
    + assert (En : length (demo_edges (demo_graph (Some 2))) = 1%nat) by (vm_compute; reflexivity).
      unfold demo_graph, demo_edges in En. rewrite Ep, length_fmap in En. exact En.
Defined.

(** Rows and set elements in the opposite order. *)
Definition reversed : PgOrder := {| pg_order A l := rev l; pg_order_Permutation A l := symmetry (Permutation_rev l) |}.
Definition reversed_set : SetOrder := {| set_order A l := rev l; set_order_Permutation A l := symmetry (Permutation_rev l) |}.

Lemma edge_connections_stable_witness :
  demo_edge_rows (u "cluster-1") (u "cluster-2") =
  @build_edge_connections ascii_printable no_unicode_digits ascii_only first_occurrences reversed codepoint_le reversed_set demo_resolver
    (at_rest graph_db) (u "cluster-1") (u "cluster-2") W_7d (3600 * 24) None None None.
Proof.
  exact (@edge_connections_stable ascii_printable no_unicode_digits ascii_only codepoint_le codepoint_markers demo_resolver (name_service_laws _)
    first_occurrences first_occurrences as_listed reversed as_elements reversed_set graph_db (u "cluster-1") (u "cluster-2") W_7d (3600 * 24)
    None None None graph_db_ready graph_db_ids (demo_hosts graph_db)).
Defined.
