(* ===== verification/Scheduler.v ===== *)
(** * The scheduler (src/app/services/scheduler.py)

    Each process has a scheduler of its own; the process that holds the leader lock
    runs it.  The job scheduler underneath (APScheduler) is third-party code: here it
    is the interface [BackgroundScheduler] with the laws its documentation states,
    and [map_scheduler] is a concrete instance. *)

From S2P Require Import Prelude PyText Models Exceptions ScanQueue.

(** ** The job scheduler *)

(** What a job does and how often. *)
Inductive job :=
| ScanJob (device_id minutes : Z)
| PurgeJob.

#[export] Instance job_eq_dec : EqDecision job.
Proof. solve_decision. Defined.

Class BackgroundScheduler (S : Type) := {
  new_scheduler : S;
  get_job : text -> S -> option job;
  add_job : text -> job -> S -> S;
  remove_job : text -> S -> S;
  start_jobs : S -> S;
  running : S -> bool
}.

(** [add_job] is called with [replace_existing=True]. *)
Class SchedulerLaws S `{BackgroundScheduler S} := {
  get_job_new i : get_job i (new_scheduler : S) = None;
  get_job_add i j x (s : S) : get_job j (add_job i x s) = if decide (j = i) then Some x else get_job j s;
  get_job_remove i j (s : S) : get_job j (remove_job i s) = if decide (j = i) then None else get_job j s;
  get_job_start i (s : S) : get_job i (start_jobs s) = get_job i s;
  running_new : running (new_scheduler : S) = false;
  running_add i x (s : S) : running (add_job i x s) = running s;
  running_remove i (s : S) : running (remove_job i s) = running s;
  running_start (s : S) : running (start_jobs s) = true
}.

(** ** The service *)

Definition job_id (device_id : Z) : text := u "device-scan-" ++ str_of_Z device_id.

Definition history_job : text := u "history-retention".

Section service.
Context {S : Type} `{BackgroundScheduler S}.

Definition sync_device (device_id : Z) (device : Device) (s : S) : S :=
  if negb (device_collection_enabled device) || negb (device_scheduled_enabled device) then
    match get_job (job_id device_id) s with Some _ => remove_job (job_id device_id) s | None => s end
  else add_job (job_id device_id) (ScanJob device_id (device_scan_interval_minutes device)) s.

Definition remove_device (device_id : Z) (s : S) : S :=
  match get_job (job_id device_id) s with Some _ => remove_job (job_id device_id) s | None => s end.

(** [select(Device).where(scheduled_enabled, collection_enabled)] *)
Definition schedulable (device : Device) : bool :=
  device_scheduled_enabled device && device_collection_enabled device.

Definition _become_leader (d : Db) (s : S) : S :=
  if running s then s
  else
    let s := start_jobs (add_job history_job PurgeJob s) in
    map_fold (fun i device s => if schedulable device then sync_device i device s else s) s (devices d).

Definition _lose_leadership (s : S) : S := if running s then new_scheduler else s.
End service.

(** ** A job runs *)

(** [_enqueue_device]: a full queue or a device without credentials is skipped. *)
Definition _enqueue_device (queue_size device_id wall : Z) (d : Db) : result exn () * Db :=
  match commit (enqueue_device queue_size device_id TRIGGER_SCHEDULED PRIORITY_SCHEDULED None wall) d with
  | (Ok _, d) => (Ok (), d)
  | (Raise ScanQueueFull, d) | (Raise DeviceCollectionDisabled, d) => (Ok (), d)
  | (Raise e, d) => (Raise e, d)
  end.

(** ** Processes

    One database, one scheduler per process, and the requests and leadership changes
    that reach them.  A request is handled by one process: it changes the database and
    then tells the scheduler of that process. *)

Record Fleet S := mkFleet {
  fleet_devices : gmap Z Device;
  fleet_schedulers : gmap Z S
}.
Arguments mkFleet {S}. Arguments fleet_devices {S}. Arguments fleet_schedulers {S}.

Inductive fleet_op :=
| BecomeLeader (p : Z)
| LoseLeadership (p : Z)
| SaveDevice (p device_id : Z) (device : Device)
| DeleteDevice (p device_id : Z) (scanning : bool).

Definition op_process (op : fleet_op) : Z :=
  match op with
  | BecomeLeader p | LoseLeadership p | SaveDevice p _ _ | DeleteDevice p _ _ => p
  end.

Section fleet.
Context {S : Type} `{BackgroundScheduler S}.

Definition local (f : S -> S) (p : Z) (devs : gmap Z Device) (w : Fleet S) : Fleet S :=
  mkFleet devs (alter f p (fleet_schedulers w)).

(** [DeleteDevice]: src/app/routes/api.py [delete_device] tells the scheduler first,
    and answers 409 without deleting a device that is being scanned. *)
Definition fleet_step (op : fleet_op) (w : Fleet S) : Fleet S :=
  let devs := fleet_devices w in
  match op with
  | BecomeLeader p => local (_become_leader (empty_db <| devices := devs |>)) p devs w
  | LoseLeadership p => local _lose_leadership p devs w
  | SaveDevice p i device => local (sync_device i device) p (<[i := device]> devs) w
  | DeleteDevice p i scanning =>
      local (remove_device i) p (if scanning then devs else delete i devs) w
  end.

Definition run_fleet (ops : list fleet_op) (w : Fleet S) : Fleet S := foldl (fun w op => fleet_step op w) w ops.
End fleet.

(** ** A concrete scheduler *)

Record MapScheduler := mkMapScheduler {
  map_jobs : gmap text job;
  map_running : bool
}.

#[export] Instance map_scheduler : BackgroundScheduler MapScheduler := {|
  new_scheduler := mkMapScheduler ∅ false;
  get_job i s := map_jobs s !! i;
  add_job i x s := mkMapScheduler (<[i := x]> (map_jobs s)) (map_running s);
  remove_job i s := mkMapScheduler (delete i (map_jobs s)) (map_running s);
  start_jobs s := mkMapScheduler (map_jobs s) true;
  running := map_running
|}.

#[export] Instance map_scheduler_laws : SchedulerLaws MapScheduler.
Proof.
  split; try done; intros i j; cbn.
  - intros x s. rewrite lookup_insert. by repeat case_decide; subst.
  - intros s. rewrite lookup_delete. by repeat case_decide; subst.
Qed.

(** ** The job table follows the devices *)

(** The job a device should have. *)
Definition wanted_job (devs : gmap Z Device) (i : Z) : option job :=
  match devs !! i with
  | Some device => if schedulable device then Some (ScanJob i (device_scan_interval_minutes device)) else None
  | None => None
  end.

#[export] Instance job_id_inj : Inj (=) (=) job_id.
Proof. intros i j E. unfold job_id in E. apply (inj (app _)) in E. by apply (inj str_of_Z) in E. Qed.

Lemma job_id_not_history i : job_id i ≠ history_job.
Proof. intros E. apply (f_equal head) in E. by vm_compute in E. Qed.

Section laws.
Context {S : Type} `{SchedulerLaws S}.

Lemma get_job_sync i device j (s : S) :
  get_job j (sync_device i device s) =
    if decide (j = job_id i)
    then (if schedulable device then Some (ScanJob i (device_scan_interval_minutes device)) else None)
    else get_job j s.
Proof.
  unfold sync_device, schedulable.
  destruct (device_collection_enabled device), (device_scheduled_enabled device); cbn [negb orb andb];
    [apply get_job_add|..]; destruct (get_job (job_id i) s) eqn:E; rewrite ?get_job_remove;
    case_decide; by subst.
Qed.

Lemma get_job_remove_device i j (s : S) :
  get_job j (remove_device i s) = if decide (j = job_id i) then None else get_job j s.
Proof.
  unfold remove_device. destruct (get_job (job_id i) s) eqn:E; [apply get_job_remove|].
  case_decide; by subst.
Qed.

Lemma running_sync i device (s : S) : running (sync_device i device s) = running s.
Proof.
  unfold sync_device. destruct (_ || _); [|apply running_add].
  destruct (get_job _ _); [apply running_remove|done].
Qed.

Lemma running_remove_device i (s : S) : running (remove_device i s) = running s.
Proof. unfold remove_device. destruct (get_job _ _); [apply running_remove|done]. Qed.

(** The jobs after the loop over the devices: those of the schedulable devices, and
    what was there for other names. *)
Lemma get_job_sync_all (devs : gmap Z Device) (s : S) :
  let s' := map_fold (fun i device s => if schedulable device then sync_device i device s else s) s devs in
  running s' = running s /\
  (forall i, get_job (job_id i) s' = match wanted_job devs i with Some x => Some x | None => get_job (job_id i) s end) /\
  (forall j, (forall i, j ≠ job_id i) -> get_job j s' = get_job j s).
Proof.
  cbv zeta. apply (map_fold_weak_ind (fun (s' : S) (devs : gmap Z Device) => running s' = running s /\
    (forall i, get_job (job_id i) s' = match wanted_job devs i with Some x => Some x | None => get_job (job_id i) s end) /\
    (forall j, (forall i, j ≠ job_id i) -> get_job j s' = get_job j s))).
  - split_and!; [done|intros i; unfold wanted_job; by rewrite lookup_empty|done].
  - intros i device m s' Hm (Hrun & Hget & Hother).
    assert (Hw : forall k, wanted_job (<[i := device]> m) k = if decide (k = i) then
      (if schedulable device then Some (ScanJob i (device_scan_interval_minutes device)) else None) else wanted_job m k).
    { intros k. unfold wanted_job. rewrite lookup_insert. case_decide; case_decide; subst; done. }
    assert (Hi : wanted_job m i = None) by (unfold wanted_job; by rewrite Hm).
    destruct (schedulable device) eqn:Es; split_and!.
    + by rewrite running_sync.
    + intros k. rewrite get_job_sync, Es, Hw. destruct (decide (k = i)) as [->|Hne].
      * by rewrite !decide_True.
      * rewrite decide_False by (intros E; by apply (inj job_id) in E). apply Hget.
    + intros j Hj. rewrite get_job_sync, decide_False by apply Hj. by apply Hother.
    + done.
    + intros k. rewrite Hw, Hget. destruct (decide (k = i)) as [->|]; [by rewrite Hi|done].
    + done.
Qed.

(** A job table: no scan job that should not be there and, while running, every job
    that should be there. *)
Definition jobs_sound (devs : gmap Z Device) (s : S) : Prop :=
  forall i x, get_job (job_id i) s = Some x -> wanted_job devs i = Some x.

Definition jobs_exact (devs : gmap Z Device) (s : S) : Prop :=
  get_job history_job s = Some PurgeJob /\ forall i, get_job (job_id i) s = wanted_job devs i.

Definition jobs_ok (devs : gmap Z Device) (s : S) : Prop :=
  jobs_sound devs s /\ (running s = true -> jobs_exact devs s).

Lemma become_leader_ok devs (s : S) :
  jobs_ok devs s -> jobs_ok devs (_become_leader (empty_db <| devices := devs |>) s).
Proof.
  intros [Hs Hr]. unfold _become_leader. destruct (running s) eqn:E; [split; auto|]. cbn [devices set_field].
  destruct (get_job_sync_all devs (start_jobs (add_job history_job PurgeJob s))) as (Hrun & Hget & Hother).
  assert (Hold : forall i, get_job (job_id i) (start_jobs (add_job history_job PurgeJob s)) = get_job (job_id i) s).
  { intros i. rewrite get_job_start, get_job_add, decide_False; [done|apply job_id_not_history]. }
  assert (Hex : forall i, get_job (job_id i) (map_fold (fun i device s => if schedulable device
      then sync_device i device s else s) (start_jobs (add_job history_job PurgeJob s)) devs) = wanted_job devs i).
  { intros i. rewrite Hget, Hold. destruct (wanted_job devs i) eqn:Ew; [done|].
    destruct (get_job (job_id i) s) eqn:Ej; [|done]. apply Hs in Ej. congruence. }
  split; [intros i x Hx; by rewrite <- Hex|]. intros _. split; [|exact Hex].
  etransitivity; [apply Hother; intros i E'; by apply symmetry, job_id_not_history in E'|].
  by rewrite get_job_start, get_job_add, decide_True.
Qed.

Lemma lose_leadership_ok devs (s : S) : jobs_ok devs s -> jobs_ok devs (_lose_leadership s).
Proof.
  intros Hok. unfold _lose_leadership. destruct (running s); [|done]. split.
  - intros i x. by rewrite get_job_new.
  - by rewrite running_new.
Qed.

Lemma save_device_ok devs i device (s : S) :
  jobs_ok devs s -> jobs_ok (<[i := device]> devs) (sync_device i device s).
Proof.
  intros [Hs Hr].
  assert (Hget : forall k, wanted_job (<[i := device]> devs) k = if decide (k = i) then
      (if schedulable device then Some (ScanJob i (device_scan_interval_minutes device)) else None) else wanted_job devs k).
  { intros k. unfold wanted_job. rewrite lookup_insert. case_decide; case_decide; subst; done. }
  assert (Hj : forall k, get_job (job_id k) (sync_device i device s) = if decide (k = i) then
      (if schedulable device then Some (ScanJob i (device_scan_interval_minutes device)) else None) else get_job (job_id k) s).
  { intros k. rewrite get_job_sync. destruct (decide (k = i)) as [->|Hne]; [by rewrite decide_True|].
    rewrite decide_False; [done|]. intros E. by apply (inj job_id) in E. }
  split.
  - intros k x. rewrite Hj, Hget. case_decide; [done|]. apply Hs.
  - rewrite running_sync. intros [Hh Hx]%Hr. split; [|intros k; by rewrite Hj, Hget, Hx].
    rewrite get_job_sync, decide_False; [done|]. intros E. by apply symmetry, job_id_not_history in E.
Qed.

Lemma delete_device_ok devs i (s : S) : jobs_ok devs s -> jobs_ok (delete i devs) (remove_device i s).
Proof.
  intros [Hs Hr].
  assert (Hget : forall k, wanted_job (delete i devs) k = if decide (k = i) then None else wanted_job devs k).
  { intros k. unfold wanted_job. rewrite lookup_delete. case_decide; case_decide; subst; done. }
  assert (Hj : forall k, get_job (job_id k) (remove_device i s) = if decide (k = i) then None else get_job (job_id k) s).
  { intros k. rewrite get_job_remove_device. destruct (decide (k = i)) as [->|Hne]; [by rewrite decide_True|].
    rewrite decide_False; [done|]. intros E. by apply (inj job_id) in E. }
  split.
  - intros k x. rewrite Hj, Hget. case_decide; [done|]. apply Hs.
  - rewrite running_remove_device. intros [Hh Hx]%Hr. split; [|intros k; by rewrite Hj, Hget, Hx].
    rewrite get_job_remove_device, decide_False; [done|]. intros E. by apply symmetry, job_id_not_history in E.
Qed.
End laws.

(** ** The guarantee, and where it stops *)

(** A request or leadership change of process [p] that is not a refused deletion. *)
Definition local_op (p : Z) (op : fleet_op) : Prop :=
  op_process op = p /\ forall i, op ≠ DeleteDevice p i true.

Lemma run_fleet_ok {S} `{SchedulerLaws S} p ops w s :
  Forall (local_op p) ops -> fleet_schedulers w !! p = Some s -> jobs_ok (fleet_devices w) s ->
  exists s', fleet_schedulers (run_fleet ops w) !! p = Some s' /\ jobs_ok (fleet_devices (run_fleet ops w)) s'.
Proof.
  intros Hops. revert w s. induction Hops as [|op ops [Hp Hdel] _ IH]; intros w s Hs Hok; [by exists s|].
  cbn. assert (Hstep : exists s', fleet_schedulers (fleet_step op w) !! p = Some s' /\
    jobs_ok (fleet_devices (fleet_step op w)) s'); [|destruct Hstep as (s' & ? & ?); by apply (IH _ s')].
  destruct op as [q|q|q i device|q i []]; cbn in *; subst q; rewrite ?lookup_alter_eq, Hs; cbn.
  - eexists. split; [done|]. by apply become_leader_ok.
  - eexists. split; [done|]. by apply lose_leadership_ok.
  - eexists. split; [done|]. by apply save_device_ok.
  - by destruct (Hdel i).
  - eexists. split; [done|]. by apply delete_device_ok.
Qed.


Definition scheduled_device (enabled : bool) (minutes : Z) : Device :=
  mkDevice (u "d") (u "h") LINUX 22 (u "root") (u "x") None minutes enabled true None None None 0 0.

Definition demo_ops : list fleet_op :=
  [SaveDevice 0 1 (scheduled_device true 5); BecomeLeader 0; SaveDevice 0 2 (scheduled_device true 10);
   SaveDevice 0 1 (scheduled_device false 5)].


(** With two processes the jobs do not follow the devices: process 0 is the leader
    when process 1 handles the request that turns the schedule of device 1 off, and
    device 1 stays scheduled. *)
Theorem schedule_change_missed_by_leader :
  let ops := [SaveDevice 0 1 (scheduled_device true 5); BecomeLeader 0; SaveDevice 1 1 (scheduled_device false 5)] in
  let w := run_fleet ops (mkFleet ∅ {[ 0 := (new_scheduler : MapScheduler); 1 := new_scheduler ]}) in
  device_scheduled_enabled <$> fleet_devices w !! 1 = Some false /\
  exists s, fleet_schedulers w !! 0 = Some s /\ running s = true /\ get_job (job_id 1) s = Some (ScanJob 1 5).
Proof. vm_compute. split; [reflexivity|]. eexists. repeat split. Qed.

(** A deletion that is refused because the device is being scanned still takes the
    device off the schedule of the process that refused it. *)
Theorem refused_delete_unschedules :
  let ops := [SaveDevice 0 1 (scheduled_device true 5); BecomeLeader 0; DeleteDevice 0 1 true] in
  let w := run_fleet ops (mkFleet ∅ {[ 0 := (new_scheduler : MapScheduler) ]}) in
  device_scheduled_enabled <$> fleet_devices w !! 1 = Some true /\
  exists s, fleet_schedulers w !! 0 = Some s /\ running s = true /\ get_job (job_id 1) s = None.
Proof. vm_compute. split; [reflexivity|]. eexists. repeat split. Qed.
