(* ===== verification/Clusters.v ===== *)
(** * Clusters (src/app/services/clusters.py)

    Names, internal networks and scan policies of clusters.  The functions that work in
    a session are transactions; [wall] is the clock of the process. *)

From S2P Require Import Prelude PyText IpAddress Networks Models Exceptions.

Definition MAX_INTERNAL_NETWORKS : Z := 100.

(** ** Names *)

Definition normalize_cluster_name (name : text) : result exn text :=
  let normalized := strip name in
  match normalized with
  | [] => Raise (ValueError (u "集群名称不能为空"))
  | _ =>
      if 100 <? Z.of_nat (length normalized)
      then Raise (ValueError (u "集群名称不能超过 100 个字符"))
      else Ok normalized
  end.

(** PostgreSQL's [lower()], which follows the locale of the database. *)
Class PgLower := pg_lower : text -> text.

Section clusters.
Context `{UnicodeCase, PgLower}.

Definition has_name (name : text) (_ : Z) (c : Cluster) : bool :=
  bool_decide (pg_lower (cluster_name c) = lower name).

(** The first row the query returns; with more than one it is any of them. *)
Definition find_cluster_by_name (name : text) (d : Db) : result exn (option Z) :=
  normalized ← normalize_cluster_name name;
  Ok (head (sorted_ids (select_ids (has_name normalized) (clusters d)))).

(** ** Internal networks *)

(** One pass of the loop: the tuples collected so far, in order; the texts seen are
    those of the tuples. *)
Definition add_network (acc : list network) (value : text) : result exn (list network) :=
  match ip_network value with
  | None => Raise (ValueError (u "内部地址段不是合法的 CIDR：" ++ value))
  | Some Net6 => Raise (ValueError (u "内部地址段仅支持 IPv4：" ++ value))
  | Some (Net4 n) =>
      if bool_decide (with_prefixlen n ∈ with_prefixlen <$> acc)
      then Raise (ValueError (u "内部地址段重复：" ++ with_prefixlen n))
      else Ok (acc ++ [n])
  end.

Fixpoint add_networks (acc : list network) (values : list text) : result exn (list network) :=
  match values with
  | [] => Ok acc
  | value :: values => acc ← add_network acc value; add_networks acc values
  end.

(** The order of the tuples [(int(network_address), prefixlen, cidr)]; the third part
    decides nothing, equal pairs having equal texts. *)
Definition network_le (m n : network) : Prop :=
  (network_address m < network_address n)%N \/
  (network_address m = network_address n /\ (prefixlen m <= prefixlen n)%N).

#[export] Instance network_le_dec : RelDecision network_le.
Proof. unfold RelDecision, network_le. intros m n. apply _. Defined.

Definition cleaned (values : list text) : list text :=
  (fun v => strip v) <$> filter (fun v => strip v ≠ []) values.

Definition normalize_internal_networks (values : list text) : result exn (list text) :=
  let cleaned := cleaned values in
  if MAX_INTERNAL_NETWORKS <? Z.of_nat (length cleaned)
  then Raise (ValueError (u "单个集群最多配置 100 个内部地址段"))
  else
    networks ← add_networks [] cleaned;
    Ok (with_prefixlen <$> merge_sort network_le networks).

(** The rows of a cluster. *)
Definition networks_of (cluster_id : Z) (d : Db) : gset text :=
  map_to_set (fun _ n => network_cidr n)
    (where_ (fun _ n => network_cluster_id n =? cluster_id) (cluster_internal_networks d)).

Definition add_network_row (cluster_id : Z) (d : Db) (cidr : text) : Db :=
  let '(i, d) := take_id T_networks d in
  d <| cluster_internal_networks := <[i := mkNetwork cluster_id cidr]> (cluster_internal_networks d) |>.

Definition replace_internal_networks (cluster_id : Z) (cidrs : list text) : Tx () := fun d =>
  match normalize_internal_networks cidrs with
  | Raise e => Raise e
  | Ok normalized =>
      let d := d <| cluster_internal_networks :=
                 where_ (fun _ n => negb (network_cluster_id n =? cluster_id) ||
                                    bool_decide (network_cidr n ∈ normalized))
                   (cluster_internal_networks d) |> in
      let existing := networks_of cluster_id d in
      Ok ((), foldl (add_network_row cluster_id) d (filter (fun c => c ∉ existing) normalized))
  end.

(** ** Creating, choosing and deleting *)

Definition new_cluster (name : text) (description : option text) (interval : Z) (enabled : bool) (wall : Z) : Cluster :=
  mkCluster name
    (match description with
     | Some s => match strip s with [] => None | s => Some s end
     | None => None
     end) None interval enabled wall wall.

(** The unique constraint on [clusters.name] raises [IntegrityError] at the flush. *)
Definition create_cluster (name : text) (description : option text) (networks : option (list text))
    (interval : Z) (enabled : bool) (wall : Z) : Tx Z := fun d =>
  match normalize_cluster_name name with
  | Raise e => Raise e
  | Ok normalized =>
      match find_cluster_by_name normalized d with
      | Raise e => Raise e
      | Ok (Some _) => Raise ClusterConflict
      | Ok None =>
          if bool_decide (map_Exists (fun _ c => cluster_name c = normalized) (clusters d))
          then Raise IntegrityError
          else
            let '(i, d) := take_id T_clusters d in
            let d := d <| clusters := <[i := new_cluster normalized description interval enabled wall]> (clusters d) |> in
            tx_bind (replace_internal_networks i (default [] networks)) (fun _ => tx_ret i) d
      end
  end.

(** An attribute that is set to the value it has does not make the row dirty, so
    [updated_at] moves only when something changed. *)
Definition follow_policy (c : Cluster) (wall : Z) (x : Device) : Device :=
  let y := x <| device_scan_interval_minutes := cluster_scan_interval_minutes c |>
             <| device_scheduled_enabled := cluster_scheduled_enabled c |> in
  if bool_decide (device_scan_interval_minutes x = cluster_scan_interval_minutes c /\
                  device_scheduled_enabled x = cluster_scheduled_enabled c)
  then y else y <| device_updated_at := wall |>.

Definition member (cluster_id : Z) (_ : Z) (x : Device) : bool :=
  bool_decide (device_cluster_id x = Some cluster_id).

(** The members, and the database with their policy. *)
Definition apply_cluster_scan_policy (cluster_id : Z) (c : Cluster) (wall : Z) (d : Db) : gset Z * Db :=
  (select_ids (member cluster_id) (devices d),
   d <| devices := update_where (member cluster_id) (follow_policy c wall) (devices d) |>).

Definition cluster_scan_values (c : option Cluster) (requested_interval : Z) (requested_enabled : bool) :
    Z * bool :=
  match c with
  | None => (requested_interval, requested_enabled)
  | Some c => (cluster_scan_interval_minutes c, cluster_scheduled_enabled c)
  end.

Definition resolve_cluster (cluster_id : option Z) (new_cluster_name : option text) (wall : Z) : Tx (option Z) := fun d =>
  let name_given := match new_cluster_name with Some (_ :: _) => true | _ => false end in
  match cluster_id with
  | Some i =>
      if name_given then Raise (ValueError (u "不能同时选择已有集群和新建集群"))
      else match clusters d !! i with None => Raise ClusterNotFound | Some _ => Ok (Some i, d) end
  | None =>
      match new_cluster_name with
      | Some name =>
          match strip name with
          | [] => Ok (None, d)
          | _ =>
              match find_cluster_by_name name d with
              | Raise e => Raise e
              | Ok (Some i) => Ok (Some i, d)
              | Ok None => tx_bind (create_cluster name None None 5 true wall) (fun i => tx_ret (Some i)) d
              end
          end
      | None => Ok (None, d)
      end
  end.

(** The devices of the cluster are kept without it; its networks go with it, and a scan
    batch of the cluster loses the reference. *)
Definition delete_cluster (cluster_id wall : Z) (d : Db) : Db :=
  d <| devices := update_where (member cluster_id)
                    (fun x => x <| device_cluster_id := None |> <| device_updated_at := wall |>) (devices d) |>
    <| cluster_internal_networks :=
         where_ (fun _ n => negb (network_cluster_id n =? cluster_id)) (cluster_internal_networks d) |>
    <| scan_batches := update_where (fun _ b => bool_decide (batch_cluster_id b = Some cluster_id))
                         (fun b => b <| batch_cluster_id := None |>) (scan_batches d) |>
    <| clusters := delete cluster_id (clusters d) |>.
End clusters.

(** ** Lemmas on normalization *)

Lemma lstrip_none s : Forall (fun c => is_space c = false) s -> lstrip s = s.
Proof. destruct 1 as [|c s Hc _]; [done|]. cbn. by rewrite Hc. Qed.

Lemma strip_none s : Forall (fun c => is_space c = false) s -> strip s = s.
Proof.
  intros H. unfold strip, rstrip. rewrite (lstrip_none s) by done.
  rewrite lstrip_none; [apply rev_involutive|]. by apply Forall_rev.
Qed.

Lemma digits_not_space s : Forall (fun c => is_digit c = true) s -> Forall (fun c => is_space c = false) s.
Proof.
  intros Hs. eapply Forall_impl; [exact Hs|]. cbn. intros c Hc. unfold is_digit in Hc. rewrite andb_true_iff, !N.leb_le in Hc.
  assert (H : forall k, (k < 10)%N -> is_space (48 + k) = false).
  { intros k Hk. apply negb_true_iff. revert k Hk. apply (below_spec 10 (fun k => negb (is_space (48 + k)%N))).
    vm_compute. reflexivity. }
  replace c with (48 + (c - 48))%N by lia. apply H. lia.
Qed.

Lemma with_prefixlen_not_space n : Forall (fun c => is_space c = false) (with_prefixlen n).
Proof.
  assert (Hs : forall k, Forall (fun c => is_space c = false) (str_of_N k)).
  { intros k. apply digits_not_space, str_of_N_spec. }
  assert (Hj : forall l, Forall (fun c => is_space c = false) (join DOT (str_of_N <$> l))).
  { induction l as [|a [|b l] IH]; [constructor|apply Hs|].
    change (join DOT (str_of_N <$> a :: b :: l)) with (str_of_N a ++ DOT :: join DOT (str_of_N <$> b :: l)).
    apply Forall_app. split; [apply Hs|]. constructor; [by vm_compute|done]. }
  unfold with_prefixlen. apply Forall_app. split; [apply Hj|]. constructor; [by vm_compute|apply Hs].
Qed.

Lemma strip_with_prefixlen n : strip (with_prefixlen n) = with_prefixlen n.
Proof. apply strip_none, with_prefixlen_not_space. Qed.

Lemma with_prefixlen_not_nil n : with_prefixlen n ≠ [].
Proof. unfold with_prefixlen. by destruct (text_of_ipv4 _). Qed.

Lemma cleaned_canonical nets : cleaned (with_prefixlen <$> nets) = with_prefixlen <$> nets.
Proof.
  unfold cleaned. induction nets as [|n nets IH]; [done|]. rewrite fmap_cons, filter_cons, decide_True.
  - rewrite fmap_cons, IH. by rewrite strip_with_prefixlen.
  - rewrite strip_with_prefixlen. apply with_prefixlen_not_nil.
Qed.

Definition parses (v : text) (n : network) : Prop := ip_network v = Some (Net4 n).

Lemma parses_wf v n : parses v n -> network_wf n.
Proof.
  unfold parses, ip_network. destruct (ipv4_network v) as [m|] eqn:E.
  - intros [= <-]. by eapply ipv4_network_wf.
  - by destruct (is_ipv6_network v).
Qed.

Lemma parses_canonical n : network_wf n -> parses (with_prefixlen n) n.
Proof. intros Hn. unfold parses, ip_network. by rewrite ipv4_network_of_text. Qed.

(** Why a list of values is refused. *)
Definition refused (values : list text) : Prop :=
  (exists v, v ∈ values /\ forall n, ¬ parses v n) \/
  exists i j v w n, i ≠ j /\ values !! i = Some v /\ values !! j = Some w /\ parses v n /\ parses w n.

Lemma add_networks_spec before_ acc values :
  Forall2 parses before_ acc -> NoDup (with_prefixlen <$> acc) ->
  match add_networks acc values with
  | Ok nets => exists parsed, nets = acc ++ parsed /\ Forall2 parses values parsed /\ NoDup (with_prefixlen <$> nets)
  | Raise e => (exists m, e = ValueError m) /\ refused (before_ ++ values)
  end.
Proof.
  revert before_ acc. induction values as [|v values IH]; intros before_ acc Hacc Hnd.
  { exists []. by rewrite app_nil_r. }
  cbn [add_networks]. unfold add_network.
  assert (Hv : v ∈ before_ ++ v :: values) by set_solver.
  destruct (ip_network v) as [[n|]|] eqn:Ev; cbn [mbind result_bind].
  - case_bool_decide as Hin; cbn [mbind result_bind].
    + split; [eauto|]. right. apply list_elem_of_fmap in Hin as (m & Em & Hm).
      apply list_elem_of_lookup in Hm as [i Hm]. destruct (Forall2_lookup_r _ _ _ _ _ Hacc Hm) as (w & Hw & Hp).
      assert (m = n) as ->.
      { symmetry. apply with_prefixlen_inj; [by eapply parses_wf|by eapply parses_wf|done]. }
      exists i, (length before_), w, v, n. split_and!; try done.
      * apply lookup_lt_Some in Hw. lia.
      * by apply lookup_app_l_Some.
      * by apply list_lookup_middle.
    + specialize (IH (before_ ++ [v]) (acc ++ [n])).
      destruct (add_networks (acc ++ [n]) values) as [nets|e].
      * destruct IH as (parsed & -> & Hp & Hnd'); [by apply Forall2_app; [|repeat constructor]| |].
        { rewrite fmap_app. apply NoDup_app. split_and!; [done| |apply NoDup_singleton].
          intros x Hx ->%list_elem_of_singleton. done. }
        exists (n :: parsed). rewrite <- app_assoc in *. split_and!; [done|by constructor|done].
      * rewrite <- app_assoc in IH. apply IH; [by apply Forall2_app; [|repeat constructor]|].
        rewrite fmap_app. apply NoDup_app. split_and!; [done| |apply NoDup_singleton].
        intros x Hx ->%list_elem_of_singleton. done.
  - split; [eauto|]. left. exists v. split; [done|]. intros n. unfold parses. congruence.
  - split; [eauto|]. left. exists v. split; [done|]. intros n. unfold parses. congruence.
Qed.

Lemma add_networks_canonical acc nets :
  Forall network_wf nets -> NoDup (with_prefixlen <$> (acc ++ nets)) ->
  add_networks acc (with_prefixlen <$> nets) = Ok (acc ++ nets).
Proof.
  intros Hwf. revert acc. induction Hwf as [|n nets Hn _ IH]; intros acc Hnd; cbn.
  { by rewrite app_nil_r. }
  unfold add_network. rewrite (parses_canonical n Hn). rewrite bool_decide_false.
  - cbn. specialize (IH (acc ++ [n])). rewrite <- app_assoc in IH. by apply IH.
  - rewrite fmap_app, fmap_cons in Hnd. apply NoDup_app in Hnd as (_ & Hd & _). intros Hin.
    apply (Hd _ Hin). left.
Qed.

#[export] Instance network_le_total : Total network_le.
Proof. intros m n. unfold network_le. lia. Qed.
#[export] Instance network_le_trans : Transitive network_le.
Proof. intros l m n. unfold network_le. lia. Qed.
#[export] Instance network_le_antisymm : AntiSymm (=) network_le.
Proof.
  intros [a p] [b q] H1 H2. unfold network_le in *. cbn in *. assert (a = b) as -> by lia. f_equal. lia.
Qed.

(** ** Rows *)

Definition networks_below (d : Db) : Prop := ids_below (cluster_internal_networks d) (next_id d T_networks).

(** What adding rows does to the table. *)
Lemma add_network_rows_spec c cidrs d :
  networks_below d ->
  let d' := foldl (add_network_row c) d cidrs in
  networks_below d' /\
  (forall i n, cluster_internal_networks d !! i = Some n -> cluster_internal_networks d' !! i = Some n) /\
  (forall i n, cluster_internal_networks d' !! i = Some n ->
     cluster_internal_networks d !! i = Some n \/ (network_cluster_id n = c /\ network_cidr n ∈ cidrs)) /\
  (forall cidr, cidr ∈ cidrs -> exists i, cluster_internal_networks d' !! i = Some (mkNetwork c cidr)) /\
  clusters d' = clusters d /\ devices d' = devices d.
Proof.
  revert d. induction cidrs as [|cidr cidrs IH]; intros d Hb; cbn [foldl].
  { split_and!; try done; [by intros ? ? ?; left|]. intros ? []%elem_of_nil. }
  set (e := add_network_row c d cidr).
  assert (Hnew : cluster_internal_networks e = <[next_id d T_networks := mkNetwork c cidr]> (cluster_internal_networks d)) by done.
  assert (Hfresh : cluster_internal_networks d !! next_id d T_networks = None) by by apply ids_below_fresh.
  assert (He : networks_below e) by (by apply ids_below_insert).
  destruct (IH e He) as (Hb' & Hold & Hin & Hall & Hc & Hd). split_and!; [done| | | |by rewrite Hc|by rewrite Hd].
  - intros i n Hi. apply Hold. rewrite Hnew, lookup_insert_ne; [done|congruence].
  - intros i n Hi. apply Hin in Hi as [Hi|[? ?]]; [|right; split; [done|by right]].
    rewrite Hnew in Hi. apply lookup_insert_Some in Hi as [[<- <-]|[_ Hi]]; [|by left].
    right. split; [done|left].
  - intros x [->|Hx]%elem_of_cons; [|by apply Hall].
    exists (next_id d T_networks). apply Hold. rewrite Hnew. apply lookup_insert_eq.
Qed.

Lemma elem_of_networks_of c d cidr :
  cidr ∈ networks_of c d <->
  exists i n, cluster_internal_networks d !! i = Some n /\ network_cluster_id n = c /\ network_cidr n = cidr.
Proof.
  unfold networks_of. rewrite elem_of_map_to_set. setoid_rewrite lookup_where. setoid_rewrite Z.eqb_eq. naive_solver.
Qed.

Lemma replace_internal_networks_spec c cidrs d normalized :
  networks_below d -> normalize_internal_networks cidrs = Ok normalized ->
  exists d', replace_internal_networks c cidrs d = Ok ((), d') /\
    networks_of c d' = list_to_set normalized /\
    (forall i n, network_cluster_id n ≠ c ->
       cluster_internal_networks d' !! i = Some n <-> cluster_internal_networks d !! i = Some n) /\
    (forall i n, cluster_internal_networks d !! i = Some n -> network_cluster_id n = c ->
       network_cidr n ∈ normalized -> cluster_internal_networks d' !! i = Some n) /\
    clusters d' = clusters d /\ devices d' = devices d.
Proof.
  intros Hb Hn. unfold replace_internal_networks. rewrite Hn.
  set (e := d <| cluster_internal_networks := _ |>).
  assert (Hlk : forall i n, cluster_internal_networks e !! i = Some n <->
    cluster_internal_networks d !! i = Some n /\ (network_cluster_id n ≠ c \/ network_cidr n ∈ normalized)).
  { intros i n. unfold e. cbn. rewrite lookup_where, orb_true_iff, negb_true_iff, bool_decide_eq_true, Z.eqb_neq. done. }
  assert (He : networks_below e).
  { intros i n Hi. apply Hlk in Hi as [Hi _]. exact (Hb i n Hi). }
  destruct (add_network_rows_spec c (filter (fun x => x ∉ networks_of c e) normalized) e He)
    as (_ & Hold & Hin & Hall & Hc & Hd).
  set (d' := foldl _ _ _) in *. eexists. split; [reflexivity|]. split_and!; [| | |by rewrite Hc|by rewrite Hd].
  - apply set_eq. intros cidr. rewrite elem_of_list_to_set, elem_of_networks_of. split.
    + intros (i & n & Hi & Hcl & <-). apply Hin in Hi as [Hi|[_ Hi]].
      * apply Hlk in Hi as [_ [?|?]]; done.
      * by apply list_elem_of_filter in Hi as [_ Hi].
    + intros Hcidr. destruct (decide (cidr ∈ networks_of c e)) as [Hex|Hnew].
      * apply elem_of_networks_of in Hex as (i & n & Hi & ? & ?). exists i, n. split_and!; auto.
      * destruct (Hall cidr) as [i Hi]; [by apply list_elem_of_filter|]. by exists i, (mkNetwork c cidr).
  - intros i n Hne. split.
    + intros [Hi|[? _]]%Hin; [|done]. by apply Hlk in Hi as [? _].
    + intros Hi. apply Hold, Hlk. auto.
  - intros i n Hi Hcl Hcidr. apply Hold, Hlk. auto.
Qed.

(** ** The guarantees *)

Lemma merge_sort_sorted nets : StronglySorted network_le (merge_sort network_le nets).
Proof. apply Sorted_StronglySorted; [apply _|]. apply (Sorted_merge_sort network_le). Qed.

Lemma merge_sort_idempotent nets : merge_sort network_le (merge_sort network_le nets) = merge_sort network_le nets.
Proof.
  apply (StronglySorted_unique network_le); [apply merge_sort_sorted..|]. apply merge_sort_Permutation.
Qed.

Lemma normalize_canonical_networks nets :
  Forall network_wf nets -> NoDup (with_prefixlen <$> nets) -> Z.of_nat (length nets) <= MAX_INTERNAL_NETWORKS ->
  normalize_internal_networks (with_prefixlen <$> nets) = Ok (with_prefixlen <$> merge_sort network_le nets).
Proof.
  intros Hwf Hnd Hlen. unfold normalize_internal_networks. rewrite cleaned_canonical, length_fmap.
  destruct (Z.ltb_spec MAX_INTERNAL_NETWORKS (Z.of_nat (length nets))); [lia|].
  by rewrite (add_networks_canonical []).
Qed.

(** C32. The internal networks of a cluster are kept in canonical form: an accepted list
    becomes the networks its values denote, host bits cleared, each once, at most 100,
    in the order of address and prefix length, and normalizing the result again
    changes nothing.  A list is refused, with a [ValueError], exactly when it has more
    than 100 values, a value that is no IPv4 network, or two values of one network. *)
Theorem internal_networks_canonical values :
  match normalize_internal_networks values with
  | Ok cidrs => exists nets parsed, cidrs = with_prefixlen <$> nets /\
      Forall2 parses (cleaned values) parsed /\ nets ≡ₚ parsed /\
      StronglySorted network_le nets /\ NoDup nets /\ Forall network_wf nets /\
      Z.of_nat (length nets) <= MAX_INTERNAL_NETWORKS /\
      normalize_internal_networks cidrs = Ok cidrs
  | Raise e => (exists m, e = ValueError m) /\
      (MAX_INTERNAL_NETWORKS < Z.of_nat (length (cleaned values)) \/ refused (cleaned values))
  end.
Proof.
  unfold normalize_internal_networks at 1.
  destruct (Z.ltb_spec MAX_INTERNAL_NETWORKS (Z.of_nat (length (cleaned values)))) as [Hlt|Hle].
  { split; [eauto|by left]. }
  pose proof (add_networks_spec [] [] (cleaned values) ltac:(constructor) ltac:(constructor)) as Hspec.
  destruct (add_networks [] (cleaned values)) as [nets|e]; cbn [mbind result_bind].
  2:{ destruct Hspec as [? ?]. split; [done|by right]. }
  destruct Hspec as (parsed & -> & Hp & Hnd). cbn [app] in *.
  pose proof (merge_sort_Permutation network_le parsed) as Hperm.
  assert (Hwf : Forall network_wf (merge_sort network_le parsed)).
  { rewrite Hperm. apply Forall_forall. intros n Hn. apply list_elem_of_lookup in Hn as [i Hn].
    destruct (Forall2_lookup_r _ _ _ _ _ Hp Hn) as (v & _ & Hv). by eapply parses_wf. }
  assert (Hlen : Z.of_nat (length (merge_sort network_le parsed)) <= MAX_INTERNAL_NETWORKS).
  { rewrite Hperm, <- (Forall2_length _ _ _ Hp). lia. }
  exists (merge_sort network_le parsed), parsed.
  split_and!; [done|done|done|apply merge_sort_sorted| |done|done|].
  - rewrite Hperm. by eapply NoDup_fmap_1.
  - rewrite normalize_canonical_networks; [by rewrite merge_sort_idempotent|done| |done]. by rewrite Hperm.
Qed.

(** Replacing the internal networks of a cluster leaves it with exactly the
    normalized list, keeps the rows of the networks that stay and every row of the
    other clusters, and changes nothing when the list is refused. *)
Theorem replace_networks_exact c cidrs d :
  networks_below d ->
  match normalize_internal_networks cidrs with
  | Raise e => commit (replace_internal_networks c cidrs) d = (Raise e, d)
  | Ok normalized => exists d', commit (replace_internal_networks c cidrs) d = (Ok (), d') /\
      networks_of c d' = list_to_set normalized /\
      (forall i n, network_cluster_id n ≠ c ->
         cluster_internal_networks d' !! i = Some n <-> cluster_internal_networks d !! i = Some n) /\
      (forall i n, cluster_internal_networks d !! i = Some n -> network_cluster_id n = c ->
         network_cidr n ∈ normalized -> cluster_internal_networks d' !! i = Some n)
  end.
Proof.
  intros Hb. destruct (normalize_internal_networks cidrs) as [normalized|e] eqn:E.
  - destruct (replace_internal_networks_spec c cidrs d normalized Hb E) as (d' & H & ? & ? & ? & _).
    exists d'. unfold commit. by rewrite H.
  - unfold commit, replace_internal_networks. by rewrite E.
Qed.

Section resolving.
Context `{UnicodeCase, PgLower}.

Lemma find_cluster_Some name d normalized i :
  normalize_cluster_name name = Ok normalized -> find_cluster_by_name name d = Ok (Some i) ->
  exists c, clusters d !! i = Some c /\ pg_lower (cluster_name c) = lower normalized.
Proof.
  intros Hn. unfold find_cluster_by_name. rewrite Hn. cbn [mbind result_bind]. intros [= Hi].
  assert (Hin : i ∈ sorted_ids (select_ids (has_name normalized) (clusters d))).
  { destruct (sorted_ids _); [done|]. injection Hi as ->. left. }
  rewrite elem_of_sorted_ids, elem_of_select_ids in Hin. destruct Hin as (c & ? & Hc).
  exists c. split; [done|]. by apply bool_decide_eq_true in Hc.
Qed.

Lemma find_cluster_None name d normalized :
  normalize_cluster_name name = Ok normalized -> find_cluster_by_name name d = Ok None ->
  forall i c, clusters d !! i = Some c -> pg_lower (cluster_name c) ≠ lower normalized.
Proof.
  intros Hn. unfold find_cluster_by_name. rewrite Hn. cbn [mbind result_bind]. intros [= Hi] i c Hc Heq.
  assert (Hin : i ∈ sorted_ids (select_ids (has_name normalized) (clusters d))).
  { rewrite elem_of_sorted_ids, elem_of_select_ids. exists c. split; [done|]. by apply bool_decide_eq_true. }
  destruct (sorted_ids _); [by apply elem_of_nil in Hin|done].
Qed.

Lemma strip_idempotent_name name normalized :
  normalize_cluster_name name = Ok normalized -> normalized = strip name.
Proof. unfold normalize_cluster_name. destruct (strip name); [done|]. destruct (_ <? _); congruence. Qed.

(** The only cluster of that name after it was created. *)
Lemma find_created name d d' i c :
  find_cluster_by_name name d = Ok None ->
  clusters d' = <[i := c]> (clusters d) -> normalize_cluster_name name = Ok (cluster_name c) ->
  pg_lower (cluster_name c) = lower (cluster_name c) -> find_cluster_by_name name d' = Ok (Some i).
Proof.
  intros Hf Hcl Hn Hlow. pose proof (find_cluster_None name d _ Hn Hf) as Hnone.
  unfold find_cluster_by_name. rewrite Hn. cbn [mbind result_bind]. f_equal.
  assert (E : select_ids (has_name (cluster_name c)) (clusters d') = {[i]}).
  { apply set_eq. intros j. rewrite elem_of_singleton, elem_of_select_ids, Hcl. split.
    - intros (x & [[<- <-]|[Hne Hx]]%lookup_insert_Some & Hname); [done|].
      apply bool_decide_eq_true in Hname. by destruct (Hnone j x Hx).
    - intros ->. exists c. rewrite lookup_insert_eq. split; [done|]. by apply bool_decide_eq_true. }
  rewrite E. unfold sorted_ids. by rewrite elements_singleton.
Qed.
End resolving.

Section once.
Context `{UnicodeCase, PgLower}.

Lemma normalize_normalized name normalized :
  normalize_cluster_name name = Ok normalized -> normalize_cluster_name normalized = Ok normalized.
Proof.
  intros Hn. pose proof (strip_idempotent_name _ _ Hn) as ->. rewrite <- Hn. unfold normalize_cluster_name.
  by rewrite strip_idempotent.
Qed.

Lemma create_cluster_spec name interval enabled wall d i d' :
  create_cluster name None None interval enabled wall d = Ok (i, d') ->
  exists normalized, normalize_cluster_name name = Ok normalized /\
    find_cluster_by_name normalized d = Ok None /\
    clusters d' = <[i := new_cluster normalized None interval enabled wall]> (clusters d).
Proof.
  unfold create_cluster. destruct (normalize_cluster_name name) as [normalized|e] eqn:En; [|done].
  destruct (find_cluster_by_name normalized d) as [[j|]|e] eqn:Ef; [done| |done].
  case_bool_decide; [done|]. cbn [take_id]. unfold tx_bind, replace_internal_networks. cbn [default].
  set (e := (d <| next_id := _ |>) <| clusters := _ |>). cbn. intros [= <- <-].
  exists normalized. by split_and!.
Qed.
Lemma find_normalized name normalized d :
  normalize_cluster_name name = Ok normalized -> find_cluster_by_name name d = find_cluster_by_name normalized d.
Proof. intros Hn. unfold find_cluster_by_name. by rewrite Hn, (normalize_normalized _ _ Hn). Qed.

(** A new cluster name is resolved to one cluster: resolving it returns a cluster
    whose name equals the stripped name up to letter case, created with exactly that
    name when there was none, and resolving it again, at any time, creates nothing and
    returns the same cluster.  It relies on the database lower-casing this name as Python
    does. *)
Theorem cluster_resolved_once name wall wall' d i d' :
  pg_lower (strip name) = lower (strip name) ->
  commit (resolve_cluster None (Some name) wall) d = (Ok (Some i), d') ->
  (exists c, clusters d' !! i = Some c /\ pg_lower (cluster_name c) = lower (strip name) /\
     (d' = d \/ (cluster_name c = strip name /\ clusters d' = <[i := c]> (clusters d)))) /\
  commit (resolve_cluster None (Some name) wall') d' = (Ok (Some i), d').
Proof.
  intros Hlow Hres. unfold commit, resolve_cluster in *.
  destruct (strip name) as [|ch rest] eqn:Es; [done|]. rewrite <- Es in *. clear Es ch rest.
  destruct (find_cluster_by_name name d) as [[j|]|e] eqn:Ef; [| |done].
  - injection Hres as -> <-. rewrite Ef. split; [|done].
    destruct (normalize_cluster_name name) as [normalized|] eqn:En; [|unfold find_cluster_by_name in Ef; by rewrite En in Ef].
    destruct (find_cluster_Some name d _ i En Ef) as (c & Hc & Hname). rewrite (strip_idempotent_name _ _ En) in Hname.
    exists c. split_and!; [done|done|by left].
  - unfold tx_bind in Hres. destruct (create_cluster name None None 5 true wall d) as [[k e]|] eqn:Ecr; [|done].
    injection Hres as -> <-. destruct (create_cluster_spec _ _ _ _ _ _ _ Ecr) as (normalized & En & _ & Hcl).
    pose proof (strip_idempotent_name _ _ En) as Enorm. rewrite Enorm in En, Hcl.
    assert (Hfind : find_cluster_by_name name e = Ok (Some i)).
    { rewrite (find_normalized _ _ _ En). rewrite (find_normalized _ _ _ En) in Ef.
      apply (find_created _ d _ _ _ Ef Hcl); [|exact Hlow]. by apply (normalize_normalized name). }
    rewrite Hfind. split; [|done]. eexists. rewrite Hcl, lookup_insert_eq. split_and!; [done|done|by right].
Qed.
End once.

(** ** Examples *)

Definition cluster_db : Db :=
  empty_db <| clusters := {[ 1 := mkCluster (u "Web") None None 5 true 0 0 ]} |>
           <| cluster_internal_networks := {[ 1 := mkNetwork 1 (u "10.0.0.0/8") ]} |>
           <| next_id := fun _ => 2 |>.

Lemma replace_networks_exact_witness : exists d',
  commit (replace_internal_networks 1 [u "192.168.1.7/24"; u " 10.1.2.3/255.0.0.0 "]) cluster_db = (Ok (), d') /\
  networks_of 1 d' = {[u "10.0.0.0/8"; u "192.168.1.0/24"]}.
Proof.
  assert (Hb : networks_below cluster_db) by (by apply (bool_decide_unpack _); vm_compute).
  pose proof (replace_networks_exact 1 [u "192.168.1.7/24"; u " 10.1.2.3/255.0.0.0 "] cluster_db Hb) as H.
  assert (E : normalize_internal_networks [u "192.168.1.7/24"; u " 10.1.2.3/255.0.0.0 "] =
    Ok [u "10.0.0.0/8"; u "192.168.1.0/24"]) by (vm_compute; reflexivity).
  rewrite E in H. destruct H as (d' & Hd & Hn & _). exists d'. split; [exact Hd|]. rewrite Hn. vm_compute. reflexivity.
Defined.

Lemma cluster_resolved_once_witness : exists d',
  commit (resolve_cluster (H := ascii_only) (H0 := @lower ascii_only) None (Some (u " DB ")) 7) cluster_db = (Ok (Some 2), d') /\
  commit (resolve_cluster (H := ascii_only) (H0 := @lower ascii_only) None (Some (u " DB ")) 9) d' = (Ok (Some 2), d').
Proof.
  destruct (commit (resolve_cluster (H := ascii_only) (H0 := @lower ascii_only) None (Some (u " DB ")) 7) cluster_db)
    as [r d'] eqn:E. exists d'.
  assert (Er : r = Ok (Some 2)).
  { change r with (r, d').1. rewrite <- E. vm_compute. reflexivity. }
  rewrite Er in E |- *. split; [reflexivity|].
  refine (proj2 (cluster_resolved_once (H := ascii_only) (H0 := @lower ascii_only) (u " DB ") 7 9 cluster_db 2 d' _ E)).
  vm_compute. reflexivity.
Defined.
