(* ===== verification/ScanBatchFailures.v ===== *)
(** * Failures of a scan batch (src/app/services/scan_batch_failures.py)

    The failed and cancelled items of a batch, searched, ordered and paged, and the
    devices a retry takes. *)

From S2P Require Import Prelude PyText Models Exceptions Clusters.

(** ** PostgreSQL pattern matching

    [LIKE]: a percent sign stands for any text, an underscore for one character, and
    a backslash takes the next character literally.  [ILIKE] compares lower-cased
    texts. *)

Fixpoint like (pattern s : text) : bool :=
  match pattern with
  | [] => match s with [] => true | _ => false end
  | p :: pattern' =>
      if (p =? 37)%N then
        (fix any s := like pattern' s || match s with [] => false | _ :: s' => any s' end) s
      else if (p =? 95)%N then match s with [] => false | _ :: s' => like pattern' s' end
      else if (p =? 92)%N then
        match pattern', s with
        | q :: pattern'', c :: s' => (q =? c)%N && like pattern'' s'
        | _, _ => false
        end
      else match s with c :: s' => (p =? c)%N && like pattern' s' | [] => false end
  end.

Definition ilike `{PgLower} (pattern s : text) : bool := like (pg_lower pattern) (pg_lower s).

(** ** The query *)

Definition failed_status (st : ScanTaskStatus) : bool :=
  bool_decide (st ∈ [TASK_FAILED; TASK_CANCELLED]).

Record BatchFailureRow := mkFailureRow {
  failure_device_id : Z;
  failure_device_name : text;
  failure_host : text;
  failure_cluster_name : option text;
  failure_status : ScanTaskStatus;
  failure_error_message : text;
  failure_started_at : option Z;
  failure_finished_at : option Z
}.

Record BatchFailurePage := mkFailurePage {
  failures_batch_id : Z;
  failures_batch_status : ScanBatchStatus;
  failures_total : Z;
  failures_page : Z;
  failures_page_size : Z;
  failures_pages : Z;
  failures_items : list BatchFailureRow
}.

(** One row of the join: item, task, device and, when the device has one, cluster. *)
Record joined := mkJoined {
  j_item : ScanBatchItem;
  j_task : ScanTask;
  j_device : Device;
  j_cluster : option Cluster
}.

Definition join_item (d : Db) (item : ScanBatchItem) : option joined :=
  match scan_tasks d !! item_task_id item, devices d !! item_device_id item with
  | Some task, Some device =>
      Some (mkJoined item task device
              (match device_cluster_id device with Some c => clusters d !! c | None => None end))
  | _, _ => None
  end.

Section failures.
Context `{PgLower}.

(** [NULL ILIKE pattern] is not true. *)
Definition ilike_option (pattern : text) (s : option text) : bool :=
  match s with Some s => ilike pattern s | None => false end.

Definition _failure_filters (batch_id : Z) (query : text) (j : joined) : bool :=
  (item_batch_id (j_item j) =? batch_id) && failed_status (item_status (j_item j)) &&
  match strip query with
  | [] => true
  | normalized =>
      let pattern := 37%N :: normalized ++ [37%N] in
      ilike pattern (device_name (j_device j)) || ilike pattern (device_host (j_device j)) ||
      ilike_option pattern (cluster_name <$> j_cluster j) ||
      ilike_option pattern (task_error_message (j_task j))
  end.

Definition selected (d : Db) (batch_id : Z) (query : text) (_ : Z) (item : ScanBatchItem) : bool :=
  match join_item d item with Some j => _failure_filters batch_id query j | None => false end.

(** [ORDER BY task.finished_at DESC NULLS LAST, item.id DESC] *)
Definition finished_of (d : Db) (i : Z) : option Z :=
  match scan_batch_items d !! i with
  | Some item => match scan_tasks d !! item_task_id item with Some t => task_finished_at t | None => None end
  | None => None
  end.

Definition failure_before (d : Db) (i j : Z) : Prop :=
  match finished_of d i, finished_of d j with
  | Some s, Some t => t < s \/ (s = t /\ j <= i)
  | Some _, None => True
  | None, Some _ => False
  | None, None => j <= i
  end.

#[export] Instance failure_before_dec d : RelDecision (failure_before d).
Proof.
  unfold RelDecision, failure_before. intros i j. destruct (finished_of d i), (finished_of d j); apply _.
Defined.

Definition failure_ids (d : Db) (batch_id : Z) (query : text) : list Z :=
  merge_sort (failure_before d) (elements (select_ids (selected d batch_id query) (scan_batch_items d))).

Definition failure_row (j : joined) : BatchFailureRow :=
  mkFailureRow (item_device_id (j_item j)) (device_name (j_device j)) (device_host (j_device j))
    (cluster_name <$> j_cluster j) (item_status (j_item j))
    (match task_error_message (j_task j) with
     | Some (c :: m) => c :: m
     | _ => if bool_decide (item_status (j_item j) = TASK_CANCELLED)
            then u "采集任务已取消" else u "采集任务发生内部错误"
     end)
    (task_started_at (j_task j)) (task_finished_at (j_task j)).

Definition row_of (d : Db) (i : Z) : option BatchFailureRow :=
  item ← scan_batch_items d !! i; failure_row <$> join_item d item.

Definition list_batch_failures (d : Db) (batch_id page page_size : Z) (query : text) :
    result exn BatchFailurePage :=
  match scan_batches d !! batch_id with
  | None => Raise (LookupError (u "扫描批次不存在"))
  | Some batch =>
      let total := count_where (selected d batch_id query) (scan_batch_items d) in
      let rows := offset_limit ((page - 1) * page_size) page_size (failure_ids d batch_id query) in
      Ok (mkFailurePage batch_id (batch_status batch) total page page_size
            (page_count total page_size) (omap (row_of d) rows))
  end.
End failures.

Definition failed_device_ids (d : Db) (batch_id : Z) : list Z :=
  sorted_ids (map_to_set (fun _ item => item_device_id item)
    (where_ (fun _ item => (item_batch_id item =? batch_id) && failed_status (item_status item))
       (scan_batch_items d))).

(** ** Lemmas *)

Section laws.
Context `{PgLower} (d : Db).

Lemma failure_before_total i j : failure_before d i j \/ failure_before d j i.
Proof. unfold failure_before. destruct (finished_of d i), (finished_of d j); lia || auto. Qed.

#[export] Instance failure_before_trans : Transitive (failure_before d).
Proof.
  intros i j k. unfold failure_before.
  destruct (finished_of d i), (finished_of d j), (finished_of d k); try done; lia.
Qed.

Lemma failure_ids_sorted b q : StronglySorted (failure_before d) (failure_ids d b q).
Proof.
  apply Sorted_StronglySorted; [apply _|]. apply Sorted_merge_sort. intros i j. apply failure_before_total.
Qed.

Lemma elem_of_failure_ids b q i :
  i ∈ failure_ids d b q <->
  exists item, scan_batch_items d !! i = Some item /\ selected d b q i item = true.
Proof.
  unfold failure_ids. rewrite (merge_sort_Permutation (failure_before d)), elem_of_elements.
  apply elem_of_select_ids.
Qed.

Lemma length_failure_ids b q :
  Z.of_nat (length (failure_ids d b q)) = count_where (selected d b q) (scan_batch_items d).
Proof. unfold failure_ids. by rewrite (merge_sort_Permutation (failure_before d)). Qed.

Lemma failure_ids_NoDup b q : NoDup (failure_ids d b q).
Proof. unfold failure_ids. rewrite (merge_sort_Permutation (failure_before d)). apply NoDup_elements. Qed.

Lemma failure_ids_rows b q i :
  i ∈ failure_ids d b q -> exists item j, scan_batch_items d !! i = Some item /\ join_item d item = Some j /\
    row_of d i = Some (failure_row j) /\ j_item j = item /\ failed_status (item_status item) = true.
Proof.
  rewrite elem_of_failure_ids. intros (item & Hi & Hs). unfold selected in Hs.
  destruct (join_item d item) as [j|] eqn:Ej; [|done]. exists item, j. unfold row_of. rewrite Hi. cbn. rewrite Ej.
  assert (Eitem : j_item j = item).
  { unfold join_item in Ej. destruct (scan_tasks d !! item_task_id item); [|done].
    destruct (devices d !! item_device_id item); [|done]. by injection Ej as <-. }
  split_and!; try done. unfold _failure_filters in Hs. rewrite !andb_true_iff, Eitem in Hs. apply Hs.
Qed.
End laws.

(** The items of page [k], as a client sees them. *)
Definition failure_items `{PgLower} (d : Db) (batch_id page_size : Z) (query : text) (k : Z) : list BatchFailureRow :=
  match list_batch_failures d batch_id k page_size query with Ok p => failures_items p | Raise _ => [] end.

Definition items_linked (d : Db) : Prop :=
  map_Forall (fun _ item => is_Some (scan_tasks d !! item_task_id item) /\ is_Some (devices d !! item_device_id item))
    (scan_batch_items d).

(** The failures of a batch are paged without loss: the pages, one after the other,
    show every failed or cancelled item that matches the query exactly once, the
    latest finished first, each with a message, and [total] and [pages] count them.
    A retry takes exactly the devices shown without a query, each once, in order. *)
Theorem batch_failures_paged `{PgLower} d batch_id batch page_size query :
  scan_batches d !! batch_id = Some batch -> 0 < page_size -> items_linked d ->
  let ids := failure_ids d batch_id query in
  let n := Z.of_nat (length ids) in
  (forall k, exists p, list_batch_failures d batch_id k page_size query = Ok p /\
     failures_total p = n /\ failures_pages p = page_count n page_size) /\
  concat (failure_items d batch_id page_size query <$> seqZ 1 (page_count n page_size)) = omap (row_of d) ids /\
  length (omap (row_of d) ids) = length ids /\ StronglySorted (failure_before d) ids /\ NoDup ids /\
  Forall (fun r => failure_error_message r ≠ []) (omap (row_of d) ids) /\
  (forall x, x ∈ failed_device_ids d batch_id <->
     exists r, r ∈ omap (row_of d) (failure_ids d batch_id []) /\ failure_device_id r = x) /\
  StronglySorted Z.lt (failed_device_ids d batch_id).
Proof.
  intros Hb Hsize Hlinked ids n.
  assert (Hpage : forall k, list_batch_failures d batch_id k page_size query =
    Ok (mkFailurePage batch_id (batch_status batch) n k page_size (page_count n page_size)
      (omap (row_of d) (offset_limit ((k - 1) * page_size) page_size ids)))).
  { intros k. unfold list_batch_failures. rewrite Hb. unfold n, ids. by rewrite length_failure_ids. }
  split_and!; [intros k; rewrite Hpage; eauto| | |apply failure_ids_sorted|apply failure_ids_NoDup| | |].
  - rewrite <- (concat_pages page_size ids Hsize) at 1. fold n. rewrite omap_concat, <- list_fmap_compose. f_equal.
    apply list_fmap_ext. intros i k _. cbn. unfold failure_items. by rewrite Hpage.
  - apply omap_all. intros i Hi. destruct (failure_ids_rows _ _ _ _ Hi) as (item & j & _ & _ & -> & _). eauto.
  - apply Forall_forall. intros r (i & Hi & Hr)%list_elem_of_omap.
    destruct (failure_ids_rows _ _ _ _ Hi) as (item & j & _ & _ & Hrow & _). rewrite Hrow in Hr. injection Hr as <-.
    unfold failure_row. cbn [failure_error_message]. destruct (task_error_message (j_task j)) as [[|]|]; [|done|].
    + by case_bool_decide.
    + by case_bool_decide.
  - intros x. unfold failed_device_ids. rewrite elem_of_sorted_ids, elem_of_map_to_set.
    setoid_rewrite lookup_where. setoid_rewrite list_elem_of_omap. split.
    + intros (i & item & [Hi Hf] & <-). destruct (Hlinked i item Hi) as [[task Ht] [device Hd]].
      rewrite andb_true_iff in Hf. destruct Hf as [Hbatch Hst].
      exists (failure_row (mkJoined item task device (match device_cluster_id device with Some c => clusters d !! c | None => None end))).
      split; [|done]. exists i. rewrite elem_of_failure_ids. split.
      * exists item. split; [done|]. unfold selected, join_item. rewrite Ht, Hd. unfold _failure_filters. cbn [j_item].
        by rewrite Hbatch, Hst.
      * unfold row_of. rewrite Hi. cbn. unfold join_item. by rewrite Ht, Hd.
    + intros (r & (i & Hi & Hr) & <-). destruct (failure_ids_rows _ _ _ _ Hi) as (item & j & Hitem & Hj & Hrow & Eitem & Hst).
      rewrite Hrow in Hr. injection Hr as <-. exists i, item. unfold failure_row. cbn [failure_device_id]. rewrite Eitem.
      split; [|done]. split; [done|]. apply elem_of_failure_ids in Hi as (item' & Hitem' & Hsel).
      assert (item' = item) as -> by congruence. unfold selected in Hsel. rewrite Hj in Hsel.
      unfold _failure_filters in Hsel. rewrite !andb_true_iff, Eitem in Hsel. rewrite andb_true_iff. tauto.
  - apply sorted_ids_StronglySorted.
Qed.

(** ** Examples *)

Definition failed_task (message : option text) (finished : Z) : ScanTask :=
  mkScanTask 1 TRIGGER_BATCH 0 TASK_FAILED None message 0 None (Some finished) None None None 1.

Definition failure_db : Db :=
  empty_db
    <| devices := list_to_map ((fun i => (i, mkDevice (u "web-1") (u "10.0.0.1") LINUX 22 (u "root") (u "x") None 5 true true None None None 0 0)) <$> [1; 2]) |>
    <| scan_batches := {[ 1 := mkScanBatch BATCH_ALL BATCH_COMPLETED None None 2 0 0 0 2 0 None ]} |>
    <| scan_tasks := list_to_map [(1, failed_task None 5); (2, failed_task (Some (u "timeout")) 9)] |>
    <| scan_batch_items := list_to_map [(1, mkScanBatchItem 1 1 1 TASK_FAILED); (2, mkScanBatchItem 1 2 2 TASK_FAILED)] |>.

Lemma batch_failures_paged_witness :
  failed_device_ids failure_db 1 = [1; 2] /\
  concat (failure_items (H := @lower ascii_only) failure_db 1 1 [] <$> seqZ 1 2) =
    omap (row_of failure_db) [2; 1].
Proof.
  assert (Hlinked : items_linked failure_db).
  { apply map_Forall_to_list. vm_compute map_to_list.
    repeat (constructor; [split; eexists; vm_compute; reflexivity|]). constructor. }
  destruct (batch_failures_paged (H := @lower ascii_only) failure_db 1
    (mkScanBatch BATCH_ALL BATCH_COMPLETED None None 2 0 0 0 2 0 None) 1 []) as (_ & Hpages & _);
    [vm_compute; reflexivity|lia|exact Hlinked|].
  assert (E : failure_ids (H := @lower ascii_only) failure_db 1 [] = [2; 1]) by (vm_compute; reflexivity).
  rewrite E in Hpages. split; [vm_compute; reflexivity|exact Hpages].
Defined.

(** The search does not escape the wildcards of [ILIKE], as the device search does: an
    underscore finds a device without one in any of its texts. *)
Theorem failure_query_wildcards :
  let lower := @lower ascii_only in
  length (failure_ids (H := lower) failure_db 1 (u "_")) = 2%nat /\
  Forall (fun d => contains (u "_") (device_name d) = false /\ contains (u "_") (device_host d) = false)
    (snd <$> map_to_list (devices failure_db)).
Proof. vm_compute. split; [reflexivity|]. repeat constructor. Qed.
