(* ===== verification/ImportFiles.v ===== *)
(** * Import workbooks (src/app/services/imports.py: the file side)

    What an uploaded workbook means: the checks on the file, the rows of its sheet,
    the device a row describes, and the workbooks the program writes itself (the
    template and the report of a batch).  A workbook is the list of its sheets, a
    sheet the list of its rows of cell values; the layout of the cells (fonts, widths,
    data validation) is not part of it.  Reading the bytes of a file is the [openpyxl]
    library, the parameter [load_workbook]. *)

From S2P Require Import Prelude PyText Models Exceptions.

(** ** Cell values

    [CellOther] is any other value of a cell (a float, a date, a time): what [str] shows
    of it and what [int] makes of it, a number, a [TypeError] or [ValueError], or the
    [OverflowError] of an infinite float. *)

Inductive IntOf := IsInt (z : Z) | NoInt | IntOverflow.

#[export] Instance IntOf_eq_dec : EqDecision IntOf.
Proof. solve_decision. Defined.

Inductive Cell :=
| CellNone
| CellText (s : text)
| CellInt (z : Z)
| CellBool (b : bool)
| CellOther (shown : text) (as_int : IntOf).

#[export] Instance Cell_eq_dec : EqDecision Cell.
Proof. solve_decision. Defined.

Abbreviation Row := (list Cell) (only parsing).
Abbreviation Workbook := (list (text * list (list Cell))) (only parsing).

(** [str(value)] *)
Definition cell_str (value : Cell) : text :=
  match value with
  | CellNone => u "None"
  | CellText s => s
  | CellInt z => str_of_Z z
  | CellBool b => if b then u "True" else u "False"
  | CellOther shown _ => shown
  end.

(** [int(value)] *)
Definition cell_int `{UnicodeDigits} (value : Cell) : result exn Z :=
  match value with
  | CellNone => Raise (ValueError (u "int() argument must be a string or a number"))
  | CellText s => match py_int s with
                  | Some z => Ok z
                  | None => Raise (ValueError (u "invalid literal for int() with base 10"))
                  end
  | CellInt z => Ok z
  | CellBool b => Ok (if b then 1 else 0)
  | CellOther _ (IsInt z) => Ok z
  | CellOther _ NoInt => Raise (ValueError (u "cannot convert to integer"))
  | CellOther _ IntOverflow => Raise (OtherError (u "cannot convert float infinity to integer"))
  end.

(** [value in {None, ""}] *)
Definition blank (value : Cell) : bool :=
  match value with CellNone => true | CellText [] => true | _ => false end.

Definition MAX_IMPORT_BYTES : Z := 5 * 1024 * 1024.
Definition MAX_IMPORT_ROWS : Z := 1000.
Definition IMPORT_SHEET : text := u "设备导入".
Definition IMPORT_HEADERS : list text :=
  [u "设备名称"; u "主机地址"; u "操作系统"; u "端口"; u "用户名"; u "密码"; u "所属集群";
   u "采集间隔（分钟）"; u "启用定时采集"].

(** ** One row *)

Definition _text (value : Cell) (field : text) (required : bool) (max_length : Z) : result exn text :=
  let text := match value with CellNone => [] | _ => strip (cell_str value) end in
  if required && bool_decide (text = []) then Raise (ImportValidationError (field ++ u "不能为空"))
  else if max_length <? Z.of_nat (length text)
  then Raise (ImportValidationError (field ++ u "不能超过 " ++ str_of_Z max_length ++ u " 个字符"))
  else Ok text.

Definition _integer `{UnicodeDigits} (value : Cell) (field : text) (default_ minimum maximum : Z) : result exn Z :=
  if blank value then Ok default_ else
  match cell_int value with
  | Raise (ValueError _) => Raise (ImportValidationError (field ++ u "必须是整数"))
  | Raise e => Raise e
  | Ok parsed =>
      if (minimum <=? parsed) && (parsed <=? maximum) then Ok parsed
      else Raise (ImportValidationError
             (field ++ u "必须在 " ++ str_of_Z minimum ++ u " 到 " ++ str_of_Z maximum ++ u " 之间"))
  end.

Definition _enabled (value : Cell) : result exn bool :=
  if blank value then Ok true else
  let normalized := strip (cell_str value) in
  if bool_decide (normalized = u "是") then Ok true
  else if bool_decide (normalized = u "否") then Ok false
  else Raise (ImportValidationError (u "启用定时采集只能填写“是”或“否”")).

Record ParsedRow := mkParsedRow {
  parsed_name : text;
  parsed_host : text;
  parsed_os_type : OSType;
  parsed_port : Z;
  parsed_username : text;
  parsed_password : text;
  parsed_cluster_name : text;
  parsed_scan_interval_minutes : Z;
  parsed_scheduled_enabled : bool
}.

Definition default_port (os_type : OSType) : Z := match os_type with LINUX => 22 | WINDOWS => 5985 end.

(** [values[i]]; a row too short for its index raises [IndexError]. *)
Definition value_at (values : Row) (i : nat) : result exn Cell :=
  match values !! i with Some v => Ok v | None => Raise (LookupError (u "tuple index out of range")) end.

Definition os_type_of (os_value : text) : result exn OSType :=
  if bool_decide (os_value = u "linux") then Ok LINUX
  else if bool_decide (os_value = u "windows") then Ok WINDOWS
  else Raise (ImportValidationError (u "操作系统只能填写 linux 或 windows")).

Section files.
Context `{UnicodeCase, UnicodeDigits}.

Definition _parse_row (values : Row) : result exn ParsedRow :=
  v0 ← value_at values 0; name ← _text v0 (u "设备名称") true 100;
  v1 ← value_at values 1; host ← _text v1 (u "主机地址") true 255;
  v2 ← value_at values 2; os_text ← _text v2 (u "操作系统") true 255;
  os_type ← os_type_of (lower os_text);
  v5 ← value_at values 5; password ← _text v5 (u "密码") false 1024;
  v6 ← value_at values 6; cluster_name ← _text v6 (u "所属集群") false 100;
  if bool_decide (password = []) && bool_decide (cluster_name = [])
  then Raise (ImportValidationError (u "未填写密码时必须填写所属集群"))
  else
    v3 ← value_at values 3; port ← _integer v3 (u "端口") (default_port os_type) 1 65535;
    v4 ← value_at values 4; username ← _text v4 (u "用户名") true 255;
    v7 ← value_at values 7; interval ← _integer v7 (u "采集间隔（分钟）") 5 1 10080;
    v8 ← value_at values 8; enabled ← _enabled v8;
    Ok (mkParsedRow name host os_type port username password cluster_name interval enabled).

(** ** The file

    [Path(filename).name]: the last component, empty components and single dots left
    out; [Path(filename).suffix]: its part from the last dot, when that dot is neither
    its first nor its last character. *)

Definition path_name (filename : text) : text :=
  List.last (filter (fun c => c ≠ [] /\ c ≠ [46%N]) (split_on 47 filename)) [].

Definition path_suffix (filename : text) : text :=
  let name := path_name filename in
  let i := rfind 46 name in
  if (0 <? i) && (i <? Z.of_nat (length name) - 1) then drop (Z.to_nat i) name else [].

(** The rows with their numbers in the sheet, blank rows left out. *)
Definition data_rows (rows : list Row) : list (Z * Row) :=
  filter (fun r => existsb (fun v => negb (blank v)) r.2 = true)
    (imap (fun i values => (Z.of_nat i + 2, values)) rows).

Context (load_workbook : list N -> option Workbook).

Definition _load_rows (filename : text) (content : list N) : result exn (list (Z * Row)) :=
  if negb (bool_decide (lower (path_suffix filename) = u ".xlsx"))
  then Raise (ImportValidationError (u "只支持 .xlsx 文件"))
  else if MAX_IMPORT_BYTES <? Z.of_nat (length content)
  then Raise (ImportValidationError (u "文件不能超过 5 MB"))
  else
    match load_workbook content with
    | None => Raise (ImportValidationError (u "Excel 文件损坏或格式无效"))
    | Some workbook =>
        match list_find (fun sheet => sheet.1 = IMPORT_SHEET) workbook with
        | None => Raise (ImportValidationError (u "缺少“设备导入”工作表"))
        | Some (_, (_, rows)) =>
            if negb (bool_decide (default [] (head rows) = (CellText <$> IMPORT_HEADERS)))
            then Raise (ImportValidationError (u "Excel 表头与模板不一致"))
            else
              let result := data_rows (tail rows) in
              if MAX_IMPORT_ROWS <? Z.of_nat (length result)
              then Raise (ImportValidationError (u "数据行不能超过 1000 行"))
              else Ok result
        end
    end.

End files.

(** ** The workbooks the program writes *)

Definition template_sample : Row :=
  [CellText (u "示例-Web-01"); CellText (u "10.0.0.10"); CellText (u "linux"); CellInt 22;
   CellText (u "ops"); CellText (u "请替换为真实密码"); CellText (u "生产集群"); CellInt 5;
   CellText (u "是")].

Definition template_guide : list Row :=
  fmap (M:=list) (fun '(field, required, rule) => [CellText field; CellText required; CellText rule])
  [(u "字段", u "是否必填", u "填写规则");
   (u "设备名称", u "是", u "用于页面识别，最长 100 个字符");
   (u "主机地址", u "是", u "IP 地址或可解析的主机名");
   (u "操作系统", u "是", u "仅填写 linux 或 windows");
   (u "端口", u "否", u "Linux 默认 22，Windows 默认 5985");
   (u "用户名", u "是", u "远程登录用户名");
   (u "密码", u "条件必填", u "正常采集设备必须填写；仅用于集群标注的设备可留空，但必须填写所属集群。");
   (u "所属集群", u "否", u "不存在时自动创建，留空表示未分组");
   (u "采集间隔（分钟）", u "否", u "未分组设备直接采用；新集群以首条成功记录为准；已有集群继承集群设置");
   (u "启用定时采集", u "否",
    u "填写 是 或 否；未分组设备直接采用；新集群以首条成功记录为准；已有集群继承集群设置")].

Definition build_import_template : Workbook :=
  [(IMPORT_SHEET, [CellText <$> IMPORT_HEADERS; template_sample]); (u "填写说明", template_guide)].

Definition status_name (s : ImportStatus) : text :=
  match s with ROW_IMPORTED => u "已导入" | ROW_SKIPPED => u "已跳过" | ROW_ERROR => u "错误" end.

Definition test_name (s : ImportTestStatus) : text :=
  match s with
  | TEST_PENDING => u "待测试"
  | TEST_RUNNING => u "正在测试"
  | TEST_SUCCESS => u "成功"
  | TEST_FAILED => u "失败"
  | TEST_NOT_APPLICABLE => u "不适用"
  end.

Definition cell_of (t : option text) : Cell := match t with Some s => CellText s | None => CellNone end.

Definition report_row (r : ImportRowResult) : Row :=
  [CellInt (row_row_number r); cell_of (row_device_name r); cell_of (row_host r);
   CellText (status_name (row_import_status r)); CellText (row_import_message r);
   CellText (test_name (row_test_status r)); cell_of (row_test_message r)].

Definition row_number_le (r r' : ImportRowResult) : Prop := row_row_number r <= row_row_number r'.

#[export] Instance row_number_le_dec : RelDecision row_number_le.
Proof. unfold RelDecision, row_number_le. intros r r'. apply _. Defined.

(** The row results of a batch, by identifier. *)
Definition batch_row_ids (batch_id : Z) (d : Db) : list Z :=
  sorted_ids (select_ids (fun _ r => row_batch_id r =? batch_id) (import_row_results d)).

Definition batch_rows (batch_id : Z) (d : Db) : list ImportRowResult :=
  omap (M:=list) (fun i => import_row_results d !! i) (batch_row_ids batch_id d).

Definition build_import_report (batch_id : Z) (d : Db) : result exn Workbook :=
  match import_batches d !! batch_id with
  | None => Raise (ImportValidationError (u "导入批次不存在"))
  | Some _ =>
      Ok [(u "导入结果",
           [CellText (u "行号"); CellText (u "设备名称"); CellText (u "主机地址"); CellText (u "导入状态");
            CellText (u "导入说明"); CellText (u "连接测试状态"); CellText (u "连接测试说明")]
           :: (report_row <$> merge_sort row_number_le (batch_rows batch_id d)))]
  end.
