(* ===== verification/ImportFileTheorems.v ===== *)
(** * Import workbooks: what is accepted

    The rows a sheet is read into, the devices a row is accepted as, and the
    workbooks the program writes. *)

From S2P Require Import Prelude PyText Models Exceptions ImportFiles.

(** ** Texts of cells *)

(** A text [_text] returns. *)
Definition field_ok (required : bool) (max_length : Z) (s : text) : Prop :=
  strip s = s /\ (required = true -> s ≠ []) /\ Z.of_nat (length s) <= max_length.

Lemma strip_nil : strip [] = [].
Proof. done. Qed.

Lemma _text_spec value field required max_length :
  match _text value field required max_length with
  | Ok s => field_ok required max_length s
  | Raise e => exists m, e = ImportValidationError m
  end.
Proof.
  unfold _text. set (s := match value with CellNone => [] | _ => strip (cell_str value) end).
  assert (Hs : strip s = s) by (subst s; destruct value; auto using strip_nil, strip_idempotent).
  destruct (required && bool_decide (s = [])) eqn:E; [eauto|].
  destruct (Z.ltb_spec max_length (Z.of_nat (length s))); [eauto|].
  split; [done|]. split; [|lia]. intros ->. cbn [andb] in E. by apply bool_decide_eq_false in E.
Qed.

Lemma _text_exact s field required max_length :
  field_ok required max_length s -> _text (CellText s) field required max_length = Ok s.
Proof.
  intros (Hs & Hr & Hl). unfold _text. cbn [cell_str]. rewrite Hs.
  destruct (Z.ltb_spec max_length (Z.of_nat (length s))); [lia|].
  destruct required; [|done]. rewrite bool_decide_false by auto. done.
Qed.

(** ** Rows *)

Record valid_row (p : ParsedRow) : Prop := {
  valid_name : field_ok true 100 (parsed_name p);
  valid_host : field_ok true 255 (parsed_host p);
  valid_username : field_ok true 255 (parsed_username p);
  valid_password : field_ok false 1024 (parsed_password p);
  valid_cluster : field_ok false 100 (parsed_cluster_name p);
  valid_secret : parsed_password p ≠ [] \/ parsed_cluster_name p ≠ [];
  valid_port : 1 <= parsed_port p <= 65535;
  valid_interval : 1 <= parsed_scan_interval_minutes p <= 10080
}.

(** The row that describes a device. *)
Definition os_name (os_type : OSType) : text := match os_type with LINUX => u "linux" | WINDOWS => u "windows" end.

Definition cells_of (p : ParsedRow) : list Cell :=
  [CellText (parsed_name p); CellText (parsed_host p); CellText (os_name (parsed_os_type p));
   CellInt (parsed_port p); CellText (parsed_username p); CellText (parsed_password p);
   CellText (parsed_cluster_name p); CellInt (parsed_scan_interval_minutes p);
   CellText (if parsed_scheduled_enabled p then u "是" else u "否")].

Section rows.
Context `{UnicodeCase, UnicodeDigits}.

(** The errors a row is refused with: a validation error, an index out of range (a row
    that is too short), and the overflow of [int] on an infinite float. *)
Definition row_refused (e : exn) : Prop :=
  (exists m, e = ImportValidationError m) \/ (exists m, e = LookupError m) \/
  e = OtherError (u "cannot convert float infinity to integer").

Lemma _integer_spec value field default_ lo hi :
  lo <= default_ <= hi ->
  match _integer value field default_ lo hi with
  | Ok z => lo <= z <= hi
  | Raise e => row_refused e
  end.
Proof.
  intros Hd. unfold _integer. destruct (blank value); [done|].
  destruct (cell_int value) as [z|e] eqn:E.
  - destruct ((lo <=? z) && (z <=? hi)) eqn:Er; [lia|]. left. eauto.
  - destruct value as [|s|?|?|? []]; cbn [cell_int] in E; try done.
    + injection E as <-. left. eauto.
    + destruct (py_int s); [done|]. injection E as <-. left. eauto.
    + injection E as <-. left. eauto.
    + injection E as <-. right; right. done.
Qed.

Lemma value_at_refused values i e : value_at values i = Raise e -> row_refused e.
Proof. unfold value_at. destruct (values !! i); [done|]. intros [= <-]. right; left. eauto. Qed.

Lemma _text_Ok value field required max_length s :
  _text value field required max_length = Ok s -> field_ok required max_length s.
Proof. intros E. pose proof (_text_spec value field required max_length) as S. by rewrite E in S. Qed.

Lemma _text_refused value field required max_length e :
  _text value field required max_length = Raise e -> row_refused e.
Proof. intros E. pose proof (_text_spec value field required max_length) as S. rewrite E in S. by left. Qed.

Lemma _integer_Ok value field default_ lo hi z :
  lo <= default_ <= hi -> _integer value field default_ lo hi = Ok z -> lo <= z <= hi.
Proof. intros Hd E. pose proof (_integer_spec value field default_ lo hi Hd) as S. by rewrite E in S. Qed.

Lemma _integer_refused value field default_ lo hi e :
  lo <= default_ <= hi -> _integer value field default_ lo hi = Raise e -> row_refused e.
Proof. intros Hd E. pose proof (_integer_spec value field default_ lo hi Hd) as S. by rewrite E in S. Qed.

Lemma os_type_of_refused s e : os_type_of s = Raise e -> row_refused e.
Proof. unfold os_type_of. repeat case_bool_decide; try done; intros [= <-]; left; eauto. Qed.

Lemma _enabled_refused v e : _enabled v = Raise e -> row_refused e.
Proof. unfold _enabled. destruct (blank v); [done|]. repeat case_bool_decide; try done; intros [= <-]; left; eauto. Qed.

Lemma default_port_ok os : 1 <= default_port os <= 65535.
Proof. destruct os; cbn; lia. Qed.

Lemma default_interval_ok : 1 <= 5 <= 10080.
Proof. lia. Qed.

Hint Resolve default_interval_ok value_at_refused _text_refused _integer_refused os_type_of_refused _enabled_refused
  default_port_ok : atlas.

Lemma parse_row_valid values p : _parse_row values = Ok p -> valid_row p.
Proof.
  unfold _parse_row. intros Hp.
  repeat match type of Hp with (mbind _ _ = Ok _) => apply bind_Ok in Hp as (? & ? & Hp) end.
  destruct (bool_decide _ && bool_decide _) eqn:E; [done|].
  repeat match type of Hp with (mbind _ _ = Ok _) => apply bind_Ok in Hp as (? & ? & Hp) end.
  injection Hp as <-. constructor; cbn; eauto using _text_Ok.
  - apply andb_false_iff in E as [?%bool_decide_eq_false|?%bool_decide_eq_false]; auto.
  - eapply _integer_Ok; [apply default_port_ok|eassumption].
  - eapply _integer_Ok; [|eassumption]. lia.
Qed.

Lemma parse_row_refused values e : _parse_row values = Raise e -> row_refused e.
Proof.
  unfold _parse_row. intros Hp.
  repeat match type of Hp with (mbind _ _ = Raise _) =>
    apply bind_Raise in Hp as [Hp|(? & ? & Hp)]; [by eauto with atlas|] end.
  destruct (bool_decide _ && bool_decide _) eqn:E; [injection Hp as <-; left; by eexists|].
  repeat match type of Hp with (mbind _ _ = Raise _) =>
    apply bind_Raise in Hp as [Hp|(? & ? & Hp)]; [by eauto with atlas|] end.
  done.
Qed.

Lemma _integer_exact z field default_ lo hi : lo <= z <= hi -> _integer (CellInt z) field default_ lo hi = Ok z.
Proof.
  intros [Hlo Hhi]. unfold _integer. cbn. apply Z.leb_le in Hlo, Hhi. by rewrite Hlo, Hhi.
Qed.

Lemma os_name_ok os : _text (CellText (os_name os)) (u "操作系统") true 255 = Ok (os_name os).
Proof. apply _text_exact. destruct os; split_and!; done. Qed.

Lemma os_type_of_name os : os_type_of (lower (os_name os)) = Ok os.
Proof. by destruct os. Qed.

Lemma _enabled_exact (b : bool) : _enabled (CellText (if b then u "是" else u "否")) = Ok b.
Proof. by destruct b. Qed.

Lemma parse_row_of p : valid_row p -> _parse_row (cells_of p) = Ok p.
Proof.
  intros [Hn Hh Hu Hpw Hc Hsec Hport Hint]. destruct p as [name host os port user password cluster interval enabled].
  cbn [parsed_name parsed_host parsed_os_type parsed_port parsed_username parsed_password parsed_cluster_name
       parsed_scan_interval_minutes parsed_scheduled_enabled] in *.
  unfold _parse_row, cells_of, value_at.
  cbn [lookup list_lookup mbind result_bind parsed_name parsed_host parsed_os_type parsed_port parsed_username
       parsed_password parsed_cluster_name parsed_scan_interval_minutes parsed_scheduled_enabled].
  rewrite (_text_exact name), (_text_exact host), os_name_ok by done. cbn [mbind result_bind].
  rewrite os_type_of_name. cbn [mbind result_bind].
  rewrite (_text_exact password), (_text_exact cluster) by done. cbn [mbind result_bind].
  assert (E : bool_decide (password = []) && bool_decide (cluster = []) = false).
  { apply andb_false_iff. rewrite !bool_decide_eq_false. tauto. }
  rewrite E, !_integer_exact, (_text_exact user) by done. cbn [mbind result_bind].
  by rewrite _enabled_exact.
Qed.

(** C37. The rows that are accepted.  The devices a row can describe are exactly those with
    stripped texts of the lengths of the columns, a name, a host and a user name, a
    password or a cluster, a port from 1 to 65535 and an interval from one minute to a
    week; such a device written as a row is read back as it is.  Every other row is
    refused with an error of the file, never with one of the database. *)
Theorem import_rows_roundtrip :
  (forall values, match _parse_row values with Ok p => valid_row p | Raise e => row_refused e end) /\
  (forall p, valid_row p <-> _parse_row (cells_of p) = Ok p).
Proof.
  split.
  - intros values. destruct (_parse_row values) eqn:E; [by eapply parse_row_valid|by eapply parse_row_refused].
  - intros p. split; [apply parse_row_of|apply parse_row_valid].
Qed.

End rows.

(** ** Files *)

Definition numbered (i : nat) (values : list Cell) : Z * list Cell := (Z.of_nat i + 2, values).

Lemma numbered_sorted (rows : list (list Cell)) k :
  StronglySorted Z.lt (imap (fun i => numbered (k + i)) rows).*1 /\
  Forall (fun r => Z.of_nat k + 2 <= r.1) (imap (fun i => numbered (k + i)) rows).
Proof.
  revert k. induction rows as [|values rows IH]; intros k; [by repeat constructor|].
  rewrite imap_cons. rewrite (imap_ext _ (fun i => numbered (S k + i)) rows) by (intros; unfold compose, numbered; do 2 f_equal; lia).
  destruct (IH (S k)) as [Hs Hall]. split.
  - rewrite fmap_cons. constructor; [done|]. apply Forall_fmap. eapply Forall_impl; [exact Hall|].
    intros r Hr. unfold compose, numbered in *. cbn in *. lia.
  - constructor; [cbn; lia|]. eapply Forall_impl; [exact Hall|]. intros r Hr. cbn in *. lia.
Qed.

Lemma StronglySorted_fmap_filter {A} (f : A -> Z) (P : A -> Prop) `{forall x, Decision (P x)} (l : list A) :
  StronglySorted Z.lt (f <$> l) -> StronglySorted Z.lt (f <$> filter P l).
Proof.
  induction l as [|x l IH]; [done|]. rewrite fmap_cons. intros Hs. inversion Hs as [|? ? Hs' Hall]; subst.
  rewrite filter_cons. case_decide; [|auto]. rewrite fmap_cons. constructor; [auto|].
  rewrite Forall_fmap, Forall_forall in Hall |- *. intros y [_ Hy]%list_elem_of_filter. by apply Hall.
Qed.

Lemma data_rows_sorted rows : StronglySorted Z.lt (data_rows rows).*1.
Proof.
  unfold data_rows. apply StronglySorted_fmap_filter. exact (proj1 (numbered_sorted rows 0)).
Qed.

Lemma elem_of_data_rows rows n values :
  (n, values) ∈ data_rows rows <->
  2 <= n /\ rows !! Z.to_nat (n - 2) = Some values /\ Exists (fun v => blank v = false) values.
Proof.
  unfold data_rows. rewrite list_elem_of_filter. cbn [fst snd].
  assert (Hin : (n, values) ∈ imap (fun i values => (Z.of_nat i + 2, values)) rows <->
    2 <= n /\ rows !! Z.to_nat (n - 2) = Some values).
  { rewrite list_elem_of_lookup. setoid_rewrite list_lookup_imap_Some. split.
    - intros (i & x & Hx & [= -> ->]). replace (Z.to_nat (Z.of_nat i + 2 - 2)) with i by lia. split; [lia|done].
    - intros [Hn Hl]. exists (Z.to_nat (n - 2)), values. split; [done|]. f_equal. lia. }
  rewrite Hin, existsb_exists, List.Exists_exists. setoid_rewrite negb_true_iff. tauto.
Qed.

Section loading.
Context `{UnicodeCase} (load_workbook : list N -> option (list (text * list (list Cell)))).

(** The files that are accepted: an .xlsx name, at most 5 MB, a workbook with the import
    sheet, its header row, and at most 1000 rows that are not blank; the rows
    are those of the sheet, in order, under their numbers in the sheet.  Any other file
    is refused with a validation error. *)
Theorem import_files_bounded filename content :
  match _load_rows load_workbook filename content with
  | Ok rows =>
      lower (path_suffix filename) = u ".xlsx" /\
      Z.of_nat (length content) <= MAX_IMPORT_BYTES /\ Z.of_nat (length rows) <= MAX_IMPORT_ROWS /\
      StronglySorted Z.lt rows.*1 /\
      exists workbook sheet, load_workbook content = Some workbook /\
        (IMPORT_SHEET, (CellText <$> IMPORT_HEADERS) :: sheet) ∈ workbook /\
        forall n values, (n, values) ∈ rows <->
          2 <= n /\ sheet !! Z.to_nat (n - 2) = Some values /\ Exists (fun v => blank v = false) values
  | Raise e => exists m, e = ImportValidationError m
  end.
Proof.
  unfold _load_rows. destruct (bool_decide (lower (path_suffix filename) = _)) eqn:Esuf; cbn [negb]; [|eauto].
  apply bool_decide_eq_true in Esuf.
  destruct (Z.ltb_spec MAX_IMPORT_BYTES (Z.of_nat (length content))); [eauto|].
  destruct (load_workbook content) as [workbook|]; [|eauto].
  destruct (list_find _ workbook) as [[i [name rows]]|] eqn:Ef; [|eauto].
  apply list_find_Some in Ef as (Hi & Hname & _). cbn in Hname. subst name.
  destruct (bool_decide (default [] (head rows) = _)) eqn:Eh; cbn [negb]; [|eauto].
  apply bool_decide_eq_true in Eh. destruct rows as [|headers sheet]; [done|]. cbn [head default tail] in *.
  change (id headers = CellText <$> IMPORT_HEADERS) in Eh. unfold id in Eh. subst headers.
  destruct (Z.ltb_spec MAX_IMPORT_ROWS (Z.of_nat (length (data_rows sheet)))); [eauto|].
  split_and!; [done|done|done|apply data_rows_sorted|].
  exists workbook, sheet. split_and!; [done|by eapply list_elem_of_lookup_2|]. intros n values. apply elem_of_data_rows.
Qed.
End loading.

(** The template is accepted, and its sample row describes a device. *)
Lemma template_accepted `{UnicodeDigits} load content :
  load content = Some build_import_template -> Z.of_nat (length content) <= MAX_IMPORT_BYTES ->
  _load_rows (H := ascii_only) load (u "template.xlsx") content = Ok [(2, template_sample)] /\
  is_ok (_parse_row (H := ascii_only) template_sample) = true.
Proof.
  intros Hl Hlen. split; [|vm_compute; reflexivity]. unfold _load_rows. rewrite Hl.
  replace (bool_decide _) with true by (vm_compute; reflexivity). cbn [negb].
  destruct (Z.ltb_spec MAX_IMPORT_BYTES (Z.of_nat (length content))); [lia|]. vm_compute. reflexivity.
Qed.
