(* ===== verification/Imports.v ===== *)
(** * Importing devices (src/app/services/imports.py: [import_devices])

    One transaction creates the batch, one stores each row, one finishes the batch.
    The session keeps its objects after a commit ([expire_on_commit=False]), so the
    batch it works on ([batch] below) holds the values it was created or last reloaded
    with, and a commit writes the columns that changed in it, whatever the database
    holds by then; a rollback, on a row with an error, makes the session read the batch
    again.  Other sessions commit between the transactions and, inside a row, after its
    duplicate was looked up: [before] and [during]. *)

From S2P Require Import Prelude PyText Models Exceptions DatabaseTransactions Clusters ImportFiles.

(** The transactions of an import. *)
Inductive Phase := Creating | AtRow (row_number : Z) | Finishing.

#[export] Instance Phase_eq_dec : EqDecision Phase.
Proof. solve_decision. Defined.

(** ** The batch of the session *)

(** A column is written when it differs from the value it was loaded with. *)
Definition changed {A} `{EqDecision A} (loaded new stored : A) : A :=
  if decide (loaded = new) then stored else new.

Definition flush_import_batch (loaded batch stored : ImportBatch) : ImportBatch :=
  stored
  <| import_status := changed (import_status loaded) (import_status batch) (import_status stored) |>
  <| import_imported_rows := changed (import_imported_rows loaded) (import_imported_rows batch) (import_imported_rows stored) |>
  <| import_skipped_rows := changed (import_skipped_rows loaded) (import_skipped_rows batch) (import_skipped_rows stored) |>
  <| import_error_rows := changed (import_error_rows loaded) (import_error_rows batch) (import_error_rows stored) |>
  <| import_test_pending_rows := changed (import_test_pending_rows loaded) (import_test_pending_rows batch) (import_test_pending_rows stored) |>
  <| import_finished_at := changed (import_finished_at loaded) (import_finished_at batch) (import_finished_at stored) |>.

(** The session's object stands for a row that is gone. *)
Definition batch_deleted : exn := OtherError (u "Instance '<ImportBatch>' has been deleted").

Definition write_batch (batch_id : Z) (loaded batch : ImportBatch) : Tx ImportBatch := fun d =>
  match import_batches d !! batch_id with
  | None => Raise batch_deleted
  | Some stored =>
      Ok (batch, d <| import_batches := <[batch_id := flush_import_batch loaded batch stored]> (import_batches d) |>)
  end.

(** [session.add(ImportRowResult(...))]; the foreign key on the device is checked. *)
Definition add_row_result (batch_id row_number : Z) (device_name host : option text) (device_id : option Z)
    (status : ImportStatus) (message : text) (test_status : ImportTestStatus) : Tx () := fun d =>
  if match device_id with Some i => bool_decide (devices d !! i = None) | None => false end
  then Raise IntegrityError
  else
    let '(i, d) := take_id T_import_row_results d in
    Ok ((), d <| import_row_results :=
      <[i := mkImportRow batch_id row_number device_name host device_id status message test_status
               None None None None 0]> (import_row_results d) |>).

(** ** Devices *)

Definition same_identity (host : text) (port : Z) (username : text) (_ : Z) (x : Device) : bool :=
  bool_decide (device_host x = host /\ device_port x = port /\ device_username x = username).

Definition find_duplicate (p : ParsedRow) (d : Db) : option Z :=
  head (sorted_ids (select_ids
    (same_identity (parsed_host p) (parsed_port p) (parsed_username p)) (devices d))).

(** The constraint [uq_device_identity] raises [IntegrityError] at the flush. *)
Definition add_device (x : Device) : Tx Z := fun d =>
  if decide (select_ids (same_identity (device_host x) (device_port x) (device_username x)) (devices d) = ∅)
  then let '(i, d) := take_id T_devices d in Ok (i, d <| devices := <[i := x]> (devices d) |>)
  else Raise IntegrityError.

Section imports.
Context `{UnicodeCase, PgLower, UnicodeDigits}.
Context (load_workbook : list N -> option (list (text * list (list Cell)))) (encrypt : text -> option text).
Context (before during : Phase -> Db -> Db) (fault : Phase -> option raised) (wall : Phase -> Z).

(** The cluster a row names, created from its values when there is none. *)
Definition row_cluster (p : ParsedRow) (now : Z) : Tx (option Z) := fun d =>
  match parsed_cluster_name p with
  | [] => Ok (None, d)
  | name =>
      match find_cluster_by_name name d with
      | Raise e => Raise e
      | Ok (Some i) => Ok (Some i, d)
      | Ok None =>
          tx_bind (create_cluster name None None (parsed_scan_interval_minutes p)
                     (parsed_scheduled_enabled p) now) (fun i => tx_ret (Some i)) d
      end
  end.

Definition new_device (p : ParsedRow) (cluster_id : option Z) (cluster : option Cluster) (token : text)
    (now : Z) : Device :=
  let '(interval, enabled) :=
    cluster_scan_values cluster (parsed_scan_interval_minutes p) (parsed_scheduled_enabled p) in
  mkDevice (parsed_name p) (parsed_host p) (parsed_os_type p) (parsed_port p) (parsed_username p) token
    cluster_id interval enabled (negb (bool_decide (parsed_password p = []))) None None None now now.

Definition encrypt_password (password : text) : Tx text := fun d =>
  match encrypt password with
  | Some token => Ok (token, d)
  | None => Raise (ValueError (u "surrogates not allowed"))
  end.

(** A row whose device exists. *)
Definition store_duplicate (batch_id row_number : Z) (p : ParsedRow) (i : Z) (batch : ImportBatch) :
    Tx ImportBatch :=
  if bool_decide (parsed_password p = []) then
    let* batch' := write_batch batch_id batch (batch <| import_error_rows := import_error_rows batch + 1 |>) in
    do* add_row_result batch_id row_number (Some (parsed_name p)) (Some (parsed_host p)) (Some i)
          ROW_ERROR (u "设备已存在，未修改集群归属") TEST_NOT_APPLICABLE then
    tx_ret batch'
  else
    let* batch' := write_batch batch_id batch (batch <| import_skipped_rows := import_skipped_rows batch + 1 |>) in
    do* add_row_result batch_id row_number (Some (parsed_name p)) (Some (parsed_host p)) (Some i)
          ROW_SKIPPED (u "设备已存在，已跳过") TEST_NOT_APPLICABLE then
    tx_ret batch'.

(** A row with a new device. *)
Definition store_device (batch_id row_number : Z) (p : ParsedRow) (batch : ImportBatch) (now : Z) :
    Tx ImportBatch :=
  let* cluster_id := row_cluster p now in
  let* cluster := tx_get (fun d => cluster_id ≫= fun i => clusters d !! i) in
  let collection_enabled := negb (bool_decide (parsed_password p = [])) in
  let* token := encrypt_password (parsed_password p) in
  let* device_id := add_device (new_device p cluster_id cluster token now) in
  let batch1 := batch <| import_imported_rows := import_imported_rows batch + 1 |> in
  let* batch' := write_batch batch_id batch
    (if collection_enabled
     then batch1 <| import_test_pending_rows := import_test_pending_rows batch1 + 1 |> else batch1) in
  do* add_row_result batch_id row_number (Some (parsed_name p)) (Some (parsed_host p)) (Some device_id)
        ROW_IMPORTED
        (if collection_enabled then u "导入成功，等待连接测试" else u "仅标注集群设备，不执行连接测试")
        (if collection_enabled then TEST_PENDING else TEST_NOT_APPLICABLE) then
  do* tx_modify notify_topology_changed then
  tx_ret batch'.

(** The message of a row that failed. *)
Definition row_error_message (e : exn) : text :=
  match e with
  | ImportValidationError m => m
  | IntegrityError => u "数据库写入冲突"
  | _ => u "该行导入失败"
  end.

(** [except Exception]: the batch is read again, the error is counted and recorded. *)
Definition record_row_error (batch_id row_number : Z) (device_name host : option text) (e : exn) :
    Tx ImportBatch := fun d =>
  match import_batches d !! batch_id with
  | None => Raise batch_deleted
  | Some batch =>
      (let* batch' := write_batch batch_id batch (batch <| import_error_rows := import_error_rows batch + 1 |>) in
       do* add_row_result batch_id row_number device_name host None ROW_ERROR (row_error_message e)
             TEST_NOT_APPLICABLE then
       tx_ret batch') d
  end.

(** The body of the [try]; the duplicate is looked up in [d0]. *)
Definition store_row (batch_id row_number : Z) (parsed : result exn ParsedRow) (d0 : Db)
    (batch : ImportBatch) (now : Z) : Tx ImportBatch :=
  match parsed with
  | Raise e => tx_raise e
  | Ok p =>
      match find_duplicate p d0 with
      | Some i => store_duplicate batch_id row_number p i batch
      | None => store_device batch_id row_number p batch now
      end
  end.

(** One turn of the loop. *)
Definition import_row (batch_id : Z) (row : Z * list Cell) (batch : ImportBatch) (d : Db) :
    result raised ImportBatch * Db :=
  let '(row_number, values) := row in
  let phase := AtRow row_number in
  let parsed := _parse_row values in
  let d0 := before phase d in
  let d1 := during phase d0 in
  match fault phase with
  | Some e => (Raise (classify e), d1)
  | None =>
      match store_row batch_id row_number parsed d0 batch (wall phase) d1 with
      | Ok (batch, d) => (Ok batch, d)
      | Raise e =>
          let device_name := match parsed with Ok p => Some (parsed_name p) | Raise _ => None end in
          let host := match parsed with Ok p => Some (parsed_host p) | Raise _ => None end in
          match record_row_error batch_id row_number device_name host e d1 with
          | Ok (batch, d) => (Ok batch, d)
          | Raise e => (Raise (Raised e), d1)
          end
      end
  end.

Fixpoint import_rows (batch_id : Z) (rows : list (Z * list Cell)) (batch : ImportBatch) (d : Db) :
    result raised ImportBatch * Db :=
  match rows with
  | [] => (Ok batch, d)
  | row :: rows =>
      match import_row batch_id row batch d with
      | (Ok batch, d) => import_rows batch_id rows batch d
      | (Raise e, d) => (Raise e, d)
      end
  end.

(** The last transaction decides on what the session knows of the batch. *)
Definition finished_import (batch : ImportBatch) : ImportBatch :=
  let status := if import_test_pending_rows batch =? 0 then IMPORT_COMPLETED else IMPORT_TESTING in
  let batch := batch <| import_status := status |> in
  if decide (status = IMPORT_COMPLETED) then batch <| import_finished_at := Some (wall Finishing) |> else batch.

Definition finish_import (batch_id : Z) (batch : ImportBatch) (d : Db) : result raised ImportBatch * Db :=
  let d := before Finishing d in
  match fault Finishing with
  | Some e => (Raise (classify e), d)
  | None =>
      match write_batch batch_id batch (finished_import batch) d with
      | Raise e => (Raise (Raised e), d)
      | Ok (batch, d) => (Ok (default batch (import_batches d !! batch_id)), d)
      end
  end.

Definition new_import_batch (filename : text) (total_rows : Z) : ImportBatch :=
  mkImportBatch (take 255 (path_name filename)) IMPORT_IMPORTING total_rows 0 0 0 0 0 0 0 (wall Creating)
    None None None.

(** The identifier and the values of the batch returned. *)
Definition import_devices (filename : text) (content : list N) (d : Db) :
    result raised (Z * ImportBatch) * Db :=
  match _load_rows load_workbook filename content with
  | Raise e => (Raise (Raised e), d)
  | Ok rows =>
      let d := before Creating d in
      match fault Creating with
      | Some e => (Raise (classify e), d)
      | None =>
          let batch := new_import_batch filename (Z.of_nat (length rows)) in
          let '(batch_id, d) := take_id T_import_batches d in
          let d := d <| import_batches := <[batch_id := batch]> (import_batches d) |> in
          match import_rows batch_id rows batch d with
          | (Raise e, d) => (Raise e, d)
          | (Ok batch, d) =>
              match finish_import batch_id batch d with
              | (Raise e, d) => (Raise e, d)
              | (Ok batch, d) => (Ok (batch_id, batch), d)
              end
          end
      end
  end.

End imports.
