(* ===== verification/ImportDeviceTheorems.v ===== *)
(** * Importing devices: every row is accounted for

    The row results of a batch, in the order they were written, are its ledger; the
    counters of the batch are those of its ledger whatever other sessions do, as long
    as they leave the ledger and the counters of the import to the import ([rely]). *)

From S2P Require Import Prelude PyText Models Exceptions DatabaseTransactions Clusters ImportFiles ImportFileTheorems Imports.

(** ** The ledger of a batch *)

Record RowEntry := mkEntry {
  entry_row_number : Z;
  entry_status : ImportStatus;
  entry_message : text;
  entry_device_name : option text;
  entry_host : option text
}.

Definition entry_of (r : ImportRowResult) : RowEntry :=
  mkEntry (row_row_number r) (row_import_status r) (row_import_message r) (row_device_name r) (row_host r).

Definition ledger (b : Z) (d : Db) : list RowEntry := entry_of <$> batch_rows b d.

Definition status_count (s : ImportStatus) (es : list RowEntry) : Z :=
  Z.of_nat (length (filter (fun e => entry_status e = s) es)).

Lemma status_count_snoc s es e :
  status_count s (es ++ [e]) = status_count s es + (if decide (entry_status e = s) then 1 else 0).
Proof. unfold status_count. rewrite filter_app, length_app, filter_cons, filter_nil. case_decide; cbn; lia. Qed.

Lemma status_count_total es :
  status_count ROW_IMPORTED es + status_count ROW_SKIPPED es + status_count ROW_ERROR es = Z.of_nat (length es).
Proof.
  induction es as [|e es IH] using rev_ind; [done|]. rewrite !status_count_snoc, length_app. cbn [length].
  destruct (entry_status e); repeat case_decide; try done; lia.
Qed.

Lemma sorted_ids_snoc (X : gset Z) n : (forall i, i ∈ X -> i < n) -> sorted_ids ({[n]} ∪ X) = sorted_ids X ++ [n].
Proof.
  intros Hlt. assert (Hn : n ∉ X) by (intros Hin; specialize (Hlt n Hin); lia).
  assert (Hle : forall Y, StronglySorted Z.le (sorted_ids Y)).
  { intros Y. apply Sorted_StronglySorted; [intros ????; lia|]. apply (Sorted_merge_sort Z.le). }
  apply (StronglySorted_unique Z.le); [apply Hle| |].
  - apply StronglySorted_app_2; [|apply Hle|repeat constructor].
    intros i j Hi%elem_of_sorted_ids ->%list_elem_of_singleton. specialize (Hlt i Hi). lia.
  - unfold sorted_ids. rewrite !merge_sort_Permutation, elements_union_singleton by done.
    apply Permutation_cons_append.
Qed.

Lemma batch_rows_insert b d d' n r :
  ids_below (import_row_results d) n -> import_row_results d' = <[n := r]> (import_row_results d) ->
  batch_rows b d' = batch_rows b d ++ (if row_batch_id r =? b then [r] else []).
Proof.
  intros Hb E. unfold batch_rows, batch_row_ids. rewrite E, select_ids_insert by eauto with atlas.
  set (X := select_ids _ (import_row_results d)).
  assert (Hold : forall i, i ∈ X -> i < n /\ <[n := r]> (import_row_results d) !! i = import_row_results d !! i).
  { intros i (x & Hx & _)%elem_of_select_ids. specialize (Hb i x Hx). cbn in Hb. split; [done|].
    apply lookup_insert_ne. lia. }
  assert (Hmap : forall l, (forall i, i ∈ l -> i ∈ X) ->
    omap (M:=list) (fun i => <[n := r]> (import_row_results d) !! i) l =
    omap (M:=list) (fun i => import_row_results d !! i) l).
  { induction l as [|i l IH]; intros Hl; [done|]. cbn. rewrite (proj2 (Hold i (Hl i ltac:(left)))).
    rewrite IH by (intros j Hj; apply Hl; by right). done. }
  destruct (row_batch_id r =? b).
  - rewrite sorted_ids_snoc by (intros i Hi; by apply Hold). rewrite omap_app, Hmap by (intros i; by rewrite elem_of_sorted_ids).
    cbn. by rewrite lookup_insert_eq.
  - rewrite union_empty_l_L, app_nil_r, Hmap by (intros i; by rewrite elem_of_sorted_ids). done.
Qed.

(** ** Progress of an import

    [numbers] are the row numbers stored so far, [batch] the session's object. *)

(** The columns only the import of the batch writes. *)
Definition summary (batch : ImportBatch) : text * Z * Z * Z * Z :=
  (import_filename batch, import_total_rows batch, import_imported_rows batch, import_skipped_rows batch,
   import_error_rows batch).

Lemma summary_eq x y :
  summary x = summary y ->
  import_filename x = import_filename y /\ import_total_rows x = import_total_rows y /\
  import_imported_rows x = import_imported_rows y /\ import_skipped_rows x = import_skipped_rows y /\
  import_error_rows x = import_error_rows y.
Proof. unfold summary. intros [= ]. auto. Qed.

Record progress (b total : Z) (numbers : list Z) (batch : ImportBatch) (d : Db) : Prop := {
  progress_ids : ids_below (import_row_results d) (next_id d T_import_row_results);
  progress_numbers : entry_row_number <$> ledger b d = numbers;
  progress_stored : exists stored, import_batches d !! b = Some stored /\ summary stored = summary batch;
  progress_total : import_total_rows batch = total;
  progress_imported : import_imported_rows batch = status_count ROW_IMPORTED (ledger b d);
  progress_skipped : import_skipped_rows batch = status_count ROW_SKIPPED (ledger b d);
  progress_error : import_error_rows batch = status_count ROW_ERROR (ledger b d)
}.

(** What an import relies on: other sessions keep the batch, its ledger and its summary. *)
Record rely (b : Z) (d d' : Db) : Prop := {
  rely_ids : ids_below (import_row_results d) (next_id d T_import_row_results) ->
             ids_below (import_row_results d') (next_id d' T_import_row_results);
  rely_ledger : ledger b d' = ledger b d;
  rely_batch : forall x, import_batches d !! b = Some x ->
    exists x', import_batches d' !! b = Some x' /\ summary x' = summary x
}.

Lemma rely_refl b d : rely b d d.
Proof. split; eauto. Qed.

Lemma rely_trans b d d' d'' : rely b d d' -> rely b d' d'' -> rely b d d''.
Proof.
  intros [Hi Hl Hb] [Hi' Hl' Hb']. split; [auto|congruence|].
  intros x (x' & Hx' & E)%Hb. apply Hb' in Hx' as (x'' & ? & ?). exists x''. split; congruence.
Qed.

Lemma progress_rely b total numbers batch d d' : progress b total numbers batch d -> rely b d d' -> progress b total numbers batch d'.
Proof.
  intros [] [Hi Hl Hb]. split; rewrite ?Hl; auto. destruct progress_stored0 as (x & Hx & E).
  apply Hb in Hx as (x' & ? & ?). exists x'. split; congruence.
Qed.

(** The tables an import's bookkeeping is about. *)
Definition import_view (d : Db) :=
  (import_batches d, import_row_results d, next_id d T_import_row_results, next_id d T_import_batches).

Lemma ledger_view b d d' : import_view d' = import_view d -> ledger b d' = ledger b d.
Proof. unfold import_view. intros [= _ E _ _]. unfold ledger, batch_rows, batch_row_ids. by rewrite E. Qed.

Lemma progress_view b total numbers batch d d' :
  import_view d' = import_view d -> progress b total numbers batch d -> progress b total numbers batch d'.
Proof.
  intros E Hp. apply (progress_rely _ _ _ _ _ _ Hp). split; [|by apply ledger_view|].
  - injection E as _ -> -> _. done.
  - injection E as -> _ _ _. eauto.
Qed.

(** The session's object after a row of status [s]. *)
Definition bump (s : ImportStatus) (batch : ImportBatch) : ImportBatch :=
  match s with
  | ROW_IMPORTED => batch <| import_imported_rows := import_imported_rows batch + 1 |>
  | ROW_SKIPPED => batch <| import_skipped_rows := import_skipped_rows batch + 1 |>
  | ROW_ERROR => batch <| import_error_rows := import_error_rows batch + 1 |>
  end.

Lemma changed_agree {A} `{EqDecision A} (loaded new : A) : changed loaded new loaded = new.
Proof. unfold changed. by case_decide. Qed.

Lemma changed_same {A} `{EqDecision A} (loaded stored : A) : changed loaded loaded stored = stored.
Proof. unfold changed. by rewrite decide_True. Qed.

Lemma flush_summary loaded batch stored :
  summary stored = summary loaded -> import_filename batch = import_filename loaded ->
  import_total_rows batch = import_total_rows loaded ->
  summary (flush_import_batch loaded batch stored) = summary batch.
Proof.
  intros Hs F1 F2. unfold summary in Hs. injection Hs as E1 E2 E3 E4 E5.
  change (summary (flush_import_batch loaded batch stored)) with
    (import_filename stored, import_total_rows stored,
     changed (import_imported_rows loaded) (import_imported_rows batch) (import_imported_rows stored),
     changed (import_skipped_rows loaded) (import_skipped_rows batch) (import_skipped_rows stored),
     changed (import_error_rows loaded) (import_error_rows batch) (import_error_rows stored)).
  rewrite E1, E2, E3, E4, E5, !changed_agree. unfold summary. congruence.
Qed.

(** A row result and its counter, written in one transaction. *)
Definition write_entry (b : Z) (e : RowEntry) (device_id : option Z) (test : ImportTestStatus)
    (loaded batch : ImportBatch) : Tx () :=
  do* write_batch b loaded batch then
  add_row_result b (entry_row_number e) (entry_device_name e) (entry_host e) device_id (entry_status e)
    (entry_message e) test.

Lemma write_batch_Ok b loaded batch d x d' :
  write_batch b loaded batch d = Ok (x, d') <->
  exists stored, import_batches d !! b = Some stored /\ x = batch /\
    d' = d <| import_batches := <[b := flush_import_batch loaded batch stored]> (import_batches d) |>.
Proof. unfold write_batch. destruct (import_batches d !! b); naive_solver. Qed.

Definition entry_row (b : Z) (e : RowEntry) (device_id : option Z) (test : ImportTestStatus) : ImportRowResult :=
  mkImportRow b (entry_row_number e) (entry_device_name e) (entry_host e) device_id (entry_status e)
    (entry_message e) test None None None None 0.

Lemma write_entry_Ok b e device_id test loaded batch d d' :
  write_entry b e device_id test loaded batch d = Ok ((), d') ->
  exists stored, import_batches d !! b = Some stored /\
    import_batches d' = <[b := flush_import_batch loaded batch stored]> (import_batches d) /\
    import_row_results d' = <[next_id d T_import_row_results := entry_row b e device_id test]> (import_row_results d) /\
    next_id d' T_import_row_results = next_id d T_import_row_results + 1 /\
    devices d' = devices d /\ clusters d' = clusters d /\
    next_id d' T_import_batches = next_id d T_import_batches /\ next_id d' T_devices = next_id d T_devices.
Proof.
  unfold write_entry. intros (x & d1 & (stored & Hs & -> & ->)%write_batch_Ok & Ha)%tx_bind_Ok. exists stored.
  split; [done|]. unfold add_row_result in Ha. destruct (match device_id with Some _ => _ | None => _ end); [done|].
  cbn [take_id] in Ha. injection Ha as <-. by split_and!.
Qed.

Lemma write_entry_total b e device_id test loaded batch d :
  is_Some (import_batches d !! b) -> (forall i, device_id = Some i -> is_Some (devices d !! i)) ->
  exists d', write_entry b e device_id test loaded batch d = Ok ((), d').
Proof.
  intros [stored Hs] Hdev. unfold write_entry, tx_bind, write_batch. rewrite Hs. unfold add_row_result.
  destruct device_id as [i|]; [|by eexists]. destruct (Hdev i eq_refl) as [x Hx].
  rewrite bool_decide_false; [by eexists|]. cbn. by rewrite Hx.
Qed.

Lemma write_entry_ledger b e device_id test loaded batch d d' :
  write_entry b e device_id test loaded batch d = Ok ((), d') ->
  ids_below (import_row_results d) (next_id d T_import_row_results) -> ledger b d' = ledger b d ++ [e].
Proof.
  intros (stored & _ & _ & E & _)%write_entry_Ok Hids. unfold ledger.
  rewrite (batch_rows_insert b d d' _ _ Hids E), fmap_app. cbn [entry_row row_batch_id]. rewrite Z.eqb_refl.
  cbn. by destruct e.
Qed.

Lemma write_entry_progress b total e device_id test numbers loaded batch d d' :
  write_entry b e device_id test loaded batch d = Ok ((), d') ->
  summary batch = summary (bump (entry_status e) loaded) ->
  progress b total numbers loaded d -> progress b total (numbers ++ [entry_row_number e]) batch d'.
Proof.
  intros Hw Hsum [Hids Hnum (x & Hx & Ex) Htot Himp Hskip Herr].
  pose proof (write_entry_ledger _ _ _ _ _ _ _ _ Hw Hids) as Hled.
  apply write_entry_Ok in Hw as (stored & Hs & Eb & Er & En & _).
  assert (stored = x) as -> by congruence.
  assert (Hs5 : import_filename batch = import_filename loaded /\ import_total_rows batch = import_total_rows loaded).
  { unfold summary in Hsum. injection Hsum as -> -> _ _ _. by destruct (entry_status e). }
  split.
  - rewrite Er, En. by apply ids_below_insert.
  - by rewrite Hled, fmap_app, Hnum.
  - exists (flush_import_batch loaded batch x). rewrite Eb, lookup_insert_eq. split; [done|].
    apply flush_summary; tauto.
  - destruct Hs5 as [_ ->]. exact Htot.
  - rewrite Hled, status_count_snoc, <- Himp. injection Hsum as _ _ -> _ _. destruct (entry_status e); repeat case_decide; try done; cbn; lia.
  - rewrite Hled, status_count_snoc, <- Hskip. injection Hsum as _ _ _ -> _. destruct (entry_status e); repeat case_decide; try done; cbn; lia.
  - rewrite Hled, status_count_snoc, <- Herr. injection Hsum as _ _ _ _ ->. destruct (entry_status e); repeat case_decide; try done; cbn; lia.
Qed.

Lemma progress_reload b total numbers batch d stored :
  import_batches d !! b = Some stored -> progress b total numbers batch d -> progress b total numbers stored d.
Proof.
  intros Hs [Hids Hnum (x & Hx & Ex) Htot Himp Hskip Herr]. assert (x = stored) as -> by congruence.
  apply summary_eq in Ex as (_ & E2 & E3 & E4 & E5). split; try done; [by exists stored|congruence..].
Qed.

Lemma write_then_ret b e device_id test loaded batch d :
  (let* batch' := write_batch b loaded batch in
   do* add_row_result b (entry_row_number e) (entry_device_name e) (entry_host e) device_id (entry_status e)
         (entry_message e) test then
   tx_ret batch') d =
  (do* write_entry b e device_id test loaded batch then tx_ret batch) d.
Proof.
  unfold write_entry, tx_bind, write_batch. destruct (import_batches d !! b); [|done].
  by destruct (add_row_result _ _ _ _ _ _ _ _ _) as [[[] ?]|].
Qed.

(** ** Storing a row *)

Section imports.
Context `{UnicodeCase, PgLower}.

Lemma create_cluster_frame name interval enabled now d i d' :
  create_cluster name None None interval enabled now d = Ok (i, d') ->
  import_view d' = import_view d /\ devices d' = devices d /\ next_id d' T_devices = next_id d T_devices /\
  exists normalized, normalize_cluster_name name = Ok normalized /\
    clusters d' = <[i := new_cluster normalized None interval enabled now]> (clusters d).
Proof.
  unfold create_cluster. destruct (normalize_cluster_name name) as [normalized|e] eqn:En; [|done].
  destruct (find_cluster_by_name normalized d) as [[j|]|e] eqn:Ef; [done| |done].
  case_bool_decide; [done|]. cbn [take_id]. unfold tx_bind, replace_internal_networks. cbn [default].
  set (e := (d <| next_id := _ |>) <| clusters := _ |>). cbn. intros [= <- <-]. split_and!; [done..|].
  exists normalized. by split_and!.
Qed.

Lemma row_cluster_frame p now d c d' :
  row_cluster p now d = Ok (c, d') ->
  import_view d' = import_view d /\ devices d' = devices d /\ next_id d' T_devices = next_id d T_devices.
Proof.
  unfold row_cluster. destruct (parsed_cluster_name p) as [|ch name]; [by intros [= _ <-]|].
  destruct (find_cluster_by_name _ d) as [[i|]|e]; [by intros [= _ <-]| |done].
  intros (i & d1 & Hc & [= _ <-])%tx_bind_Ok. apply create_cluster_frame in Hc. tauto.
Qed.

Lemma add_device_Ok x d i d' :
  add_device x d = Ok (i, d') <->
  select_ids (same_identity (device_host x) (device_port x) (device_username x)) (devices d) = ∅ /\
  i = next_id d T_devices /\
  d' = (take_id T_devices d).2 <| devices := <[i := x]> (devices d) |>.
Proof. unfold add_device. case_decide; cbn [take_id]; naive_solver. Qed.

(** The entry and the session's object of a duplicate row. *)
Definition duplicate_entry (n : Z) (p : ParsedRow) : RowEntry :=
  if bool_decide (parsed_password p = [])
  then mkEntry n ROW_ERROR (u "设备已存在，未修改集群归属") (Some (parsed_name p)) (Some (parsed_host p))
  else mkEntry n ROW_SKIPPED (u "设备已存在，已跳过") (Some (parsed_name p)) (Some (parsed_host p)).

Lemma store_duplicate_eq b n p i batch d :
  store_duplicate b n p i batch d =
  (do* write_entry b (duplicate_entry n p) (Some i) TEST_NOT_APPLICABLE batch
         (bump (entry_status (duplicate_entry n p)) batch) then
   tx_ret (bump (entry_status (duplicate_entry n p)) batch)) d.
Proof.
  unfold store_duplicate, duplicate_entry. rewrite <- write_then_ret.
  destruct (bool_decide (parsed_password p = []));
    cbn [entry_status entry_row_number entry_device_name entry_host entry_message bump]; reflexivity.
Qed.

Definition imported_entry (n : Z) (p : ParsedRow) : RowEntry :=
  mkEntry n ROW_IMPORTED
    (if negb (bool_decide (parsed_password p = [])) then u "导入成功，等待连接测试" else u "仅标注集群设备，不执行连接测试")
    (Some (parsed_name p)) (Some (parsed_host p)).

Definition imported_batch (p : ParsedRow) (batch : ImportBatch) : ImportBatch :=
  let batch1 := bump ROW_IMPORTED batch in
  if negb (bool_decide (parsed_password p = []))
  then batch1 <| import_test_pending_rows := import_test_pending_rows batch1 + 1 |> else batch1.

Definition imported_test (p : ParsedRow) : ImportTestStatus :=
  if negb (bool_decide (parsed_password p = [])) then TEST_PENDING else TEST_NOT_APPLICABLE.

Context (encrypt : text -> option text).

Lemma store_device_Ok b n p batch now d batch' d' :
  store_device encrypt b n p batch now d = Ok (batch', d') <->
  exists c d1 token x i d2 d3,
    row_cluster p now d = Ok (c, d1) /\ encrypt (parsed_password p) = Some token /\
    x = new_device p c (c ≫= fun i => clusters d1 !! i) token now /\
    add_device x d1 = Ok (i, d2) /\
    write_entry b (imported_entry n p) (Some i) (imported_test p) batch (imported_batch p batch) d2 = Ok ((), d3) /\
    batch' = imported_batch p batch /\ d' = notify_topology_changed d3.
Proof.
  unfold store_device, write_entry. rewrite tx_bind_Ok. setoid_rewrite tx_bind_Ok. split.
  - intros (c & d1 & Hc & cl & d1' & [= <- <-] & Hr). apply tx_bind_Ok in Hr as (token & d1' & Ht & Hr).
    unfold encrypt_password in Ht. destruct (encrypt (parsed_password p)) as [token'|] eqn:Ee; [|done].
    injection Ht as -> <-. apply tx_bind_Ok in Hr as (i & d2 & Ha & Hr).
    exists c, d1, token. eexists _, i, d2. apply tx_bind_Ok in Hr as (x & d3 & Hw & Hr).
    apply tx_bind_Ok in Hr as ([] & d4 & Hadd & Hr). unfold tx_bind, tx_modify, tx_ret in Hr. injection Hr as <- <-.
    destruct (proj1 (write_batch_Ok b batch (imported_batch p batch) d2 x d3) Hw) as (_ & _ & Ex & _).
    exists d4. split; [exact Hc|]. split; [reflexivity|]. split; [reflexivity|]. split; [exact Ha|].
    split; [|split; [exact Ex|reflexivity]]. exists x, d3. split; [exact Hw|exact Hadd].
  - intros (c & d1 & token & x & i & d2 & d3 & Hc & Ht & -> & Ha & Hw & -> & ->).
    exists c, d1. split; [done|]. eexists _, d1. split; [reflexivity|]. apply (proj2 (tx_bind_Ok _ _ _ _)). exists token, d1.
    unfold encrypt_password. rewrite Ht. split; [done|]. apply (proj2 (tx_bind_Ok _ _ _ _)). exists i, d2. split; [done|].
    destruct Hw as (y & d4 & Hwb & Hadd).
    apply (proj2 (tx_bind_Ok _ _ _ _)). exists y, d4. split; [exact Hwb|]. apply (proj2 (tx_bind_Ok _ _ _ _)). exists (), d3. split; [exact Hadd|].
    apply write_batch_Ok in Hwb as (? & _ & -> & _). reflexivity.
Qed.

Definition error_entry (n : Z) (parsed : result exn ParsedRow) (e : exn) : RowEntry :=
  mkEntry n ROW_ERROR (row_error_message e)
    (match parsed with Ok p => Some (parsed_name p) | Raise _ => None end)
    (match parsed with Ok p => Some (parsed_host p) | Raise _ => None end).

Lemma record_row_error_eq b n parsed e d stored :
  import_batches d !! b = Some stored ->
  record_row_error b n (match parsed with Ok p => Some (parsed_name p) | Raise _ => None end)
    (match parsed with Ok p => Some (parsed_host p) | Raise _ => None end) e d =
  (do* write_entry b (error_entry n parsed e) None TEST_NOT_APPLICABLE stored (bump ROW_ERROR stored) then
   tx_ret (bump ROW_ERROR stored)) d.
Proof. intros Hs. unfold record_row_error. rewrite Hs, <- write_then_ret.
  unfold error_entry. cbn [entry_status entry_row_number entry_device_name entry_host entry_message bump]. reflexivity.
Qed.

Lemma write_ret_Ok {A} b e device_id test loaded batch (a : A) d r d' :
  (do* write_entry b e device_id test loaded batch then tx_ret a) d = Ok (r, d') <->
  write_entry b e device_id test loaded batch d = Ok ((), d') /\ r = a.
Proof.
  rewrite tx_bind_Ok. split; [intros ([] & d1 & Hw & [= <- <-]); done|]. intros [Hw ->]. by exists (), d'.
Qed.
End imports.

(** ** Every row is accounted for *)

Section accounting.
Context `{UnicodeCase, PgLower, UnicodeDigits}.
Context (load_workbook : list N -> option (list (text * list (list Cell)))) (encrypt : text -> option text).
Context (before during : Phase -> Db -> Db) (fault : Phase -> option raised) (wall : Phase -> Z).

Lemma imported_batch_summary p batch : summary (imported_batch p batch) = summary (bump ROW_IMPORTED batch).
Proof. unfold imported_batch. by destruct (negb _). Qed.

Lemma store_device_entry b n p batch now d batch' d' :
  store_device encrypt b n p batch now d = Ok (batch', d') ->
  exists i d2 d3, import_view d2 = import_view d /\ import_view d' = import_view d3 /\
    write_entry b (imported_entry n p) (Some i) (imported_test p) batch (imported_batch p batch) d2 = Ok ((), d3) /\
    batch' = imported_batch p batch.
Proof.
  intros (c & d1 & token & x & i & d2 & d3 & Hc & _ & _ & Ha & Hw & Hb & ->)%store_device_Ok.
  exists i, d2, d3. apply row_cluster_frame in Hc as (<- & _). apply add_device_Ok in Ha as (_ & _ & ->).
  by split_and!.
Qed.

Lemma duplicate_entry_number n p : entry_row_number (duplicate_entry n p) = n.
Proof. unfold duplicate_entry. by destruct (bool_decide (parsed_password p = [])). Qed.

Lemma store_row_progress b total n parsed d0 batch now d batch' d' numbers :
  store_row encrypt b n parsed d0 batch now d = Ok (batch', d') ->
  progress b total numbers batch d -> progress b total (numbers ++ [n]) batch' d'.
Proof.
  unfold store_row. destruct parsed as [p|]; [|done]. destruct (find_duplicate p d0) as [i|].
  - rewrite store_duplicate_eq, write_ret_Ok. intros [Hw ->] Hp.
    pose proof (write_entry_progress _ _ _ _ _ _ _ _ _ _ Hw eq_refl Hp) as Hp'. by rewrite duplicate_entry_number in Hp'.
  - intros (i & d2 & d3 & V1 & V2 & Hw & ->)%store_device_entry Hp. apply (progress_view _ _ _ _ d3 _ V2).
    eapply (write_entry_progress b total (imported_entry n p)); [exact Hw|exact (imported_batch_summary p batch)|].
    by apply (progress_view _ _ _ _ d).
Qed.

Lemma record_row_error_progress b total n (parsed : result exn ParsedRow) e batch d batch' d' numbers :
  record_row_error b n (match parsed with Ok p => Some (parsed_name p) | Raise _ => None end)
    (match parsed with Ok p => Some (parsed_host p) | Raise _ => None end) e d = Ok (batch', d') ->
  progress b total numbers batch d -> progress b total (numbers ++ [n]) batch' d'.
Proof.
  intros He Hp. destruct (progress_stored _ _ _ _ _ Hp) as (stored & Hs & _).
  rewrite (record_row_error_eq b n parsed e d stored Hs), write_ret_Ok in He. destruct He as [Hw ->].
  eapply (write_entry_progress b total (error_entry n parsed e)); [exact Hw|done|]. by eapply progress_reload.
Qed.

Context (b total : Z).
Context (Hbefore : forall ph d, rely b d (before ph d)) (Hduring : forall ph d, rely b d (during ph d)).

Lemma import_row_progress row batch d numbers :
  progress b total numbers batch d ->
  match import_row encrypt before during fault wall b row batch d with
  | (Ok batch', d') => progress b total (numbers ++ [row.1]) batch' d'
  | (Raise _, d') => progress b total numbers batch d'
  end.
Proof.
  intros Hp. destruct row as [n values]. unfold import_row. set (d1 := during _ _).
  assert (Hp1 : progress b total numbers batch d1).
  { eapply progress_rely; [|apply Hduring]. eapply progress_rely; [|apply Hbefore]. exact Hp. }
  destruct (fault (AtRow n)); [done|].
  destruct (store_row _ _ _ _ _ _ _ d1) as [[batch' d']|e] eqn:Es.
  - by eapply store_row_progress.
  - destruct (record_row_error _ _ _ _ _ d1) as [[batch' d']|e'] eqn:Er; [|done].
    by eapply record_row_error_progress.
Qed.

Lemma import_rows_progress rows batch d numbers :
  progress b total numbers batch d ->
  match import_rows encrypt before during fault wall b rows batch d with
  | (Ok batch', d') => progress b total (numbers ++ rows.*1) batch' d'
  | (Raise _, d') => exists k batch', progress b total (numbers ++ take k rows.*1) batch' d'
  end.
Proof.
  revert batch d numbers. induction rows as [|row rows IH]; intros batch d numbers Hp.
  { cbn. by rewrite app_nil_r. }
  cbn [import_rows]. pose proof (import_row_progress row batch d numbers Hp) as Hrow.
  destruct (import_row _ _ _ _ _ b row batch d) as [[batch1|e] d1].
  - specialize (IH batch1 d1 _ Hrow). destruct (import_rows _ _ _ _ _ b rows batch1 d1) as [[batch2|e] d2].
    + by rewrite fmap_cons, cons_middle, app_assoc.
    + destruct IH as (k & batch' & IH). exists (S k), batch'. by rewrite fmap_cons, firstn_cons, cons_middle, app_assoc.
  - exists O, batch. cbn. by rewrite app_nil_r.
Qed.

Lemma finish_import_progress batch d numbers :
  progress b total numbers batch d ->
  match finish_import before fault wall b batch d with
  | (Ok batch', d') => progress b total numbers batch' d' /\ import_batches d' !! b = Some batch'
  | (Raise _, d') => progress b total numbers batch d'
  end.
Proof.
  intros Hp. unfold finish_import. set (d0 := before Finishing d).
  assert (Hp0 : progress b total numbers batch d0) by (eapply progress_rely; [exact Hp|apply Hbefore]).
  destruct (fault Finishing); [done|]. destruct (progress_stored _ _ _ _ _ Hp0) as (stored & Hs & Esum).
  set (new := flush_import_batch batch (finished_import wall batch) stored).
  set (d1 := d0 <| import_batches := <[b := new]> (import_batches d0) |>).
  assert (Hw : write_batch b batch (finished_import wall batch) d0 = Ok (finished_import wall batch, d1))
    by (unfold write_batch; by rewrite Hs).
  assert (Hnew : import_batches d1 !! b = Some new) by apply lookup_insert_eq.
  rewrite Hw, Hnew. cbn [default id].
  assert (Enew : summary new = summary batch).
  { assert (Ef : import_filename (finished_import wall batch) = import_filename batch /\
      import_total_rows (finished_import wall batch) = import_total_rows batch /\
      summary (finished_import wall batch) = summary batch) by (unfold finished_import; by case_decide).
    destruct Ef as (E1 & E2 & <-). by apply flush_summary. }
  split; [|reflexivity].
  destruct Hp0 as [Hids Hnum _ Htot Himp Hskip Herr]. apply summary_eq in Enew as (E1 & E2 & E3 & E4 & E5).
  assert (El : ledger b d1 = ledger b d0) by done.
  split; [exact Hids|by rewrite El| |by rewrite E2|by rewrite E3, El|by rewrite E4, El|by rewrite E5, El].
  exists new. split; [exact Hnew|done].
Qed.
End accounting.

(** ** The theorems *)

(** What the database holds of batch [b] when the rows of [numbers] were stored. *)
Record accounted (b : Z) (numbers : list Z) (total : Z) (batch : ImportBatch) (d : Db) : Prop := {
  accounted_rows : entry_row_number <$> ledger b d = numbers;
  accounted_stored : import_batches d !! b = Some batch;
  accounted_total : import_total_rows batch = total;
  accounted_imported : import_imported_rows batch = status_count ROW_IMPORTED (ledger b d);
  accounted_skipped : import_skipped_rows batch = status_count ROW_SKIPPED (ledger b d);
  accounted_error : import_error_rows batch = status_count ROW_ERROR (ledger b d);
  accounted_sum : import_imported_rows batch + import_skipped_rows batch + import_error_rows batch =
    Z.of_nat (length numbers)
}.

Lemma progress_accounted b total numbers batch d :
  progress b total numbers batch d -> import_batches d !! b = Some batch -> accounted b numbers total batch d.
Proof.
  intros [Hids Hnum _ Htot Himp Hskip Herr] Hb. split; try done.
  by rewrite Himp, Hskip, Herr, status_count_total, <- Hnum, length_fmap.
Qed.

Lemma progress_stored_accounted b total numbers batch d :
  progress b total numbers batch d -> exists stored, accounted b numbers total stored d.
Proof.
  intros Hp. destruct (progress_stored _ _ _ _ _ Hp) as (stored & Hs & _). exists stored.
  apply progress_accounted; [by eapply progress_reload|done].
Qed.

(** The identifiers of the import tables, and the foreign key of their rows. *)
Record import_ids (d : Db) : Prop := {
  ids_batches : ids_below (import_batches d) (next_id d T_import_batches);
  ids_rows : ids_below (import_row_results d) (next_id d T_import_row_results);
  ids_parent : map_Forall (fun _ r => is_Some (import_batches d !! row_batch_id r)) (import_row_results d)
}.

Lemma new_batch_ledger d : import_ids d -> ledger (next_id d T_import_batches) d = [].
Proof.
  intros [Hb _ Hp]. unfold ledger, batch_rows, batch_row_ids.
  replace (select_ids _ _) with (∅ : gset Z); [done|]. symmetry. apply set_eq. intros i.
  rewrite elem_of_select_ids, elem_of_empty. split; [|done]. intros (r & Hr & E%Z.eqb_eq).
  specialize (Hp i r Hr). cbn in Hp. rewrite E, (ids_below_fresh _ _ Hb) in Hp. by destruct Hp.
Qed.

Lemma created_progress wall filename total d :
  import_ids d ->
  let b := next_id d T_import_batches in
  let batch := new_import_batch wall filename total in
  progress b total [] batch ((take_id T_import_batches d).2 <| import_batches := <[b := batch]> (import_batches d) |>).
Proof.
  intros Hi b batch. set (d1 := _ <| import_batches := _ |>).
  assert (El : ledger b d1 = []) by exact (new_batch_ledger d Hi).
  split; rewrite ?El; [|done| |done..].
  - apply ids_rows in Hi. exact Hi.
  - exists batch. split; [apply lookup_insert_eq|done].
Qed.

Section theorems.
Context `{UnicodeCase, PgLower, UnicodeDigits}.
Context (load_workbook : list N -> option (list (text * list (list Cell)))) (encrypt : text -> option text).
Context (before during : Phase -> Db -> Db) (fault : Phase -> option raised) (wall : Phase -> Z).

(** C14. Every row of an imported file is accounted for, whatever other sessions commit in
    the meantime, as long as they keep the batch's ledger and summary.  An import that
    returns leaves one row result per row, in the order of the sheet, and a batch whose
    imported, skipped and failed rows are those of the results and add up to its total.
    One that is stopped by a database error leaves the same for the rows before
    the error, or no batch at all. *)
Theorem import_accounts_every_row filename content rows d :
  let d0 := before Creating d in
  let b := next_id d0 T_import_batches in
  let total := Z.of_nat (length rows) in
  _load_rows load_workbook filename content = Ok rows -> import_ids d0 ->
  (forall ph e, rely b e (before ph e)) -> (forall ph e, rely b e (during ph e)) ->
  match import_devices load_workbook encrypt before during fault wall filename content d with
  | (Ok (b', batch), d') => b' = b /\ accounted b rows.*1 total batch d'
  | (Raise _, d') => d' = d0 \/ exists k batch, accounted b (take k rows.*1) total batch d'
  end.
Proof.
  intros d0 b total Hrows Hids Hbefore Hduring. unfold import_devices. rewrite Hrows. fold d0.
  destruct (fault Creating); [by left|]. cbn [take_id]. fold b. fold total.
  pose proof (created_progress wall filename total d0 Hids) as Hp. cbn zeta in Hp. fold b in Hp.
  set (batch := new_import_batch wall filename total) in *.
  set (d1 := _ <| import_batches := _ |>) in *.
  pose proof (import_rows_progress encrypt before during fault wall b total Hbefore Hduring rows batch d1 [] Hp) as Hr.
  destruct (import_rows _ _ _ _ _ b rows batch d1) as [[batch1|e] d2].
  - pose proof (finish_import_progress before fault wall b total Hbefore batch1 d2 _ Hr) as Hf.
    destruct (finish_import before fault wall b batch1 d2) as [[batch2|e] d3].
    + destruct Hf as [Hf Hb2]. split; [done|]. by apply progress_accounted.
    + right. exists (length rows.*1). rewrite take_ge by lia. by eapply progress_stored_accounted.
  - right. destruct Hr as (k & batch' & Hr). exists k. by eapply progress_stored_accounted.
Qed.

End theorems.
