(* ===== verification/ImportOutcomes.v ===== *)
(** * Importing devices: what becomes of a row, and importing a file twice *)

From S2P Require Import Prelude PyText Models Exceptions DatabaseTransactions Clusters ImportFiles ImportFileTheorems Imports ImportDeviceTheorems.

(** ** Identities of devices *)

Lemma find_duplicate_Some p d i :
  find_duplicate p d = Some i ->
  exists x, devices d !! i = Some x /\ device_host x = parsed_host p /\ device_port x = parsed_port p /\
    device_username x = parsed_username p.
Proof.
  unfold find_duplicate. intros Hh.
  assert (Hin : i ∈ select_ids (same_identity (parsed_host p) (parsed_port p) (parsed_username p)) (devices d)).
  { rewrite <- elem_of_sorted_ids. destruct (sorted_ids _); [done|]. injection Hh as ->. left. }
  apply elem_of_select_ids in Hin as (x & Hx & E%bool_decide_eq_true). eauto.
Qed.

Lemma find_duplicate_None p d :
  find_duplicate p d = None <->
  forall i x, devices d !! i = Some x ->
    ~ (device_host x = parsed_host p /\ device_port x = parsed_port p /\ device_username x = parsed_username p).
Proof.
  unfold find_duplicate. set (X := select_ids _ (devices d)). split.
  - intros Hh i x Hx Heq. assert (Hin : i ∈ sorted_ids X).
    { apply elem_of_sorted_ids, elem_of_select_ids. exists x. split; [done|]. by apply bool_decide_eq_true. }
    destruct (sorted_ids X); [by apply elem_of_nil in Hin|done].
  - intros Hall. destruct (sorted_ids X) as [|i l] eqn:E; [done|].
    assert (Hin : i ∈ sorted_ids X) by (rewrite E; left).
    apply elem_of_sorted_ids, elem_of_select_ids in Hin as (x & Hx & Heq%bool_decide_eq_true). by destruct (Hall i x Hx).
Qed.

(** No two devices have the same host, port and user name. *)
Definition devices_unique (m : gmap Z Device) : Prop :=
  forall i j x y, m !! i = Some x -> m !! j = Some y ->
    device_host x = device_host y -> device_port x = device_port y -> device_username x = device_username y -> i = j.

Lemma no_identity_insert (m : gmap Z Device) i x :
  devices_unique m -> select_ids (same_identity (device_host x) (device_port x) (device_username x)) m = ∅ ->
  devices_unique (<[i := x]> m).
Proof.
  intros Hu He. assert (Hno : forall j y, m !! j = Some y ->
    ~ (device_host y = device_host x /\ device_port y = device_port x /\ device_username y = device_username x)).
  { intros j y Hy Heq. apply (not_elem_of_empty (C := gset Z) j). rewrite <- He. apply elem_of_select_ids.
    exists y. split; [done|]. by apply bool_decide_eq_true. }
  intros j k y z [[<- <-]|[? Hy]]%lookup_insert_Some [[<- <-]|[? Hz]]%lookup_insert_Some E1 E2 E3; [done| | |eauto].
  - by destruct (Hno k z Hz).
  - by destruct (Hno j y Hy).
Qed.

(** ** The device a row describes *)

(** Device [x] is the one the row describes, in the cluster the row names and with the
    scan policy of that cluster. *)
Record describes `{UnicodeCase, PgLower} (encrypt : text -> option text) (p : ParsedRow) (d : Db) (x : Device) : Prop := {
  describes_name : device_name x = parsed_name p;
  describes_host : device_host x = parsed_host p;
  describes_os : device_os_type x = parsed_os_type p;
  describes_port : device_port x = parsed_port p;
  describes_username : device_username x = parsed_username p;
  describes_password : encrypt (parsed_password p) = Some (device_encrypted_password x);
  describes_collection : device_collection_enabled x = true <-> parsed_password p ≠ [];
  describes_cluster :
    match device_cluster_id x with
    | None => parsed_cluster_name p = [] /\
        device_scan_interval_minutes x = parsed_scan_interval_minutes p /\
        device_scheduled_enabled x = parsed_scheduled_enabled p
    | Some c => parsed_cluster_name p ≠ [] /\
        exists cluster, clusters d !! c = Some cluster /\
          pg_lower (cluster_name cluster) = lower (parsed_cluster_name p) /\
          device_scan_interval_minutes x = cluster_scan_interval_minutes cluster /\
          device_scheduled_enabled x = cluster_scheduled_enabled cluster
    end
}.

Lemma new_device_identity p c cl token now :
  let x := new_device p c cl token now in
  device_host x = parsed_host p /\ device_port x = parsed_port p /\ device_username x = parsed_username p.
Proof. unfold new_device. destruct (cluster_scan_values cl _ _) as [interval enabled]. by split_and!. Qed.

Section outcomes.
Context `{UnicodeCase, PgLower}.
(** The database lower-cases names as Python does. *)
Context (Hlower : forall s, pg_lower s = lower s).

Lemma row_cluster_spec p now d c d' :
  strip (parsed_cluster_name p) = parsed_cluster_name p ->
  row_cluster p now d = Ok (c, d') ->
  match c with
  | None => parsed_cluster_name p = [] /\ d' = d
  | Some i => parsed_cluster_name p ≠ [] /\
      exists cluster, clusters d' !! i = Some cluster /\ pg_lower (cluster_name cluster) = lower (parsed_cluster_name p) /\
        (clusters d' = clusters d \/ clusters d' = <[i := cluster]> (clusters d) /\
           cluster_name cluster = parsed_cluster_name p /\
           cluster_scan_interval_minutes cluster = parsed_scan_interval_minutes p /\
           cluster_scheduled_enabled cluster = parsed_scheduled_enabled p)
  end.
Proof.
  unfold row_cluster. intros Hstrip. destruct (parsed_cluster_name p) as [|ch rest] eqn:En.
  { by intros [= <- <-]. }
  rewrite <- En in *. destruct (find_cluster_by_name (parsed_cluster_name p) d) as [[i|]|e] eqn:Ef; [| |done].
  - intros [= <- <-]. split; [by rewrite En|].
    destruct (normalize_cluster_name (parsed_cluster_name p)) as [n|] eqn:Ez;
      [|unfold find_cluster_by_name in Ef; by rewrite Ez in Ef].
    destruct (find_cluster_Some _ _ _ _ Ez Ef) as (cl & Hcl & Hname). exists cl.
    rewrite (strip_idempotent_name _ _ Ez), Hstrip in Hname. auto.
  - intros (i & d1 & Hc & [= <- <-])%tx_bind_Ok. split; [by rewrite En|].
    apply create_cluster_frame in Hc as (_ & _ & _ & n & Hn & Hcl).
    rewrite (strip_idempotent_name _ _ Hn), Hstrip in Hcl. eexists. rewrite Hcl, lookup_insert_eq.
    split; [done|]. cbn [cluster_name new_cluster]. split; [apply Hlower|]. right. by split_and!.
Qed.

Lemma new_device_describes encrypt p c d token now :
  encrypt (parsed_password p) = Some token ->
  match c with
  | None => parsed_cluster_name p = []
  | Some i => parsed_cluster_name p ≠ [] /\ exists cluster, clusters d !! i = Some cluster /\
      pg_lower (cluster_name cluster) = lower (parsed_cluster_name p)
  end ->
  describes encrypt p d (new_device p c (c ≫= fun i => clusters d !! i) token now).
Proof.
  intros Ht Hc. unfold new_device. destruct c as [i|]; cbn [mbind option_bind].
  - destruct Hc as (Hne & cl & Hcl & Hname). rewrite Hcl. cbn. split; try done; cbn.
    + rewrite negb_true_iff, bool_decide_eq_false. done.
    + split; [done|]. by exists cl.
  - cbn. split; try done; cbn. rewrite negb_true_iff, bool_decide_eq_false. done.
Qed.

Lemma row_cluster_total p now d : valid_row p -> exists c d', row_cluster p now d = Ok (c, d').
Proof.
  intros Hv. unfold row_cluster. destruct (parsed_cluster_name p) as [|ch rest] eqn:En; [eauto|].
  assert (Hok : field_ok false 100 (ch :: rest)) by (rewrite <- En; apply Hv).
  set (name := ch :: rest) in *. destruct Hok as (Hstrip & _ & Hlen).
  assert (Hn : normalize_cluster_name name = Ok name).
  { unfold normalize_cluster_name. rewrite Hstrip. unfold name at 1.
    by destruct (Z.ltb_spec 100 (Z.of_nat (length name))); [lia|]. }
  destruct (find_cluster_by_name name d) as [[i|]|e] eqn:Ef; [eauto| |].
  - unfold tx_bind, create_cluster. rewrite Hn, Ef, bool_decide_false; [by eexists _, _|].
    intros (i & c & Hc & Hname). apply (find_cluster_None name d name Hn Ef i c Hc). by rewrite Hname, Hlower.
  - unfold find_cluster_by_name in Ef. by rewrite Hn in Ef.
Qed.

Context (encrypt : text -> option text).

Lemma find_duplicate_select p d :
  find_duplicate p d = None <->
  select_ids (same_identity (parsed_host p) (parsed_port p) (parsed_username p)) (devices d) = ∅.
Proof.
  rewrite find_duplicate_None. split.
  - intros Hall. apply set_eq. intros i. rewrite elem_of_select_ids, elem_of_empty. split; [|done].
    intros (x & Hx & E%bool_decide_eq_true). by apply (Hall i x).
  - intros He i x Hx E. apply (not_elem_of_empty (C := gset Z) i). rewrite <- He. apply elem_of_select_ids.
    exists x. split; [done|]. by apply bool_decide_eq_true.
Qed.

Lemma store_device_outcome b n p batch now d batch' d' :
  valid_row p -> store_device encrypt b n p batch now d = Ok (batch', d') ->
  find_duplicate p d = None /\
  exists x, devices d' = <[next_id d T_devices := x]> (devices d) /\ describes encrypt p d' x /\
    (ids_below (import_row_results d) (next_id d T_import_row_results) ->
     ledger b d' = ledger b d ++ [imported_entry n p]).
Proof.
  intros Hv (c & d1 & token & x & i & d2 & d3 & Hc & Ht & -> & Ha & Hw & _ & ->)%store_device_Ok.
  pose proof (row_cluster_spec p now d c d1 (proj1 (valid_cluster _ Hv)) Hc) as Hs.
  apply row_cluster_frame in Hc as (V1 & D1 & N1). apply add_device_Ok in Ha as (He & -> & ->).
  pose proof Hw as Hw'. apply write_entry_Ok in Hw' as (stored & _ & _ & _ & _ & Ed & Ec & _).
  set (x := new_device _ _ _ _ _) in *.
  assert (Hid : device_host x = parsed_host p /\ device_port x = parsed_port p /\ device_username x = parsed_username p)
    by apply new_device_identity.
  destruct Hid as (E1 & E2 & E3). rewrite E1, E2, E3, D1 in He. split; [by apply find_duplicate_select|].
  exists x. change (devices (notify_topology_changed ?d)) with (devices d).
  split; [by rewrite Ed, <- N1, <- D1|]. split.
  - assert (Hx : describes encrypt p d1 x).
    { apply new_device_describes; [done|]. destruct c; [|by destruct Hs]. destruct Hs as (? & cl & ? & ? & _). eauto. }
    destruct Hx. split; try done. change (clusters (notify_topology_changed ?d)) with (clusters d). by rewrite Ec.
  - intros Hids. change (ledger b (notify_topology_changed ?d)) with (ledger b d).
    pose proof (ledger_view b d d1 V1) as <-. unfold import_view in V1. injection V1 as _ V2 V3 _.
    assert (Hids2 : ids_below (import_row_results d1) (next_id d1 T_import_row_results)) by (by rewrite V2, V3).
    exact (write_entry_ledger _ _ _ _ _ _ _ _ Hw Hids2).
Qed.

Lemma store_device_total b n p batch now d token :
  valid_row p -> find_duplicate p d = None -> encrypt (parsed_password p) = Some token ->
  is_Some (import_batches d !! b) ->
  exists batch' d', store_device encrypt b n p batch now d = Ok (batch', d').
Proof.
  intros Hv Hf Ht [stored Hb]. destruct (row_cluster_total p now d Hv) as (c & d1 & Hc).
  pose proof Hc as Hfr. apply row_cluster_frame in Hfr as (V1 & D1 & N1).
  set (x := new_device p c (c ≫= fun i => clusters d1 !! i) token now).
  assert (Hid : device_host x = parsed_host p /\ device_port x = parsed_port p /\ device_username x = parsed_username p)
    by apply new_device_identity.
  destruct Hid as (E1 & E2 & E3). apply find_duplicate_select in Hf.
  set (i := next_id d1 T_devices). set (d2 := (take_id T_devices d1).2 <| devices := <[i := x]> (devices d1) |>).
  assert (Ha : add_device x d1 = Ok (i, d2)) by (apply add_device_Ok; rewrite E1, E2, E3, D1; split_and!; [exact Hf|reflexivity|unfold d2; by rewrite D1]).
  destruct (write_entry_total b (imported_entry n p) (Some i) (imported_test p) batch (imported_batch p batch) d2)
    as [d3 Hw].
  - exists stored. change (import_batches d2) with (import_batches d1). unfold import_view in V1.
    injection V1 as V1 _ _ _. by rewrite V1.
  - intros j [= <-]. exists x. apply lookup_insert_eq.
  - eexists _, _. apply store_device_Ok. exists c, d1, token, x, i, d2, d3. by split_and!.
Qed.
End outcomes.
(** ** One row *)

(** Why a row ends in an error: it is refused as it stands, it would change an existing
    device's cluster, its password cannot be encrypted, or another session took the
    identity or removed the duplicate after it was looked up. *)
Definition row_error (encrypt : text -> option text) (parsed : result exn ParsedRow) (d0 d1 : Db) (message : text) : Prop :=
  match parsed with
  | Raise e => message = row_error_message e
  | Ok p =>
      match find_duplicate p d0 with
      | Some i => (parsed_password p = [] /\ message = u "设备已存在，未修改集群归属") \/
                  (devices d1 !! i = None /\ message = u "数据库写入冲突")
      | None => (encrypt (parsed_password p) = None /\ message = u "该行导入失败") \/
                (find_duplicate p d1 ≠ None /\ message = u "数据库写入冲突")
      end
  end.

Section rows.
Context `{UnicodeCase, PgLower, UnicodeDigits}.
Context (Hlower : forall s, pg_lower s = lower s).
Context (encrypt : text -> option text).
Context (before during : Phase -> Db -> Db) (fault : Phase -> option raised) (wall : Phase -> Z).

(** The [try] of a row: stored, or refused for one of the reasons. *)
Lemma store_device_refused b n p d0 batch now d e :
  valid_row p -> find_duplicate p d0 = None -> is_Some (import_batches d !! b) ->
  store_device encrypt b n p batch now d = Raise e ->
  row_error encrypt (Ok p) d0 d (row_error_message e).
Proof.
  intros Hv Hf Hb Hr. unfold row_error. rewrite Hf.
  destruct (row_cluster_total Hlower p now d Hv) as (c & d1 & Hc). pose proof Hc as Hfr.
  apply row_cluster_frame in Hfr as (_ & D1 & _).
  assert (Hdec : encrypt (parsed_password p) = None \/ find_duplicate p d ≠ None \/
    (is_Some (encrypt (parsed_password p)) /\ find_duplicate p d = None)).
  { destruct (encrypt (parsed_password p)); [|by left]. destruct (find_duplicate p d); [by right; left|]. right; right. eauto. }
  destruct Hdec as [He|[Hdup|[[token He] Hdup]]].
  - left. split; [done|]. unfold store_device, tx_bind in Hr. rewrite Hc in Hr. cbn [tx_get] in Hr.
    unfold encrypt_password in Hr. rewrite He in Hr. by injection Hr as <-.
  - destruct (encrypt (parsed_password p)) as [token|] eqn:He.
    + right. split; [done|]. unfold store_device, tx_bind in Hr. rewrite Hc in Hr. cbn [tx_get] in Hr.
      unfold encrypt_password in Hr. rewrite He in Hr. unfold add_device in Hr.
      destruct (new_device_identity p c (c ≫= fun i => clusters d1 !! i) token now) as (E1 & E2 & E3).
      rewrite E1, E2, E3, D1, decide_False in Hr by (by rewrite <- find_duplicate_select). by injection Hr as <-.
    + left. split; [done|]. unfold store_device, tx_bind in Hr. rewrite Hc in Hr. cbn [tx_get] in Hr.
      unfold encrypt_password in Hr. rewrite He in Hr. by injection Hr as <-.
  - destruct (store_device_total Hlower encrypt b n p batch now d token Hv Hdup He Hb) as (? & ? & E). congruence.
Qed.

Lemma store_duplicate_refused b n p i batch d e :
  is_Some (import_batches d !! b) -> store_duplicate b n p i batch d = Raise e ->
  devices d !! i = None /\ e = IntegrityError.
Proof.
  intros [stored Hb] Hr. rewrite store_duplicate_eq in Hr. unfold tx_bind, write_entry, tx_bind, write_batch in Hr.
  rewrite Hb in Hr. unfold add_row_result in Hr.
  change (devices (?x <| import_batches := _ |>)) with (devices x) in Hr.
  destruct (bool_decide (devices d !! i = None)) eqn:E; [|done]. apply bool_decide_eq_true in E.
  by injection Hr as <-.
Qed.

Lemma store_row_refused b n values d0 batch now d e :
  is_Some (import_batches d !! b) ->
  store_row encrypt b n (_parse_row values) d0 batch now d = Raise e ->
  row_error encrypt (_parse_row values) d0 d (row_error_message e).
Proof.
  intros Hb. unfold store_row, row_error. destruct (_parse_row values) as [p|e'] eqn:Ep; [|by intros [= <-]].
  pose proof (parse_row_valid _ _ Ep) as Hv. destruct (find_duplicate p d0) as [i|] eqn:Ef.
  - intros (? & ->)%store_duplicate_refused; [|done]. by right.
  - intros Hr. pose proof (store_device_refused b n p d0 batch now d e Hv Ef Hb Hr) as Hx.
    unfold row_error in Hx. by rewrite Ef in Hx.
Qed.

(** What becomes of a row.  Without a database error it always gets a result, which says
    what happened: an imported row added exactly the device it describes, in the cluster
    it names (created from the row's policy when there was none) and with the policy of
    that cluster; a skipped row has a password and a device with its identity existed; a
    failed row has one of the four reasons.  In the last two cases no device and no
    cluster changed. *)
Theorem import_row_outcome b n values batch d :
  let d0 := before (AtRow n) d in
  let d1 := during (AtRow n) d0 in
  fault (AtRow n) = None -> is_Some (import_batches d1 !! b) ->
  ids_below (import_row_results d1) (next_id d1 T_import_row_results) ->
  exists batch' d' e, import_row encrypt before during fault wall b (n, values) batch d = (Ok batch', d') /\
    ledger b d' = ledger b d1 ++ [e] /\ entry_row_number e = n /\
    match entry_status e with
    | ROW_IMPORTED => exists p x, _parse_row values = Ok p /\ find_duplicate p d0 = None /\ find_duplicate p d1 = None /\
        devices d' = <[next_id d1 T_devices := x]> (devices d1) /\ describes encrypt p d' x
    | ROW_SKIPPED => (exists p, _parse_row values = Ok p /\ parsed_password p ≠ [] /\ find_duplicate p d0 ≠ None) /\
        devices d' = devices d1 /\ clusters d' = clusters d1
    | ROW_ERROR => row_error encrypt (_parse_row values) d0 d1 (entry_message e) /\
        devices d' = devices d1 /\ clusters d' = clusters d1
    end.
Proof.
  intros d0 d1 Hfault Hb Hids. unfold import_row. rewrite Hfault. fold d0. fold d1.
  destruct (store_row encrypt b n (_parse_row values) d0 batch (wall (AtRow n)) d1) as [[batch' d']|e] eqn:Es.
  - exists batch', d'. unfold store_row in Es. destruct (_parse_row values) as [p|] eqn:Ep; [|done].
    destruct (find_duplicate p d0) as [i|] eqn:Ef.
    + rewrite store_duplicate_eq, write_ret_Ok in Es. destruct Es as [Hw ->]. exists (duplicate_entry n p).
      pose proof (write_entry_ledger _ _ _ _ _ _ _ _ Hw Hids) as Hl. apply write_entry_Ok in Hw as (st & _ & _ & _ & _ & Ed & Ec & _).
      split; [done|]. split; [done|]. split; [apply duplicate_entry_number|]. unfold duplicate_entry.
      destruct (bool_decide (parsed_password p = [])) eqn:Epw; cbn [entry_status entry_message].
      * split; [|done]. unfold row_error. rewrite Ef. left. apply bool_decide_eq_true in Epw. split; [exact Epw|reflexivity].
      * apply bool_decide_eq_false in Epw. split; [|done]. exists p. split_and!; [reflexivity|exact Epw|by rewrite Ef].
    + pose proof (parse_row_valid _ _ Ep) as Hv.
      destruct (store_device_outcome Hlower encrypt b n p _ _ d1 _ _ Hv Es) as (Hd1 & x & Hdev & Hx & Hl).
      exists (imported_entry n p). split; [done|]. split; [by apply Hl|]. split; [done|]. cbn [entry_status imported_entry].
      exists p, x. by split_and!.
  - pose proof (store_row_refused b n values d0 batch _ d1 e Hb Es) as Hwhy. destruct Hb as [stored Hb].
    rewrite (record_row_error_eq b n (_parse_row values) e d1 stored Hb).
    set (en := error_entry n (_parse_row values) e).
    destruct (write_entry_total b en None TEST_NOT_APPLICABLE stored (bump ROW_ERROR stored) d1) as [d2 Hw]; [by exists stored|done|].
    unfold tx_bind, tx_ret. rewrite Hw. exists (bump ROW_ERROR stored), d2, en. split; [done|].
    split; [exact (write_entry_ledger _ _ _ _ _ _ _ _ Hw Hids)|]. split; [done|]. cbn [en entry_status error_entry entry_message].
    apply write_entry_Ok in Hw as (st & _ & _ & _ & _ & Ed & Ec & _). split; [exact Hwhy|done].
Qed.
End rows.
