(* ===== verification/ImportAlone.v ===== *)
(** * Importing without other sessions

    Importing a file a second time adds nothing, and the tests of a batch are counted
    right when no test ran before the import was finished. *)

From S2P Require Import Prelude PyText Models Exceptions LeaseSpec ImportTestLeases DatabaseTransactions Clusters ImportFiles ImportFileTheorems Imports ImportDeviceTheorems ImportOutcomes.

(** ** Identifiers *)

(** The identifiers an import takes are new. *)
Definition ids_wf (d : Db) : Prop := import_ids d /\ ids_below (devices d) (next_id d T_devices).

Lemma import_ids_view d d' : import_view d' = import_view d -> import_ids d -> import_ids d'.
Proof. intros E [H1 H2 H3]. injection E as E1 E2 E3 E4. split; by rewrite ?E1, ?E2, ?E3, ?E4. Qed.

Lemma write_entry_ids b e device_id test loaded batch d d' :
  write_entry b e device_id test loaded batch d = Ok ((), d') -> ids_wf d -> ids_wf d'.
Proof.
  intros (stored & Hs & Eb & Er & En & Ed & _ & Nb & Nd)%write_entry_Ok [[H1 H2 H3] H4].
  split; [|by rewrite Ed, Nd].
  assert (Hdom : forall i, is_Some (import_batches d !! i) -> is_Some (import_batches d' !! i)).
  { intros i Hi. rewrite Eb. destruct (decide (b = i)) as [->|Hne]; [by rewrite lookup_insert_eq|by rewrite lookup_insert_ne]. }
  split.
  - rewrite Eb, Nb. intros i x [[<- <-]|[_ Hx]]%lookup_insert_Some; [by apply (H1 b stored)|by apply (H1 i x)].
  - rewrite Er, En. by apply ids_below_insert.
  - rewrite Er. intros i r [[<- <-]|[_ Hr]]%lookup_insert_Some; apply Hdom; [by exists stored|by apply (H3 i)].
Qed.

Lemma batch_ids b batch d :
  is_Some (import_batches d !! b) -> ids_wf d -> ids_wf (d <| import_batches := <[b := batch]> (import_batches d) |>).
Proof.
  intros [stored Hs] [[H1 H2 H3] H4]. split; [|exact H4]. split; [|exact H2|].
  - intros i x Hx. change (<[b := batch]> (import_batches d) !! i = Some x) in Hx.
    apply lookup_insert_Some in Hx as [[<- <-]|[_ Hx]]; [by apply (H1 b stored)|by apply (H1 i x)].
  - intros i r Hr. change (is_Some (<[b := batch]> (import_batches d) !! row_batch_id r)).
    destruct (decide (b = row_batch_id r)) as [->|?]; [by rewrite lookup_insert_eq|]. rewrite lookup_insert_ne by done.
    by apply (H3 i).
Qed.

Lemma new_batch_ids batch d :
  ids_wf d ->
  ids_wf ((take_id T_import_batches d).2
    <| import_batches := <[next_id d T_import_batches := batch]> (import_batches d) |>).
Proof.
  intros [[H1 H2 H3] H4]. split; [|exact H4]. split; [|exact H2|].
  { change (ids_below (<[next_id d T_import_batches := batch]> (import_batches d)) (next_id d T_import_batches + 1)).
    by apply ids_below_insert. }
  intros i r Hr. change (is_Some (<[next_id d T_import_batches := batch]> (import_batches d) !! row_batch_id r)).
  destruct (decide (next_id d T_import_batches = row_batch_id r)) as [->|?]; [by rewrite lookup_insert_eq|].
  rewrite lookup_insert_ne by done. by apply (H3 i).
Qed.

Section ids.
Context `{UnicodeCase, PgLower}.
Context (encrypt : text -> option text).

Lemma store_device_ids b n p batch now d batch' d' :
  store_device encrypt b n p batch now d = Ok (batch', d') -> ids_wf d -> ids_wf d'.
Proof.
  intros (c & d1 & token & x & i & d2 & d3 & Hc & _ & _ & Ha & Hw & _ & ->)%store_device_Ok [Hi Hd].
  apply row_cluster_frame in Hc as (V1 & D1 & N1). apply add_device_Ok in Ha as (_ & -> & ->).
  apply write_entry_ids in Hw; [split; [by apply (import_ids_view d3), Hw|exact (proj2 Hw)]|]. split.
  - by apply (import_ids_view d1), (import_ids_view d).
  - change (ids_below (<[next_id d1 T_devices := x]> (devices d1)) (next_id d1 T_devices + 1)).
    apply ids_below_insert. by rewrite D1, N1.
Qed.

Lemma record_row_error_ids b n (parsed : result exn ParsedRow) e d batch' d' :
  record_row_error b n (match parsed with Ok p => Some (parsed_name p) | Raise _ => None end)
    (match parsed with Ok p => Some (parsed_host p) | Raise _ => None end) e d = Ok (batch', d') ->
  ids_wf d -> ids_wf d'.
Proof.
  destruct (import_batches d !! b) as [stored|] eqn:Hs; [|unfold record_row_error; by rewrite Hs].
  rewrite (record_row_error_eq b n parsed e d stored Hs), write_ret_Ok. intros [Hw _]. by eapply write_entry_ids.
Qed.

Lemma store_row_ids b n parsed d0 batch now d batch' d' :
  store_row encrypt b n parsed d0 batch now d = Ok (batch', d') -> ids_wf d -> ids_wf d'.
Proof.
  unfold store_row. destruct parsed as [p|]; [|done]. destruct (find_duplicate p d0).
  - rewrite store_duplicate_eq, write_ret_Ok. intros [Hw _]. by eapply write_entry_ids.
  - apply store_device_ids.
Qed.
End ids.

(** ** Without other sessions *)

Section alone.
Context `{UnicodeCase, PgLower, UnicodeDigits}.
Context (Hlower : forall s, pg_lower s = lower s).
Context (load_workbook : list N -> option (list (text * list (list Cell)))) (encrypt : text -> option text).

Definition quiet (_ : Phase) (d : Db) : Db := d.
Definition no_fault (_ : Phase) : option raised := None.

Section walls.
Context (wall : Phase -> Z).

Abbreviation row_alone := (import_row encrypt quiet quiet no_fault wall).
Abbreviation rows_alone := (import_rows encrypt quiet quiet no_fault wall).

Lemma row_alone_ids b row batch d batch' d' :
  row_alone b row batch d = (Ok batch', d') -> ids_wf d -> ids_wf d'.
Proof.
  destruct row as [n values]. unfold import_row, quiet, no_fault. cbn zeta.
  destruct (store_row _ _ _ _ _ _ _ d) as [[batch1 d1]|e] eqn:Es.
  - intros [= <- <-]. by eapply store_row_ids.
  - destruct (record_row_error _ _ _ _ _ d) as [[batch1 d1]|e'] eqn:Er; [|done].
    intros [= <- <-]. by eapply record_row_error_ids.
Qed.

(** A row that cannot add a device: it is refused as it stands, or its device exists,
    or its password cannot be encrypted. *)
Definition settled (values : list Cell) (d : Db) : Prop :=
  match _parse_row values with
  | Raise _ => True
  | Ok p => find_duplicate p d ≠ None \/ encrypt (parsed_password p) = None
  end.

Lemma find_duplicate_insert p d d' i x :
  devices d !! i = None -> devices d' = <[i := x]> (devices d) ->
  find_duplicate p d ≠ None -> find_duplicate p d' ≠ None.
Proof.
  intros Hi E Hd Hd'. apply Hd. rewrite find_duplicate_None in Hd' |- *. intros j y Hy. apply (Hd' j).
  rewrite E, lookup_insert_ne; [done|congruence].
Qed.

(** After its transaction a row is settled, and settled rows stay so. *)
Lemma row_alone_spec b n values batch d :
  ids_wf d -> is_Some (import_batches d !! b) ->
  exists batch' d' e, row_alone b (n, values) batch d = (Ok batch', d') /\ ids_wf d' /\
    ledger b d' = ledger b d ++ [e] /\
    settled values d' /\ (forall values', settled values' d -> settled values' d') /\
    (settled values d -> devices d' = devices d /\ clusters d' = clusters d /\ entry_status e ≠ ROW_IMPORTED).
Proof.
  intros Hw Hb. pose proof (ids_rows _ (proj1 Hw)) as Hr.
  destruct (import_row_outcome Hlower encrypt quiet quiet no_fault wall b n values batch d eq_refl Hb Hr)
    as (batch' & d' & e & Hrun & Hl & _ & Hout). unfold quiet in *.
  exists batch', d', e. split; [exact Hrun|]. split; [by eapply row_alone_ids|]. split; [exact Hl|].
  assert (Hmono : devices d' = devices d \/ (exists i x, devices d !! i = None /\ devices d' = <[i := x]> (devices d))).
  { destruct (entry_status e); [right|by left; destruct Hout as (_ & ? & _)..].
    destruct Hout as (p & x & _ & _ & _ & Hd & _). exists (next_id d T_devices), x. split; [|done].
    apply ids_below_fresh, Hw. }
  assert (Hset : forall values', settled values' d -> settled values' d').
  { intros values'. unfold settled. destruct (_parse_row values') as [p|]; [|done]. intros [Hd|He]; [left|by right].
    destruct Hmono as [E|(i & x & Hi & E)]; [|by eapply find_duplicate_insert].
    rewrite find_duplicate_None in Hd |- *. by rewrite E. }
  split; [|split; [exact Hset|]].
  - destruct (entry_status e).
    + destruct Hout as (p & x & Hp & _ & _ & Hd & Hx). unfold settled. rewrite Hp. left. rewrite find_duplicate_None.
      intros Hall. apply (Hall (next_id d T_devices) x); [by rewrite Hd, lookup_insert_eq|]. by destruct Hx.
    + destruct Hout as ((p & Hp & _ & Hdup) & _). apply Hset. unfold settled. rewrite Hp. by left.
    + destruct Hout as (Hwhy & _). apply Hset. unfold settled, row_error in *. destruct (_parse_row values) as [p|]; [|done].
      destruct (find_duplicate p d); [by left|]. destruct Hwhy as [[He _]|[Hd _]]; auto.
  - intros Hs. destruct (entry_status e); [exfalso|by destruct Hout as (_ & ? & ?)..].
    destruct Hout as (p & x & Hp & Hd & _ & _ & Hx). unfold settled in Hs. rewrite Hp in Hs.
    destruct Hs as [?|He]; [done|]. rewrite (describes_password _ _ _ _ Hx) in He. done.
Qed.

Lemma rely_quiet b ph d : rely b d (quiet ph d).
Proof. apply rely_refl. Qed.

Lemma rows_alone_spec b total rows batch d numbers :
  ids_wf d -> progress b total numbers batch d ->
  exists batch' d' es, rows_alone b rows batch d = (Ok batch', d') /\ ids_wf d' /\
    ledger b d' = ledger b d ++ es /\
    (forall row, row ∈ rows -> settled row.2 d') /\ (forall values, settled values d -> settled values d') /\
    ((forall row, row ∈ rows -> settled row.2 d) ->
       devices d' = devices d /\ clusters d' = clusters d /\ Forall (fun e => entry_status e ≠ ROW_IMPORTED) es).
Proof.
  revert batch d numbers. induction rows as [|[n values] rows IH]; intros batch d numbers Hw Hp.
  { exists batch, d, []. rewrite app_nil_r. split_and!; try done. intros row Hr. by apply elem_of_nil in Hr. }
  destruct (row_alone_spec b n values batch d Hw) as (batch1 & d1 & e & Hrun & Hw1 & Hl1 & Hs1 & Hm1 & Hst1).
  { destruct (progress_stored _ _ _ _ _ Hp) as (x & Hx & _). by exists x. }
  pose proof (import_row_progress encrypt quiet quiet no_fault wall b total (rely_quiet b) (rely_quiet b)
    (n, values) batch d numbers Hp) as Hp1. rewrite Hrun in Hp1.
  destruct (IH batch1 d1 _ Hw1 Hp1) as (batch' & d' & es & Hrun' & Hw' & Hl' & Hs' & Hm' & Hst').
  exists batch', d', (e :: es). cbn [import_rows]. rewrite Hrun. split; [exact Hrun'|]. split; [exact Hw'|].
  split; [by rewrite Hl', Hl1, <- app_assoc|]. split; [|split].
  - intros row [->|Hr]%elem_of_cons; [by apply Hm'|by apply Hs'].
  - intros v Hv. by apply Hm', Hm1.
  - intros Hall. destruct (Hst1 (Hall (n, values) ltac:(left))) as (E1 & E2 & E3).
    destruct Hst' as (F1 & F2 & F3); [intros row Hr; apply Hm1, Hall; by right|].
    split_and!; [congruence|congruence|by constructor].
Qed.

End walls.

Lemma finish_alone wall b batch d :
  is_Some (import_batches d !! b) ->
  exists stored, finish_import quiet no_fault wall b batch d =
    (Ok (flush_import_batch batch (finished_import wall batch) stored),
     d <| import_batches := <[b := flush_import_batch batch (finished_import wall batch) stored]> (import_batches d) |>) /\
    import_batches d !! b = Some stored.
Proof.
  intros [stored Hs]. exists stored. split; [|exact Hs]. unfold finish_import, quiet, no_fault, write_batch. rewrite Hs.
  set (new := flush_import_batch _ _ _). set (d1 := d <| import_batches := _ |>).
  assert (E : import_batches d1 !! b = Some new) by apply lookup_insert_eq. by rewrite E.
Qed.

(** An import alone: the rows in one run of the loop, from the database with the new batch. *)
Lemma import_alone_run wall filename content d rows :
  _load_rows load_workbook filename content = Ok rows -> ids_wf d ->
  exists batch1 d1 stored es,
    let b := next_id d T_import_batches in
    let d0 := (take_id T_import_batches d).2
      <| import_batches := <[b := new_import_batch wall filename (Z.of_nat (length rows))]> (import_batches d) |> in
    let last := flush_import_batch batch1 (finished_import wall batch1) stored in
    let d2 := d1 <| import_batches := <[b := last]> (import_batches d1) |> in
    import_rows encrypt quiet quiet no_fault wall b rows (new_import_batch wall filename (Z.of_nat (length rows))) d0 =
      (Ok batch1, d1) /\
    import_devices load_workbook encrypt quiet quiet no_fault wall filename content d = (Ok (b, last), d2) /\
    import_batches d1 !! b = Some stored /\ ids_wf d1 /\ ids_wf d2 /\
    accounted b rows.*1 (Z.of_nat (length rows)) last d2 /\ ledger b d2 = es /\
    (forall row, row ∈ rows -> settled row.2 d2) /\
    ((forall row, row ∈ rows -> settled row.2 d) ->
       devices d2 = devices d /\ clusters d2 = clusters d /\ Forall (fun e => entry_status e ≠ ROW_IMPORTED) es).
Proof.
  intros Hrows [Hids Hdev]. set (b := next_id d T_import_batches).
  set (batch := new_import_batch wall filename (Z.of_nat (length rows))).
  set (d0 := (take_id T_import_batches d).2 <| import_batches := <[b := batch]> (import_batches d) |>).
  pose proof (created_progress wall filename (Z.of_nat (length rows)) d Hids) as Hp. cbn zeta in Hp. fold b batch d0 in Hp.
  pose proof (new_batch_ids batch d (conj Hids Hdev)) as Hw0. fold b d0 in Hw0.
  destruct (rows_alone_spec wall b _ rows batch d0 [] Hw0 Hp) as (batch1 & d1 & es & Hrun & Hw1 & Hl & Hs & _ & Hst).
  pose proof (import_rows_progress encrypt quiet quiet no_fault wall b _ (rely_quiet b) (rely_quiet b) rows batch d0 [] Hp) as Hp1.
  rewrite Hrun in Hp1. destruct (finish_alone wall b batch1 d1) as (stored & Hfin & Hstored).
  { destruct (progress_stored _ _ _ _ _ Hp1) as (x & Hx & _). by exists x. }
  pose proof (finish_import_progress quiet no_fault wall b _ (rely_quiet b) batch1 d1 _ Hp1) as Hp2. rewrite Hfin in Hp2.
  exists batch1, d1, stored, es. cbn zeta. split; [exact Hrun|]. split.
  { unfold import_devices. rewrite Hrows. unfold quiet at 1. unfold no_fault at 1. cbn [take_id].
    change (import_rows encrypt quiet quiet no_fault wall ?x rows ?y ?z) with
      (import_rows encrypt quiet quiet no_fault wall b rows batch d0).
    rewrite Hrun. change (next_id (quiet Creating d) T_import_batches) with b. by rewrite Hfin. }
  set (last := flush_import_batch _ _ _) in *. set (d2 := d1 <| import_batches := _ |>) in *.
  split; [exact Hstored|]. split; [exact Hw1|]. split.
  { apply batch_ids; [by exists stored|done]. }
  destruct Hp2 as [Hp2 Hb2]. split; [exact (progress_accounted _ _ _ _ _ Hp2 Hb2)|]. split; [|split; [exact Hs|exact Hst]].
  change (ledger b d2) with (ledger b d1). rewrite Hl. by rewrite (new_batch_ledger d Hids : ledger b d0 = []).
Qed.


Lemma status_count_none s es : Forall (fun e => entry_status e ≠ s) es -> status_count s es = 0.
Proof.
  intros Hall. unfold status_count. replace (filter _ es) with (@nil RowEntry); [done|]. symmetry.
  induction Hall as [|e es Hne _ IH]; [done|]. by rewrite filter_cons_False.
Qed.

(** Importing a file again changes nothing.  After an import that returned, the same file
    imports again, at any later time, without adding or changing a device or a cluster;
    no row is imported.  Neither the second import nor the first runs together with
    other sessions, and the database lower-cases names as Python does. *)
Theorem reimport_changes_nothing wall wall' filename content d b batch d1 :
  ids_wf d ->
  import_devices load_workbook encrypt quiet quiet no_fault wall filename content d = (Ok (b, batch), d1) ->
  exists b' batch' d2,
    import_devices load_workbook encrypt quiet quiet no_fault wall' filename content d1 = (Ok (b', batch'), d2) /\
    devices d2 = devices d1 /\ clusters d2 = clusters d1 /\
    import_total_rows batch' = import_total_rows batch /\ import_imported_rows batch' = 0.
Proof.
  intros Hw Hrun. destruct (_load_rows load_workbook filename content) as [rows|e] eqn:Hrows;
    [|unfold import_devices in Hrun; by rewrite Hrows in Hrun].
  destruct (import_alone_run wall filename content d rows Hrows Hw)
    as (batch1 & e1 & st & es & _ & Hdev & _ & _ & Hw1 & Hacc & _ & Hset & _).
  rewrite Hdev in Hrun. injection Hrun as _ Eb Ed. rewrite Ed in Hw1, Hset, Hacc.
  destruct (import_alone_run wall' filename content d1 rows Hrows Hw1)
    as (batch2 & e2 & st2 & es2 & _ & Hdev2 & _ & _ & _ & Hacc2 & Hl2 & _ & Hsame).
  destruct (Hsame Hset) as (E1 & E2 & E3). eexists _, _, _. split; [exact Hdev2|]. split; [exact E1|]. split; [exact E2|].
  split.
  - rewrite (accounted_total _ _ _ _ _ Hacc2), <- Eb. symmetry. apply Hacc.
  - rewrite (accounted_imported _ _ _ _ _ Hacc2), Hl2. by apply status_count_none.
Qed.

End alone.
