(* ===== verification/ImportCounts.v ===== *)
(** * Importing devices: the counters of the tests

    An import during which no other session works on its tests leaves a batch whose test
    counters, status and finishing time agree with its rows, so the workers that take over
    find the invariant they keep ([import_inv]).  When tests are claimed and finish while
    the import still runs, its last transaction overwrites the status they set. *)

From S2P Require Import Prelude PyText Models Exceptions LeaseSpec ImportTestLeases DatabaseTransactions Clusters ImportFiles ImportFileTheorems Imports ImportDeviceTheorems ImportOutcomes ImportAlone.

(** The columns about the tests. *)
Definition test_columns (batch : ImportBatch) : Z * Z * Z * Z * ImportBatchStatus * option Z :=
  (import_test_pending_rows batch, import_test_running_rows batch, import_test_success_rows batch,
   import_test_failed_rows batch, import_status batch, import_finished_at batch).

(** During the import: its tests are pending or do not apply, the session and the
    database count them, and every other batch is consistent. *)
Record counting (b : Z) (batch : ImportBatch) (d : Db) : Prop := {
  counting_core : import_core d;
  counting_others : imports_outside {[b]} d;
  counting_ids : ids_below (import_row_results d) (next_id d T_import_row_results);
  counting_stored : exists stored, import_batches d !! b = Some stored /\ test_columns stored = test_columns batch;
  counting_columns : test_columns batch =
    (import_counts (import_row_results d) b TEST_PENDING, 0, 0, 0, IMPORT_IMPORTING, None);
  counting_running : import_counts (import_row_results d) b TEST_RUNNING = 0;
  counting_success : import_counts (import_row_results d) b TEST_SUCCESS = 0;
  counting_failed : import_counts (import_row_results d) b TEST_FAILED = 0
}.

Lemma counting_view b batch d d' : import_view d' = import_view d -> counting b batch d -> counting b batch d'.
Proof.
  intros E [[C1 C2] C3 C4 C5 C6 C7 C8 C9]. unfold import_view in E. injection E as E1 E2 E3 E4.
  split; rewrite ?E1, ?E2, ?E3; try done.
  - split; by rewrite ?E1, ?E2.
  - unfold imports_outside. by rewrite E1, E2.
Qed.

(** The counters of a batch after a row result was added. *)
Lemma import_counts_insert rows n r b st :
  rows !! n = None ->
  import_counts (<[n := r]> rows) b st = (if row_in_batch b st r then 1 else 0) + import_counts rows b st.
Proof. intros Hn. unfold import_counts. by rewrite count_where_insert. Qed.

Lemma flush_test_columns loaded batch stored :
  test_columns stored = test_columns loaded ->
  import_test_running_rows batch = import_test_running_rows loaded ->
  import_test_success_rows batch = import_test_success_rows loaded ->
  import_test_failed_rows batch = import_test_failed_rows loaded ->
  test_columns (flush_import_batch loaded batch stored) = test_columns batch.
Proof.
  intros Hs F1 F2 F3. unfold test_columns in Hs. injection Hs as E1 E2 E3 E4 E5 E6.
  change (test_columns (flush_import_batch loaded batch stored)) with
    (changed (import_test_pending_rows loaded) (import_test_pending_rows batch) (import_test_pending_rows stored),
     import_test_running_rows stored, import_test_success_rows stored, import_test_failed_rows stored,
     changed (import_status loaded) (import_status batch) (import_status stored),
     changed (import_finished_at loaded) (import_finished_at batch) (import_finished_at stored)).
  rewrite E1, E2, E3, E4, E5, E6, !changed_agree, <- F1, <- F2, <- F3. done.
Qed.

Lemma test_columns_eq x y :
  test_columns x = test_columns y ->
  import_test_pending_rows x = import_test_pending_rows y /\
  import_test_running_rows x = import_test_running_rows y /\
  import_test_success_rows x = import_test_success_rows y /\
  import_test_failed_rows x = import_test_failed_rows y /\
  import_status x = import_status y /\ import_finished_at x = import_finished_at y.
Proof. unfold test_columns. intros [= ]. auto 10. Qed.

Lemma write_entry_others b e device_id test loaded batch d d' :
  write_entry b e device_id test loaded batch d = Ok ((), d') ->
  ids_below (import_row_results d) (next_id d T_import_row_results) ->
  import_core d -> test ≠ TEST_RUNNING -> imports_outside {[b]} d ->
  import_core d' /\ imports_outside {[b]} d'.
Proof.
  intros (stored & Hs & Eb & Er & En & _)%write_entry_Ok Hids [C1 C2] Ht Ho. split; [split|].
  - rewrite Er. apply map_Forall_insert_2; [|done]. unfold row_wf. cbn. by rewrite bool_decide_false.
  - rewrite Er, Eb. intros i r [[<- <-]|[_ Hr]]%lookup_insert_Some; cbn.
    + rewrite lookup_insert_eq. by eexists.
    + destruct (decide (b = row_batch_id r)) as [->|?]; [by rewrite lookup_insert_eq; eexists|].
      rewrite lookup_insert_ne by done. by apply (C2 i).
  - unfold imports_outside. rewrite Eb, Er. intros i x [[<- <-]|[Hne Hx]]%lookup_insert_Some Hi; [set_solver|].
    eapply import_consistent_ext; [|by apply (Ho i x Hx Hi)]. intros st.
    rewrite import_counts_insert by eauto with atlas. unfold row_in_batch. cbn.
    destruct (Z.eqb_spec b i); [done|]. cbn [andb]. lia.
Qed.

Lemma write_entry_counting b e device_id test loaded batch d d' :
  write_entry b e device_id test loaded batch d = Ok ((), d') ->
  test = TEST_PENDING \/ test = TEST_NOT_APPLICABLE ->
  test_columns batch =
    test_columns (loaded <| import_test_pending_rows :=
      import_test_pending_rows loaded + (if decide (test = TEST_PENDING) then 1 else 0) |>) ->
  counting b loaded d -> counting b batch d'.
Proof.
  intros Hw Htest Hcol [C1 C2 C3 (x & Hx & Ex) C5 C6 C7 C8].
  destruct (write_entry_others _ _ _ _ _ _ _ _ Hw C3 C1 ltac:(by destruct Htest as [-> | ->]) C2) as [D1 D2].
  apply write_entry_Ok in Hw as (stored & Hs & Eb & Er & En & _). assert (stored = x) as -> by congruence.
  apply test_columns_eq in Hcol as (P1 & P2 & P3 & P4 & P5 & P6). cbn in P1, P2, P3, P4, P5, P6.
  unfold test_columns in C5. injection C5 as Q1 Q2 Q3 Q4 Q5 Q6.
  assert (Hcounts : forall st, import_counts (import_row_results d') b st =
    (if decide (test = st) then 1 else 0) + import_counts (import_row_results d) b st).
  { intros st. rewrite Er, import_counts_insert by eauto with atlas. unfold row_in_batch. cbn. rewrite Z.eqb_refl.
    cbn [andb]. by destruct (decide (test = st)); [rewrite bool_decide_true|rewrite bool_decide_false]. }
  split; [done|done| | | |rewrite Hcounts, C6|rewrite Hcounts, C7|rewrite Hcounts, C8].
  - rewrite Er, En. by apply ids_below_insert.
  - exists (flush_import_batch loaded batch x). rewrite Eb, lookup_insert_eq. split; [done|].
    by apply flush_test_columns.
  - unfold test_columns. rewrite Hcounts, P1, P2, P3, P4, P5, P6, Q1, Q2, Q3, Q4, Q5, Q6.
    by rewrite (Z.add_comm (import_counts _ _ _)).
  - by destruct Htest as [-> | ->].
  - by destruct Htest as [-> | ->].
  - by destruct Htest as [-> | ->].
Qed.

Section alone.
Context `{UnicodeCase, PgLower, UnicodeDigits}.
Context (load_workbook : list N -> option (list (text * list (list Cell)))) (encrypt : text -> option text).
Context (wall : Phase -> Z).

Lemma imported_test_columns p batch :
  test_columns (imported_batch p batch) =
  test_columns (batch <| import_test_pending_rows :=
    import_test_pending_rows batch + (if decide (imported_test p = TEST_PENDING) then 1 else 0) |>).
Proof.
  unfold imported_batch, imported_test. destruct (negb _); [done|]. unfold test_columns. cbn. by rewrite Z.add_0_r.
Qed.

Lemma bump_test_columns s batch :
  test_columns (bump s batch) =
  test_columns (batch <| import_test_pending_rows :=
    import_test_pending_rows batch + (if decide (TEST_NOT_APPLICABLE = TEST_PENDING) then 1 else 0) |>).
Proof. unfold test_columns. destruct s; cbn; by rewrite Z.add_0_r. Qed.

Lemma store_row_counting b n parsed d0 batch now d batch' d' :
  store_row encrypt b n parsed d0 batch now d = Ok (batch', d') -> counting b batch d -> counting b batch' d'.
Proof.
  unfold store_row. destruct parsed as [p|]; [|done]. destruct (find_duplicate p d0) as [i|].
  - rewrite store_duplicate_eq, write_ret_Ok. intros [Hw ->] Hc.
    eapply write_entry_counting; [exact Hw|by right|apply bump_test_columns|exact Hc].
  - intros (i & d2 & d3 & V1 & V2 & Hw & ->)%store_device_entry Hc. apply (counting_view _ _ d3 _ V2).
    eapply write_entry_counting; [exact Hw| |apply imported_test_columns|by apply (counting_view _ _ d)].
    unfold imported_test. destruct (negb _); auto.
Qed.

Lemma record_row_error_counting b n (parsed : result exn ParsedRow) e batch d batch' d' :
  record_row_error b n (match parsed with Ok p => Some (parsed_name p) | Raise _ => None end)
    (match parsed with Ok p => Some (parsed_host p) | Raise _ => None end) e d = Ok (batch', d') ->
  counting b batch d -> counting b batch' d'.
Proof.
  intros He Hc. destruct (counting_stored _ _ _ Hc) as (stored & Hs & Ecol).
  rewrite (record_row_error_eq b n parsed e d stored Hs), write_ret_Ok in He. destruct He as [Hw ->].
  eapply write_entry_counting; [exact Hw|by right|apply bump_test_columns|].
  destruct Hc as [C1 C2 C3 _ C5 C6 C7 C8]. split; try done; [by exists stored|by rewrite Ecol].
Qed.

Lemma import_rows_counting b rows batch d batch' d' :
  import_rows encrypt quiet quiet no_fault wall b rows batch d = (Ok batch', d') ->
  counting b batch d -> counting b batch' d'.
Proof.
  revert batch d. induction rows as [|[n values] rows IH]; intros batch d; [by intros [= <- <-]|].
  cbn [import_rows]. destruct (import_row _ _ _ _ _ b (n, values) batch d) as [[batch1|e] d1] eqn:Er; [|done].
  intros Hrun Hc. apply (IH _ _ Hrun). unfold import_row, quiet, no_fault in Er. cbn zeta in Er.
  destruct (store_row _ _ _ _ _ _ _ d) as [[batch2 d2]|e] eqn:Es.
  - injection Er as <- <-. by eapply store_row_counting.
  - destruct (record_row_error _ _ _ _ _ d) as [[batch2 d2]|e'] eqn:Erec; [|done].
    injection Er as <- <-. by eapply record_row_error_counting.
Qed.

Lemma created_counting filename total d :
  import_inv d -> ids_wf d ->
  let b := next_id d T_import_batches in
  let batch := new_import_batch wall filename total in
  counting b batch ((take_id T_import_batches d).2 <| import_batches := <[b := batch]> (import_batches d) |>).
Proof.
  intros [[C1 C2] Ho] [[I1 I2 I3] _] b batch. set (d0 := _ <| import_batches := _ |>).
  assert (Hno : forall st, import_counts (import_row_results d) b st = 0).
  { intros st. unfold import_counts, count_where. replace (select_ids _ _) with (∅ : gset Z); [done|]. symmetry.
    apply set_eq. intros i. rewrite elem_of_select_ids, elem_of_empty. split; [|done].
    intros (r & Hr & [E%Z.eqb_eq _]%andb_true_iff). specialize (I3 i r Hr). cbn in I3.
    rewrite E in I3. unfold b in I3. rewrite (ids_below_fresh _ _ I1) in I3. by destruct I3. }
  split; [split| | | | | | |].
  - exact C1.
  - intros i r Hr. change (is_Some (<[b := batch]> (import_batches d) !! row_batch_id r)).
    destruct (decide (b = row_batch_id r)) as [->|?]; [by rewrite lookup_insert_eq; eexists|].
    rewrite lookup_insert_ne by done. by apply (I3 i).
  - intros i x Hx Hi. change (<[b := batch]> (import_batches d) !! i = Some x) in Hx.
    apply lookup_insert_Some in Hx as [[<- <-]|[_ Hx]]; [set_solver|]. by apply (Ho i x Hx).
  - exact I2.
  - exists batch. split; [apply lookup_insert_eq|done].
  - change (test_columns batch = (import_counts (import_row_results d) b TEST_PENDING, 0, 0, 0, IMPORT_IMPORTING, None)).
    by rewrite Hno.
  - exact (Hno _).
  - exact (Hno _).
  - exact (Hno _).
Qed.

(** The last transaction makes the batch consistent with its rows. *)
Lemma finished_counting b batch d stored :
  counting b batch d -> import_batches d !! b = Some stored ->
  import_inv (d <| import_batches :=
    <[b := flush_import_batch batch (finished_import wall batch) stored]> (import_batches d) |>).
Proof.
  intros [[C1 C2] C3 _ (x & Hx & Ex) C5 C6 C7 C8] Hs. assert (x = stored) as -> by congruence.
  set (last := flush_import_batch _ _ _). set (d' := d <| import_batches := _ |>).
  assert (Hl : test_columns last = test_columns (finished_import wall batch)).
  { apply flush_test_columns; [done|..]; unfold finished_import; by case_decide. }
  unfold test_columns in C5. injection C5 as Q1 Q2 Q3 Q4 Q5 Q6.
  split; [split; [exact C1|]|].
  - intros i r Hr. change (is_Some (<[b := last]> (import_batches d) !! row_batch_id r)).
    destruct (decide (b = row_batch_id r)) as [->|?]; [by rewrite lookup_insert_eq; eexists|].
    rewrite lookup_insert_ne by done. by apply (C2 i).
  - intros i y Hy _. change (<[b := last]> (import_batches d) !! i = Some y) in Hy.
    change (import_row_results d') with (import_row_results d).
    apply lookup_insert_Some in Hy as [[<- <-]|[Hne Hy]]; [|apply (C3 i y Hy); set_solver].
    apply test_columns_eq in Hl as (P1 & P2 & P3 & P4 & P5 & P6). unfold import_consistent.
    rewrite C6, C7, C8, P1, P2, P3, P4, P5, P6. unfold finished_import. rewrite Q1.
    destruct (Z.eqb_spec (import_counts (import_row_results d) b TEST_PENDING) 0) as [E|E].
    + rewrite decide_True, bool_decide_true by done. cbn. rewrite Q1. by split_and!.
    + rewrite decide_False, bool_decide_false by (done || tauto). cbn. by split_and!.
Qed.

(** An import during which no other session commits keeps the invariant the test workers
    rely on: the batch ends with one pending test per row imported with a password and no
    other, it is completed exactly when there is none, and every other batch is as it
    was. *)
Theorem import_leaves_tests_consistent filename content d b batch d' :
  import_inv d -> ids_wf d ->
  import_devices load_workbook encrypt quiet quiet no_fault wall filename content d = (Ok (b, batch), d') ->
  import_inv d' /\ import_consistent (import_row_results d') b batch /\
  import_test_running_rows batch = 0 /\ import_test_success_rows batch = 0 /\ import_test_failed_rows batch = 0.
Proof.
  intros Hinv Hw Hrun. unfold import_devices in Hrun.
  destruct (_load_rows load_workbook filename content) as [rows|e]; [|done].
  unfold no_fault at 1 in Hrun. cbn [take_id] in Hrun.
  change (quiet Creating d) with d in Hrun.
  pose proof (created_counting filename (Z.of_nat (length rows)) d Hinv Hw) as Hc. cbn zeta in Hc.
  destruct (import_rows _ _ _ _ _ _ rows _ _) as [[batch1|e] d1] eqn:Er in Hrun; [|done].
  apply import_rows_counting in Er; [|exact Hc]. destruct (counting_stored _ _ _ Er) as (x & Hx & Ex).
  destruct (finish_alone wall _ batch1 d1 (ex_intro _ x Hx)) as (stored & Hfin & Hs).
  rewrite Hfin in Hrun. injection Hrun as <- <- <-.
  pose proof (finished_counting _ _ _ _ Er Hs) as Hi. split; [exact Hi|].
  assert (Hcon := proj2 Hi (next_id d T_import_batches) _ (lookup_insert_eq _ _ _) ltac:(set_solver)).
  split; [exact Hcon|]. destruct Hcon as (_ & Q2 & Q3 & Q4 & _).
  split_and!; [rewrite Q2; exact (counting_running _ _ _ Er)|rewrite Q3; exact (counting_success _ _ _ Er)|
    rewrite Q4; exact (counting_failed _ _ _ Er)].
Qed.
End alone.
