(* ===== verification/ImportTesters.v ===== *)
(** * Imports and the test workers

    The transactions of the test workers keep what an import relies on, so the accounting
    of an import holds while its tests are claimed, run and saved.  The converse
    fails: an import overwrites the status its tests have reached. *)

From S2P Require Import Prelude PyText Models Exceptions LeaseSpec ImportTestLeases ImportTesting DatabaseTransactions Clusters ImportFiles ImportFileTheorems Imports ImportDeviceTheorems ImportOutcomes ImportAlone.

(** The part of a row and of a batch that the test workers leave alone. *)
Definition row_kept (r : ImportRowResult) : Z * RowEntry := (row_batch_id r, entry_of r).

Record keeps (d d' : Db) : Prop := {
  keeps_rows : forall i, row_kept <$> import_row_results d' !! i = row_kept <$> import_row_results d !! i;
  keeps_next : next_id d' T_import_row_results = next_id d T_import_row_results;
  keeps_batches : forall i, summary <$> import_batches d' !! i = summary <$> import_batches d !! i
}.

Lemma keeps_refl d : keeps d d.
Proof. done. Qed.

Lemma keeps_trans d d' d'' : keeps d d' -> keeps d' d'' -> keeps d d''.
Proof.
  intros [H1 H2 H3] [K1 K2 K3]. split; [intros i; by rewrite K1, H1|by rewrite K2, H2|intros i; by rewrite K3, H3].
Qed.

Lemma kept_in_batch b (o o' : option ImportRowResult) :
  row_kept <$> o' = row_kept <$> o ->
  (exists r, o' = Some r /\ (row_batch_id r =? b) = true) <-> (exists r, o = Some r /\ (row_batch_id r =? b) = true).
Proof.
  destruct o as [r|], o' as [r'|]; cbn; intros E; [|discriminate E|discriminate E|].
  - apply (inj Some) in E. assert (Eb : row_batch_id r' = row_batch_id r) by (unfold row_kept in E; congruence).
    split; intros (x & Hx & Hb); injection Hx as <-; [exists r|exists r']; split; [done|congruence|done|congruence].
  - split; intros (x & Hx & _); discriminate Hx.
Qed.

Lemma keeps_rely b d d' : keeps d d' -> rely b d d'.
Proof.
  intros [H1 H2 H3]. split.
  - rewrite H2. intros Hids i r Hr. specialize (H1 i). rewrite Hr in H1.
    destruct (import_row_results d !! i) as [r'|] eqn:E; [|done]. exact (Hids i r' E).
  - assert (El : forall e, ledger b e =
      omap (M:=list) (fun i => entry_of <$> import_row_results e !! i) (batch_row_ids b e)).
    { intros e. unfold ledger, batch_rows. induction (batch_row_ids b e) as [|i l IH]; [done|].
      cbn. destruct (import_row_results e !! i); [|exact IH]. by rewrite fmap_cons, IH. }
    rewrite !El. assert (Eids : batch_row_ids b d' = batch_row_ids b d).
    { unfold batch_row_ids. f_equal. apply set_eq. intros i. rewrite !elem_of_select_ids. specialize (H1 i).
      by apply kept_in_batch. }
    rewrite Eids. clear Eids. induction (batch_row_ids b d) as [|i l IH]; [done|]. cbn. rewrite IH.
    assert (E : entry_of <$> import_row_results d' !! i = entry_of <$> import_row_results d !! i).
    { specialize (H1 i). destruct (import_row_results d' !! i), (import_row_results d !! i); try done.
      injection H1 as _ E2. cbn. unfold entry_of. congruence. }
    by rewrite E.
  - intros x Hx. specialize (H3 b). rewrite Hx in H3.
    destruct (import_batches d' !! b) as [x'|]; [|done]. exists x'. split; [done|]. exact (inj Some _ _ H3).
Qed.

Lemma update_rows_keeps ids f d : (forall r, row_kept (f r) = row_kept r) -> keeps d (update_rows ids f d).
Proof.
  intros Hf. split; [|done|done]. intros i. rewrite lookup_update_rows.
  destruct (import_row_results d !! i) as [r|]; [|done]. cbn. f_equal. by case_bool_decide.
Qed.

Lemma refresh_keeps wall B d : keeps d (refresh_import_batches wall B d).2.
Proof.
  rewrite refresh_import_batches_eq. cbn [snd]. split; [done|done|]. intros i.
  change (import_batches (?x <| import_batches := ?y |>)) with y. rewrite lookup_refresh_imports.
  destruct (import_batches d !! i) as [x|]; [|done]. cbn. f_equal. case_bool_decide; [|done].
  unfold refreshed_import. cbn zeta. by destruct (negb _ || negb _).
Qed.

Lemma claim_keeps w cap gl ls now wall locked d : keeps d (claim_import_tests w cap gl ls now wall locked d).2.
Proof.
  destruct (decide (0 < cap)) as [Hcap|Hcap].
  2:{ unfold claim_import_tests. by destruct (Z.leb_spec cap 0); [|lia]. }
  rewrite claim_import_tests_eq by done. cbn zeta. cbn [snd].
  eapply keeps_trans; [|apply refresh_keeps]. eapply keeps_trans; [|by apply update_rows_keeps].
  by apply update_rows_keeps.
Qed.

Lemma specific_keeps w limit ls now wall row d : keeps d (_claim_specific w limit ls now wall row d).
Proof.
  unfold _claim_specific. destruct (import_row_results d !! row) as [r|]; [|apply keeps_refl].
  case_match; [|apply keeps_refl]. unfold claim_specific_locked. case_match; [|apply keeps_refl].
  eapply keeps_trans; [|apply refresh_keeps]. by apply update_rows_keeps.
Qed.

(** Every transaction of the test workers keeps the ledger and the summary of every batch. *)
Lemma import_step_rely limit now op b d d' : import_step limit now op d d' -> rely b d d'.
Proof.
  intros (wall & locked & <-). apply keeps_rely. destruct op; unfold commit; cbn [import_tx].
  - unfold tx_modify, _claim. case_match; [apply keeps_refl|]. apply claim_keeps.
  - unfold tx_modify. cbn [snd]. unfold renew_import_test_leases. case_decide; [apply keeps_refl|]. by apply update_rows_keeps.
  - unfold tx_bind, _load_target. destruct (owned_test _ _ _ _) as [r|]; [|apply keeps_refl].
    destruct (row_device_id r ≫= _); apply specific_keeps.
  - unfold tx_bind, _save_result_for_worker. destruct (owned_test _ _ _ _) as [r|]; [|apply keeps_refl].
    destruct (refresh_import_batches _ _ _) as [completed d'] eqn:E. cbn [snd]. apply (f_equal snd) in E. cbn in E.
    subst d'. eapply keeps_trans; [|apply refresh_keeps]. by apply update_rows_keeps.
Qed.

Lemma import_exec_rely limit b c c' : import_exec limit c c' -> rely b c.2 c'.2.
Proof.
  unfold import_exec. induction 1 as [c|t op s s1 c Hop _ IH|t t' s c _ _ IH]; cbn in *.
  - apply rely_refl.
  - eapply rely_trans; [by eapply import_step_rely|done].
  - done.
Qed.
