(* ===== verification/ImportDemo.v ===== *)
(** * Imports on concrete files *)

From S2P Require Import Prelude PyText Models Exceptions LeaseSpec TaskLeases ImportTestLeases ImportTesting DatabaseTransactions Clusters ImportFiles ImportFileTheorems Imports ImportDeviceTheorems ImportOutcomes ImportAlone ImportCounts ImportTesters.

Definition demo_sheet_row (name host os password cluster : text) : list Cell :=
  [CellText name; CellText host; CellText os; CellNone; CellText (u "ops"); CellText password; CellText cluster;
   CellNone; CellNone].

Definition demo_workbook : list (text * list (list Cell)) :=
  [(IMPORT_SHEET,
    [CellText <$> IMPORT_HEADERS;
     demo_sheet_row (u "web") (u "10.0.0.1") (u "linux") (u "secret") (u "prod");
     demo_sheet_row (u "bad") (u "10.0.0.2") (u "other") (u "secret") [];
     demo_sheet_row (u "copy") (u "10.0.0.1") (u "linux") (u "secret") [];
     demo_sheet_row (u "marker") (u "10.0.0.3") (u "Windows") [] (u "PROD")])].

Definition demo_load (_ : list N) : option (list (text * list (list Cell))) := Some demo_workbook.
Definition demo_encrypt (password : text) : option text := Some (u "token:" ++ password).

(** Before row 4 a worker claims the test of row 2 and saves its success. *)
Definition demo_worker_op (op : import_op) (now : Z) (d : Db) : Db := (commit (import_tx 20 op now now ∅) d).2.

Definition demo_workers (ph : Phase) (d : Db) : Db :=
  if decide (ph = AtRow 4)
  then demo_worker_op (Test_save (u "w") 1 true (u "ok")) (2 * second)
         (demo_worker_op (Test_claim (u "w") 1 90) second d)
  else d.

Lemma demo_workers_rely b ph d : rely b d (demo_workers ph d).
Proof.
  unfold demo_workers. case_decide; [|apply rely_refl].
  eapply rely_trans; eapply import_step_rely; eexists _, _; reflexivity.
Qed.

Lemma quiet_rely b ph d : rely b d (quiet ph d).
Proof. apply rely_refl. Qed.

Definition demo_wall (_ : Phase) : Z := 0.

#[local] Instance demo_case : UnicodeCase := ascii_only.
#[local] Instance demo_lower : PgLower := @lower ascii_only.
#[local] Instance demo_digits : UnicodeDigits := no_unicode_digits.

Definition demo_rows : list (Z * list Cell) :=
  match _load_rows demo_load (u "devices.xlsx") [] with Ok rows => rows | Raise _ => [] end.

Lemma demo_loaded_rows : _load_rows demo_load (u "devices.xlsx") [] = Ok demo_rows.
Proof. vm_compute. reflexivity. Qed.

Lemma empty_import_ids : import_ids empty_db.
Proof. split; intros i x Hx; by destruct (lookup_empty_Some i x Hx). Qed.

Lemma empty_ids_wf : ids_wf empty_db.
Proof. split; [apply empty_import_ids|]. intros i x Hx. by destruct (lookup_empty_Some i x Hx). Qed.

Lemma empty_import_inv : import_inv empty_db.
Proof. split; [split|]; intros i x Hx; by destruct (lookup_empty_Some i x Hx). Qed.

Definition demo_import (before : Phase -> Db -> Db) (d : Db) : result raised (Z * ImportBatch) * Db :=
  import_devices demo_load demo_encrypt before quiet no_fault demo_wall (u "devices.xlsx") [] d.

Definition demo_statuses (d : Db) : list (Z * ImportStatus) :=
  (fun e => (entry_row_number e, entry_status e)) <$> ledger 1 d.

Example demo_ledger :
  demo_statuses (demo_import demo_workers empty_db).2 =
  [(2, ROW_IMPORTED); (3, ROW_ERROR); (4, ROW_SKIPPED); (5, ROW_IMPORTED)].
Proof. vm_compute. reflexivity. Qed.

Lemma import_accounts_every_row_witness : exists batch,
  (demo_import demo_workers empty_db).1 = Ok (1, batch) /\
  accounted 1 [2; 3; 4; 5] 4 batch (demo_import demo_workers empty_db).2.
Proof.
  pose proof (import_accounts_every_row demo_load demo_encrypt demo_workers quiet no_fault demo_wall (u "devices.xlsx") []
    demo_rows empty_db demo_loaded_rows empty_import_ids (demo_workers_rely 1) (quiet_rely 1)) as H.
  assert (E : is_ok (demo_import demo_workers empty_db).1 = true) by (vm_compute; reflexivity).
  unfold demo_import in *. destruct (import_devices _ _ _ _ _ _ _ _ empty_db) as [[[b batch]|e] d']; [|discriminate E].
  destruct H as [-> H]. exists batch. split; [reflexivity|].
  replace [2; 3; 4; 5] with (demo_rows.*1) by (vm_compute; reflexivity).
  replace 4 with (Z.of_nat (length demo_rows)) by (vm_compute; reflexivity). exact H.
Defined.

Lemma demo_lower_agrees s : pg_lower s = lower s.
Proof. reflexivity. Qed.

(** The first row of the demonstration file, in a batch without rows. *)
Definition demo_new_batch : ImportBatch := new_import_batch demo_wall (u "devices.xlsx") 4.

Definition demo_created : Db :=
  empty_db <| import_batches := {[1 := demo_new_batch]} |> <| next_id := fun _ => 2 |>.

Definition demo_web : list Cell := demo_sheet_row (u "web") (u "10.0.0.1") (u "linux") (u "secret") (u "prod").

Lemma import_row_outcome_witness : exists batch' d' e,
  import_row demo_encrypt quiet quiet no_fault demo_wall 1 (2, demo_web) demo_new_batch demo_created = (Ok batch', d') /\
  ledger 1 d' = [e] /\ entry_row_number e = 2.
Proof.
  assert (Hb : is_Some (import_batches demo_created !! 1)) by (exists demo_new_batch; vm_compute; reflexivity).
  assert (Hids : ids_below (import_row_results demo_created) (next_id demo_created T_import_row_results))
    by (intros i x Hx; by destruct (lookup_empty_Some i x Hx)).
  destruct (import_row_outcome demo_lower_agrees demo_encrypt quiet quiet no_fault demo_wall 1 2 demo_web
    demo_new_batch demo_created eq_refl Hb Hids) as (batch' & d' & e & H1 & H2 & H3 & _).
  exists batch', d', e. split; [exact H1|]. split; [|exact H3]. rewrite H2. vm_compute. reflexivity.
Defined.

Lemma reimport_changes_nothing_witness :
  let d1 := (demo_import quiet empty_db).2 in
  let d2 := (demo_import quiet d1).2 in
  size (devices d1) = 2%nat /\ devices d2 = devices d1 /\ clusters d2 = clusters d1.
Proof.
  intros d1 d2. split; [vm_compute; reflexivity|].
  assert (E : is_ok (demo_import quiet empty_db).1 = true) by (vm_compute; reflexivity).
  unfold d2, d1. destruct (demo_import quiet empty_db) as [[[b batch]|e] d'] eqn:Er; [|discriminate E].
  unfold demo_import in Er. destruct (reimport_changes_nothing demo_lower_agrees demo_load demo_encrypt demo_wall demo_wall (u "devices.xlsx") []
    empty_db b batch d' empty_ids_wf Er) as (b' & batch' & d3 & Hrun & H1 & H2 & _).
  cbn [snd]. unfold demo_import. rewrite Hrun. split; [exact H1|exact H2].
Defined.

Lemma import_leaves_tests_consistent_witness :
  let d1 := (demo_import quiet empty_db).2 in
  import_counts (import_row_results d1) 1 TEST_PENDING = 1 /\ import_inv d1.
Proof.
  intros d1. split; [vm_compute; reflexivity|].
  assert (E : is_ok (demo_import quiet empty_db).1 = true) by (vm_compute; reflexivity).
  unfold d1. destruct (demo_import quiet empty_db) as [[[b batch]|e] d'] eqn:Er; [|discriminate E].
  unfold demo_import in Er. destruct (import_leaves_tests_consistent demo_load demo_encrypt demo_wall (u "devices.xlsx") []
    empty_db b batch d' empty_import_inv empty_ids_wf Er) as (H1 & _). exact H1.
Defined.

(** The workers' success of row 2 came before the import ended: the batch goes back to
    testing, though no row is left to test and no worker will look at it again. *)
Definition demo_one_device : list (text * list (list Cell)) :=
  [(IMPORT_SHEET,
    [CellText <$> IMPORT_HEADERS; demo_web; demo_sheet_row [] [] [] [] []; demo_web])].

Lemma import_overwrites_finished_tests :
  let r := import_devices (fun _ => Some demo_one_device) demo_encrypt demo_workers quiet no_fault demo_wall
             (u "devices.xlsx") [] empty_db in
  (forall ph d, exists limit c c', demo_workers ph d = c'.2 /\ d = c.2 /\ import_exec limit c c') /\
  match r with
  | (Ok (b, batch), d') =>
      import_status batch = IMPORT_TESTING /\ import_test_pending_rows batch = 0 /\
      import_counts (import_row_results d') b TEST_PENDING = 0 /\
      import_counts (import_row_results d') b TEST_RUNNING = 0 /\
      import_counts (import_row_results d') b TEST_SUCCESS = 1
  | _ => False
  end.
Proof.
  intros r. split; [|vm_compute; split_and!; reflexivity].
  intros ph d. unfold demo_workers. case_decide; [|exists 20, (0, d), (0, d); split_and!; [done|done|constructor]].
  exists 20, (0, d). eexists (2 * second, _). split; [reflexivity|]. split; [done|].
  apply (exec_tick 0 second); [done|].
  apply (exec_op second (Test_claim (u "w") 1 90) _ (demo_worker_op (Test_claim (u "w") 1 90) second d)); [by exists second, ∅|].
  apply (exec_tick second (2 * second)); [done|].
  eapply (exec_op (2 * second) (Test_save (u "w") 1 true (u "ok"))); [by exists (2 * second), ∅|]. constructor.
Qed.
