(* ===== verification/Schemas.v ===== *)
(** * Request payloads (src/app/schemas.py)

    The bodies of the requests that change something, with the bounds of their fields and
    their validators; a payload that does not satisfy them is answered 422 before a handler
    runs.  A payload arrives with the types of its fields; turning JSON into them is
    pydantic's.  A field of an update is absent, null or a value. *)

From S2P Require Import Prelude PyText Models.

(** [Field(min_length=..., max_length=...)] and [Field(ge=..., le=...)] *)
Definition sized (lo hi : Z) (s : text) : bool := (lo <=? Z.of_nat (length s)) && (Z.of_nat (length s) <=? hi).
Definition ranged (lo hi z : Z) : bool := (lo <=? z) && (z <=? hi).
Definition at_least (lo z : Z) : bool := lo <=? z.

Definition opt {A} (P : A -> bool) (o : option A) : bool := match o with Some a => P a | None => true end.

(** A field of an update: absent, or present with null or a value. *)
Abbreviation update A := (option (option A)) (only parsing).

Definition upd {A} (P : A -> bool) (o : update A) : bool := match o with Some (Some a) => P a | _ => true end.

(** A text that is neither absent, null nor empty: Python's truth value of the field. *)
Definition truthy (s : option text) : bool := match s with Some (_ :: _) => true | _ => false end.

(** ** Devices *)

Record DeviceCreate := mkDeviceCreate {
  dc_name : text;
  dc_host : text;
  dc_os_type : OSType;
  dc_port : option Z;
  dc_username : text;
  dc_password : text;
  dc_scan_interval_minutes : Z;
  dc_scheduled_enabled : bool;
  dc_history_retention_days : option Z;
  dc_cluster_id : option Z;
  dc_new_cluster_name : option text
}.

Definition port_of (os_type : OSType) (port : option Z) : Z :=
  match port with Some p => p | None => match os_type with LINUX => 22 | WINDOWS => 5985 end end.

Definition both_clusters (cluster_id : option Z) (new_cluster_name : option text) : bool :=
  match cluster_id with Some _ => truthy new_cluster_name | None => false end.

(** The fields in their bounds, one cluster choice at most; the port is defaulted. *)
Definition device_create_fields (p : DeviceCreate) : bool :=
  sized 1 100 (dc_name p) && sized 1 255 (dc_host p) && opt (ranged 1 65535) (dc_port p) &&
  sized 1 255 (dc_username p) && sized 1 1024 (dc_password p) &&
  ranged 1 10080 (dc_scan_interval_minutes p) && opt (ranged 1 3650) (dc_history_retention_days p) &&
  opt (at_least 1) (dc_cluster_id p) && opt (sized 0 100) (dc_new_cluster_name p).

#[export] Instance DeviceCreate_eta : Eta DeviceCreate := fun p =>
  mkDeviceCreate (dc_name p) (dc_host p) (dc_os_type p) (dc_port p) (dc_username p) (dc_password p)
    (dc_scan_interval_minutes p) (dc_scheduled_enabled p) (dc_history_retention_days p) (dc_cluster_id p)
    (dc_new_cluster_name p).

Definition validate_device_create (p : DeviceCreate) : option DeviceCreate :=
  if device_create_fields p && negb (both_clusters (dc_cluster_id p) (dc_new_cluster_name p))
  then Some (p <| dc_port := Some (port_of (dc_os_type p) (dc_port p)) |>) else None.

(** A connection test names a device without storing it. *)
Record DeviceTest := mkDeviceTest {
  dt_host : text;
  dt_os_type : OSType;
  dt_port : option Z;
  dt_username : text;
  dt_password : text
}.

Definition validate_device_test (p : DeviceTest) : option DeviceTest :=
  if sized 1 255 (dt_host p) && opt (ranged 1 65535) (dt_port p) && sized 1 255 (dt_username p) &&
     sized 1 1024 (dt_password p)
  then Some (mkDeviceTest (dt_host p) (dt_os_type p) (Some (port_of (dt_os_type p) (dt_port p))) (dt_username p)
               (dt_password p))
  else None.

(** The fields that reach the connection test are modelled as absent or a value; a
    null in one of them is left out. *)
Record DeviceUpdate := mkDeviceUpdate {
  du_name : update text;
  du_host : option text;
  du_os_type : option OSType;
  du_port : option Z;
  du_username : option text;
  du_password : option text;
  du_scan_interval_minutes : update Z;
  du_scheduled_enabled : update bool;
  du_history_retention_days : update Z;
  du_cluster_id : update Z;
  du_new_cluster_name : option text
}.

Definition device_update_fields (p : DeviceUpdate) : bool :=
  upd (sized 1 100) (du_name p) && opt (sized 1 255) (du_host p) && opt (ranged 1 65535) (du_port p) &&
  opt (sized 1 255) (du_username p) && opt (sized 0 1024) (du_password p) &&
  upd (ranged 1 10080) (du_scan_interval_minutes p) && upd (ranged 1 3650) (du_history_retention_days p) &&
  upd (at_least 1) (du_cluster_id p) && opt (sized 0 100) (du_new_cluster_name p).

Definition validate_device_update (p : DeviceUpdate) : option DeviceUpdate :=
  if device_update_fields p && negb (both_clusters (default None (du_cluster_id p)) (du_new_cluster_name p))
  then Some p else None.

(** ** Clusters, scans and settings *)

Record ClusterCreate := mkClusterCreate {
  cc_name : text;
  cc_description : option text;
  cc_internal_networks : list text;
  cc_history_retention_days : option Z;
  cc_scan_interval_minutes : Z;
  cc_scheduled_enabled : bool
}.

Definition validate_cluster_create (p : ClusterCreate) : option ClusterCreate :=
  if sized 1 100 (cc_name p) && opt (sized 0 500) (cc_description p) &&
     opt (ranged 1 3650) (cc_history_retention_days p) && ranged 1 10080 (cc_scan_interval_minutes p)
  then Some p else None.

Inductive Scope := ScopeAll | ScopeCluster.

Record BatchScanCreate := mkBatchScanCreate {
  bs_scope : Scope;
  bs_cluster_id : option Z
}.

Definition validate_batch_scan (p : BatchScanCreate) : option BatchScanCreate :=
  if opt (at_least 1) (bs_cluster_id p) &&
     match bs_scope p, bs_cluster_id p with
     | ScopeCluster, None | ScopeAll, Some _ => false
     | _, _ => true
     end
  then Some p else None.

Definition validate_settings (history_retention_days : Z) : option Z :=
  if ranged 1 3650 history_retention_days then Some history_retention_days else None.
