(* ===== verification/Api.v ===== *)
(** * Requests (src/app/routes/api.py)

    The handlers that change devices, clusters and settings, and those that start scans.
    A handler answers a value or an error, leaves a database, and reports what it told
    the rest of the process: the topology cache, the scheduler of the process and the
    queue of connection tests. *)

From S2P Require Import Prelude PyText Models Exceptions DatabaseTransactions Collectors Scans ScanQueue Retention Clusters ScanBatchFailures Schemas.

(** ** Answers *)

(** A payload that does not validate (answered 422 before the handler runs),
    [HTTPException(status_code, detail)], the 502 of a collector with its code, or an
    exception no handler expects (the server answers 500). *)
Inductive failure :=
| Unprocessable
| HTTPException (status_code : Z) (detail : text)
| BadGateway (code message : text)
| Unhandled (e : raised).

#[export] Instance failure_eq_dec : EqDecision failure.
Proof. solve_decision. Defined.

Inductive effect :=
| ClearTopologyCache
| SyncDevice (device_id : Z) (device : Device)
| RemoveDevice (device_id : Z)
| ScheduleImportTests (batch_id : Z).

Record Reply (A : Type) := mkReply {
  answer : result failure A;
  effects : list effect;
  db_after : Db
}.
Arguments mkReply {A}. Arguments answer {A}. Arguments effects {A}. Arguments db_after {A}.

(** A transaction of a request: what its handlers answer instead of the exception. *)
Definition FTx (A : Type) := Db -> result failure (A * Db).

Definition f_ret {A} (a : A) : FTx A := fun d => Ok (a, d).
Definition f_bind {A B} (m : FTx A) (k : A -> FTx B) : FTx B := fun d =>
  match m d with Ok (a, d) => k a d | Raise e => Raise e end.

(** [try: m except ...: raise HTTPException] *)
Definition handled {A} (handler : exn -> failure) (m : Tx A) : FTx A := fun d =>
  match m d with Ok r => Ok r | Raise e => Raise (handler e) end.

Definition unhandled (e : exn) : failure := Unhandled (Raised e).

(** The subclasses of [ValueError] among the exceptions. *)
Definition is_value_error (e : exn) : bool :=
  match e with
  | ValueError _ | ClusterNotFound | ClusterConflict | ImportValidationError _ | CredentialError _ => true
  | _ => false
  end.

Definition value_errors (e : exn) : failure :=
  if is_value_error e then HTTPException 422 (exn_message e) else unhandled e.

Definition cluster_errors (e : exn) : failure :=
  match e with ClusterConflict => HTTPException 409 (exn_message e) | _ => value_errors e end.

Definition DUPLICATE_DEVICE : text := u "相同地址、端口和用户名的设备已存在".

Definition duplicate_errors (e : exn) : failure :=
  match e with IntegrityError => HTTPException 409 DUPLICATE_DEVICE | _ => unhandled e end.

(** What a request answers when the guard of its transaction raises. *)
Definition guard_failure (e : raised) : failure :=
  match e with
  | Raised DatabaseUnavailable => HTTPException 503 (exn_message DatabaseUnavailable)
  | Raised TransactionConflict => HTTPException 503 (exn_message TransactionConflict)
  | _ => Unhandled e
  end.

(** [with _write_request(...)]: [fault] is a database error of the transaction.  Whatever
    ends it early, the session is rolled back. *)
Definition _write_request {A} (fault : option raised) (m : FTx A) (d : Db) : result failure A * Db :=
  match fault with
  | Some e => (Raise (guard_failure (classify e)), d)
  | None => match m d with Ok (a, d') => (Ok a, d') | Raise e => (Raise e, d) end
  end.

(** [_system_retention_days] *)
Definition _system_retention_days (d : Db) : Z := default 7 (system_setting d).

(** ** Clusters *)

Record ClusterRead := mkClusterRead {
  cr_id : Z;
  cr_cluster : Cluster;
  cr_internal_networks : gset text;
  cr_effective_history_retention_days : Z;
  cr_device_count : Z
}.

Definition _cluster_read (cluster_id : Z) (cluster : Cluster) (device_count : Z) (d : Db) : ClusterRead :=
  mkClusterRead cluster_id cluster (networks_of cluster_id d)
    (match cluster_history_retention_days cluster with Some n => n | None => _system_retention_days d end)
    device_count.

Definition cluster_size (cluster_id : Z) (d : Db) : Z := count_where (member cluster_id) (devices d).

#[export] Instance Cluster_eq_dec : EqDecision Cluster.
Proof. solve_decision. Defined.

#[export] Instance Device_eq_dec : EqDecision Device.
Proof. solve_decision. Defined.

(** [onupdate=utcnow]: the row is written when a column changed. *)
Definition touch_cluster (wall : Z) (old new : Cluster) : Cluster :=
  if decide (new = old) then old else new <| cluster_updated_at := wall |>.

Definition cluster_policy (p : ClusterCreate) (c : Cluster) : Cluster :=
  c <| cluster_history_retention_days := cc_history_retention_days p |>
    <| cluster_scan_interval_minutes := cc_scan_interval_minutes p |>
    <| cluster_scheduled_enabled := cc_scheduled_enabled p |>.

Definition description_of (description : option text) : option text :=
  match description with Some s => match strip s with [] => None | s => Some s end | None => None end.

Section clusters.
Context `{UnicodeCase, PgLower}.

Definition add_cluster (payload : ClusterCreate) (fault : option raised) (wall : Z) (d : Db) : Reply ClusterRead :=
  let create : Tx Z :=
    let* i := create_cluster (cc_name payload) (cc_description payload) (Some (cc_internal_networks payload)) 5 true wall in
    do* tx_modify (fun d => d <| clusters := alter (fun c => touch_cluster wall c (cluster_policy payload c)) i (clusters d) |>) then
    do* tx_modify notify_topology_changed then
    tx_ret i in
  match _write_request fault (handled cluster_errors create) d with
  | (Raise e, d) => mkReply (Raise e) [] d
  | (Ok i, d) =>
      mkReply (match clusters d !! i with Some c => Ok (_cluster_read i c 0 d) | None => Raise (unhandled AssertionError) end)
        [ClearTopologyCache] d
  end.

(** The unique constraint on the name, at the flush. *)
Definition store_cluster (i : Z) (c : Cluster) : Tx () := fun d =>
  if bool_decide (map_Exists (fun j x => j ≠ i /\ cluster_name x = cluster_name c) (clusters d))
  then Raise IntegrityError
  else Ok ((), d <| clusters := <[i := c]> (clusters d) |>).

(** The body of the [try]: the members, to be told to the scheduler. *)
Definition edit_cluster_tx (cluster_id : Z) (cluster : Cluster) (payload : ClusterCreate) (wall : Z) : Tx (gset Z) := fun d =>
  match normalize_cluster_name (cc_name payload) with
  | Raise e => Raise e
  | Ok normalized =>
      match find_cluster_by_name normalized d with
      | Raise e => Raise e
      | Ok duplicate =>
          if match duplicate with Some j => negb (j =? cluster_id) | None => false end then Raise ClusterConflict
          else
            let new := cluster_policy payload
              (cluster <| cluster_name := normalized |> <| cluster_description := description_of (cc_description payload) |>) in
            (do* replace_internal_networks cluster_id (cc_internal_networks payload) then
             do* store_cluster cluster_id (touch_cluster wall cluster new) then
             let* members := (fun d => Ok (apply_cluster_scan_policy cluster_id new wall d)) in
             do* tx_modify notify_topology_changed then
             tx_ret members) d
      end
  end.

Definition sync_effects (scheduler : bool) (ids : gset Z) (d : Db) : list effect :=
  if scheduler then omap (M:=list) (fun i => SyncDevice i <$> devices d !! i) (sorted_ids ids) else [].

Definition edit_cluster (scheduler : bool) (cluster_id : Z) (payload : ClusterCreate) (fault : option raised) (wall : Z) (d : Db) :
    Reply ClusterRead :=
  let m : FTx (gset Z) := fun d =>
    match clusters d !! cluster_id with
    | None => Raise (HTTPException 404 (u "集群不存在"))
    | Some cluster => handled cluster_errors (edit_cluster_tx cluster_id cluster payload wall) d
    end in
  match _write_request fault m d with
  | (Raise e, d) => mkReply (Raise e) [] d
  | (Ok members, d) =>
      mkReply (match clusters d !! cluster_id with
               | Some c => Ok (_cluster_read cluster_id c (cluster_size cluster_id d) d)
               | None => Raise (unhandled AssertionError)
               end)
        (sync_effects scheduler members d ++ [ClearTopologyCache]) d
  end.

Definition remove_cluster (cluster_id : Z) (fault : option raised) (wall : Z) (d : Db) : Reply () :=
  let m : FTx () := fun d =>
    match clusters d !! cluster_id with
    | None => Raise (HTTPException 404 (u "集群不存在"))
    | Some _ => Ok ((), notify_topology_changed (delete_cluster cluster_id wall d))
    end in
  match _write_request fault m d with
  | (Raise e, d) => mkReply (Raise e) [] d
  | (Ok _, d) => mkReply (Ok ()) [ClearTopologyCache] d
  end.
End clusters.

(** ** Devices *)

(** A device as requests see it: without its password, with the retention that applies. *)
Record DeviceRead := mkDeviceRead {
  dr_id : Z;
  dr_name : text;
  dr_host : text;
  dr_os_type : OSType;
  dr_port : Z;
  dr_username : text;
  dr_scan_interval_minutes : Z;
  dr_scheduled_enabled : bool;
  dr_collection_enabled : bool;
  dr_history_retention_days : option Z;
  dr_effective_history_retention_days : Z;
  dr_history_retention_source : RetentionSource;
  dr_cluster_id : option Z;
  dr_cluster_name : option text;
  dr_last_scan_status : option ScanStatus;
  dr_last_scan_at : option Z;
  dr_created_at : Z;
  dr_updated_at : Z
}.

Definition _device_read (device_id : Z) (device : Device) (d : Db) : DeviceRead :=
  let policy := resolve_device_retention device (cluster_of d device) (_system_retention_days d) in
  {| dr_id := device_id;
     dr_name := device_name device;
     dr_host := device_host device;
     dr_os_type := device_os_type device;
     dr_port := device_port device;
     dr_username := device_username device;
     dr_scan_interval_minutes := device_scan_interval_minutes device;
     dr_scheduled_enabled := device_scheduled_enabled device;
     dr_collection_enabled := device_collection_enabled device;
     dr_history_retention_days := device_history_retention_days device;
     dr_effective_history_retention_days := days policy;
     dr_history_retention_source := source policy;
     dr_cluster_id := device_cluster_id device;
     dr_cluster_name := cluster_name <$> cluster_of d device;
     dr_last_scan_status := device_last_scan_status device;
     dr_last_scan_at := device_last_scan_at device;
     dr_created_at := device_created_at device;
     dr_updated_at := device_updated_at device |}.

(** A [CollectorError] of a connection test is answered 502. *)
Definition test_errors (e : exn) : failure :=
  match e with CollectorError code message => BadGateway code message | _ => unhandled e end.

Definition same_device (x y : Device) : Prop :=
  device_host x = device_host y /\ device_port x = device_port y /\ device_username x = device_username y.

#[export] Instance same_device_dec : RelDecision same_device.
Proof. unfold RelDecision, same_device. intros x y. apply _. Defined.

(** The constraint [uq_device_identity], at the flush. *)
Definition identity_taken (i : Z) (x : Device) (d : Db) : bool :=
  bool_decide (map_Exists (fun j y => j ≠ i /\ same_device y x) (devices d)).

Definition insert_device (x : Device) : Tx Z := fun d =>
  let '(i, d) := take_id T_devices d in
  if identity_taken i x d then Raise IntegrityError
  else Ok (i, d <| devices := <[i := x]> (devices d) |>).

Section devices.
Context `{UnicodeCase, PgLower}.
Context (encrypt : text -> option text) (decrypt : text -> result exn text) (collectors : OSType -> Collector).
Context (scheduler : bool).

Definition encrypted (password : text) : Tx text := fun d =>
  match encrypt password with Some token => Ok (token, d) | None => Raise (ValueError (u "surrogates not allowed")) end.

Definition test_device (payload : DeviceTest) : result failure () :=
  match test_connection collectors (dt_os_type payload) (dt_host payload) (port_of (dt_os_type payload) (dt_port payload))
          (dt_username payload) (dt_password payload) with
  | Ok _ => Ok ()
  | Raise e => Raise (test_errors e)
  end.

Definition created_device (p : DeviceCreate) (cluster_id : option Z) (cluster : option Cluster) (token : text) (wall : Z) :
    Device :=
  let '(interval, enabled) := cluster_scan_values cluster (dc_scan_interval_minutes p) (dc_scheduled_enabled p) in
  mkDevice (dc_name p) (dc_host p) (dc_os_type p) (port_of (dc_os_type p) (dc_port p)) (dc_username p) token cluster_id
    interval enabled true (dc_history_retention_days p) None None wall wall.

(** The transaction of [create_device]. *)
Definition create_device_tx (p : DeviceCreate) (wall : Z) : FTx Z :=
  f_bind (handled value_errors (resolve_cluster (dc_cluster_id p) (dc_new_cluster_name p) wall)) (fun cluster_id =>
  f_bind (handled unhandled (encrypted (dc_password p))) (fun token =>
  f_bind (fun d => handled duplicate_errors
    (insert_device (created_device p cluster_id (cluster_id ≫= fun c => clusters d !! c) token wall)) d) (fun i =>
  f_bind (handled unhandled (tx_modify notify_topology_changed)) (fun _ => f_ret i)))).

Definition device_reply (r : result failure Z) (d : Db) : Reply DeviceRead :=
  match r with
  | Raise e => mkReply (Raise e) [] d
  | Ok i =>
      match devices d !! i with
      | None => mkReply (Raise (unhandled AssertionError)) [] d
      | Some x =>
          mkReply (Ok (_device_read i x d)) (ClearTopologyCache :: if scheduler then [SyncDevice i x] else []) d
      end
  end.

Definition create_device (payload : DeviceCreate) (fault : option raised) (wall : Z) (d : Db) : Reply DeviceRead :=
  match test_connection collectors (dc_os_type payload) (dc_host payload) (port_of (dc_os_type payload) (dc_port payload))
          (dc_username payload) (dc_password payload) with
  | Raise e => mkReply (Raise (test_errors e)) [] d
  | Ok _ => let '(r, d) := _write_request fault (create_device_tx payload wall) d in device_reply r d
  end.

(** *** Updating a device

    [x] is the row as the request read it; its connection is tested before the transaction,
    and the commit writes the columns that changed since. *)

Definition set_opt {A} (o : option A) (a : A) : A := default a o.

(** The row with the fields of the payload; an interval and a switch may be null now. *)
Record EditedDevice := mkEdited {
  ed_device : Device;
  ed_name : option text;
  ed_interval : option Z;
  ed_enabled : option bool
}.

Definition edited (p : DeviceUpdate) (x : Device) : EditedDevice :=
  mkEdited
    (x <| device_host := set_opt (du_host p) (device_host x) |>
       <| device_os_type := set_opt (du_os_type p) (device_os_type x) |>
       <| device_port := set_opt (du_port p) (device_port x) |>
       <| device_username := set_opt (du_username p) (device_username x) |>
       <| device_history_retention_days := set_opt (du_history_retention_days p) (device_history_retention_days x) |>)
    (set_opt (du_name p) (Some (device_name x)))
    (set_opt (du_scan_interval_minutes p) (Some (device_scan_interval_minutes x)))
    (set_opt (du_scheduled_enabled p) (Some (device_scheduled_enabled x))).

(** [device.cluster_id = ...] and the policy of the cluster. *)
Definition join_cluster (cluster_id : option Z) (cluster : option Cluster) (e : EditedDevice) : EditedDevice :=
  let e := mkEdited (ed_device e <| device_cluster_id := cluster_id |>) (ed_name e) (ed_interval e) (ed_enabled e) in
  match cluster with
  | Some c => mkEdited (ed_device e) (ed_name e) (Some (cluster_scan_interval_minutes c)) (Some (cluster_scheduled_enabled c))
  | None => e
  end.

Definition set_password (token : text) (e : EditedDevice) : EditedDevice :=
  mkEdited (ed_device e <| device_encrypted_password := token |> <| device_collection_enabled := true |>)
    (ed_name e) (ed_interval e) (ed_enabled e).

(** The row to store; a null in a column that takes none is an [IntegrityError]. *)
Definition final_device (e : EditedDevice) : option Device :=
  match ed_name e, ed_interval e, ed_enabled e with
  | Some name, Some interval, Some enabled =>
      Some (ed_device e <| device_name := name |> <| device_scan_interval_minutes := interval |>
                        <| device_scheduled_enabled := enabled |>)
  | _, _, _ => None
  end.

Definition changed_column {A} `{EqDecision A} (read new stored : A) : A := if decide (read = new) then stored else new.

(** The columns that differ from the row read replace those stored. *)
Definition flush_device (wall : Z) (x new stored : Device) : Device :=
  if decide (new = x) then stored else
  mkDevice (changed_column (device_name x) (device_name new) (device_name stored))
    (changed_column (device_host x) (device_host new) (device_host stored))
    (changed_column (device_os_type x) (device_os_type new) (device_os_type stored))
    (changed_column (device_port x) (device_port new) (device_port stored))
    (changed_column (device_username x) (device_username new) (device_username stored))
    (changed_column (device_encrypted_password x) (device_encrypted_password new) (device_encrypted_password stored))
    (changed_column (device_cluster_id x) (device_cluster_id new) (device_cluster_id stored))
    (changed_column (device_scan_interval_minutes x) (device_scan_interval_minutes new) (device_scan_interval_minutes stored))
    (changed_column (device_scheduled_enabled x) (device_scheduled_enabled new) (device_scheduled_enabled stored))
    (changed_column (device_collection_enabled x) (device_collection_enabled new) (device_collection_enabled stored))
    (changed_column (device_history_retention_days x) (device_history_retention_days new) (device_history_retention_days stored))
    (device_last_scan_status stored) (device_last_scan_at stored) (device_created_at stored) wall.

Definition row_gone : exn := OtherError (u "the row of the object is gone").

Definition store_device_row (i : Z) (x : Device) (new : option Device) (wall : Z) : Tx () := fun d =>
  match new with
  | None => Raise IntegrityError
  | Some new =>
      match devices d !! i with
      | None => Raise row_gone
      | Some stored =>
          let z := flush_device wall x new stored in
          if identity_taken i z d then Raise IntegrityError
          else Ok ((), d <| devices := <[i := z]> (devices d) |>)
      end
  end.

Definition update_device_tx (i : Z) (x : Device) (p : DeviceUpdate) (wall : Z) : FTx Z :=
  let e0 := edited p x in
  let cluster_id_was_set := match du_cluster_id p with Some _ => true | None => false end in
  f_bind
    (if cluster_id_was_set || truthy (du_new_cluster_name p) then
       f_bind (handled value_errors (resolve_cluster (default None (du_cluster_id p)) (du_new_cluster_name p) wall)) (fun c d =>
         Ok (join_cluster c (c ≫= fun j => clusters d !! j) e0, d))
     else f_ret e0) (fun e =>
  f_bind
    (if truthy (du_password p)
     then f_bind (handled unhandled (encrypted (default [] (du_password p)))) (fun token => f_ret (set_password token e))
     else f_ret e) (fun e =>
  f_bind (handled duplicate_errors (store_device_row i x (final_device e) wall)) (fun _ =>
  f_bind (handled unhandled (tx_modify notify_topology_changed)) (fun _ => f_ret i)))).

Definition connection_changed (p : DeviceUpdate) : bool :=
  match du_host p, du_port p, du_username p, du_os_type p with
  | None, None, None, None => truthy (du_password p)
  | _, _, _, _ => true
  end.

(** [meanwhile] is what other sessions commit during the connection test. *)
Definition update_device (i : Z) (payload : DeviceUpdate) (meanwhile : Db -> Db) (fault : option raised) (wall : Z) (d : Db) :
    Reply DeviceRead :=
  match devices d !! i with
  | None => mkReply (Raise (HTTPException 404 (u "设备不存在"))) [] d
  | Some x =>
      match (if truthy (du_password payload) then Ok (default [] (du_password payload))
             else decrypt (device_encrypted_password x)) with
      | Raise e => mkReply (Raise (unhandled e)) [] d
      | Ok password =>
          let tested :=
            if connection_changed payload
            then test_connection collectors (set_opt (du_os_type payload) (device_os_type x))
                   (set_opt (du_host payload) (device_host x)) (set_opt (du_port payload) (device_port x))
                   (set_opt (du_username payload) (device_username x)) password
            else Ok () in
          match tested with
          | Raise e => mkReply (Raise (test_errors e)) [] d
          | Ok _ =>
              let '(r, d) := _write_request fault (update_device_tx i x payload wall) (meanwhile d) in device_reply r d
          end
      end
  end.

(** *** Deleting a device

    The foreign keys cascade to its scans with their connections and observations, its
    tasks and its batch items, and clear the reference of its import rows. *)

Definition cascade_device (i : Z) (d : Db) : Db :=
  let runs := select_ids (fun _ r => run_device_id r =? i) (scan_runs d) in
  let tasks := select_ids (fun _ t => task_device_id t =? i) (scan_tasks d) in
  let d := delete_scan_runs runs d in
  d <| observations := where_ (fun _ o => negb (obs_device_id o =? i)) (observations d) |>
    <| scan_batch_items := where_ (fun _ it => negb (item_device_id it =? i) && bool_decide (item_task_id it ∉ tasks))
         (scan_batch_items d) |>
    <| scan_tasks := where_ (fun _ t => negb (task_device_id t =? i)) (scan_tasks d) |>
    <| import_row_results := update_where (fun _ r => bool_decide (row_device_id r = Some i))
         (fun r => r <| row_device_id := None |>) (import_row_results d) |>
    <| devices := delete i (devices d) |>.

Definition delete_device (i : Z) (fault : option raised) (wall : Z) (d : Db) : Reply () :=
  let told := match devices d !! i with Some _ => if scheduler then [RemoveDevice i] else [] | None => [] end in
  let m : FTx () := fun d =>
    match devices d !! i with
    | None => Raise (HTTPException 404 (u "设备不存在"))
    | Some _ =>
        match cancel_device i wall d with
        | Raise e => Raise (unhandled e)
        | Ok (false, _) => Raise (HTTPException 409 (u "该设备正在扫描，请稍后再删除"))
        | Ok (true, d) => Ok ((), notify_topology_changed (cascade_device i d))
        end
    end in
  match _write_request fault m d with
  | (Raise e, d) => mkReply (Raise e) told d
  | (Ok _, d) => mkReply (Ok ()) (told ++ [ClearTopologyCache]) d
  end.
End devices.

(** ** Settings *)

Definition get_settings_row (d : Db) : Z := _system_retention_days d.

Definition update_settings (history_retention_days : Z) (fault : option raised) (d : Db) : Reply Z :=
  match _write_request fault (fun d => Ok ((), d <| system_setting := Some history_retention_days |>)) d with
  | (Raise e, d) => mkReply (Raise e) [] d
  | (Ok _, d) => mkReply (Ok (_system_retention_days d)) [] d
  end.

(** ** Scans

    The queue runs its operations in transactions of its own; [fault] is a database error
    that outlives the retries of one, and is not handled here. *)

Definition queue_errors (e : exn) : failure :=
  match e with
  | ScanQueueFull => HTTPException 429 (exn_message e)
  | DeviceCollectionDisabled => HTTPException 409 (exn_message e)
  | _ => unhandled e
  end.

Definition batch_errors (e : exn) : failure :=
  match e with ScanQueueFull => HTTPException 429 (exn_message e) | _ => unhandled e end.

Definition queued {A} (fault : option raised) (handler : exn -> failure) (m : Tx A) (d : Db) : result failure A * Db :=
  match fault with
  | Some e => (Raise (Unhandled (classify e)), d)
  | None => match commit m d with (Ok a, d) => (Ok a, d) | (Raise e, d) => (Raise (handler e), d) end
  end.

Definition run_scan (queue_size device_id : Z) (fault : option raised) (wall : Z) (d : Db) : result failure Z * Db :=
  match devices d !! device_id with
  | None => (Raise (HTTPException 404 (u "设备不存在")), d)
  | Some x =>
      if negb (device_collection_enabled x) then (Raise (HTTPException 409 (exn_message DeviceCollectionDisabled)), d)
      else queued fault queue_errors (enqueue_device queue_size device_id TRIGGER_MANUAL PRIORITY_MANUAL None wall) d
  end.

(** The devices of a batch, in the order of their identifiers. *)
Definition batch_devices (cluster_id : option Z) (d : Db) : list Z :=
  sorted_ids (select_ids (fun _ x => device_collection_enabled x &&
    match cluster_id with Some c => bool_decide (device_cluster_id x = Some c) | None => true end) (devices d)).

Definition create_scan_batch (queue_size : Z) (payload : BatchScanCreate) (fault : option raised) (wall : Z) (d : Db) : result failure Z * Db :=
  match bs_scope payload with
  | ScopeCluster =>
      match bs_cluster_id payload ≫= fun c => (c,.) <$> clusters d !! c with
      | None => (Raise (HTTPException 404 (u "集群不存在")), d)
      | Some (c, _) =>
          queued fault batch_errors (create_batch queue_size BATCH_CLUSTER (batch_devices (Some c) d) (Some c) None wall) d
      end
  | ScopeAll => queued fault batch_errors (create_batch queue_size BATCH_ALL (batch_devices None d) None None wall) d
  end.

Definition retry_scan_batch_failures (queue_size batch_id : Z) (fault : option raised) (wall : Z) (d : Db) : result failure Z * Db :=
  match scan_batches d !! batch_id with
  | None => (Raise (HTTPException 404 (u "扫描批次不存在")), d)
  | Some _ =>
      match failed_device_ids d batch_id with
      | [] => (Raise (HTTPException 409 (u "该批次当前没有失败设备")), d)
      | device_ids => queued fault batch_errors (create_batch queue_size BATCH_RETRY device_ids None None wall) d
      end
  end.

(** ** All of them

    A request is its path and its payload; [meanwhile] is what other sessions commit during
    the connection test of an update. *)

Inductive Request :=
| AddCluster (payload : ClusterCreate)
| EditCluster (cluster_id : Z) (payload : ClusterCreate)
| RemoveCluster (cluster_id : Z)
| CreateDevice (payload : DeviceCreate)
| UpdateDevice (device_id : Z) (payload : DeviceUpdate) (meanwhile : Db -> Db)
| DeleteDevice (device_id : Z)
| UpdateSettings (history_retention_days : Z)
| RunScan (device_id : Z)
| CreateScanBatch (payload : BatchScanCreate)
| RetryFailures (batch_id : Z).

Definition without_value {A} (r : Reply A) : Reply () :=
  mkReply (match answer r with Ok _ => Ok () | Raise e => Raise e end) (effects r) (db_after r).

(** The handlers that only start scans tell nobody. *)
Definition quiet_reply {A} (r : result failure A * Db) : Reply A := mkReply r.1 [] r.2.

Definition validated {P A} (payload : option P) (handler : P -> Db -> Reply A) (d : Db) : Reply () :=
  match payload with
  | None => mkReply (Raise Unprocessable) [] d
  | Some p => without_value (handler p d)
  end.

Definition handle `{UnicodeCase, PgLower} (encrypt : text -> option text) (decrypt : text -> result exn text)
    (collectors : OSType -> Collector) (scheduler : bool) (queue_size : Z)
    (r : Request) (fault : option raised) (wall : Z) : Db -> Reply () :=
  match r with
  | AddCluster p => validated (validate_cluster_create p) (fun p => add_cluster p fault wall)
  | EditCluster i p => validated (validate_cluster_create p) (fun p => edit_cluster scheduler i p fault wall)
  | RemoveCluster i => fun d => without_value (remove_cluster i fault wall d)
  | CreateDevice p =>
      validated (validate_device_create p) (fun p => create_device encrypt collectors scheduler p fault wall)
  | UpdateDevice i p meanwhile =>
      validated (validate_device_update p)
        (fun p => update_device encrypt decrypt collectors scheduler i p meanwhile fault wall)
  | DeleteDevice i => fun d => without_value (delete_device scheduler i fault wall d)
  | UpdateSettings n => validated (validate_settings n) (fun n => update_settings n fault)
  | RunScan i => fun d => without_value (quiet_reply (run_scan queue_size i fault wall d))
  | CreateScanBatch p =>
      validated (validate_batch_scan p) (fun p d => quiet_reply (create_scan_batch queue_size p fault wall d))
  | RetryFailures b => fun d => without_value (quiet_reply (retry_scan_batch_failures queue_size b fault wall d))
  end.
