(* ===== verification/Registry.v ===== *)
(** * The registry: clusters, their networks and the devices

    What the constraints of src/app/models.py and the handlers of src/app/routes/api.py
    keep true of these three tables, and the lemmas that each operation keeps it. *)

From S2P Require Import Prelude PyText IpAddress Networks Models Exceptions TaskLeases ScanQueue Retention Clusters Schemas ImportOutcomes Api.

(** The lengths and ranges of the columns. *)
Definition device_fields (x : Device) : bool :=
  sized 1 100 (device_name x) && sized 1 255 (device_host x) && ranged 1 65535 (device_port x) &&
  sized 1 255 (device_username x) && ranged 1 10080 (device_scan_interval_minutes x) &&
  opt (ranged 1 3650) (device_history_retention_days x).

Definition cluster_fields (c : Cluster) : bool :=
  sized 1 100 (cluster_name c) && opt (sized 1 500) (cluster_description c) &&
  ranged 1 10080 (cluster_scan_interval_minutes c) && opt (ranged 1 3650) (cluster_history_retention_days c).

(** A device in a cluster is scanned as the cluster says. *)
Definition follows (c : Cluster) (x : Device) : Prop :=
  device_scan_interval_minutes x = cluster_scan_interval_minutes c /\
  device_scheduled_enabled x = cluster_scheduled_enabled c.

Definition names_unique (m : gmap Z Cluster) : Prop :=
  forall i j c c', m !! i = Some c -> m !! j = Some c' -> cluster_name c = cluster_name c' -> i = j.

Definition members_follow (cs : gmap Z Cluster) (ds : gmap Z Device) : Prop :=
  forall i x k, ds !! i = Some x -> device_cluster_id x = Some k -> exists c, cs !! k = Some c /\ follows c x.

Record networks_kept (d : Db) : Prop := {
  nets_below : networks_below d;
  nets_owned : forall i n, cluster_internal_networks d !! i = Some n -> is_Some (clusters d !! network_cluster_id n);
  nets_unique : forall i j n, cluster_internal_networks d !! i = Some n -> cluster_internal_networks d !! j = Some n -> i = j
}.

Record registry (d : Db) : Prop := {
  reg_clusters_below : ids_below (clusters d) (next_id d T_clusters);
  reg_devices_below : ids_below (devices d) (next_id d T_devices);
  reg_networks : networks_kept d;
  reg_names : names_unique (clusters d);
  reg_identities : devices_unique (devices d);
  reg_members : members_follow (clusters d) (devices d);
  reg_device_fields : map_Forall (fun _ x => device_fields x = true) (devices d);
  reg_cluster_fields : map_Forall (fun _ c => cluster_fields c = true) (clusters d)
}.

(** The registry is a matter of three tables and their sequences; the notifications sent
    about it are kept with them. *)
Definition registry_tables (d : Db) :=
  (clusters d, cluster_internal_networks d, devices d,
   (next_id d T_clusters, next_id d T_networks, next_id d T_devices), topology_notifications d).

Lemma registry_frame d d' : registry_tables d' = registry_tables d -> registry d -> registry d'.
Proof.
  intros E [? ? [Hb Ho Hu] ? ? ? ? ?]. injection E as E1 E2 E3 E4 E5 E6 _.
  split; rewrite ?E1, ?E3, ?E4, ?E6; try done. unfold networks_below in Hb.
  split; [unfold networks_below|..]; rewrite ?E1, ?E2, ?E5; done.
Qed.

Lemma registry_empty : registry empty_db.
Proof.
  split; try apply map_Forall_empty; try (split; try apply map_Forall_empty); repeat intro;
    match goal with H : _ !! _ = Some _ |- _ => by destruct (lookup_empty_Some _ _ H) end.
Qed.

(** ** Networks *)

Lemma normalized_nodup values cidrs : normalize_internal_networks values = Ok cidrs -> NoDup cidrs.
Proof.
  unfold normalize_internal_networks. destruct (_ <? _); [done|].
  pose proof (add_networks_spec [] [] (cleaned values) ltac:(constructor) ltac:(constructor)) as Hspec.
  destruct (add_networks [] (cleaned values)) as [nets|e]; [|done]. destruct Hspec as (parsed & -> & _ & Hnd).
  cbn. intros [= <-]. by rewrite (merge_sort_Permutation network_le parsed).
Qed.

Lemma add_network_rows_kept c cidrs d :
  networks_kept d -> is_Some (clusters d !! c) -> NoDup cidrs -> (forall x, x ∈ cidrs -> x ∉ networks_of c d) ->
  let d' := foldl (add_network_row c) d cidrs in
  networks_kept d' /\ registry_tables d' =
    (clusters d, cluster_internal_networks d', devices d, (next_id d T_clusters, next_id d' T_networks, next_id d T_devices),
     topology_notifications d).
Proof.
  revert d. induction cidrs as [|cidr cidrs IH]; intros d Hk Hc Hnd Hnew; cbn [foldl]; [done|].
  apply NoDup_cons in Hnd as [Hni Hnd]. set (e := add_network_row c d cidr).
  assert (Hrows : cluster_internal_networks e = <[next_id d T_networks := mkNetwork c cidr]> (cluster_internal_networks d)) by done.
  assert (Hnone : forall i n, cluster_internal_networks d !! i = Some n -> n ≠ mkNetwork c cidr).
  { intros i n Hi ->. apply (Hnew cidr); [left|]. apply elem_of_networks_of. by exists i, (mkNetwork c cidr). }
  destruct (IH e) as [Hk' Ht].
  - destruct Hk as [Hb Ho Hu]. split.
    + by apply ids_below_insert.
    + intros i n. rewrite Hrows. intros [[<- <-]|[_ Hi]]%lookup_insert_Some; [done|by apply (Ho i)].
    + intros i j n. rewrite Hrows.
      intros [[<- <-]|[? Hi]]%lookup_insert_Some [[<- Hn]|[? Hj]]%lookup_insert_Some; [done| | |by eapply Hu].
      * by destruct (Hnone j _ Hj).
      * by destruct (Hnone i _ Hi).
  - done.
  - done.
  - intros x Hx. rewrite elem_of_networks_of. intros (i & n & Hi & Hcl & Hcidr). rewrite Hrows in Hi.
    apply lookup_insert_Some in Hi as [[_ <-]|[_ Hi]]; [cbn in Hcidr; congruence|].
    apply (Hnew x); [by right|]. apply elem_of_networks_of. by exists i, n.
  - split; [exact Hk'|]. rewrite Ht. done.
Qed.

(** What replacing the networks of a cluster leaves alone. *)
Definition beside_networks (d : Db) :=
  (clusters d, devices d, (next_id d T_clusters, next_id d T_devices), topology_notifications d).

Lemma replace_networks_kept c cidrs d d' :
  networks_kept d -> is_Some (clusters d !! c) -> replace_internal_networks c cidrs d = Ok ((), d') ->
  networks_kept d' /\ beside_networks d' = beside_networks d.
Proof.
  intros [Hb Ho Hu] Hc. unfold replace_internal_networks.
  destruct (normalize_internal_networks cidrs) as [normalized|] eqn:En; [|done]. intros [= <-].
  set (e := d <| cluster_internal_networks := _ |>).
  destruct (add_network_rows_kept c (filter (fun x => x ∉ networks_of c e) normalized) e) as [Hk Ht].
  - split.
    + intros i n [Hi _]%lookup_where. exact (Hb i n Hi).
    + intros i n [Hi _]%lookup_where. exact (Ho i n Hi).
    + intros i j n [Hi _]%lookup_where [Hj _]%lookup_where. exact (Hu i j n Hi Hj).
  - exact Hc.
  - apply NoDup_filter. by eapply normalized_nodup.
  - by intros x [Hx _]%list_elem_of_filter.
  - split; [exact Hk|]. injection Ht as E1 E3 E4 E6 E7. unfold beside_networks. by rewrite E1, E3, E4, E6, E7.
Qed.

(** ** Fields *)

Lemma strip_length s : (length (strip s) <= length s)%nat.
Proof.
  assert (Hl : forall t, (length (lstrip t) <= length t)%nat).
  { intros t. destruct (lstrip_spec t) as (p & E & _). rewrite E at 2. rewrite length_app. lia. }
  unfold strip, rstrip. rewrite length_rev. pose proof (Hl (rev (lstrip s))) as H1. rewrite length_rev in H1.
  pose proof (Hl s). lia.
Qed.

Lemma normalized_name_sized name normalized : normalize_cluster_name name = Ok normalized -> sized 1 100 normalized = true.
Proof.
  unfold normalize_cluster_name, sized. destruct (strip name) as [|ch rest] eqn:E; [done|].
  destruct (Z.ltb_spec 100 (Z.of_nat (length (ch :: rest)))); [done|]. intros [= <-].
  rewrite andb_true_iff, !Z.leb_le. cbn [length] in *. lia.
Qed.

Lemma description_sized description :
  opt (sized 0 500) description = true -> opt (sized 1 500) (description_of description) = true.
Proof.
  destruct description as [s|]; [|done]. cbn [opt description_of]. unfold sized.
  pose proof (strip_length s) as Hl. destruct (strip s) as [|ch rest]; [done|]. cbn [opt length] in *.
  rewrite !andb_true_iff, !Z.leb_le. lia.
Qed.

(** ** Clusters *)

(** A cluster stored under [i] whose members follow it keeps the registry. *)
Lemma registry_put_cluster i c d :
  registry d -> i < next_id d T_clusters -> cluster_fields c = true ->
  (forall j x, j ≠ i -> clusters d !! j = Some x -> cluster_name x ≠ cluster_name c) ->
  (forall j x, devices d !! j = Some x -> device_cluster_id x = Some i -> follows c x) ->
  registry (d <| clusters := <[i := c]> (clusters d) |>).
Proof.
  intros [Hcb Hdb [Hnb Hno Hnu] Hnames Hid Hmem Hdf Hcf] Hi Hc Hother Hfollow.
  assert (Hk : networks_kept (d <| clusters := <[i := c]> (clusters d) |>)).
  { split; [exact Hnb| |exact Hnu]. intros j n Hj. apply lookup_insert_is_Some'. right. exact (Hno j n Hj). }
  split; [|exact Hdb|exact Hk| |exact Hid| |exact Hdf|].
  - by apply map_Forall_insert_2.
  - change (names_unique (<[i := c]> (clusters d))).
    intros j k x y [[<- <-]|[? Hx]]%lookup_insert_Some [[<- <-]|[? Hy]]%lookup_insert_Some E; [done| | |eauto].
    + by destruct (Hother k y).
    + by destruct (Hother j x).
  - intros j x k Hx Hk'. change (clusters _) with (<[i := c]> (clusters d)). destruct (decide (i = k)) as [<-|Hne].
    + exists c. rewrite lookup_insert_eq. split; [done|]. exact (Hfollow j x Hx Hk').
    + rewrite lookup_insert_ne by done. exact (Hmem j x k Hx Hk').
  - by apply map_Forall_insert_2.
Qed.

Lemma take_cluster_id d i e :
  take_id T_clusters d = (i, e) -> registry d ->
  registry e /\ i < next_id e T_clusters /\ clusters d !! i = None /\ clusters e = clusters d /\ devices e = devices d.
Proof.
  intros Et [Hcb ? [? ? ?] ? ? ? ? ?].
  assert (Hn : next_id e T_clusters = next_id d T_clusters + 1).
  { pose proof (take_id_next T_clusters d) as Hn. by rewrite Et in Hn. }
  injection Et as <- <-. split_and!; [|lia|by apply ids_below_fresh|done|done].
  split; try done. rewrite Hn. eapply map_Forall_impl; [exact Hcb|]. intros j x Hj. cbn in *. lia.
Qed.

Lemma no_members d i : registry d -> clusters d !! i = None ->
  forall j x, devices d !! j = Some x -> device_cluster_id x ≠ Some i.
Proof. intros Hr Hi j x Hx Hc. destruct (reg_members d Hr j x i Hx Hc) as (c & Hc' & _). congruence. Qed.

Section clusters.
Context `{UnicodeCase, PgLower}.

Lemma create_cluster_registry name description nets interval enabled wall d i d' :
  registry d -> ranged 1 10080 interval = true -> opt (sized 0 500) description = true ->
  create_cluster name description nets interval enabled wall d = Ok (i, d') ->
  exists normalized, registry d' /\ i < next_id d' T_clusters /\ clusters d !! i = None /\ devices d' = devices d /\
    normalize_cluster_name name = Ok normalized /\
    clusters d' = <[i := new_cluster normalized description interval enabled wall]> (clusters d) /\
    topology_notifications d' = topology_notifications d.
Proof.
  intros Hr Hint Hdesc. unfold create_cluster.
  destruct (normalize_cluster_name name) as [normalized|] eqn:En; [|done].
  destruct (find_cluster_by_name normalized d) as [[?|]|]; [done| |done].
  case_bool_decide as Hex; [done|]. destruct (take_id T_clusters d) as [j e] eqn:Et.
  destruct (take_cluster_id _ _ _ Et Hr) as (Hre & Hlt & Hfresh & Hcl & Hdev).
  set (c := new_cluster normalized description interval enabled wall).
  rewrite tx_bind_Ok. intros ([] & d1 & E1 & [= <- <-]).
  assert (Hr1 : registry (e <| clusters := <[j := c]> (clusters e) |>)).
  { apply registry_put_cluster; [done|done| | |].
    - unfold cluster_fields. cbn. rewrite (normalized_name_sized _ _ En), Hint. cbn.
      change (opt (sized 1 500) (description_of description) && true && true = true).
      by rewrite description_sized.
    - intros k x _ Hx Heq. apply Hex. exists k, x. by rewrite <- Hcl.
    - intros k x Hx Hk. rewrite Hdev in Hx. by destruct (no_members d j Hr Hfresh k x Hx). }
  assert (Hsome : is_Some (clusters (e <| clusters := <[j := c]> (clusters e) |>) !! j)).
  { change (is_Some (<[j := c]> (clusters e) !! j)). by rewrite lookup_insert_eq. }
  destruct (replace_networks_kept j _ _ _ (reg_networks _ Hr1) Hsome E1) as [Hk Hbeside].
  injection Hbeside as B1 B2 B3 B4 B5. exists normalized. split_and!; [|by rewrite B3|done|by rewrite B2|done| |].
  - destruct Hr1. by split; rewrite ?B1, ?B2, ?B3, ?B4.
  - by rewrite B1, <- Hcl.
  - rewrite B5. by injection Et as _ <-.
Qed.
End clusters.

(** Rows of a device that keep its identity. *)
Definition identity (x : Device) : text * Z * text := (device_host x, device_port x, device_username x).

Lemma devices_unique_map (m m' : gmap Z Device) :
  (forall i x', m' !! i = Some x' -> exists x, m !! i = Some x /\ identity x' = identity x) ->
  devices_unique m -> devices_unique m'.
Proof.
  intros Hm Hu i j x' y' Hx Hy E1 E2 E3.
  destruct (Hm i x' Hx) as (x & Hx' & Ex). destruct (Hm j y' Hy) as (y & Hy' & Ey).
  injection Ex as ? ? ?. injection Ey as ? ? ?. apply (Hu i j x y); congruence.
Qed.

(** [follow_policy] and the other rewrites of a device keep what it is. *)
Lemma follow_policy_spec c wall x :
  follows c (follow_policy c wall x) /\ identity (follow_policy c wall x) = identity x /\
  device_cluster_id (follow_policy c wall x) = device_cluster_id x /\
  (device_fields x = true -> ranged 1 10080 (cluster_scan_interval_minutes c) = true ->
   device_fields (follow_policy c wall x) = true).
Proof.
  unfold follow_policy. case_bool_decide; (split_and!; [done|done|done|]); unfold device_fields; cbn;
    rewrite !andb_true_iff; tauto.
Qed.

(** Both tables replaced. *)
Lemma registry_rows cs ds d :
  registry d -> (forall k, is_Some (clusters d !! k) -> is_Some (cs !! k)) ->
  ids_below cs (next_id d T_clusters) -> ids_below ds (next_id d T_devices) -> names_unique cs -> devices_unique ds ->
  members_follow cs ds -> map_Forall (fun _ x => device_fields x = true) ds ->
  map_Forall (fun _ c => cluster_fields c = true) cs ->
  registry (d <| clusters := cs |> <| devices := ds |>).
Proof.
  intros [? ? [Hb Ho Hu] ? ? ? ? ?] Hk ? ? ? ? ? ? ?. split; try done.
  split; [exact Hb| |exact Hu]. intros i n Hi. exact (Hk _ (Ho i n Hi)).
Qed.

(** A new policy of a cluster reaches its members. *)
Lemma registry_put_policy i c wall d :
  registry d -> is_Some (clusters d !! i) -> cluster_fields c = true ->
  (forall j x, j ≠ i -> clusters d !! j = Some x -> cluster_name x ≠ cluster_name c) ->
  registry (apply_cluster_scan_policy i c wall (d <| clusters := <[i := c]> (clusters d) |>)).2.
Proof.
  intros Hr [c0 Hi] Hc Hother. set (ds := update_where (member i) (follow_policy c wall) (devices d)).
  change (registry (d <| clusters := <[i := c]> (clusters d) |> <| devices := ds |>)).
  assert (Hds : forall j x', ds !! j = Some x' -> exists x, devices d !! j = Some x /\ identity x' = identity x /\
    device_cluster_id x' = device_cluster_id x /\ device_fields x' = true /\
    (device_cluster_id x = Some i -> follows c x') /\ (device_cluster_id x <> Some i -> x' = x)).
  { intros j x'. unfold ds. rewrite lookup_update_where. intros (x & Hx & ->)%fmap_Some. exists x. unfold member.
    pose proof (reg_device_fields d Hr j x Hx) as Hf. destruct (follow_policy_spec c wall x) as (F1 & F2 & F3 & F4).
    unfold cluster_fields in Hc. rewrite !andb_true_iff in Hc.
    case_bool_decide; split_and!; try done; apply F4; tauto. }
  pose proof Hr as [Hcb Hdb _ Hn Hid Hm Hdf Hcf]. apply registry_rows; try done.
  - intros k Hk. apply lookup_insert_is_Some'. by right.
  - apply map_Forall_insert_2; [exact (Hcb i c0 Hi)|done].
  - intros j x' (x & Hx & _)%Hds. exact (Hdb j x Hx).
  - intros j k x y [[<- <-]|[? Hx]]%lookup_insert_Some [[<- <-]|[? Hy]]%lookup_insert_Some E; [done| | |eauto].
    + by destruct (Hother k y).
    + by destruct (Hother j x).
  - apply (devices_unique_map (devices d)); [|done]. intros j x' (x & Hx & E & _)%Hds. eauto.
  - intros j x' k (x & Hx & _ & -> & _ & Hsome & Hsame)%Hds Hk. destruct (decide (i = k)) as [<-|Hne].
    + exists c. rewrite lookup_insert_eq. auto.
    + rewrite lookup_insert_ne by done. rewrite Hsame by congruence. exact (Hm j x k Hx Hk).
  - intros j x' (x & _ & _ & _ & Hf & _)%Hds. exact Hf.
  - by apply map_Forall_insert_2.
Qed.

Lemma registry_delete_cluster i wall d : registry d -> registry (delete_cluster i wall d).
Proof.
  intros [Hcb Hdb [Hnb Hno Hnu] Hn Hid Hm Hdf Hcf].
  set (f := fun x => x <| device_cluster_id := None |> <| device_updated_at := wall |>).
  assert (Hds : forall j x', update_where (member i) f (devices d) !! j = Some x' ->
    exists x, devices d !! j = Some x /\ identity x' = identity x /\ device_fields x' = device_fields x /\
      (x' = f x \/ (x' = x /\ device_cluster_id x <> Some i))).
  { intros j x'. rewrite lookup_update_where. intros (x & Hx & ->)%fmap_Some. exists x. unfold member.
    case_bool_decide; split_and!; auto. }
  assert (Hdel : forall k c, clusters (delete_cluster i wall d) !! k = Some c <-> k <> i /\ clusters d !! k = Some c).
  { intros k c. unfold delete_cluster. cbn. rewrite lookup_delete_Some. naive_solver. }
  split.
  - intros k c [_ Hk]%Hdel. exact (Hcb k c Hk).
  - intros j x' (x & Hx & _)%Hds. exact (Hdb j x Hx).
  - split.
    + intros j n [Hj _]%lookup_where. exact (Hnb j n Hj).
    + intros j n [Hj Hb]%lookup_where. apply negb_true_iff, Z.eqb_neq in Hb. destruct (Hno j n Hj) as [c Hc].
      exists c. by apply Hdel.
    + intros j k n [Hj _]%lookup_where [Hk _]%lookup_where. eauto.
  - intros j k c c' [_ Hj]%Hdel [_ Hk]%Hdel. eauto.
  - apply (devices_unique_map (devices d)); [|done]. intros j x' (x & Hx & E & _)%Hds. eauto.
  - intros j x' k Hx' Hk. destruct (Hds j x' Hx') as (x & Hx & _ & _ & [->|[-> Hne]]); [done|].
    destruct (Hm j x k Hx Hk) as (c & Hc & Hf). exists c. split; [|done]. apply Hdel. split; [congruence|done].
  - intros j x' (x & Hx & _ & -> & _)%Hds. exact (Hdf j x Hx).
  - intros k c [_ Hk]%Hdel. exact (Hcf k c Hk).
Qed.

(** ** Devices *)

Lemma identity_not_taken i x d :
  identity_taken i x d = false -> forall j y, j <> i -> devices d !! j = Some y -> identity y <> identity x.
Proof.
  unfold identity_taken. intros Hb%bool_decide_eq_false j y Hne Hy [= E1 E2 E3]. apply Hb. exists j, y.
  unfold same_device. by split_and!.
Qed.

Lemma registry_put_device i x d :
  registry d -> i < next_id d T_devices -> identity_taken i x d = false -> device_fields x = true ->
  (forall k, device_cluster_id x = Some k -> exists c, clusters d !! k = Some c /\ follows c x) ->
  registry (d <| devices := <[i := x]> (devices d) |>).
Proof.
  intros Hr Hi Ht Hf Hk. pose proof Hr as [Hcb Hdb [? ? ?] Hn Hid Hm Hdf Hcf].
  pose proof (identity_not_taken i x d Ht) as Hno.
  split; try done; try (by apply map_Forall_insert_2).
  - change (devices_unique (<[i := x]> (devices d))).
    intros j k y z [[<- <-]|[? Hy]]%lookup_insert_Some [[<- <-]|[? Hz]]%lookup_insert_Some E1 E2 E3; [done| | |eauto].
    + destruct (Hno k z); [done|done|]. unfold identity. congruence.
    + destruct (Hno j y); [done|done|]. unfold identity. congruence.
  - change (members_follow (clusters d) (<[i := x]> (devices d))). intros j y k.
    intros [[<- <-]|[? Hy]]%lookup_insert_Some Hyk; [by apply Hk|exact (Hm j y k Hy Hyk)].
Qed.

Lemma insert_device_registry x d i d' :
  registry d -> device_fields x = true ->
  (forall k, device_cluster_id x = Some k -> exists c, clusters d !! k = Some c /\ follows c x) ->
  insert_device x d = Ok (i, d') ->
  registry d' /\ devices d !! i = None /\ devices d' = <[i := x]> (devices d) /\ clusters d' = clusters d /\
  topology_notifications d' = topology_notifications d.
Proof.
  intros Hr Hf Hk. unfold insert_device. cbn [take_id].
  set (e := d <| next_id := _ |>). destruct (identity_taken _ x e) eqn:Ht; [done|]. intros [= <- <-].
  pose proof Hr as [Hcb Hdb [? ? ?] Hn Hid Hm Hdf Hcf].
  assert (Hnext : next_id e T_devices = next_id d T_devices + 1) by apply (take_id_next T_devices d).
  assert (Hr' : registry e).
  { split; try done. rewrite Hnext. eapply map_Forall_impl; [exact Hdb|]. intros j y Hj. cbn in *. lia. }
  split_and!; [|by apply ids_below_fresh|done|done|done].
  apply (registry_put_device (next_id d T_devices) x e); [done|lia|done|done|exact Hk].
Qed.

(** Deleting rows of devices. *)
Lemma registry_delete_device i d d' :
  registry d -> registry_tables d' = registry_tables (d <| devices := delete i (devices d) |>) -> registry d'.
Proof.
  intros [Hcb Hdb [? ? ?] Hn Hid Hm Hdf Hcf] E. apply (registry_frame _ _ E).
  assert (Hds : forall j x, delete i (devices d) !! j = Some x -> devices d !! j = Some x).
  { by intros j x [_ Hj]%lookup_delete_Some. }
  split; try done.
  - intros j x Hj. exact (Hdb j x (Hds j x Hj)).
  - intros j k x y Hj Hk. exact (Hid j k x y (Hds j x Hj) (Hds k y Hk)).
  - intros j x k Hj. exact (Hm j x k (Hds j x Hj)).
  - intros j x Hj. exact (Hdf j x (Hds j x Hj)).
Qed.

(** ** The queue leaves the registry alone *)

Definition off_registry {A} (m : Tx A) : Prop := forall d a d', m d = Ok (a, d') -> registry_tables d' = registry_tables d.

Lemma off_registry_ret {A} (a : A) : off_registry (tx_ret a).
Proof. by intros d a' d' [= _ <-]. Qed.

Lemma off_registry_bind {A B} (m : Tx A) (k : A -> Tx B) : off_registry m -> (forall a, off_registry (k a)) -> off_registry (tx_bind m k).
Proof.
  intros Hm Hk d b d' (a & e & E1 & E2)%tx_bind_Ok. by rewrite (Hk a e b d' E2), (Hm d a e E1).
Qed.

Lemma off_registry_modify f : (forall d, registry_tables (f d) = registry_tables d) -> off_registry (tx_modify f).
Proof. intros Hf d a d' [= _ <-]. apply Hf. Qed.

Lemma refresh_off_registry wall B d : registry_tables (refresh_scan_batches wall B d) = registry_tables d.
Proof. by rewrite refresh_scan_batches_eq. Qed.

Lemma attach_off_registry b i t : off_registry (_attach_batch_item b i t).
Proof.
  intros d a d'. unfold _attach_batch_item. case_decide; [|by intros [= _ <-]].
  destruct (scan_batches d !! b); [|done]. by intros [= _ <-].
Qed.

Lemma enqueue_off_registry qs dev trig prio b wall : off_registry (_enqueue_in_session qs dev trig prio b wall).
Proof.
  intros d a d'. unfold _enqueue_in_session. destruct (devices d !! dev) as [x|]; [|done].
  destruct (negb _); [done|]. revert d a d'. apply off_registry_bind; [|intros [i t]; apply off_registry_bind].
  - intros d a d'. unfold find_or_add_task. destruct (_active_task d dev) as [[i t]|].
    + destruct (_ <? _); by intros [= _ <-].
    + destruct (_ <=? _); [done|]. by intros [= _ <-].
  - destruct b; [apply attach_off_registry|apply off_registry_ret].
  - intros _. apply off_registry_ret.
Qed.

Lemma enqueue_all_off_registry qs devs trig prio b wall : off_registry (enqueue_all qs devs trig prio b wall).
Proof.
  induction devs as [|dev devs IH]; [apply off_registry_ret|].
  apply off_registry_bind; [apply enqueue_off_registry|by intros _].
Qed.

Lemma enqueue_device_off_registry qs dev trig prio b wall : off_registry (enqueue_device qs dev trig prio b wall).
Proof.
  apply off_registry_bind; [apply enqueue_off_registry|]. intros i. apply off_registry_bind; [|intros _; apply off_registry_ret].
  destruct b; [apply off_registry_modify, refresh_off_registry|apply off_registry_ret].
Qed.

Lemma create_batch_off_registry qs bt devs c src wall : off_registry (_create_batch_in_session qs bt devs c src wall).
Proof.
  intros d a d'. unfold _create_batch_in_session. destruct (_ <? _); [done|]. generalize (selected_device_ids d devs) as ids.
  intros ids. revert d a d'. apply off_registry_bind.
  - intros d a d'. unfold add_batch. destruct (source_taken _ _); [done|]. by intros [= _ <-].
  - intros i. destruct (_batch_trigger_and_priority bt) as [trig prio].
    apply off_registry_bind; [apply enqueue_all_off_registry|]. intros _.
    apply off_registry_bind; [apply off_registry_modify, refresh_off_registry|intros _; apply off_registry_ret].
Qed.

Lemma cancel_device_off_registry i wall : off_registry (cancel_device i wall).
Proof.
  intros d a d'. unfold cancel_device. destruct (_active_task d i) as [[j t]|]; [|by intros [= _ <-]].
  case_decide; intros [= _ <-]; [done|]. unfold settle_task, mark_items. by rewrite refresh_off_registry.
Qed.
