(* ===== verification/RequestTheorems.v ===== *)
(** * The requests keep their promises

    A refused request changes nothing; an accepted one keeps the registry and tells the
    topology caches and the scheduler of its process about what it changed. *)

From S2P Require Import Prelude PyText IpAddress Networks Models Exceptions DatabaseTransactions Collectors Scans TaskLeases ScanQueue Retention Clusters ScanBatchFailures Schemas ImportOutcomes Api Registry.

(** What a job of the scheduler depends on. *)
Definition schedule_of (i : Z) (d : Db) : option (Z * bool * bool) :=
  (fun x => (device_scan_interval_minutes x, device_scheduled_enabled x, device_collection_enabled x)) <$> devices d !! i.

(** The scheduler heard of every device whose schedule changed. *)
Definition scheduler_told (d d' : Db) (es : list effect) : Prop :=
  forall i, schedule_of i d' = schedule_of i d \/
    match devices d' !! i with Some x => SyncDevice i x ∈ es | None => RemoveDevice i ∈ es end.

(** Every process hears that the topology changed. *)
Definition topology_told (d d' : Db) (es : list effect) : Prop :=
  ClearTopologyCache ∈ es /\ topology_notifications d' = topology_notifications d + 1.

Definition announced (scheduler : bool) (d d' : Db) (es : list effect) : Prop :=
  (registry_tables d' = registry_tables d \/ topology_told d d' es) /\ (scheduler = true -> scheduler_told d d' es).

(** What becomes of a request that found the database [d]; [Q] is what its payload must do
    for the policies of the clusters to hold. *)
Inductive outcome (scheduler : bool) (Q : Prop) (d : Db) (r : Reply ()) : Prop :=
| outcome_refused e : answer r = Raise e -> db_after r = d ->
    (forall x, x ∈ effects r -> exists i, x = RemoveDevice i) -> outcome scheduler Q d r
| outcome_done : answer r = Ok () -> announced scheduler d (db_after r) (effects r) ->
    (Q -> registry (db_after r)) -> outcome scheduler Q d r.

Lemma refused_quietly sch Q d e : outcome sch Q d (mkReply (Raise e) [] d).
Proof. apply (outcome_refused _ _ _ _ e); [done|done|]. by intros x Hx%elem_of_nil. Qed.

Lemma write_request_cases {A} fault (m : FTx A) d r d' :
  _write_request fault m d = (r, d') ->
  (exists e, r = Raise e /\ d' = d) \/ (exists a, r = Ok a /\ m d = Ok (a, d')).
Proof.
  unfold _write_request. destruct fault as [e|]; [intros [= <- <-]; eauto|].
  destruct (m d) as [[a d'']|e] eqn:E; intros [= <- <-]; eauto.
Qed.

Lemma handled_Ok {A} h (m : Tx A) d r : handled h m d = Ok r <-> m d = Ok r.
Proof. unfold handled. destruct (m d); naive_solver. Qed.

Lemma f_bind_Ok {A B} (m : FTx A) (k : A -> FTx B) d r :
  f_bind m k d = Ok r <-> exists a e, m d = Ok (a, e) /\ k a e = Ok r.
Proof. unfold f_bind. destruct (m d) as [[a e]|e]; naive_solver. Qed.

Lemma f_notify_Ok {A} (a b : A) d d' :
  f_bind (handled unhandled (tx_modify notify_topology_changed)) (fun _ => f_ret a) d = Ok (b, d') ->
  b = a /\ d' = notify_topology_changed d.
Proof. by intros [= <- <-]. Qed.

Lemma registry_notify d : registry d -> registry (notify_topology_changed d).
Proof. intros [? ? [? ? ?] ? ? ? ? ?]. by split. Qed.

(** No device changed: the scheduler need not hear anything. *)
Lemma scheduler_untouched d d' es : devices d' = devices d -> scheduler_told d d' es.
Proof. intros E i. left. unfold schedule_of. by rewrite E. Qed.

(** ** Clusters *)

Section clusters.
Context `{UnicodeCase, PgLower}.

Lemma cluster_create_fields p p' : validate_cluster_create p = Some p' -> p' = p /\
  sized 1 100 (cc_name p) = true /\ opt (sized 0 500) (cc_description p) = true /\
  opt (ranged 1 3650) (cc_history_retention_days p) = true /\ ranged 1 10080 (cc_scan_interval_minutes p) = true.
Proof.
  unfold validate_cluster_create. destruct (_ && _ && _ && _) eqn:E; [|done]. intros [= <-].
  rewrite !andb_true_iff in E. tauto.
Qed.

Lemma touch_cluster_same wall c c' :
  cluster_name (touch_cluster wall c c') = cluster_name c' /\
  cluster_fields (touch_cluster wall c c') = cluster_fields c' /\
  forall x, follows (touch_cluster wall c c') x <-> follows c' x.
Proof. unfold touch_cluster. case_decide; [by subst|done]. Qed.

Lemma add_cluster_outcome sch p p' fault wall d :
  registry d -> validate_cluster_create p = Some p' ->
  outcome sch True d (without_value (add_cluster p' fault wall d)).
Proof.
  intros Hr (-> & Hname & Hdesc & Hret & Hint)%cluster_create_fields. unfold add_cluster.
  destruct (_write_request _ _ d) as [r d'] eqn:E.
  apply write_request_cases in E as [(e & -> & ->)|(i & -> & E)]; [apply refused_quietly|].
  apply handled_Ok, tx_bind_Ok in E as (j & d1 & E1 & E).
  destruct (create_cluster_registry _ _ _ 5 _ _ _ _ _ Hr eq_refl Hdesc E1)
    as (normalized & Hr1 & Hj & Hnone & Hdev & Hn & Hcl & Htn).
  set (c1 := new_cluster normalized (cc_description p) 5 true wall) in *.
  set (c2 := touch_cluster wall c1 (cluster_policy p c1)).
  set (d2 := d1 <| clusters := <[j := c2]> (clusters d1) |>).
  assert (Hd2 : d' = notify_topology_changed d2 /\ i = j).
  { apply tx_bind_Ok in E as ([] & d3 & [= <-] & E). injection E as <- <-. split; [|done].
    unfold d2. do 2 f_equal. rewrite Hcl, alter_insert_eq, insert_insert_eq. done. }
  destruct Hd2 as [-> ->].
  destruct (touch_cluster_same wall c1 (cluster_policy p c1)) as (T1 & T2 & T3). fold c2 in T1, T2, T3.
  assert (Hr2 : registry d2).
  { apply registry_put_cluster; [done|done| | |].
    - rewrite T2. unfold cluster_fields. cbn. rewrite (normalized_name_sized _ _ Hn), Hret, Hint.
      change (opt (sized 1 500) (description_of (cc_description p)) && true && true = true). by rewrite description_sized.
    - intros k x Hne Hx Heq. apply Hne. apply (reg_names d1 Hr1 k j x c1 Hx).
      + by rewrite Hcl, lookup_insert_eq.
      + by rewrite Heq, T1.
    - intros k x Hx Hk. rewrite Hdev in Hx. by destruct (no_members d j Hr Hnone k x Hx). }
  assert (Hlook : clusters (notify_topology_changed d2) !! j = Some c2) by apply lookup_insert_eq.
  rewrite Hlook. apply outcome_done; [done| |intros _; by apply registry_notify].
  split; [|intros _; by apply scheduler_untouched]. right. split; [left|]. cbn. by rewrite Htn.
Qed.

Lemma elem_of_sync_effects ids d i x :
  i ∈ ids -> devices d !! i = Some x -> SyncDevice i x ∈ sync_effects true ids d.
Proof.
  intros Hi Hx. unfold sync_effects. apply list_elem_of_omap. exists i. rewrite elem_of_sorted_ids.
  split; [done|]. by rewrite Hx.
Qed.

Lemma sync_effects_only sch ids d e : e ∈ sync_effects sch ids d -> exists i x, e = SyncDevice i x.
Proof.
  destruct sch; [|by intros He%elem_of_nil]. intros (i & _ & E)%list_elem_of_omap.
  destruct (devices d !! i) as [x|]; [|done]. injection E as <-. eauto.
Qed.

(** The policy of a cluster is told for its members, and changes no other device. *)
Lemma policy_told i c wall d e es :
  devices e = (apply_cluster_scan_policy i c wall d).2.(devices) ->
  scheduler_told d e (sync_effects true (apply_cluster_scan_policy i c wall d).1 e ++ es).
Proof.
  intros Hdev k. unfold schedule_of. destruct (devices d !! k) as [x|] eqn:Hx.
  - assert (Hk : devices e !! k = Some (if member i k x then follow_policy c wall x else x)).
    { rewrite Hdev. cbn. by rewrite lookup_update_where, Hx. }
    rewrite Hk. destruct (member i k x) eqn:Hm; [right|by left].
    apply elem_of_app. left. apply elem_of_sync_effects; [|done]. apply elem_of_select_ids. eauto.
  - left. rewrite Hdev. cbn. by rewrite lookup_update_where, Hx.
Qed.

Lemma edit_cluster_tx_done i c p wall d ids d' :
  registry d -> clusters d !! i = Some c ->
  sized 1 100 (cc_name p) = true -> opt (sized 0 500) (cc_description p) = true ->
  opt (ranged 1 3650) (cc_history_retention_days p) = true -> ranged 1 10080 (cc_scan_interval_minutes p) = true ->
  edit_cluster_tx i c p wall d = Ok (ids, d') ->
  exists c' d1, registry d' /\ devices d1 = devices d /\ clusters d' = <[i := c']> (clusters d) /\
    ids = (apply_cluster_scan_policy i c' wall d1).1 /\ devices d' = (apply_cluster_scan_policy i c' wall d1).2.(devices) /\
    topology_notifications d' = topology_notifications d + 1.
Proof.
  intros Hr Hc Hname Hdesc Hret Hint. unfold edit_cluster_tx.
  destruct (normalize_cluster_name (cc_name p)) as [normalized|] eqn:En; [|done].
  destruct (find_cluster_by_name normalized d) as [dup|]; [|done].
  destruct (match dup with Some j => _ | None => _ end); [done|].
  set (new := cluster_policy p (c <| cluster_name := normalized |> <| cluster_description := description_of (cc_description p) |>)).
  set (c' := touch_cluster wall c new). destruct (touch_cluster_same wall c new) as (T1 & T2 & T3). fold c' in T1, T2, T3.
  intros ([] & d1 & E1 & E)%tx_bind_Ok. apply tx_bind_Ok in E as ([] & d2 & E2 & E).
  destruct (replace_networks_kept i _ _ _ (reg_networks d Hr) ltac:(by rewrite Hc) E1) as [Hk Hb].
  injection Hb as B1 B2 B3 B4 B5.
  unfold store_cluster in E2. case_bool_decide as Hex; [done|]. injection E2 as <-. injection E as <- <-.
  assert (Hr1 : registry d1) by (destruct Hr; by split; rewrite ?B1, ?B2, ?B3, ?B4).
  exists c', d1.
  assert (Hsame : forall x, follow_policy new wall x = follow_policy c' wall x).
  { unfold follow_policy, c', touch_cluster. case_decide as Et; [by rewrite Et|done]. }
  assert (Hpol : update_where (member i) (follow_policy new wall) (devices d1) =
    update_where (member i) (follow_policy c' wall) (devices d1)).
  { apply map_eq. intros k. rewrite !lookup_update_where. destruct (devices d1 !! k); [|done]. cbn. by rewrite Hsame. }
  split_and!; [|exact B2|cbn; by rewrite B1|done|exact Hpol|cbn; by rewrite B5].
  apply registry_notify. cbn. rewrite Hpol. apply (registry_put_policy i c' wall d1 Hr1).
  - by rewrite B1, Hc.
  - rewrite T2. unfold cluster_fields. cbn. rewrite (normalized_name_sized _ _ En), Hret, Hint.
    by rewrite description_sized.
  - intros k x Hne Hx Heq. apply Hex. exists k, x. done.
Qed.

Lemma edit_cluster_outcome sch i p p' fault wall d :
  registry d -> validate_cluster_create p = Some p' ->
  outcome sch True d (without_value (edit_cluster sch i p' fault wall d)).
Proof.
  intros Hr (-> & Hname & Hdesc & Hret & Hint)%cluster_create_fields. unfold edit_cluster.
  destruct (_write_request _ _ d) as [r d'] eqn:E.
  apply write_request_cases in E as [(e & -> & ->)|(ids & -> & E)]; [apply refused_quietly|].
  destruct (clusters d !! i) as [c|] eqn:Hc; [|done]. apply handled_Ok in E.
  destruct (edit_cluster_tx_done _ _ _ _ _ _ _ Hr Hc Hname Hdesc Hret Hint E)
    as (c' & d1 & Hr' & Hd1 & Hcl & -> & Hdev & Htn).
  assert (Hlook : clusters d' !! i = Some c') by (by rewrite Hcl, lookup_insert_eq).
  rewrite Hlook. apply outcome_done; [done| |done]. split.
  - right. split; [|exact Htn]. apply elem_of_app. right. left.
  - intros ->. intros k. pose proof (policy_told i c' wall d1 d' [ClearTopologyCache] Hdev k) as Ht.
    unfold schedule_of in *. by rewrite Hd1 in Ht.
Qed.

Lemma remove_cluster_outcome sch i fault wall d :
  registry d -> outcome sch True d (without_value (remove_cluster i fault wall d)).
Proof.
  intros Hr. unfold remove_cluster. destruct (_write_request _ _ d) as [r d'] eqn:E.
  apply write_request_cases in E as [(e & -> & ->)|([] & -> & E)]; [apply refused_quietly|].
  destruct (clusters d !! i) as [c|] eqn:Hc; [|done]. injection E as <-.
  apply outcome_done; [done| |intros _; by apply registry_notify, registry_delete_cluster]. split.
  - right. split; [left|done].
  - intros _ k. left. unfold schedule_of. cbn. rewrite lookup_update_where.
    destruct (devices d !! k) as [x|]; [|done]. cbn. by destruct (member i k x).
Qed.
End clusters.

(** ** Devices *)

Section devices.
Context `{UnicodeCase, PgLower}.
Context (encrypt : text -> option text) (decrypt : text -> result exn text) (collectors : OSType -> Collector).
Context (sch : bool).

Lemma resolve_cluster_done cid name wall d c d' :
  registry d -> resolve_cluster cid name wall d = Ok (c, d') ->
  registry d' /\ devices d' = devices d /\ topology_notifications d' = topology_notifications d /\
  (forall k, c = Some k -> is_Some (clusters d' !! k)).
Proof.
  intros Hr. unfold resolve_cluster. destruct cid as [i|].
  - destruct (match name with Some (_ :: _) => _ | _ => _ end); [done|].
    destruct (clusters d !! i) as [ci|] eqn:Hi; [|done]. intros [= <- <-]. split_and!; try done.
    intros k [= <-]. by rewrite Hi.
  - destruct name as [name|]; [|intros [= <- <-]; by split_and!].
    destruct (strip name) as [|ch rest] eqn:Es; [intros [= <- <-]; by split_and!|].
    destruct (find_cluster_by_name name d) as [[i|]|] eqn:Ef; [| |done].
    + intros [= <- <-]. split_and!; try done. intros k [= <-].
      destruct (normalize_cluster_name name) as [n|] eqn:En.
      * destruct (find_cluster_Some name d n i En Ef) as (ci & Hci & _). by rewrite Hci.
      * unfold find_cluster_by_name in Ef. by rewrite En in Ef.
    + intros (i & d1 & E1 & [= <- <-])%tx_bind_Ok.
      destruct (create_cluster_registry name None None 5 true wall d i d1 Hr eq_refl eq_refl E1)
        as (n & Hr1 & _ & _ & Hdev & _ & Hcl & Htn).
      split_and!; try done. intros k [= <-]. by rewrite Hcl, lookup_insert_eq.
Qed.

Lemma port_of_ranged os port : opt (ranged 1 65535) port = true -> ranged 1 65535 (port_of os port) = true.
Proof. by destruct port, os. Qed.

Lemma device_create_valid p p' :
  validate_device_create p = Some p' -> device_create_fields p' = true.
Proof.
  unfold validate_device_create. destruct (device_create_fields p) eqn:E; [|done]. cbn.
  destruct (both_clusters _ _); [done|]. intros [= <-]. unfold device_create_fields in *. cbn.
  rewrite !andb_true_iff in *. destruct E as [[[[[[[[E1 E2] E3] E4] E5] E6] E7] E8] E9].
  split_and!; try done. by apply (port_of_ranged (dc_os_type p)).
Qed.

Lemma created_device_kept p cid c token wall :
  device_create_fields p = true -> (forall k, c = Some k -> cluster_fields k = true) ->
  device_fields (created_device p cid c token wall) = true /\
  device_cluster_id (created_device p cid c token wall) = cid /\
  (forall k, c = Some k -> follows k (created_device p cid c token wall)).
Proof.
  unfold device_create_fields. rewrite !andb_true_iff. intros [[[[[[[[E1 E2] E3] E4] E5] E6] E7] E8] E9] Hc.
  unfold created_device, device_fields. destruct c as [k|]; cbn.
  - specialize (Hc k eq_refl). unfold cluster_fields in Hc. rewrite !andb_true_iff in Hc.
    destruct Hc as [[[C1 C2] C3] C4]. rewrite E1, E2, E4, C3, E7, port_of_ranged by done. split_and!; try done.
    by intros ? [= <-].
  - rewrite E1, E2, E4, E6, E7, port_of_ranged by done. by split_and!.
Qed.

(** What a successful reply of a device tells. *)
Lemma device_reply_done i d' x :
  devices d' !! i = Some x ->
  answer (without_value (device_reply sch (Ok i) d')) = Ok () /\
  db_after (without_value (device_reply sch (Ok i) d')) = d' /\
  ClearTopologyCache ∈ effects (without_value (device_reply sch (Ok i) d')) /\
  (sch = true -> SyncDevice i x ∈ effects (without_value (device_reply sch (Ok i) d'))).
Proof. intros Hx. unfold device_reply. rewrite Hx. split_and!; [done..|left|]. intros ->. right. left. Qed.

(** A single device stored and told. *)
Lemma one_device_told d d' i x es :
  devices d' = <[i := x]> (devices d) -> SyncDevice i x ∈ es -> scheduler_told d d' es.
Proof.
  intros Hd Hi k. unfold schedule_of. rewrite Hd. destruct (decide (i = k)) as [<-|Hne].
  - right. by rewrite lookup_insert_eq.
  - left. by rewrite lookup_insert_ne.
Qed.

Lemma device_saved_outcome Q d d' i x :
  devices d' = <[i := x]> (devices d) -> topology_notifications d' = topology_notifications d + 1 ->
  (Q -> registry d') -> outcome sch Q d (without_value (device_reply sch (Ok i) d')).
Proof.
  intros Hd Ht Hr. destruct (device_reply_done i d' x) as (H1 & H2 & H3 & H4); [by rewrite Hd, lookup_insert_eq|].
  apply outcome_done; [done| |by rewrite H2]. rewrite H2. split; [right; by split|].
  intros Hs. by eapply one_device_told, H4.
Qed.

Lemma create_device_outcome p p' fault wall d :
  registry d -> validate_device_create p = Some p' ->
  outcome sch True d (without_value (create_device encrypt collectors sch p' fault wall d)).
Proof.
  intros Hr Hp%device_create_valid. unfold create_device.
  destruct (test_connection _ _ _ _ _ _) as [|e]; [|apply refused_quietly].
  destruct (_write_request _ _ d) as [r d'] eqn:E.
  apply write_request_cases in E as [(e & -> & ->)|(i & -> & E)]; [apply refused_quietly|].
  apply f_bind_Ok in E as (c & d1 & E1%handled_Ok & E).
  apply f_bind_Ok in E as (token & d2 & E2%handled_Ok & E).
  apply f_bind_Ok in E as (j & d3 & E3%handled_Ok & [-> ->]%f_notify_Ok).
  destruct (resolve_cluster_done _ _ _ _ _ _ Hr E1) as (Hr1 & Hdev & Htn & Hcl).
  assert (d2 = d1) as ->. { unfold encrypted in E2. destruct (encrypt _); [by injection E2|done]. }
  set (cl := c ≫= fun k => clusters d1 !! k) in *.
  destruct (created_device_kept p' c cl token wall Hp) as (Hf & Hid & Hfol).
  { intros k Hk. unfold cl in Hk. destruct c as [k'|]; [|done]. exact (reg_cluster_fields d1 Hr1 k' k Hk). }
  destruct (insert_device_registry _ d1 j d3 Hr1 Hf) with (2 := E3) as (Hr3 & _ & Hd3 & _ & Htn3).
  { intros k. rewrite Hid. intros Hk. destruct (Hcl k Hk) as [ck Hck]. exists ck. split; [done|].
    apply Hfol. unfold cl. by rewrite Hk. }
  eapply device_saved_outcome; [| |intros _; by apply registry_notify].
  - cbn. by rewrite Hd3, Hdev.
  - cbn. by rewrite Htn3, Htn.
Qed.

Lemma delete_device_outcome i fault wall d :
  registry d -> outcome sch True d (without_value (delete_device sch i fault wall d)).
Proof.
  intros Hr. unfold delete_device.
  set (told := match devices d !! i with Some _ => _ | None => _ end).
  assert (Htold : forall x, x ∈ told -> exists i, x = RemoveDevice i).
  { intros x. unfold told. destruct (devices d !! i), sch; try by intros ?%elem_of_nil.
    intros ->%list_elem_of_singleton. eauto. }
  destruct (_write_request _ _ d) as [r d'] eqn:E.
  apply write_request_cases in E as [(e & -> & ->)|([] & -> & E)]; [by eapply (outcome_refused _ _ _ _ e)|].
  destruct (devices d !! i) as [x|] eqn:Hx; [|done].
  destruct (cancel_device i wall d) as [[[] d1]|] eqn:Ec; [|done..]. injection E as <-.
  pose proof (cancel_device_off_registry i wall d true d1 Ec) as Hoff.
  assert (Ht : registry_tables (cascade_device i d1) = registry_tables (d1 <| devices := delete i (devices d1) |>)) by done.
  pose proof (registry_frame d d1 Hoff Hr) as Hr1. injection Hoff as O1 O2 O3 O4 O5 O6 O7.
  apply outcome_done; [done| |intros _; by apply registry_notify, (registry_delete_device i d1)]. split.
  - right. split; [apply elem_of_app; right; left|]. cbn. by rewrite O7.
  - intros ->. intros k. unfold schedule_of. cbn. rewrite O3. destruct (decide (k = i)) as [->|Hne].
    + right. rewrite lookup_delete_eq. left.
    + left. by rewrite lookup_delete_ne.
Qed.

(** *** Updating *)

Definition edited_fields (e : EditedDevice) : bool :=
  opt (sized 1 100) (ed_name e) && sized 1 255 (device_host (ed_device e)) && ranged 1 65535 (device_port (ed_device e)) &&
  sized 1 255 (device_username (ed_device e)) && opt (ranged 1 10080) (ed_interval e) &&
  opt (ranged 1 3650) (device_history_retention_days (ed_device e)).

Definition edited_follows (cs : gmap Z Cluster) (e : EditedDevice) : Prop :=
  forall k, device_cluster_id (ed_device e) = Some k -> exists c, cs !! k = Some c /\
    (forall n, ed_interval e = Some n -> n = cluster_scan_interval_minutes c) /\
    (forall b, ed_enabled e = Some b -> b = cluster_scheduled_enabled c).

Lemma final_device_kept e y cs :
  final_device e = Some y -> edited_fields e = true -> edited_follows cs e ->
  device_fields y = true /\ (forall k, device_cluster_id y = Some k -> exists c, cs !! k = Some c /\ follows c y).
Proof.
  unfold final_device. destruct (ed_name e) as [name|] eqn:E1; [|done].
  destruct (ed_interval e) as [interval|] eqn:E2; [|done]. destruct (ed_enabled e) as [enabled|] eqn:E3; [|done].
  intros [= <-] Hf Hc. split.
  - unfold edited_fields in Hf. rewrite E1, E2 in Hf. exact Hf.
  - intros k Hk. destruct (Hc k Hk) as (c & Hck & H1 & H2). exists c. split; [done|]. split; [by apply H1|by apply H2].
Qed.

Lemma upd_ok {A} (P : A -> bool) (o : update A) (a : A) : upd P o = true -> P a = true -> opt P (set_opt o (Some a)) = true.
Proof. by destruct o as [[b|]|]. Qed.

Lemma upd_opt_ok {A} (P : A -> bool) (o : update A) (a : option A) :
  upd P o = true -> opt P a = true -> opt P (set_opt o a) = true.
Proof. by destruct o as [[b|]|]. Qed.

Lemma set_opt_ok {A} (P : A -> bool) (o : option A) (a : A) : opt P o = true -> P a = true -> P (set_opt o a) = true.
Proof. by destruct o. Qed.

Lemma edited_fields_kept p x :
  device_update_fields p = true -> device_fields x = true -> edited_fields (edited p x) = true.
Proof.
  unfold device_update_fields, device_fields, edited_fields. rewrite !andb_true_iff.
  intros [[[[[[[[U1 U2] U3] U4] U5] U6] U7] U8] U9] [[[[[D1 D2] D3] D4] D5] D6]. cbn.
  split_and!; [by apply upd_ok|by apply set_opt_ok|by apply set_opt_ok|by apply set_opt_ok|by apply upd_ok|].
  by apply upd_opt_ok.
Qed.

Lemma join_cluster_kept c cl e cs :
  edited_fields e = true -> (forall k, cl = Some k -> cluster_fields k = true) ->
  (forall k, c = Some k -> exists ck, cl = Some ck /\ cs !! k = Some ck) ->
  edited_fields (join_cluster c cl e) = true /\ edited_follows cs (join_cluster c cl e).
Proof.
  intros He Hcl Hc. unfold join_cluster. destruct cl as [ck|].
  - specialize (Hcl ck eq_refl). unfold edited_fields, cluster_fields in *. cbn. rewrite !andb_true_iff in *.
    split; [tauto|]. intros k Hk. destruct (Hc k Hk) as (ck' & [= <-] & Hck). exists ck. cbn. split_and!; [done|..]; congruence.
  - split; [done|]. intros k Hk. by destruct (Hc k Hk) as (? & ? & _).
Qed.

(** The payload leaves the policy of the device's cluster alone: it has no interval and no
    switch, or it chooses the cluster too, or the device is in none. *)
Definition policy_respected (p : DeviceUpdate) (x : Device) : Prop :=
  (du_scan_interval_minutes p = None /\ du_scheduled_enabled p = None) \/
  (du_cluster_id p <> None \/ truthy (du_new_cluster_name p) = true) \/ device_cluster_id x = None.

Lemma edited_kept p x d i :
  registry d -> devices d !! i = Some x ->
  (du_scan_interval_minutes p = None /\ du_scheduled_enabled p = None) \/ device_cluster_id x = None ->
  edited_follows (clusters d) (edited p x).
Proof.
  intros Hr Hx Hp k Hk. change (device_cluster_id x = Some k) in Hk.
  destruct Hp as [[E1 E2]|Hn]; [|congruence]. destruct (reg_members d Hr i x k Hx Hk) as (c & Hc & Hf1 & Hf2).
  exists c. split; [done|]. unfold edited. rewrite E1, E2. cbn. split; intros ? [= <-]; done.
Qed.

(** The commit of a row nobody else changed stores the row of the request. *)
Lemma flush_unchanged wall x new :
  device_last_scan_status new = device_last_scan_status x -> device_last_scan_at new = device_last_scan_at x ->
  device_created_at new = device_created_at x ->
  flush_device wall x new x = if decide (new = x) then x else new <| device_updated_at := wall |>.
Proof.
  intros E1 E2 E3. unfold flush_device. case_decide; [done|].
  assert (Hc : forall (A : Type) `{EqDecision A} (a b : A), changed_column a b a = b).
  { intros A HA a b. unfold changed_column. by case_decide. }
  rewrite !Hc. destruct new. cbn in *. by subst.
Qed.

(** The first half of the transaction: the cluster is chosen. *)
Definition choose_cluster (p : DeviceUpdate) (x : Device) (wall : Z) : FTx EditedDevice :=
  if match du_cluster_id p with Some _ => true | None => false end || truthy (du_new_cluster_name p) then
    f_bind (handled value_errors (resolve_cluster (default None (du_cluster_id p)) (du_new_cluster_name p) wall)) (fun c d =>
      Ok (join_cluster c (c ≫= fun j => clusters d !! j) (edited p x), d))
  else f_ret (edited p x).

Definition choose_password (p : DeviceUpdate) (e : EditedDevice) : FTx EditedDevice :=
  if truthy (du_password p)
  then f_bind (handled unhandled (encrypted encrypt (default [] (du_password p)))) (fun token => f_ret (set_password token e))
  else f_ret e.

Lemma choose_cluster_done p x i wall d e d' :
  registry d -> choose_cluster p x wall d = Ok (e, d') ->
  registry d' /\ devices d' = devices d /\ topology_notifications d' = topology_notifications d /\
  (exists c cl, e = edited p x \/ e = join_cluster c cl (edited p x)) /\
  (device_update_fields p = true -> devices d !! i = Some x -> policy_respected p x ->
   edited_fields e = true /\ edited_follows (clusters d') e).
Proof.
  intros Hr. unfold choose_cluster. destruct (_ || _) eqn:Hch.
  - intros (c & d1 & E1%handled_Ok & E)%f_bind_Ok. injection E as <- <-.
    destruct (resolve_cluster_done _ _ _ _ _ _ Hr E1) as (Hr1 & Hdev & Htn & Hcl).
    split_and!; [done|done|done|by eexists _, _; right|]. intros Hp Hx _.
    apply join_cluster_kept; [apply edited_fields_kept; [done|exact (reg_device_fields d Hr i x Hx)]| |].
    + intros k Hk. destruct c as [k'|]; [|done]. exact (reg_cluster_fields d1 Hr1 k' k Hk).
    + intros k ->. destruct (Hcl k eq_refl) as [ck Hck]. exists ck. by split.
  - intros [= <- <-]. split_and!; [done|done|done|by exists None, None; left|]. intros Hp Hx Hpol.
    split; [apply edited_fields_kept; [done|exact (reg_device_fields d Hr i x Hx)]|].
    apply (edited_kept p x d i Hr Hx). apply orb_false_iff in Hch as [H1 H2].
    destruct Hpol as [?|[[Hn|Hn]|?]]; [by left| | |by right].
    + by destruct (du_cluster_id p).
    + congruence.
Qed.

Lemma choose_password_done p e d e' d' :
  choose_password p e d = Ok (e', d') -> d' = d /\ (e' = e \/ exists t, e' = set_password t e).
Proof.
  unfold choose_password. destruct (truthy _).
  - intros (t & d1 & E1%handled_Ok & E)%f_bind_Ok. injection E as <- <-.
    unfold encrypted in E1. destruct (encrypt _); [|done]. injection E1 as <- <-. split; [done|]. right. eauto.
  - intros [= <- <-]. auto.
Qed.

Lemma final_device_stamps p x e y :
  (exists c cl, e = edited p x \/ e = join_cluster c cl (edited p x)) ->
  forall e', (e' = e \/ exists t, e' = set_password t e) -> final_device e' = Some y ->
  device_last_scan_status y = device_last_scan_status x /\ device_last_scan_at y = device_last_scan_at x /\
  device_created_at y = device_created_at x.
Proof.
  intros (c & cl & He) e' He' Hy.
  assert (Hd : device_last_scan_status (ed_device e') = device_last_scan_status x /\
    device_last_scan_at (ed_device e') = device_last_scan_at x /\ device_created_at (ed_device e') = device_created_at x).
  { destruct He' as [->|[t ->]], He as [->| ->]; try done; unfold join_cluster; by destruct cl. }
  unfold final_device in Hy. destruct (ed_name e'), (ed_interval e'), (ed_enabled e'); try done. by injection Hy as <-.
Qed.

Lemma update_device_tx_done i x p wall d j d' :
  registry d -> update_device_tx encrypt i x p wall d = Ok (j, d') ->
  exists z, j = i /\ devices d' = <[i := z]> (devices d) /\ topology_notifications d' = topology_notifications d + 1 /\
    (device_update_fields p = true -> devices d !! i = Some x -> policy_respected p x -> registry d').
Proof.
  intros Hr E. apply f_bind_Ok in E as (e & d1 & E1 & E). apply f_bind_Ok in E as (e' & d2 & E2 & E).
  destruct (choose_cluster_done p x i wall d e d1 Hr E1) as (Hr1 & Hdev & Htn & Hshape & Hkept).
  destruct (choose_password_done p e d1 e' d2 E2) as [-> He'].
  apply f_bind_Ok in E as ([] & d3 & E3%handled_Ok & [-> ->]%f_notify_Ok).
  unfold store_device_row in E3. destruct (final_device e') as [y|] eqn:Ey; [|done].
  destruct (devices d1 !! i) as [stored|] eqn:Hi; [|done]. destruct (identity_taken _ _ _) eqn:Ht; [done|].
  injection E3 as <-. eexists. split_and!; [done|cbn; by rewrite Hdev|cbn; by rewrite Htn|].
  intros Hp Hx Hpol. destruct (Hkept Hp Hx Hpol) as [Hf Hfol]. rewrite Hdev, Hx in Hi. injection Hi as <-.
  assert (Hf' : edited_fields e' = true /\ edited_follows (clusters d1) e') by (by destruct He' as [->|[t ->]]).
  destruct (final_device_kept e' y (clusters d1) Ey (proj1 Hf') (proj2 Hf')) as [Hyf Hyc].
  destruct (final_device_stamps p x e y Hshape e' He' Ey) as (S1 & S2 & S3).
  apply registry_notify, registry_put_device; [done| |done| |].
  - apply (reg_devices_below d1 Hr1 i x). by rewrite Hdev.
  - rewrite flush_unchanged by done. case_decide; [exact (reg_device_fields d Hr i x Hx)|exact Hyf].
  - rewrite flush_unchanged by done. case_decide as Heq; [by subst|exact Hyc].
Qed.

(** An update whose device, password or connection fails leaves [d]; the others are
    transactions on what [meanwhile] left. *)
Lemma update_device_outcome i p p' meanwhile fault wall d :
  registry (meanwhile d) -> validate_device_update p = Some p' ->
  let r := without_value (update_device encrypt decrypt collectors sch i p' meanwhile fault wall d) in
  (exists e, r = mkReply (Raise e) [] d) \/
  outcome sch (forall x, devices d !! i = Some x -> devices (meanwhile d) !! i = Some x /\ policy_respected p x) (meanwhile d) r.
Proof.
  intros Hm Hp. unfold validate_device_update in Hp. destruct (device_update_fields p) eqn:Hpf; [|done].
  cbn in Hp. destruct (both_clusters _ _); [done|]. injection Hp as <-. unfold update_device.
  destruct (devices d !! i) as [x|] eqn:Hx; [|left; eexists; reflexivity].
  destruct (if truthy _ then _ else _) as [password|e]; [|left; eexists; reflexivity].
  destruct (if connection_changed p then _ else _) as [|e]; [|left; eexists; reflexivity].
  right. destruct (_write_request _ _ _) as [r d'] eqn:E.
  apply write_request_cases in E as [(e & -> & ->)|(j & -> & E)]; [apply refused_quietly|].
  destruct (update_device_tx_done _ _ _ _ _ _ _ Hm E) as (z & -> & Hdev & Htn & Hr').
  apply (device_saved_outcome _ _ _ _ _ Hdev Htn). intros HQ. destruct (HQ x eq_refl). by apply Hr'.
Qed.
End devices.

(** ** Every request *)

Section requests.
Context `{UnicodeCase, PgLower}.
Context (encrypt : text -> option text) (decrypt : text -> result exn text) (collectors : OSType -> Collector).
Context (scheduler : bool) (queue_size : Z).

(** The database a request works on: the one it found, or what others left during the
    connection test of an update. *)
Definition found_by (r : Request) (d base : Db) : Prop :=
  base = d \/ match r with UpdateDevice _ _ meanwhile => base = meanwhile d | _ => False end.

(** Others keep the registry. *)
Definition others_kept (r : Request) (d : Db) : Prop :=
  match r with UpdateDevice _ _ meanwhile => registry (meanwhile d) | _ => True end.

(** An update finds its device as it read it, and leaves the policy of its cluster alone. *)
Definition undisturbed (r : Request) (d : Db) : Prop :=
  match r with
  | UpdateDevice i p meanwhile =>
      forall x, devices d !! i = Some x -> devices (meanwhile d) !! i = Some x /\ policy_respected p x
  | _ => True
  end.

Lemma untouched_outcome Q d d' a : registry d -> registry_tables d' = registry_tables d ->
  match a with Ok _ => True | Raise _ => d' = d end ->
  outcome scheduler Q d (mkReply a [] d').
Proof.
  intros Hr E Ha. destruct a as [[]|e].
  - apply outcome_done; [done| |intros _; exact (registry_frame _ _ E Hr)].
    split; [by left|]. intros _. apply scheduler_untouched. by injection E.
  - cbn in Ha. subst. apply refused_quietly.
Qed.

Lemma queued_outcome {A} Q fault h (m : Tx A) d :
  registry d -> off_registry m -> outcome scheduler Q d (without_value (quiet_reply (queued fault h m d))).
Proof.
  intros Hr Hm. unfold queued, commit. destruct fault; [apply refused_quietly|].
  destruct (m d) as [[a d']|e] eqn:E; [|apply refused_quietly]. by apply untouched_outcome; [|exact (Hm d a d' E)|].
Qed.

Lemma handle_outcome r fault wall d :
  registry d -> others_kept r d ->
  exists base, found_by r d base /\
    outcome scheduler (undisturbed r d) base (handle encrypt decrypt collectors scheduler queue_size r fault wall d).
Proof.
  intros Hr Ho. assert (Hsame : found_by r d d) by (by left).
  destruct r as [p|i p|i|p|i p m|i|n|i|p|b]; cbn [handle undisturbed]; unfold validated.
  - exists d. split; [done|]. destruct (validate_cluster_create p) as [p'|] eqn:Ep; [|apply refused_quietly].
    by apply (add_cluster_outcome scheduler p).
  - exists d. split; [done|]. destruct (validate_cluster_create p) as [p'|] eqn:Ep; [|apply refused_quietly].
    by apply (edit_cluster_outcome scheduler i p).
  - exists d. split; [done|]. by apply remove_cluster_outcome.
  - exists d. split; [done|]. destruct (validate_device_create p) as [p'|] eqn:Ep; [|apply refused_quietly].
    by apply (create_device_outcome encrypt collectors scheduler p).
  - destruct (validate_device_update p) as [p'|] eqn:Ep; [|exists d; split; [done|apply refused_quietly]].
    destruct (update_device_outcome encrypt decrypt collectors scheduler i p p' m fault wall d Ho Ep) as [[e Hu]|Hu].
    + exists d. split; [done|]. rewrite Hu. apply refused_quietly.
    + exists (m d). split; [by right|exact Hu].
  - exists d. split; [done|]. by apply delete_device_outcome.
  - exists d. split; [done|]. destruct (validate_settings n) as [n'|]; [|apply refused_quietly].
    unfold update_settings, _write_request. destruct fault; [apply refused_quietly|]. by apply untouched_outcome.
  - exists d. split; [done|]. unfold run_scan. destruct (devices d !! i) as [x|]; [|apply refused_quietly].
    destruct (negb _); [apply refused_quietly|]. by apply queued_outcome; [|apply enqueue_device_off_registry].
  - exists d. split; [done|]. destruct (validate_batch_scan p) as [p'|]; [|apply refused_quietly]. unfold create_scan_batch.
    destruct (bs_scope p'); [by apply queued_outcome; [|apply create_batch_off_registry]|].
    destruct (_ ≫= _) as [[c ?]|]; [|apply refused_quietly]. by apply queued_outcome; [|apply create_batch_off_registry].
  - exists d. split; [done|]. unfold retry_scan_batch_failures. destruct (scan_batches d !! b); [|apply refused_quietly].
    destruct (failed_device_ids d b); [apply refused_quietly|]. by apply queued_outcome; [|apply create_batch_off_registry].
Qed.

Lemma handle_registry r fault wall d :
  registry d -> others_kept r d -> undisturbed r d ->
  registry (db_after (handle encrypt decrypt collectors scheduler queue_size r fault wall d)).
Proof.
  intros Hr Ho Hu. destruct (handle_outcome r fault wall d Hr Ho) as (base & Hf & [e _ -> _|_ _ Hreg]); [|by apply Hreg].
  destruct Hf as [->|Hf]; [done|]. destruct r; try done. by subst.
Qed.



End requests.
