(* ===== verification/Uploads.v ===== *)
(** * Uploads of imports, and everything that writes the registry

    [upload_import] (src/app/routes/api.py) runs an import and tells the process about it.
    The imports keep the registry of clusters, networks and devices, as the other requests
    do. *)

From S2P Require Import Prelude PyText Networks Models Exceptions DatabaseTransactions Collectors ScanQueue Clusters ImportFiles ImportFileTheorems Imports ImportOutcomes Schemas Api Registry RequestTheorems.

Section uploads.
Context `{UnicodeCase, PgLower, UnicodeDigits}.
Context (load_workbook : list N -> option (list (text * list (list Cell)))) (encrypt : text -> option text).

(** The rows of the batch that were imported and still have their device. *)
Definition imported_rows (batch_id : Z) (d : Db) : gset Z :=
  select_ids (fun _ r => (row_batch_id r =? batch_id) && bool_decide (row_import_status r = ROW_IMPORTED) &&
                         bool_decide (row_device_id r <> None)) (import_row_results d).

(** [sync_device(db.get(Device, row.device_id))]: the session answers with the object it
    holds ([held]), or reads the row. *)
Definition upload_effects (scheduler : bool) (held : Z -> option Device) (batch_id : Z) (d : Db) : list effect :=
  if scheduler then
    omap (M:=list) (fun i =>
      r ← import_row_results d !! i;
      j ← row_device_id r;
      SyncDevice j <$> match held j with Some x => Some x | None => devices d !! j end)
      (sorted_ids (imported_rows batch_id d))
  else [].

(** [file.read(MAX_IMPORT_BYTES + 1)] and [file.filename or "import.xlsx"] *)
Definition uploaded_name (filename : text) : text := match filename with [] => u "import.xlsx" | _ => filename end.

Definition upload_failure (e : raised) : failure :=
  match e with
  | Raised (ImportValidationError m) => HTTPException 422 m
  | _ => guard_failure e
  end.

Definition upload_import (scheduler : bool) (before during : Phase -> Db -> Db) (fault : Phase -> option raised)
    (wall : Phase -> Z) (held : Z -> option Device) (filename : text) (file : list N) (d : Db) : Reply (Z * ImportBatch) :=
  match import_devices load_workbook encrypt before during fault wall (uploaded_name filename)
          (take (Z.to_nat (MAX_IMPORT_BYTES + 1)) file) d with
  | (Raise e, d) => mkReply (Raise (upload_failure e)) [] d
  | (Ok (batch_id, batch), d) =>
      mkReply (Ok (batch_id, batch))
        (upload_effects scheduler held batch_id d ++ [ClearTopologyCache; ScheduleImportTests batch_id]) d
  end.
End uploads.

(** ** The rows of an import keep the registry *)

Lemma write_batch_off_registry b loaded batch : off_registry (write_batch b loaded batch).
Proof. intros d a d'. unfold write_batch. destruct (import_batches d !! b); [|done]. by intros [= _ <-]. Qed.

Lemma add_row_result_off_registry b n name host i st m ts : off_registry (add_row_result b n name host i st m ts).
Proof.
  intros d a d'. unfold add_row_result. destruct (match i with Some _ => _ | None => _ end); [done|]. by intros [= _ <-].
Qed.

Lemma off_registry_kept {A} (m : Tx A) d a d' : off_registry m -> registry d -> m d = Ok (a, d') -> registry d'.
Proof. intros Hm Hr E. exact (registry_frame _ _ (Hm d a d' E) Hr). Qed.

Lemma add_device_insert x d r : add_device x d = Ok r -> insert_device x d = Ok r.
Proof.
  unfold add_device, insert_device. case_decide as He; [|done]. cbn [take_id].
  set (e := d <| next_id := _ |>). destruct (identity_taken _ x e) eqn:Ht; [|done].
  exfalso. unfold identity_taken in Ht. apply bool_decide_eq_true in Ht as (j & y & Hy & _ & E1 & E2 & E3).
  apply (not_elem_of_empty (C := gset Z) j). rewrite <- He. apply elem_of_select_ids. exists y.
  split; [exact Hy|]. by apply bool_decide_eq_true.
Qed.

Section imports.
Context `{UnicodeCase, PgLower, UnicodeDigits}.
Context (load_workbook : list N -> option (list (text * list (list Cell)))) (encrypt : text -> option text).

Lemma sized_length lo hi (s : text) : lo <= Z.of_nat (length s) <= hi -> sized lo hi s = true.
Proof. unfold sized. rewrite andb_true_iff, !Z.leb_le. lia. Qed.

Lemma row_cluster_registry p now d c d' :
  valid_row p -> registry d -> row_cluster p now d = Ok (c, d') ->
  registry d' /\ devices d' = devices d /\ (forall k, c = Some k -> is_Some (clusters d' !! k)).
Proof.
  intros Hp Hr. unfold row_cluster. destruct (parsed_cluster_name p) as [|ch rest] eqn:En.
  { by intros [= <- <-]. }
  rewrite <- En. destruct (find_cluster_by_name (parsed_cluster_name p) d) as [[i|]|e] eqn:Ef; [| |done].
  - intros [= <- <-]. split_and!; try done. intros k [= <-].
    destruct (normalize_cluster_name (parsed_cluster_name p)) as [n|] eqn:Ez;
      [|unfold find_cluster_by_name in Ef; by rewrite Ez in Ef].
    destruct (find_cluster_Some _ _ _ _ Ez Ef) as (cl & Hcl & _). by rewrite Hcl.
  - intros (i & d1 & Hc & [= <- <-])%tx_bind_Ok.
    assert (Hint : ranged 1 10080 (parsed_scan_interval_minutes p) = true).
    { unfold ranged. pose proof (valid_interval p Hp). rewrite andb_true_iff, !Z.leb_le. lia. }
    destruct (create_cluster_registry (parsed_cluster_name p) None None _ _ now d i d1 Hr Hint eq_refl Hc)
      as (n & Hr1 & _ & _ & Hd & _ & Hcl & _).
    split_and!; try done. intros k [= <-]. by rewrite Hcl, lookup_insert_eq.
Qed.

Lemma field_ok_sized hi s : field_ok true hi s -> sized 1 hi s = true.
Proof. intros (_ & Hne & Hlen). apply sized_length. destruct s; [by destruct (Hne eq_refl)|]. cbn [length] in *. lia. Qed.

Lemma new_device_kept p c cl token now :
  valid_row p -> (forall k, cl = Some k -> cluster_fields k = true) ->
  device_fields (new_device p c cl token now) = true /\ device_cluster_id (new_device p c cl token now) = c /\
  (forall k, cl = Some k -> follows k (new_device p c cl token now)).
Proof.
  intros [V1 V2 V3 _ _ _ V7 V8] Hcl.
  assert (Hp : ranged 1 65535 (parsed_port p) = true) by (unfold ranged; rewrite andb_true_iff, !Z.leb_le; lia).
  assert (Hi : ranged 1 10080 (parsed_scan_interval_minutes p) = true) by (unfold ranged; rewrite andb_true_iff, !Z.leb_le; lia).
  unfold new_device, device_fields. destruct cl as [k|]; cbn;
    rewrite !field_ok_sized, Hp by done; cbn [andb]; [|by rewrite Hi].
  specialize (Hcl k eq_refl). unfold cluster_fields in Hcl. rewrite !andb_true_iff in Hcl.
  destruct Hcl as [[_ ->] _]. split_and!; [done|done|]. by intros ? [= <-].
Qed.

Lemma store_device_registry b n p batch now d r :
  valid_row p -> registry d -> store_device encrypt b n p batch now d = Ok r -> registry r.2.
Proof.
  intros Hp Hr. unfold store_device. intros (c & d1 & E1 & E)%tx_bind_Ok.
  destruct (row_cluster_registry p now d c d1 Hp Hr E1) as (Hr1 & _ & Hk).
  apply tx_bind_Ok in E as (cl & d2 & E2 & E). injection E2 as <- <-.
  apply tx_bind_Ok in E as (token & d2 & E2 & E).
  assert (d2 = d1) as ->. { unfold encrypt_password in E2. destruct (encrypt _); [by injection E2|done]. }
  apply tx_bind_Ok in E as (i & d3 & E3%add_device_insert & E).
  set (cl := c ≫= fun j => clusters d1 !! j) in *.
  destruct (new_device_kept p c cl token now Hp) as (Hf & Hid & Hfol).
  { intros k Hck. unfold cl in Hck. destruct c as [k'|]; [|done]. exact (reg_cluster_fields d1 Hr1 k' k Hck). }
  destruct (insert_device_registry _ d1 i d3 Hr1 Hf) with (2 := E3) as (Hr3 & _).
  { intros k. rewrite Hid. intros ->. destruct (Hk k eq_refl) as [ck Hck]. exists ck. split; [done|]. by apply Hfol. }
  apply tx_bind_Ok in E as (batch' & d4 & E4 & E).
  assert (Hr4 : registry d4) by (eapply off_registry_kept; [apply write_batch_off_registry|exact Hr3|exact E4]).
  apply tx_bind_Ok in E as ([] & d5 & E5 & E).
  assert (Hr5 : registry d5) by (eapply off_registry_kept; [apply add_row_result_off_registry|exact Hr4|exact E5]).
  apply tx_bind_Ok in E as ([] & d6 & E6 & E). injection E6 as <-. injection E as <-. by apply registry_notify.
Qed.

Lemma store_duplicate_off_registry b n p i batch : off_registry (store_duplicate b n p i batch).
Proof.
  unfold store_duplicate. case_bool_decide; (apply off_registry_bind; [apply write_batch_off_registry|intros a];
    apply off_registry_bind; [apply add_row_result_off_registry|intros _; apply off_registry_ret]).
Qed.

Lemma record_row_error_off_registry b n name host e : off_registry (record_row_error b n name host e).
Proof.
  intros d a d'. unfold record_row_error. destruct (import_batches d !! b) as [batch|]; [|done]. revert d a d'.
  apply off_registry_bind; [apply write_batch_off_registry|intros a].
  apply off_registry_bind; [apply add_row_result_off_registry|intros _; apply off_registry_ret].
Qed.

Lemma store_row_registry b n parsed d0 batch now d r :
  match parsed with Ok p => valid_row p | Raise _ => True end -> registry d ->
  store_row encrypt b n parsed d0 batch now d = Ok r -> registry r.2.
Proof.
  intros Hp Hr. unfold store_row. destruct parsed as [p|e]; [|done]. destruct (find_duplicate p d0) as [i|].
  - destruct r as [a d']. intros E. exact (off_registry_kept _ d a d' (store_duplicate_off_registry b n p i batch) Hr E).
  - by apply store_device_registry.
Qed.

(** *** The whole import *)

Section import.
Context (before during : Phase -> Db -> Db) (fault : Phase -> option raised) (wall : Phase -> Z).
Context (Hbefore : forall ph d, registry d -> registry (before ph d)).
Context (Hduring : forall ph d, registry d -> registry (during ph d)).

Lemma import_row_registry b row batch d : registry d -> registry (import_row encrypt before during fault wall b row batch d).2.
Proof.
  intros Hr. destruct row as [n values]. unfold import_row.
  set (d1 := during (AtRow n) (before (AtRow n) d)). assert (Hr1 : registry d1) by (apply Hduring, Hbefore; exact Hr).
  destruct (fault (AtRow n)); [done|].
  destruct (store_row _ _ _ _ _ _ _ d1) as [[batch' d2]|e] eqn:E.
  - assert (Hp : match _parse_row values with Ok p => valid_row p | Raise _ => True end).
    { destruct (_parse_row values) as [p|] eqn:Ep; [|done]. by eapply parse_row_valid. }
    exact (store_row_registry _ _ _ _ _ _ _ _ Hp Hr1 E).
  - destruct (record_row_error _ _ _ _ _ d1) as [[batch' d2]|e'] eqn:E2; [|done].
    exact (off_registry_kept _ d1 batch' d2 (record_row_error_off_registry _ _ _ _ _) Hr1 E2).
Qed.

Lemma import_rows_registry b rows batch d : registry d -> registry (import_rows encrypt before during fault wall b rows batch d).2.
Proof.
  revert batch d. induction rows as [|row rows IH]; intros batch d Hr; cbn [import_rows]; [done|].
  pose proof (import_row_registry b row batch d Hr) as Hr1.
  destruct (import_row _ _ _ _ _ _ _ _ _) as [[batch'|e] d1]; [by apply IH|done].
Qed.

Lemma import_devices_registry filename content d :
  registry d -> registry (import_devices load_workbook encrypt before during fault wall filename content d).2.
Proof.
  intros Hr. unfold import_devices. destruct (_load_rows _ _ _) as [rows|e]; [|done].
  assert (Hr1 : registry (before Creating d)) by (apply Hbefore; exact Hr). destruct (fault Creating); [done|]. cbn [take_id].
  set (batch := new_import_batch _ _ _). set (d1 := _ <| import_batches := _ |>).
  assert (Hr2 : registry d1) by (by apply (registry_frame (before Creating d))).
  pose proof (import_rows_registry (next_id (before Creating d) T_import_batches) rows batch d1 Hr2) as Hr3.
  destruct (import_rows _ _ _ _ _ _ _ _ _) as [[batch'|e] d2]; [|done]. cbn [snd] in Hr3.
  unfold finish_import. assert (Hr4 : registry (before Finishing d2)) by (apply Hbefore; exact Hr3). destruct (fault Finishing); [done|].
  destruct (write_batch _ _ _ _) as [[a d3]|e] eqn:E; [|done].
  exact (off_registry_kept _ _ a d3 (write_batch_off_registry _ _ _) Hr4 E).
Qed.
End import.

(** ** Everything that writes the registry *)

Section served.
Context (decrypt : text -> result exn text) (collectors : OSType -> Collector).
Context (scheduler : bool) (queue_size : Z).

(** The databases that requests and uploads lead to from the empty one; during an upload
    and during the connection test of an update other sessions may commit what keeps the
    registry. *)
Inductive served : Db -> Prop :=
| served_empty : served empty_db
| served_request r fault wall d :
    served d -> others_kept r d -> undisturbed r d ->
    served (db_after (handle encrypt decrypt collectors scheduler queue_size r fault wall d))
| served_upload before during fault wall held filename file d :
    served d -> (forall ph d, registry d -> registry (before ph d)) -> (forall ph d, registry d -> registry (during ph d)) ->
    served (db_after (upload_import load_workbook encrypt scheduler before during fault wall held filename file d)).

End served.
End imports.
