(* ===== verification/RequestOutcomes.v ===== *)
(** * What the requests on devices store

    The row an accepted request stores, column by column, and that its connection was
    tested. *)

From S2P Require Import Prelude PyText IpAddress Networks Models Exceptions DatabaseTransactions Collectors Scans Retention Clusters Schemas Api Registry RequestTheorems.

Section outcomes.
Context `{UnicodeCase, PgLower}.
Context (encrypt : text -> option text) (decrypt : text -> result exn text) (collectors : OSType -> Collector).
Context (scheduler : bool).

(** The connection of a row was tested with the password of its token. *)
Definition tested (password : text) (x : Device) : Prop :=
  test_connection collectors (device_os_type x) (device_host x) (device_port x) (device_username x) password = Ok ().

Definition cluster_chosen (p : DeviceUpdate) : bool :=
  match du_cluster_id p with Some _ => true | None => truthy (du_new_cluster_name p) end.

(** Row [z] is row [x] with the payload applied. *)
Record updated (p : DeviceUpdate) (wall : Z) (cs : gmap Z Cluster) (x z : Device) : Prop := {
  up_name : set_opt (du_name p) (Some (device_name x)) = Some (device_name z);
  up_host : device_host z = set_opt (du_host p) (device_host x);
  up_os : device_os_type z = set_opt (du_os_type p) (device_os_type x);
  up_port : device_port z = set_opt (du_port p) (device_port x);
  up_username : device_username z = set_opt (du_username p) (device_username x);
  up_retention : device_history_retention_days z = set_opt (du_history_retention_days p) (device_history_retention_days x);
  up_password : if truthy (du_password p)
    then encrypt (default [] (du_password p)) = Some (device_encrypted_password z) /\ device_collection_enabled z = true
    else device_encrypted_password z = device_encrypted_password x /\ device_collection_enabled z = device_collection_enabled x;
  up_cluster : cluster_chosen p = false -> device_cluster_id z = device_cluster_id x;
  up_policy : match (if cluster_chosen p then device_cluster_id z else None) with
    | None => set_opt (du_scan_interval_minutes p) (Some (device_scan_interval_minutes x)) = Some (device_scan_interval_minutes z) /\
              set_opt (du_scheduled_enabled p) (Some (device_scheduled_enabled x)) = Some (device_scheduled_enabled z)
    | Some k => exists c, cs !! k = Some c /\ follows c z
    end;
  up_kept : device_last_scan_status z = device_last_scan_status x /\ device_last_scan_at z = device_last_scan_at x /\
    device_created_at z = device_created_at x /\ (z = x \/ device_updated_at z = wall)
}.

(** What [choose_cluster] makes of the row. *)
Lemma choose_cluster_shape p x wall d e d' :
  registry d -> choose_cluster p x wall d = Ok (e, d') ->
  if cluster_chosen p
  then exists c, (forall k, c = Some k -> is_Some (clusters d' !! k)) /\
         e = join_cluster c (c ≫= fun j => clusters d' !! j) (edited p x)
  else e = edited p x.
Proof.
  intros Hr. unfold choose_cluster.
  replace (match du_cluster_id p with Some _ => true | None => false end || truthy (du_new_cluster_name p))
    with (cluster_chosen p) by (unfold cluster_chosen; by destruct (du_cluster_id p)).
  destruct (cluster_chosen p).
  - intros (c & d1 & E1%handled_Ok & E)%f_bind_Ok. injection E as <- <-. exists c. split; [|done].
    by destruct (resolve_cluster_done _ _ _ _ _ _ Hr E1) as (_ & _ & _ & Hk).
  - by intros [= <- <-].
Qed.

Lemma choose_password_shape p e d e' d' :
  choose_password encrypt p e d = Ok (e', d') ->
  if truthy (du_password p) then exists t, encrypt (default [] (du_password p)) = Some t /\ e' = set_password t e else e' = e.
Proof.
  unfold choose_password. destruct (truthy _); [|by intros [= <- _]].
  intros (t & d1 & E1%handled_Ok & E)%f_bind_Ok. injection E as <- _. unfold encrypted in E1.
  destruct (encrypt _) as [t'|]; [|done]. injection E1 as <- _. eauto.
Qed.

Definition edited_from (p : DeviceUpdate) (x : Device) (cs : gmap Z Cluster) (e' : EditedDevice) : Prop :=
  exists e, (if cluster_chosen p
    then exists c, (forall k, c = Some k -> is_Some (cs !! k)) /\ e = join_cluster c (c ≫= fun j => cs !! j) (edited p x)
    else e = edited p x) /\
  (if truthy (du_password p) then exists t, encrypt (default [] (du_password p)) = Some t /\ e' = set_password t e else e' = e).

(** The policy of a row. *)
Lemma joined_policy p x (cs : gmap Z Cluster) (c : option Z) e :
  (forall k, c = Some k -> is_Some (cs !! k)) -> e = join_cluster c (c ≫= fun j => cs !! j) (edited p x) ->
  match device_cluster_id (ed_device e) with
  | None => ed_interval e = ed_interval (edited p x) /\ ed_enabled e = ed_enabled (edited p x)
  | Some k => exists ck, cs !! k = Some ck /\ ed_interval e = Some (cluster_scan_interval_minutes ck) /\
      ed_enabled e = Some (cluster_scheduled_enabled ck)
  end.
Proof.
  intros Hc ->. destruct c as [k|]; cbn; [|done]. destruct (Hc k eq_refl) as [ck Hck]. rewrite Hck. cbn. by exists ck.
Qed.

(** The columns neither the cluster nor the password decide. *)
Lemma edited_from_same p x cs e :
  edited_from p x cs e ->
  ed_name e = ed_name (edited p x) /\ device_host (ed_device e) = device_host (ed_device (edited p x)) /\
  device_os_type (ed_device e) = device_os_type (ed_device (edited p x)) /\
  device_port (ed_device e) = device_port (ed_device (edited p x)) /\
  device_username (ed_device e) = device_username (ed_device (edited p x)) /\
  device_history_retention_days (ed_device e) = device_history_retention_days (ed_device (edited p x)) /\
  device_last_scan_status (ed_device e) = device_last_scan_status x /\
  device_last_scan_at (ed_device e) = device_last_scan_at x /\ device_created_at (ed_device e) = device_created_at x.
Proof.
  intros (e0 & He & He').
  assert (Hj : forall c cl, ed_name (join_cluster c cl (edited p x)) = ed_name (edited p x) /\
    ed_device (join_cluster c cl (edited p x)) = ed_device (edited p x) <| device_cluster_id := c |>).
  { intros c cl. unfold join_cluster. by destruct cl. }
  assert (H1 : ed_name e0 = ed_name (edited p x) /\
    (e0 = edited p x \/ exists c, ed_device e0 = ed_device (edited p x) <| device_cluster_id := c |>)).
  { destruct (cluster_chosen p); [|subst; auto]. destruct He as (c & _ & ->). destruct (Hj c (c ≫= fun j => cs !! j)). eauto. }
  destruct H1 as [Hn [->|[c Hd]]]; destruct (truthy (du_password p)).
  all: try (destruct He' as (t & _ & ->)); try subst e; cbn [set_password ed_name ed_device]; rewrite ?Hn, ?Hd; by split_and!.
Qed.

Lemma final_device_eq e y : final_device e = Some y ->
  ed_name e = Some (device_name y) /\ ed_interval e = Some (device_scan_interval_minutes y) /\
  ed_enabled e = Some (device_scheduled_enabled y) /\
  y = ed_device e <| device_name := device_name y |> <| device_scan_interval_minutes := device_scan_interval_minutes y |>
                  <| device_scheduled_enabled := device_scheduled_enabled y |>.
Proof.
  unfold final_device. destruct (ed_name e), (ed_interval e), (ed_enabled e); try done. intros [= <-]. by split_and!.
Qed.

Lemma edited_from_password p x cs e :
  edited_from p x cs e ->
  if truthy (du_password p)
  then encrypt (default [] (du_password p)) = Some (device_encrypted_password (ed_device e)) /\
       device_collection_enabled (ed_device e) = true
  else device_encrypted_password (ed_device e) = device_encrypted_password x /\
       device_collection_enabled (ed_device e) = device_collection_enabled x.
Proof.
  intros (e0 & He0 & He). destruct (truthy _); [by destruct He as (t & Ht & ->)|]. subst e.
  destruct (cluster_chosen p); [|by subst]. destruct He0 as (c & _ & ->). unfold join_cluster. by destruct (_ ≫= _).
Qed.

Lemma edited_from_policy p x cs e :
  edited_from p x cs e ->
  (cluster_chosen p = false -> device_cluster_id (ed_device e) = device_cluster_id x) /\
  match (if cluster_chosen p then device_cluster_id (ed_device e) else None) with
  | None => ed_interval e = ed_interval (edited p x) /\ ed_enabled e = ed_enabled (edited p x)
  | Some k => exists ck, cs !! k = Some ck /\ ed_interval e = Some (cluster_scan_interval_minutes ck) /\
      ed_enabled e = Some (cluster_scheduled_enabled ck)
  end.
Proof.
  intros (e0 & He0 & He).
  assert (Hcol : ed_interval e = ed_interval e0 /\ ed_enabled e = ed_enabled e0 /\
    device_cluster_id (ed_device e) = device_cluster_id (ed_device e0)).
  { destruct (truthy _); [destruct He as (t & _ & ->)|rewrite He]; by split_and!. }
  destruct Hcol as (-> & -> & ->). destruct (cluster_chosen p).
  - destruct He0 as (c & Hc & He0). split; [done|]. by eapply joined_policy.
  - rewrite He0. by split_and!.
Qed.

Lemma updated_final p wall x cs e y :
  edited_from p x cs e -> final_device e = Some y ->
  forall z, z = y <| device_updated_at := wall |> \/ (z = x /\ y = x) -> updated p wall cs x z.
Proof.
  intros He Hy z Hz.
  assert (Hu : device_updated_at z = wall \/ z = x) by (destruct Hz as [->|[-> _]]; auto).
  assert (Ez : exists w, z = y <| device_updated_at := w |>).
  { destruct Hz as [->|[-> ->]]; [eauto|]. exists (device_updated_at x). by destruct x. }
  destruct (edited_from_same p x cs e He) as (E1 & E2 & E3 & E4 & E5 & E6 & E7 & E8 & E9).
  destruct (final_device_eq e y Hy) as (F1 & F2 & F3 & F4).
  pose proof (edited_from_password p x cs e He) as Hpw. destruct (edited_from_policy p x cs e He) as [Hcl Hpol].
  assert (Hcols : device_host y = device_host (ed_device e) /\ device_os_type y = device_os_type (ed_device e) /\
    device_port y = device_port (ed_device e) /\ device_username y = device_username (ed_device e) /\
    device_history_retention_days y = device_history_retention_days (ed_device e) /\
    device_encrypted_password y = device_encrypted_password (ed_device e) /\
    device_collection_enabled y = device_collection_enabled (ed_device e) /\
    device_cluster_id y = device_cluster_id (ed_device e) /\
    device_last_scan_status y = device_last_scan_status (ed_device e) /\
    device_last_scan_at y = device_last_scan_at (ed_device e) /\ device_created_at y = device_created_at (ed_device e))
    by (rewrite F4; by split_and!).
  destruct Hcols as (Y1 & Y2 & Y3 & Y4 & Y5 & Y6 & Y7 & Y8 & Y9 & Y10 & Y11).
  destruct Ez as [w ->]. constructor; cbn.
  - by rewrite <- F1, E1.
  - by rewrite Y1, E2.
  - by rewrite Y2, E3.
  - by rewrite Y3, E4.
  - by rewrite Y4, E5.
  - by rewrite Y5, E6.
  - by rewrite Y6, Y7.
  - by rewrite Y8.
  - rewrite Y8. destruct (if cluster_chosen p then _ else _) as [k|].
    + destruct Hpol as (ck & Hck & P1 & P2). exists ck. split; [done|]. rewrite F2 in P1. rewrite F3 in P2.
      injection P1 as P1. injection P2 as P2. by split.
    + rewrite <- F2, <- F3. by destruct Hpol as [-> ->].
  - rewrite Y9, Y10, Y11. split_and!; [done..|]. destruct Hu as [Hu|Hu]; [by right|by left].
Qed.

(** Why an update of row [x] is refused. *)
Inductive refusal (p : DeviceUpdate) (x : Device) (i : Z) (fault : option raised) (wall : Z) (d : Db) : failure -> Prop :=
| refused_connection code message password :
    connection_changed p = true ->
    test_connection collectors (set_opt (du_os_type p) (device_os_type x)) (set_opt (du_host p) (device_host x))
      (set_opt (du_port p) (device_port x)) (set_opt (du_username p) (device_username x)) password
      = Raise (CollectorError code message) ->
    refusal p x i fault wall d (BadGateway code message)
| refused_cluster e :
    resolve_cluster (default None (du_cluster_id p)) (du_new_cluster_name p) wall d = Raise e -> is_value_error e = true ->
    refusal p x i fault wall d (HTTPException 422 (exn_message e))
| refused_null :
    du_name p = Some None \/ du_scan_interval_minutes p = Some None \/ du_scheduled_enabled p = Some None ->
    refusal p x i fault wall d (HTTPException 409 DUPLICATE_DEVICE)
| refused_identity j y :
    j <> i -> devices d !! j = Some y ->
    identity y = (set_opt (du_host p) (device_host x), set_opt (du_port p) (device_port x),
                  set_opt (du_username p) (device_username x)) ->
    refusal p x i fault wall d (HTTPException 409 DUPLICATE_DEVICE)
| refused_fault e : fault = Some e -> refusal p x i fault wall d (guard_failure (classify e))
| refused_otherwise e : refusal p x i fault wall d (Unhandled e).

Lemma f_bind_Raise {A B} (m : FTx A) (k : A -> FTx B) d e :
  f_bind m k d = Raise e <-> m d = Raise e \/ exists a d', m d = Ok (a, d') /\ k a d' = Raise e.
Proof. unfold f_bind. destruct (m d) as [[a d']|e']; naive_solver. Qed.

Lemma handled_Raise {A} h (m : Tx A) d e : handled h m d = Raise e <-> exists e', m d = Raise e' /\ e = h e'.
Proof. unfold handled. destruct (m d); naive_solver. Qed.

Lemma final_device_null p x cs e :
  edited_from p x cs e -> final_device e = None ->
  du_name p = Some None \/ du_scan_interval_minutes p = Some None \/ du_scheduled_enabled p = Some None.
Proof.
  intros He Hy. destruct (edited_from_same p x cs e He) as (E1 & _).
  destruct (edited_from_policy p x cs e He) as [_ Hpol].
  assert (Hset : forall (A : Type) (o : option (option A)) (a : A), set_opt o (Some a) = None -> o = Some None)
    by (by intros A [[b|]|] a).
  unfold final_device in Hy. destruct (ed_name e) eqn:En.
  2:{ left. exact (Hset _ _ _ (eq_sym E1)). }
  right. destruct (if cluster_chosen p then _ else _) as [k|].
  - destruct Hpol as (ck & _ & P1 & P2). by rewrite P1, P2 in Hy.
  - destruct Hpol as [P1 P2]. destruct (ed_interval e); [|left; exact (Hset _ _ _ (eq_sym P1))].
    destruct (ed_enabled e); [done|right]. exact (Hset _ _ _ (eq_sym P2)).
Qed.

Lemma flush_identity wall x y :
  device_last_scan_status y = device_last_scan_status x -> device_last_scan_at y = device_last_scan_at x ->
  device_created_at y = device_created_at x -> identity (flush_device wall x y x) = identity y.
Proof. intros E1 E2 E3. rewrite flush_unchanged by done. case_decide as Heq; [by rewrite Heq|done]. Qed.

Lemma store_refused p x i fault wall d e0 d2 e' d3 e'' :
  registry d -> devices d !! i = Some x -> choose_cluster p x wall d = Ok (e0, d2) ->
  choose_password encrypt p e0 d2 = Ok (e', d3) -> store_device_row i x (final_device e') wall d3 = Raise e'' ->
  refusal p x i fault wall d (duplicate_errors e'').
Proof.
  intros Hr Hx E1 E2 E3.
  pose proof (choose_cluster_shape p x wall d e0 d2 Hr E1) as He. pose proof (choose_password_shape p e0 d2 e' d3 E2) as He'.
  destruct (choose_cluster_done p x i wall d e0 d2 Hr E1) as (Hr2 & Hdev & _ & Hshape & _).
  destruct (choose_password_done encrypt p e0 d2 e' d3 E2) as [-> Hor].
  assert (Hfrom : edited_from p x (clusters d2) e') by (exists e0; by split).
  unfold store_device_row in E3. destruct (final_device e') as [y|] eqn:Ey.
  2:{ injection E3 as <-. apply refused_null. by eapply final_device_null. }
  rewrite Hdev, Hx in E3. destruct (identity_taken _ _ _) eqn:Ht; [|done]. injection E3 as <-.
  destruct (final_device_stamps p x e0 y Hshape e' Hor Ey) as (S1 & S2 & S3).
  unfold identity_taken in Ht. apply bool_decide_eq_true in Ht as (j & z & Hz & Hne & D1 & D2 & D3).
  destruct (edited_from_same p x (clusters d2) e' Hfrom) as (_ & F2 & _ & F4 & F5 & _).
  destruct (final_device_eq e' y Ey) as (_ & _ & _ & Hy).
  pose proof (flush_identity wall x y S1 S2 S3) as Hid.
  apply (refused_identity _ _ _ _ _ _ j z); [done|by rewrite <- Hdev|].
  transitivity (identity (flush_device wall x y x)); [unfold identity; congruence|]. rewrite Hid, Hy. unfold identity. cbn.
  by rewrite F2, F4, F5.
Qed.

(** The transaction of an update that finds the row as it was read. *)
Lemma update_device_tx_exact i p wall d x fault :
  registry d -> devices d !! i = Some x ->
  match update_device_tx encrypt i x p wall d with
  | Ok (j, d1) => exists z, j = i /\ devices d1 = <[i := z]> (devices d) /\ updated p wall (clusters d1) x z
  | Raise e => refusal p x i fault wall d e
  end.
Proof.
  intros Hr Hx. destruct (update_device_tx encrypt i x p wall d) as [[j d1]|e] eqn:E.
  - apply f_bind_Ok in E as (e & d2 & E1 & E). apply f_bind_Ok in E as (e' & d3 & E2 & E).
    pose proof (choose_cluster_shape p x wall d e d2 Hr E1) as He. pose proof (choose_password_shape p e d2 e' d3 E2) as He'.
    destruct (choose_cluster_done p x i wall d e d2 Hr E1) as (Hr2 & Hdev & _ & Hshape & _).
    destruct (choose_password_done encrypt p e d2 e' d3 E2) as [-> Hor].
    apply f_bind_Ok in E as ([] & d4 & E3%handled_Ok & [-> ->]%f_notify_Ok).
    unfold store_device_row in E3. destruct (final_device e') as [y|] eqn:Ey; [|done].
    rewrite Hdev, Hx in E3. destruct (identity_taken _ _ _) eqn:Ht; [done|]. injection E3 as <-.
    eexists. split_and!; [done|done|]. cbn [clusters notify_topology_changed set_field].
    destruct (final_device_stamps p x e y Hshape e' Hor Ey) as (S1 & S2 & S3).
    eapply updated_final; [exists e; by split|exact Ey|]. rewrite flush_unchanged by done.
    case_decide; [by right|by left].
  - apply f_bind_Raise in E as [E|(e0 & d2 & E1 & E)].
    { unfold choose_cluster in E. destruct (_ || _); [|done]. apply f_bind_Raise in E as [E|(c & d2 & _ & E)]; [|done].
      apply handled_Raise in E as (e' & E & ->). unfold value_errors. destruct (is_value_error e') eqn:Hv; [|constructor].
      by eapply refused_cluster. }
    apply f_bind_Raise in E as [E|(e' & d3 & E2 & E)].
    { destruct (truthy (du_password p)); [|discriminate E]. apply f_bind_Raise in E as [E|(t & d3 & _ & E)]; [|done].
      apply handled_Raise in E as (e' & _ & ->). constructor. }
    apply f_bind_Raise in E as [E|([] & d4 & _ & E)]; [|cbv in E; discriminate E].
    apply handled_Raise in E as (e'' & E & ->).
    by apply (store_refused p x i fault wall d e0 d2 e' d3).
Qed.

End outcomes.
