(* ===== verification/RequestDemo.v ===== *)
(** * Requests on concrete databases *)

From S2P Require Import Prelude PyText Models Exceptions DatabaseTransactions Collectors Clusters ImportFiles Imports Schemas Api Registry RequestTheorems Uploads RequestOutcomes.

#[local] Instance api_case : UnicodeCase := ascii_only.
#[local] Instance api_lower : PgLower := @lower ascii_only.

Definition api_encrypt (password : text) : option text := Some (u "token:" ++ password).
Definition api_decrypt (token : text) : result exn text :=
  match strip_prefix (u "token:") token with Some p => Ok p | None => Raise (CredentialError (u "?")) end.

(** Each address knows its own user. *)
Definition api_accounts : list (text * text) :=
  [(u "10.0.0.1", u "ops"); (u "10.0.0.2", u "ops"); (u "10.0.0.1", u "root")].

Definition api_collectors (_ : OSType) : Collector :=
  mkCollector (fun _ _ => Raise AssertionError)
    (fun spec _ => if bool_decide ((spec_host spec, spec_username spec) ∈ api_accounts) then Ok ()
                   else Raise (CollectorError (u "auth_failed") (u "denied"))).

Definition api_handle (r : Request) (wall : Z) (d : Db) : Reply () :=
  handle api_encrypt api_decrypt api_collectors true 100 r None wall d.

Definition web_device : DeviceCreate :=
  mkDeviceCreate (u "web") (u "10.0.0.1") LINUX None (u "ops") (u "secret") 30 true None None (Some (u "Web")).

Definition no_change : DeviceUpdate := mkDeviceUpdate None None None None None None None None None None None.

#[local] Instance DeviceUpdate_eta : Eta DeviceUpdate := fun p =>
  mkDeviceUpdate (du_name p) (du_host p) (du_os_type p) (du_port p) (du_username p) (du_password p)
    (du_scan_interval_minutes p) (du_scheduled_enabled p) (du_history_retention_days p) (du_cluster_id p)
    (du_new_cluster_name p).

(** A device in the cluster its creation made. *)
Definition api_db : Db := db_after (api_handle (CreateDevice web_device) 10 empty_db).

Lemma api_db_registry : registry api_db.
Proof. apply handle_registry; [apply registry_empty|done|done]. Qed.

Definition no_meanwhile (d : Db) : Db := d.

(** A new name and a new cluster. *)
Definition api_move : Request :=
  UpdateDevice 1 (no_change <| du_name := Some (Some (u "front")) |> <| du_new_cluster_name := Some (u "Edge") |>) no_meanwhile.

Definition api_moved : Db := db_after (api_handle api_move 20 api_db).

(** Then a file with one device of the moved one's cluster is uploaded. *)
Definition api_load (_ : list N) : option (list (text * list (list Cell))) :=
  Some [(IMPORT_SHEET,
    [CellText <$> IMPORT_HEADERS;
     [CellText (u "db"); CellText (u "10.0.0.7"); CellText (u "linux"); CellNone; CellText (u "ops"); CellText (u "pw");
      CellText (u "EDGE"); CellNone; CellNone]])].

Definition api_uploaded : Db :=
  db_after (upload_import (H1 := no_unicode_digits) api_load api_encrypt true (fun _ d => d) (fun _ d => d) (fun _ => None) (fun _ => 30)
    (fun _ => None) (u "devices.xlsx") [] api_moved).



(** A user the connection test refuses: 502, and nothing changed. *)
Definition api_break : Request := UpdateDevice 1 (no_change <| du_username := Some (u "nobody") |>) no_meanwhile.


Definition api_password : DeviceUpdate := no_change <| du_password := Some (u "new") |> <| du_username := Some (u "root") |>.


(** ** What modelling showed *)

(** An update of the interval alone takes a device out of the policy of its cluster. *)
Lemma update_breaks_cluster_policy :
  let p := no_change <| du_scan_interval_minutes := Some (Some 7) |> in
  let d := db_after (api_handle (UpdateDevice 1 p no_meanwhile) 20 api_db) in
  exists x c, devices d !! 1 = Some x /\ device_cluster_id x = Some 1 /\ clusters d !! 1 = Some c /\ ~ follows c x.
Proof.
  eexists _, _. split; [vm_compute; reflexivity|]. split; [reflexivity|]. split; [vm_compute; reflexivity|].
  intros [H _]. revert H. vm_compute. discriminate.
Qed.

(** Two updates at once, each tested with the fields the other is about to replace, store a
    connection that was never tested and does not work. *)
Lemma update_stores_untested_connection :
  let other d := db_after (api_handle (UpdateDevice 1 (no_change <| du_username := Some (u "root") |>) no_meanwhile) 20 d) in
  let r := api_handle (UpdateDevice 1 (no_change <| du_host := Some (u "10.0.0.2") |>) other) 30 api_db in
  answer r = Ok () /\ exists x, devices (db_after r) !! 1 = Some x /\
    (device_host x, device_username x) = (u "10.0.0.2", u "root") /\ ~ tested api_collectors (u "secret") x.
Proof.
  split; [vm_compute; reflexivity|]. eexists. split; [vm_compute; reflexivity|]. split; [vm_compute; reflexivity|].
  vm_compute. discriminate.
Qed.

(** A null where the column takes none is reported as a device of the same identity. *)
Lemma null_name_reported_as_duplicate :
  answer (api_handle (UpdateDevice 1 (no_change <| du_name := Some None |>) no_meanwhile) 20 api_db) =
    Raise (HTTPException 409 DUPLICATE_DEVICE).
Proof. vm_compute. reflexivity. Qed.
