(* ===== verification/ApiReads.v ===== *)
(** * Requests that read (src/app/routes/api.py), and the upload of an import

    The lists and single rows of the interface, the graphs with their cache, and the
    difference of two scans.  A graph takes the states its statements read ([Reads]); the
    cache of the process is that of [TopologyCache], used here by one request at a time. *)

From S2P Require Import Prelude PyText PyDict Models Exceptions Resolver TopologyCache DatabaseTransactions DeviceListing ServiceObservations TopologyHistory Topology Retention Clusters ScanBatchFailures ImportFiles Imports Schemas Api.

(** ** Lists and rows *)

Definition not_found (message : text) : failure := HTTPException 404 message.

(** A row and its identifier. *)
Definition get_row {A} (message : text) (table : Db -> gmap Z A) (i : Z) (d : Db) : result failure (Z * A) :=
  match table d !! i with Some x => Ok (i, x) | None => Raise (not_found message) end.

(** The answers of these requests: the whole row, or for the rows that workers hold the row
    without its lease ([from_attributes] takes the attributes the class names). *)
Definition ScanRead : Type := Z * ScanRun.
Definition ScanBatchRead : Type := Z * ScanBatch.
Definition ImportBatchRead : Type := Z * ImportBatch.
Definition ScanBatchFailureItemRead : Type := BatchFailureRow.
Definition ScanBatchFailurePageRead : Type := BatchFailurePage.

Record ScanTaskRead := mkScanTaskRead {
  tr_id : Z;
  tr_device_id : Z;
  tr_trigger_type : ScanTrigger;
  tr_priority : Z;
  tr_status : ScanTaskStatus;
  tr_scan_run_id : option Z;
  tr_error_message : option text;
  tr_created_at : Z;
  tr_started_at : option Z;
  tr_finished_at : option Z
}.

Definition scan_task_read (r : Z * ScanTask) : ScanTaskRead :=
  let t := r.2 in
  mkScanTaskRead r.1 (task_device_id t) (task_trigger_type t) (task_priority t) (task_status t)
    (task_scan_run_id t) (task_error_message t) (task_created_at t) (task_started_at t) (task_finished_at t).

Record ImportRowRead := mkImportRowRead {
  ir_id : Z;
  ir_row_number : Z;
  ir_device_name : option text;
  ir_host : option text;
  ir_device_id : option Z;
  ir_import_status : ImportStatus;
  ir_import_message : text;
  ir_test_status : ImportTestStatus;
  ir_test_message : option text
}.

Definition import_row_read (r : Z * ImportRowResult) : ImportRowRead :=
  let x := r.2 in
  mkImportRowRead r.1 (row_row_number x) (row_device_name x) (row_host x) (row_device_id x)
    (row_import_status x) (row_import_message x) (row_test_status x) (row_test_message x).

Definition get_import_batch : Z -> Db -> result failure ImportBatchRead := get_row (u "导入批次不存在") import_batches.
Definition get_scan_batch : Z -> Db -> result failure ScanBatchRead := get_row (u "扫描批次不存在") scan_batches.
Definition get_scan : Z -> Db -> result failure ScanRead := get_row (u "采集批次不存在") scan_runs.

Definition get_scan_task (task_id : Z) (d : Db) : result failure ScanTaskRead :=
  match get_row (u "扫描任务不存在") scan_tasks task_id d with
  | Ok r => Ok (scan_task_read r)
  | Raise e => Raise e
  end.

(** [ORDER BY row_number]: an import numbers its rows apart. *)
Definition numbered_le (r r' : Z * ImportRowResult) : Prop := row_number_le r.2 r'.2.

#[export] Instance numbered_le_dec : RelDecision numbered_le.
Proof. unfold RelDecision, numbered_le. intros r r'. apply _. Defined.

Definition get_import_rows (batch_id : Z) (d : Db) : result failure (list ImportRowRead) :=
  match import_batches d !! batch_id with
  | None => Raise (not_found (u "导入批次不存在"))
  | Some _ =>
      Ok (import_row_read <$>
        merge_sort numbered_le (map_to_list (where_ (fun _ r => row_batch_id r =? batch_id) (import_row_results d))))
  end.

Definition download_import_report (batch_id : Z) (d : Db) : result failure Workbook :=
  match build_import_report batch_id d with
  | Ok content => Ok content
  | Raise (ImportValidationError m) => Raise (not_found m)
  | Raise e => Raise (unhandled e)
  end.

Section lists.
Context `{PgOrder, Collation}.

(** [ORDER BY name] *)
Definition list_clusters (d : Db) : list ClusterRead :=
  (fun p => _cluster_read p.1 p.2 (cluster_size p.1 d) d) <$>
    order_by (fun p => cluster_name p.2) (map_to_list (clusters d)).

Definition list_devices (d : Db) : list DeviceRead :=
  (fun p => _device_read p.1 p.2 d) <$> order_by (fun p => device_name p.2) (map_to_list (devices d)).

(** [ORDER BY column DESC] *)
Definition newest {A} (time : A -> Z) (x y : Z * A) : Prop := time y.2 <= time x.2.

#[export] Instance newest_dec {A} (time : A -> Z) : RelDecision (newest time).
Proof. intros x y. unfold newest. apply _. Defined.

Definition newest_first {A} (time : A -> Z) (rows : gmap Z A) : list (Z * A) :=
  merge_sort (newest time) (pg_order (map_to_list rows)).

Definition list_scan_batches (d : Db) : list ScanBatchRead := take 20 (newest_first batch_created_at (scan_batches d)).

Definition scan_selected (device_id : option Z) (scan_status : option ScanStatus) (started_after : option Z) (_ : Z) (r : ScanRun) : bool :=
  match device_id with Some i => run_device_id r =? i | None => true end &&
  match scan_status with Some st => bool_decide (run_status r = st) | None => true end &&
  match started_after with Some t => t <=? run_started_at r | None => true end.

Definition list_scans (device_id : option Z) (scan_status : option ScanStatus) (started_after : option Z) (d : Db) :
    list ScanRead :=
  take 500 (newest_first run_started_at (where_ (scan_selected device_id scan_status started_after) (scan_runs d))).
End lists.

(** [Query(ge=1)], [Query(ge=1, le=100)] and [Query(max_length=200)] *)
Definition get_scan_batch_failures `{UnicodeCase, PgLower} (batch_id page page_size : Z) (q : text) (d : Db) :
    result failure ScanBatchFailurePageRead :=
  if at_least 1 page && ranged 1 100 page_size && sized 0 200 q then
    match list_batch_failures d batch_id page page_size q with
    | Ok p => Ok p
    | Raise (LookupError m) => Raise (not_found m)
    | Raise e => Raise (unhandled e)
    end
  else Raise Unprocessable.

(** ** Graphs *)

Inductive CacheKey :=
| DeviceKey (device_id : Z) (window : TopologyWindow)
| ClusterKey (cluster_id : option Z) (window : TopologyWindow) (filters : text * text * text)
| EdgeKey (source target : text) (window : TopologyWindow) (filters : text * text * text).

#[export] Instance CacheKey_eq_dec : EqDecision CacheKey.
Proof. solve_decision. Defined.

Definition window_code (w : TopologyWindow) : Z := match w with W_current => 0 | W_1d => 1 | W_3d => 2 | W_7d => 3 end.
Definition window_of_code (z : Z) : TopologyWindow :=
  if z =? 1 then W_1d else if z =? 2 then W_3d else if z =? 3 then W_7d else W_current.

#[export] Instance TopologyWindow_countable : Countable TopologyWindow.
Proof. refine (inj_countable' window_code window_of_code _). by intros []. Defined.

Definition key_code (k : CacheKey) :
    (Z * TopologyWindow) + (option Z * TopologyWindow * (text * text * text)) + (text * text * TopologyWindow * (text * text * text)) :=
  match k with
  | DeviceKey i w => inl (inl (i, w))
  | ClusterKey c w f => inl (inr (c, w, f))
  | EdgeKey s t w f => inr (s, t, w, f)
  end.

#[export] Instance CacheKey_countable : Countable CacheKey.
Proof.
  refine (inj_countable' key_code (fun c => match c with
    | inl (inl (i, w)) => DeviceKey i w
    | inl (inr (c, w, f)) => ClusterKey c w f
    | inr (s, t, w, f) => EdgeKey s t w f
    end) _). by intros [].
Defined.

(** What the factories build; an edge with its ends and its rows. *)
Inductive Graph :=
| GraphOfDevice (g : DeviceGraph)
| GraphOfClusters (g : ClusterGraph)
| GraphOfEdge (source target : text) (rows : list EdgeDetail).

(** The requests for a graph. *)
Inductive GraphRequest :=
| LatestTopology (device_id : Z) (window : TopologyWindow)
| ClusterTopology (window : TopologyWindow) (cluster_id : option Z) (protocol state process : option text)
| EdgeConnections (source target : text) (window : TopologyWindow) (protocol state process : option text).

Definition window_of (q : GraphRequest) : TopologyWindow :=
  match q with LatestTopology _ w | ClusterTopology w _ _ _ _ | EdgeConnections _ _ w _ _ _ => w end.

(** [protocol or ""] *)
Definition or_empty (s : option text) : text := default [] s.

Definition cache_key (q : GraphRequest) : CacheKey :=
  match q with
  | LatestTopology i w => DeviceKey i w
  | ClusterTopology w c protocol state process => ClusterKey c w (or_empty protocol, or_empty state, or_empty process)
  | EdgeConnections s t w protocol state process => EdgeKey s t w (or_empty protocol, or_empty state, or_empty process)
  end.

Section graphs.
Context `{UnicodePrintable, UnicodeDigits, UnicodeCase, PgAggregates, PgOrder, Collation, SetOrder, Resolver}.

Definition unexpected {A} (r : result exn A) : result failure A :=
  match r with Ok a => Ok a | Raise e => Raise (unhandled e) end.

Definition scan_and_device (scan_id : Z) (d : Db) : option (ScanRun * Device) :=
  scan ← scan_runs d !! scan_id; device ← devices d !! run_device_id scan; Some (scan, device).

(** [build] of [get_latest_topology] *)
Definition build_latest (device_id : Z) (window : TopologyWindow) (r : Reads) (reference : Z) : result failure DeviceGraph :=
  match load_current_scans {[device_id]} (r_scans r) !! device_id with
  | None => Raise (not_found (u "该设备还没有成功采集快照"))
  | Some scan_id =>
      match scan_and_device scan_id (r_scans r) with
      | None => Raise (unhandled AssertionError)
      | Some (scan, device) =>
          services ←
            match window with
            | W_current => Ok None
            | _ => services ← unexpected (aggregate_historical_connections {[device_id]} {[scan_id]} window reference
                                            unrestricted (r_rows r) (r_csvs r) (r_samples r));
                   Ok (Some services)
            end;
          Ok (build_topology scan_id scan device None window services (r_scans r))
      end
  end.

(** The factory of a request. *)
Definition build (q : GraphRequest) (r : Reads) (now : Z) : result failure Graph :=
  match q with
  | LatestTopology i w => GraphOfDevice <$> build_latest i w r now
  | ClusterTopology w c protocol state process =>
      GraphOfClusters <$> unexpected (build_cluster_topology r w now c false protocol state process now)
  | EdgeConnections s t w protocol state process =>
      GraphOfEdge s t <$> unexpected (build_edge_connections r s t w now protocol state process)
  end.

(** [cluster_id is not None and db.get(Cluster, cluster_id) is None], [Query(ge=1)] and
    [Query(min_length=1)]: what is answered before the cache is asked. *)
Definition early_answer (q : GraphRequest) (d : Db) : option failure :=
  match q with
  | ClusterTopology _ (Some c) _ _ _ =>
      if negb (at_least 1 c) then Some Unprocessable
      else match clusters d !! c with None => Some (not_found (u "集群不存在")) | Some _ => None end
  | EdgeConnections [] _ _ _ _ _ | EdgeConnections _ [] _ _ _ _ => Some Unprocessable
  | _ => None
  end.

Section cached.
Context {E : Type} (ttl_seconds : Z).

Abbreviation GraphCache := (Cache CacheKey Graph E).

(** [get_or_compute] without other callers. *)
Definition get_or_compute (k : CacheKey) (factory : result failure Graph) (c : GraphCache) : result failure Graph * GraphCache :=
  match TopologyCache.get k c with
  | (Some v, c) => (Ok v, c)
  | (None, c) => match factory with Ok v => (Ok v, put ttl_seconds k v c) | Raise e => (Raise e, c) end
  end.

(** [get_latest_topology], [get_cluster_topology] and [get_edge_connections]; the current
    window is not cached. *)
Definition get_graph (q : GraphRequest) (r : Reads) (c : GraphCache) : result failure Graph * GraphCache :=
  match early_answer q (r_context r) with
  | Some e => (Raise e, c)
  | None =>
      match window_of q with
      | W_current => (build q r (clock c), c)
      | _ => get_or_compute (cache_key q) (build q r (clock c)) c
      end
  end.

(** The page of an edge: [Query(ge=1, le=2000)] and [Query(ge=0)]. *)
Definition edge_page (limit offset : Z) (g : Graph) : option (text * text * Z * list EdgeDetail) :=
  match g with
  | GraphOfEdge s t rows => Some (s, t, Z.of_nat (length rows), offset_limit offset limit rows)
  | _ => None
  end.
End cached.

(** ** Scans *)

Definition get_topology (scan_id : Z) (d : Db) : result failure DeviceGraph :=
  match scan_runs d !! scan_id with
  | None => Raise (not_found (u "采集批次不存在"))
  | Some scan =>
      match devices d !! run_device_id scan with
      | None => Raise (unhandled AssertionError)
      | Some device =>
          if bool_decide (run_status scan = SCAN_SUCCESS)
          then Ok (build_topology scan_id scan device None W_current None d)
          else Raise (HTTPException 409 (u "失败或运行中的批次没有完整拓扑"))
      end
  end.

(** The last successful scan of the device before this one. *)
Definition previous_scan (current : ScanRun) (d : Db) : option Z :=
  fst <$> head (newest_first run_started_at
    (where_ (fun _ r => (run_device_id r =? run_device_id current) && run_success r &&
                        (run_started_at r <? run_started_at current)) (scan_runs d))).

(** The difference, or every service of the first scan. *)
Inductive DiffRead :=
| DiffOf (d : ScanDiff)
| FirstScan (current_scan_id : Z) (added : list Service).

Definition get_scan_diff (scan_id : Z) (d : Db) : result failure DiffRead :=
  match scan_runs d !! scan_id with
  | None => Raise (not_found (u "采集批次不存在"))
  | Some current =>
      match previous_scan current d with
      | Some previous => Ok (DiffOf (diff_scans d previous scan_id))
      | None =>
          match devices d !! run_device_id current with
          | None => Raise (unhandled AssertionError)
          | Some device =>
              Ok (FirstScan scan_id
                (concat ((fun e => default [] (edge_connections e)) <$>
                  dg_edges (build_topology scan_id current device None W_current None d))))
          end
      end
  end.
End graphs.
