(* ===== verification/ReadTheorems.v ===== *)
(** * What the graph requests answer *)

From S2P Require Import Prelude PyText PyDict Models Exceptions Resolver TopologyCache DatabaseTransactions DeviceListing ServiceObservations TopologyHistory Topology Retention Schemas Api ApiReads.

Section theorems.
Context `{UnicodePrintable, UnicodeDigits, UnicodeCase, PgAggregates, PgOrder, Collation, SetOrder}.
(** An absent filter and an empty one are the same filter. *)
Lemma or_empty_nonempty a b : or_empty a = or_empty b -> nonempty a = nonempty b.
Proof. destruct a as [[|]|], b as [[|]|]; cbn; intros E'; try done; by rewrite ?E'. Qed.

Lemma filter_same services p p' s s' x x' :
  or_empty p = or_empty p' -> or_empty s = or_empty s' -> or_empty x = or_empty x' ->
  filter_service_connections services p s x = filter_service_connections services p' s' x'.
Proof.
  intros Hp%or_empty_nonempty Hs%or_empty_nonempty Hx%or_empty_nonempty. unfold filter_service_connections.
  by rewrite Hp, Hs, Hx.
Qed.

(** The key of the cache has all that a graph depends on besides the data. *)
Lemma key_determines_graph {res : Resolver.Resolver} q q' r now :
  cache_key q = cache_key q' -> build q r now = build q' r now.
Proof.
  destruct q as [i w|w c p s x|a b w p s x], q' as [i' w'|w' c' p' s' x'|a' b' w' p' s' x']; try done; intros E; cbn [build].
  - by injection E as -> ->.
  - injection E as -> -> Ep Es Ex. do 2 f_equal. unfold build_cluster_topology.
    destruct (load_cluster_graph_context (r_context r)) as [context|e]; [|done]. cbn [mbind result_bind].
    destruct (match c' with Some _ => _ | None => _ end); [done|].
    destruct (cluster_narrowing context c') as [n|e]; [|done]. cbn [mbind result_bind].
    destruct (window_services _ _ _ _ _ _) as [services|e]; [|done]. cbn [mbind result_bind].
    by rewrite (filter_same services p p' s s' x x' Ep Es Ex).
  - injection E as -> -> -> Ep Es Ex. do 2 f_equal. unfold build_edge_connections.
    destruct (load_cluster_graph_context (r_context r)) as [context|e]; [|done]. cbn [mbind result_bind].
    destruct (_node_target_addresses b' context) as [addresses|e]; [|done]. cbn [mbind result_bind].
    destruct (_ || _); [done|].
    destruct (window_services _ _ _ _ _ _) as [services|e]; [|done]. cbn [mbind result_bind].
    by rewrite (filter_same services p p' s s' x x' Ep Es Ex).
Qed.

Section cache.
Context {E : Type} (ttl_seconds : Z).

(** A request as it came: when, what it read, and how hosts resolved. *)
Record Asked := mkAsked {
  asked_at : Z;
  asked_request : GraphRequest;
  asked_reads : Reads;
  asked_resolver : Resolver.Resolver
}.

(** What the factory of a request built, or would have built. *)
Definition built (a : Asked) : result failure Graph :=
  @build _ _ _ _ _ _ _ (asked_resolver a) (asked_request a) (asked_reads a) (asked_at a).

Definition answer_of (a : Asked) (c : Cache CacheKey Graph E) : result failure Graph * Cache CacheKey Graph E :=
  @get_graph _ _ _ _ _ _ _ (asked_resolver a) E ttl_seconds (asked_request a) (asked_reads a) c.

Definition pass (dt : Z) (c : Cache CacheKey Graph E) : Cache CacheKey Graph E :=
  mkCache (clock c + dt) (entries c) (inflight c) (next_inflight c) (finished c) (threads c).

(** The caches of a process that answers one request at a time, with the requests since
    the last time the cache was cleared. *)
Inductive visited : list Asked -> Cache CacheKey Graph E -> Prop :=
| visited_new now : visited [] (empty_cache now)
| visited_ask log c a : visited log c -> asked_at a = clock c -> visited (a :: log) (answer_of a c).2
| visited_clear log c : visited log c -> visited [] (TopologyCache.clear c)
| visited_pass log c dt : visited log c -> 0 <= dt -> visited log (pass dt c).

(** Every entry was built by a request of the log. *)
Definition entries_built (log : list Asked) (c : Cache CacheKey Graph E) : Prop :=
  forall k t v, entries c !! k = Some (t, v) ->
    exists a, a ∈ log /\ cache_key (asked_request a) = k /\ asked_at a + ttl_seconds = t /\ asked_at a <= clock c /\ built a = Ok v.

Lemma visited_built log c : visited log c -> entries_built log c.
Proof.
  induction 1 as [now|log c a _ IH Ha|log c _ IH|log c dt _ IH Hdt].
  - intros k t v Hk. by destruct (lookup_empty_Some k (t, v) Hk).
  - assert (Hweak : entries_built (a :: log) c).
    { intros k t v Hk. destruct (IH k t v Hk) as (b & Hb & ?). exists b. split; [by right|done]. }
    unfold answer_of, get_graph. destruct (early_answer _ _); [exact Hweak|].
    set (k := cache_key (asked_request a)).
    assert (Hget : entries_built (a :: log)
      (get_or_compute ttl_seconds k (built a) c).2).
    { unfold get_or_compute. destruct (TopologyCache.get k c) as [[v|] c'] eqn:Eg;
        (assert (Hc' : entries_built (a :: log) c' /\ clock c' = clock c);
          [pose proof (TopologyCache.get_clock k c) as Hclk; rewrite Eg in Hclk; split; [|exact Hclk];
           intros k' t x Hk'; cbn in Hclk; rewrite Hclk; apply Hweak; apply (TopologyCache.get_entries k); by rewrite Eg|]);
        destruct Hc' as [Hc' Hclk]; [exact Hc'|].
      destruct (built a) as [v|e] eqn:Eb; [|exact Hc'].
      intros k' t x. cbn. intros [[<- Hx]|[_ Hx]]%lookup_insert_Some; [|exact (Hc' k' t x Hx)].
      injection Hx as <- <-. exists a. split; [left|]. split_and!; [done|lia|lia|done]. }
    unfold built in Hget. rewrite Ha in Hget. destruct (window_of (asked_request a)); [exact Hweak|exact Hget..].
  - intros k t v Hk. by destruct (lookup_empty_Some k (t, v) Hk).
  - intros k t v Hk. destruct (IH k t v Hk) as (a & ? & ? & ? & ? & ?). exists a. split_and!; try done. cbn. lia.
Qed.

Lemma answer_cases log a c :
  visited log c -> asked_at a = clock c ->
  (answer_of a c).1 = built a \/
  (exists e, early_answer (asked_request a) (r_context (asked_reads a)) = Some e /\ (answer_of a c).1 = Raise e) \/
  (window_of (asked_request a) <> W_current /\ exists v t, (answer_of a c).1 = Ok v /\
     entries c !! cache_key (asked_request a) = Some (t, v) /\ clock c < t).
Proof.
  intros _ Ha. unfold answer_of, get_graph. destruct (early_answer _ _) as [e|]; [right; left; eauto|].
  unfold get_or_compute, TopologyCache.get, built. rewrite Ha.
  destruct (window_of (asked_request a)); [by left|..];
    destruct (entries c !! cache_key (asked_request a)) as [[t v]|] eqn:El.
  all: try (destruct (Z.leb_spec t (clock c)); [|right; right; split; [done|eauto]]).
  all: left; destruct (build _ _ _); done.
Qed.


Lemma run_cons ev evs (c c1 : Cache CacheKey Graph E) :
  TopologyCache.step ttl_seconds ev c = Some c1 ->
  TopologyCache.run ttl_seconds (ev :: evs) c = TopologyCache.run ttl_seconds evs c1.
Proof. intros Hs. cbn [TopologyCache.run]. by rewrite Hs. Qed.

Lemma compute_alone t k v (c : Cache CacheKey Graph E) :
  threads c !! t = Some (Missed k) -> inflight c !! k = None ->
  exists c', TopologyCache.run ttl_seconds [Step t; FactoryReturns t v; Step t; Step t] c = Some c' /\
    threads c' !! t = Some (Returned k v) /\ entries c' = entries (put ttl_seconds k v c) /\ inflight c' = inflight c.
Proof.
  intros Ht Hk. eexists. split.
  - erewrite run_cons; [|cbn [TopologyCache.step]; rewrite Ht; unfold join_inflight; rewrite Hk; reflexivity].
    do 3 (erewrite run_cons; [|cbn; rewrite lookup_insert_eq; reflexivity]). reflexivity.
  - cbn. split; [by rewrite lookup_insert_eq|]. split; [done|]. by rewrite delete_insert_eq, delete_id.
Qed.

(** [get_or_compute] is what the threads of [TopologyCache] do when one of them is alone. *)
Lemma get_or_compute_alone t k v (c : Cache CacheKey Graph E) :
  threads c !! t = None -> inflight c !! k = None ->
  exists evs c' p, TopologyCache.run ttl_seconds evs c = Some c' /\ threads c' !! t = Some p /\
    (evs = [Call t k; Step t] /\ (exists w, p = Hit k w (clock c) /\ (get_or_compute ttl_seconds k (Ok v) c).1 = Ok w) \/
     evs = [Call t k; Step t; Step t; FactoryReturns t v; Step t; Step t] /\ p = Returned k v /\
       (get_or_compute ttl_seconds k (Ok v) c).1 = Ok v) /\
    entries c' = entries (get_or_compute ttl_seconds k (Ok v) c).2 /\ inflight c' = inflight c.
Proof.
  intros Ht Hk. unfold get_or_compute.
  assert (Hcall : TopologyCache.step ttl_seconds (Call t k) c = Some (set_phase t (Calling k) c)) by (cbn; by rewrite decide_True).
  assert (Hget : TopologyCache.step ttl_seconds (Step t) (set_phase t (Calling k) c) =
    match TopologyCache.get k c with
    | (Some w, c1) => Some (set_phase t (Hit k w (clock c1)) (set_phase t (Calling k) c1))
    | (None, c1) => Some (set_phase t (Missed k) (set_phase t (Calling k) c1))
    end).
  { cbn [TopologyCache.step set_phase threads]. rewrite lookup_insert_eq. unfold TopologyCache.get.
    replace (entries (set_phase t (Calling k) c) !! k) with (entries c !! k) by reflexivity.
    destruct (entries c !! k) as [[t' x]|]; [|reflexivity]. cbn [clock set_phase]. destruct (t' <=? clock c); reflexivity. }
  assert (Hsame : clock (TopologyCache.get k c).2 = clock c /\ inflight (TopologyCache.get k c).2 = inflight c).
  { unfold TopologyCache.get. destruct (entries c !! k) as [[t' x]|]; [destruct (t' <=? clock c)|]; done. }
  destruct (TopologyCache.get k c) as [[w|] c1] eqn:Eg; destruct Hsame as [Hclk Hf]; cbn [snd] in Hclk, Hf.
  - exists [Call t k; Step t], (set_phase t (Hit k w (clock c1)) (set_phase t (Calling k) c1)), (Hit k w (clock c1)).
    rewrite (run_cons _ _ _ _ Hcall), (run_cons _ _ _ _ Hget), Hclk.
    split; [reflexivity|]. split; [apply lookup_insert_eq|]. split; [left; eauto|done].
  - destruct (compute_alone t k v (set_phase t (Missed k) (set_phase t (Calling k) c1))) as (c' & Hr & Hp & He & Hi).
    { apply lookup_insert_eq. } { cbn. by rewrite Hf. }
    exists [Call t k; Step t; Step t; FactoryReturns t v; Step t; Step t], c', (Returned k v).
    rewrite (run_cons _ _ _ _ Hcall), (run_cons _ _ _ _ Hget). split; [exact Hr|]. split; [exact Hp|].
    split; [right; done|]. split; [exact He|]. by rewrite Hi.
Qed.

(** The pages of an edge, one after the other, are its connections. *)
Lemma edge_pages_complete limit s t rows :
  0 < limit ->
  concat ((fun k => default [] ((fun p => p.2) <$> edge_page limit ((k - 1) * limit) (GraphOfEdge s t rows))) <$>
    seqZ 1 (page_count (Z.of_nat (length rows)) limit)) = rows.
Proof. intros Hl. exact (concat_pages limit rows Hl). Qed.
End cache.

(** The scan a difference starts from: the last successful one of the device before it. *)
Lemma previous_scan_spec current d :
  match previous_scan current d with
  | Some p => exists r, scan_runs d !! p = Some r /\ run_device_id r = run_device_id current /\ run_status r = SCAN_SUCCESS /\
      run_started_at r < run_started_at current /\
      forall q s, scan_runs d !! q = Some s -> run_device_id s = run_device_id current -> run_status s = SCAN_SUCCESS ->
        run_started_at s < run_started_at current -> run_started_at s <= run_started_at r
  | None => forall q s, scan_runs d !! q = Some s -> run_device_id s = run_device_id current -> run_status s = SCAN_SUCCESS ->
      run_started_at current <= run_started_at s
  end.
Proof.
  unfold previous_scan, newest_first. set (P := fun (_ : Z) r => _). set (l := merge_sort _ _).
  assert (Hin : forall q s, (q, s) ∈ l <-> scan_runs d !! q = Some s /\ run_device_id s = run_device_id current /\
    run_status s = SCAN_SUCCESS /\ run_started_at s < run_started_at current).
  { intros q s. unfold l. rewrite (merge_sort_Permutation (newest run_started_at)), pg_order_Permutation, elem_of_map_to_list, lookup_where.
    unfold P, run_success. rewrite !andb_true_iff, Z.eqb_eq, bool_decide_eq_true, Z.ltb_lt. tauto. }
  assert (Hs : StronglySorted (newest run_started_at) l).
  { apply Sorted_StronglySorted; [intros x y z; unfold newest; lia|]. apply Sorted_merge_sort.
    intros x y. unfold newest. lia. }
  clearbody l. destruct l as [|[p r] l]; cbn.
  - intros q s Hq Hd Hst. destruct (Z.le_gt_cases (run_started_at current) (run_started_at s)); [done|].
    assert (Hx : (q, s) ∈ (@nil (Z * ScanRun))) by (apply Hin; by split_and!). by apply elem_of_nil in Hx.
  - destruct (proj1 (Hin p r) ltac:(left)) as (R1 & R2 & R3 & R4). exists r. split_and!; try done.
    intros q s Hq Hd Hst Hlt. assert (Hx : (q, s) ∈ (p, r) :: l) by (apply Hin; by split_and!).
    apply StronglySorted_inv in Hs as [_ Hs]. rewrite Forall_forall in Hs.
    apply elem_of_cons in Hx as [[= _ ->]|Hx]; [lia|exact (Hs _ Hx)].
Qed.
End theorems.
