(* ===== verification/ReadDemo.v ===== *)
(** * Graph requests on a concrete database *)

From S2P Require Import Prelude PyText PyDict Models Exceptions Resolver TopologyCache DatabaseTransactions DeviceListing ServiceObservations TopologyHistory HistoryEquivalence Topology TopologyDemo Retention Schemas Api ApiReads ReadTheorems.

(** The same edge twice, without a filter and ten seconds later with an empty one. *)
Definition demo_asked (time : Z) (protocol : option text) : Asked :=
  mkAsked time (EdgeConnections (u "cluster-1") (u "cluster-2") W_7d protocol None None) (at_rest graph_db) demo_resolver.

Definition demo_answer (a : Asked) (c : Cache CacheKey Graph ()) : result failure Graph * Cache CacheKey Graph () :=
  @answer_of ascii_printable no_unicode_digits ascii_only first_occurrences as_listed codepoint_le as_elements () 300 a c.

Definition demo_first : Asked := demo_asked 86400 None.
Definition demo_second : Asked := demo_asked 86410 (Some []).

Definition demo_warm : Cache CacheKey Graph () := pass 10 (demo_answer demo_first (empty_cache 86400)).2.

Definition graph_rows (r : result failure Graph) : nat :=
  match r with Ok (GraphOfEdge _ _ rows) => length rows | _ => 0%nat end.

