(* ===== verification/Ddl.v ===== *)
(** * Schemas and their changes

    The data definition statements the migrations (src/migrations/versions) issue, on a
    schema of types, tables and indexes and on the rows of the database, with the
    conditions under which PostgreSQL refuses them.  [None] is a refused statement.
    Migrations.v holds the statements themselves. *)

From stdpp Require Import strings.
From S2P Require Import Prelude Models ServiceObservations.

Open Scope string_scope.

(** ** Dictionaries by name

    Kept in the order of their names, so that equal dictionaries are equal lists and the
    kernel computes with them: the keys are compared, never encoded. *)

Definition Named (A : Type) : Type := list (string * A).

Fixpoint find {A} (n : string) (m : Named A) : option A :=
  match m with
  | [] => None
  | (k, x) :: m => if String.eqb n k then Some x else find n m
  end.

Fixpoint put {A} (n : string) (x : A) (m : Named A) : Named A :=
  match m with
  | [] => [(n, x)]
  | (k, y) :: m' =>
      match String.compare n k with
      | Eq => (n, x) :: m'
      | Lt => (n, x) :: m
      | Gt => (k, y) :: put n x m'
      end
  end.

Definition drop_name {A} (n : string) (m : Named A) : Named A :=
  List.filter (fun p => negb (String.eqb n p.1)) m.

Definition named {A} (l : list (string * A)) : Named A := foldr (fun p m => put p.1 p.2 m) [] l.

Definition taken {A} (n : string) (m : Named A) : bool :=
  match find n m with Some _ => true | None => false end.

Lemma find_put_eq {A} n (x : A) m : find n (put n x m) = Some x.
Proof.
  induction m as [|[k y] m IH]; cbn; [by rewrite String.eqb_refl|].
  destruct (String.compare n k) eqn:E; cbn; try by rewrite String.eqb_refl.
  destruct (String.eqb_spec n k) as [->|_]; [|done].
  pose proof (String.compare_antisym k k) as Ha. by rewrite E in Ha.
Qed.

Lemma find_put_ne {A} n k (x : A) m : n <> k -> find n (put k x m) = find n m.
Proof.
  intros Hn. apply String.eqb_neq in Hn as Hb. induction m as [|[j y] m IH]; cbn; [by rewrite Hb|].
  destruct (String.compare k j) eqn:E; cbn; [apply String.compare_eq_iff in E as <-; by rewrite Hb|by rewrite Hb|].
  by destruct (String.eqb n j).
Qed.

Lemma find_drop_name_eq {A} n (m : Named A) : find n (drop_name n m) = None.
Proof.
  induction m as [|[k y] m IH]; cbn; [done|]. destruct (String.eqb n k) eqn:E; cbn; [done|]. by rewrite E.
Qed.

Lemma find_drop_name_ne {A} n k (m : Named A) : n <> k -> find n (drop_name k m) = find n m.
Proof.
  intros Hn. unfold drop_name. induction m as [|[j y] m IH]; cbn; [done|].
  destruct (String.eqb_spec k j) as [<-|Hk]; cbn.
  - rewrite IH. apply String.eqb_neq in Hn. by rewrite Hn.
  - destruct (String.eqb n j); done.
Qed.

(** ** Schemas *)

Inductive SqlType := INTEGER | BOOLEAN | TIMESTAMPTZ | TEXT | VARCHAR (length : Z) | ENUM (name : string).

#[export] Instance SqlType_eq_dec : EqDecision SqlType.
Proof. solve_decision. Defined.

Inductive OnDelete := CASCADE | SET_NULL.

#[export] Instance OnDelete_eq_dec : EqDecision OnDelete.
Proof. solve_decision. Defined.

(** A server default is what the column's type makes of the written default. *)
Inductive SqlValue := SqlBool (b : bool) | SqlInt (z : Z).

#[export] Instance SqlValue_eq_dec : EqDecision SqlValue.
Proof. solve_decision. Defined.

Record Column := mkColumn {
  col_name : string;
  col_type : SqlType;
  col_nullable : bool;
  col_default : option SqlValue
}.

Record ForeignKey := mkForeignKey {
  fk_columns : list string;
  fk_table : string;
  fk_referred : list string;
  fk_ondelete : OnDelete
}.

(** Constraints and indexes go by their names, [table_storage] by the parameter. *)
Record Table := mkTable {
  table_columns : list Column;
  table_primary_key : list string;
  table_foreign_keys : Named ForeignKey;
  table_uniques : Named (list string);
  table_storage : Named string
}.

Record Index := mkIndex {
  ix_table : string;
  ix_columns : list string;
  ix_unique : bool;
  ix_where : option string
}.

Record Schema := mkSchema {
  enums : Named (list string);
  tables : Named Table;
  indexes : Named Index
}.

#[export] Instance Table_eta : Eta Table := fun t =>
  mkTable (table_columns t) (table_primary_key t) (table_foreign_keys t) (table_uniques t) (table_storage t).
#[export] Instance Schema_eta : Eta Schema := fun s => mkSchema (enums s) (tables s) (indexes s).

Definition empty_schema : Schema := mkSchema [] [] [].

(** ** Statements *)

(** What [op.create_table] lists. *)
Inductive TableItem :=
| Col (name : string) (type : SqlType) (nullable : bool)
| ColDefault (name : string) (type : SqlType) (server_default : string) (nullable : bool)
| PrimaryKey (columns : list string)
| ForeignKeyTo (columns : list string) (table : string) (referred : list string) (ondelete : OnDelete)
| Unique (name : string) (columns : list string).

Inductive Op :=
| create_enum (name : string) (labels : list string)
| drop_enum (name : string)
| create_table (name : string) (items : list TableItem)
| drop_table (name : string)
| create_index (name table : string) (columns : list string) (unique : bool) (where_ : option string)
| drop_index (name : string)
| create_foreign_key (name table referred_table : string) (columns referred : list string) (ondelete : OnDelete)
| drop_foreign_key (name table : string)
| set_storage (table : string) (parameters : list (string * string))
| reset_storage (table : string) (parameters : list string)
| backfill_observations.

(** PostgreSQL names an unnamed foreign key after its table and columns. *)
Definition default_fk_name (table : string) (columns : list string) : string :=
  table +:+ foldr (fun c s => "_" +:+ c +:+ s) "_fkey" columns.

(** What a type makes of a written default: the texts the source writes. *)
Definition read_default (ty : SqlType) (written : string) : option SqlValue :=
  match ty with
  | BOOLEAN =>
      if existsb (String.eqb written) ["true"; "1"] then Some (SqlBool true)
      else if existsb (String.eqb written) ["false"; "0"] then Some (SqlBool false) else None
  | INTEGER => if String.eqb written "0" then Some (SqlInt 0) else if String.eqb written "1" then Some (SqlInt 1) else None
  | _ => None
  end.

Definition add_item (name : string) (t : Table) (i : TableItem) : Table :=
  match i with
  | Col c ty nl => t <| table_columns := (table_columns t ++ [mkColumn c ty nl None])%list |>
  | ColDefault c ty df nl => t <| table_columns := (table_columns t ++ [mkColumn c ty nl (read_default ty df)])%list |>
  | PrimaryKey cols => t <| table_primary_key := cols |>
  | ForeignKeyTo cols rt rcols od =>
      t <| table_foreign_keys := put (default_fk_name name cols) (mkForeignKey cols rt rcols od) (table_foreign_keys t) |>
  | Unique u cols => t <| table_uniques := put u cols (table_uniques t) |>
  end.

Definition table_of (name : string) (items : list TableItem) : Table :=
  foldl (add_item name) (mkTable [] [] [] [] []) items.

(** ** The conditions of the statements *)

Definition has_columns (t : Table) (cols : list string) : bool :=
  forallb (fun c => existsb (fun k => String.eqb c (col_name k)) (table_columns t)) cols.

Fixpoint same_names (l k : list string) : bool :=
  match l, k with
  | [], [] => true
  | a :: l, b :: k => String.eqb a b && same_names l k
  | _, _ => false
  end.

Fixpoint distinct_names (l : list string) : bool :=
  match l with [] => true | a :: l => negb (existsb (String.eqb a) l) && distinct_names l end.

(** Tables, indexes and unique constraints share one space of names. *)
Definition relation_taken (s : Schema) (name : string) : bool :=
  taken name (tables s) || taken name (indexes s) || existsb (fun p => taken name (table_uniques p.2)) (tables s).

(** A foreign key refers to the primary key of a table. *)
Definition valid_reference (s : Schema) (t : Table) (fk : ForeignKey) : bool :=
  has_columns t (fk_columns fk) &&
  match find (fk_table fk) (tables s) with
  | Some r => same_names (fk_referred fk) (table_primary_key r) && Nat.eqb (length (fk_columns fk)) (length (fk_referred fk))
  | None => false
  end.

Definition known_type (s : Schema) (ty : SqlType) : bool :=
  match ty with ENUM e => taken e (enums s) | _ => true end.

Definition valid_table (s : Schema) (t : Table) : bool :=
  distinct_names (map col_name (table_columns t)) &&
  forallb (fun c => known_type s (col_type c)) (table_columns t) &&
  has_columns t (table_primary_key t) &&
  forallb (fun p => valid_reference s t p.2) (table_foreign_keys t) &&
  forallb (fun p => has_columns t p.2 && negb (relation_taken s p.1)) (table_uniques t).

Definition refers_to (name : string) (t : Table) : bool :=
  existsb (fun p => String.eqb (fk_table p.2) name) (table_foreign_keys t).

(** Another table refers to this one. *)
Definition referred_to (s : Schema) (name : string) : bool :=
  existsb (fun p => negb (String.eqb p.1 name) && refers_to name p.2) (tables s).

Definition uses_enum (name : string) (t : Table) : bool :=
  existsb (fun c => match col_type c with ENUM e => String.eqb e name | _ => false end) (table_columns t).

(** ** The effect of a statement *)

Definition guard_ (b : bool) {A} (x : A) : option A := if b then Some x else None.

(** A statement on the schema; [backfill_observations] is not one. *)
Definition alter (o : Op) (s : Schema) : option Schema :=
  match o with
  | create_enum name labels =>          (* checkfirst=True *)
      Some (if taken name (enums s) then s else s <| enums := put name labels (enums s) |>)
  | drop_enum name =>                   (* checkfirst=True *)
      if taken name (enums s) then
        guard_ (negb (existsb (fun p => uses_enum name p.2) (tables s)))
          (s <| enums := drop_name name (enums s) |>)
      else Some s
  | create_table name items =>
      let t := table_of name items in
      guard_ (negb (relation_taken s name) && valid_table s t) (s <| tables := put name t (tables s) |>)
  | drop_table name =>
      guard_ (taken name (tables s) && negb (referred_to s name))
        (mkSchema (enums s) (drop_name name (tables s))
           (List.filter (fun p => negb (String.eqb (ix_table p.2) name)) (indexes s)))
  | create_index name table cols unique where_ =>
      t ← find table (tables s);
      guard_ (negb (relation_taken s name) && has_columns t cols)
        (s <| indexes := put name (mkIndex table cols unique where_) (indexes s) |>)
  | drop_index name =>
      guard_ (taken name (indexes s)) (s <| indexes := drop_name name (indexes s) |>)
  | create_foreign_key name table rtable cols rcols od =>
      t ← find table (tables s);
      let fk := mkForeignKey cols rtable rcols od in
      guard_ (negb (taken name (table_foreign_keys t)) && valid_reference s t fk)
        (s <| tables := put table (t <| table_foreign_keys := put name fk (table_foreign_keys t) |>) (tables s) |>)
  | drop_foreign_key name table =>
      t ← find table (tables s);
      guard_ (taken name (table_foreign_keys t))
        (s <| tables := put table (t <| table_foreign_keys := drop_name name (table_foreign_keys t) |>) (tables s) |>)
  | set_storage table ps =>
      t ← find table (tables s);
      Some (s <| tables := put table (t <| table_storage := foldr (fun p m => put p.1 p.2 m) (table_storage t) ps |>) (tables s) |>)
  | reset_storage table ps =>
      t ← find table (tables s);
      Some (s <| tables := put table (t <| table_storage := foldr drop_name (table_storage t) ps |>) (tables s) |>)
  | backfill_observations => Some s
  end.

(** Dropping a table drops its rows and its sequence. *)
Definition reset_sequence (T : TableName) (d : Db) : Db :=
  d <| next_id := fun T' => if decide (T' = T) then 1 else next_id d T' |>.

Definition drop_rows (name : string) (d : Db) : Db :=
  if decide (name = "clusters") then reset_sequence T_clusters (d <| clusters := ∅ |>)
  else if decide (name = "cluster_internal_networks") then reset_sequence T_networks (d <| cluster_internal_networks := ∅ |>)
  else if decide (name = "devices") then reset_sequence T_devices (d <| devices := ∅ |>)
  else if decide (name = "scan_runs") then reset_sequence T_scan_runs (d <| scan_runs := ∅ |>)
  else if decide (name = "scan_batches") then reset_sequence T_scan_batches (d <| scan_batches := ∅ |>)
  else if decide (name = "scan_tasks") then reset_sequence T_scan_tasks (d <| scan_tasks := ∅ |>)
  else if decide (name = "scan_batch_items") then reset_sequence T_scan_batch_items (d <| scan_batch_items := ∅ |>)
  else if decide (name = "connection_records") then reset_sequence T_connection_records (d <| connection_records := ∅ |>)
  else if decide (name = "connection_service_observations") then reset_sequence T_observations (d <| observations := ∅ |>)
  else if decide (name = "system_settings") then d <| system_setting := None |>
  else if decide (name = "import_batches") then reset_sequence T_import_batches (d <| import_batches := ∅ |>)
  else if decide (name = "import_row_results") then reset_sequence T_import_row_results (d <| import_row_results := ∅ |>)
  else d.

(** [backfill_service_observations(op.get_bind())]; a scan identifier per iteration is
    fuel enough. *)
Definition backfill_fuel (d : Db) : nat :=
  match scan_id_bounds d with Some (mn, mx) => Z.to_nat (mx + 1 - mn) | None => 0%nat end.

Definition write (o : Op) `{PgAggregates} (d : Db) : option Db :=
  match o with
  | drop_table name => Some (drop_rows name d)
  | backfill_observations => backfill_service_observations (backfill_fuel d) 2000 d
  | _ => Some d
  end.

Definition execute `{PgAggregates} (o : Op) (x : Schema * Db) : option (Schema * Db) :=
  s ← alter o x.1; d ← write o x.2; Some (s, d).

Fixpoint execute_all `{PgAggregates} (os : list Op) (x : Schema * Db) : option (Schema * Db) :=
  match os with
  | [] => Some x
  | o :: os => y ← execute o x; execute_all os y
  end.

Fixpoint alter_all (os : list Op) (s : Schema) : option Schema :=
  match os with
  | [] => Some s
  | o :: os => s' ← alter o s; alter_all os s'
  end.

Fixpoint write_all `{PgAggregates} (os : list Op) (d : Db) : option Db :=
  match os with
  | [] => Some d
  | o :: os => d' ← write o d; write_all os d'
  end.

(** The schema does not depend on the rows, nor the rows on the schema. *)
Lemma execute_all_split `{PgAggregates} os s d s' d' :
  alter_all os s = Some s' -> write_all os d = Some d' -> execute_all os (s, d) = Some (s', d').
Proof.
  revert s d. induction os as [|o os IH]; intros s d; cbn; [by intros [= ->] [= ->]|].
  unfold execute. cbn. destruct (alter o s) as [s1|]; [|done]. destruct (write o d) as [d1|]; [|done]. cbn. apply IH.
Qed.

Lemma alter_all_app os os' s : alter_all (os ++ os')%list s = s1 ← alter_all os s; alter_all os' s1.
Proof. revert s. induction os as [|o os IH]; intros s; cbn; [done|]. destruct (alter o s); cbn; [apply IH|done]. Qed.

Close Scope string_scope.
