(* ===== verification/Migrations.v ===== *)
(** * The migrations (src/migrations/versions)

    The statements of every revision as the revision issues them, and the chain the
    revisions form.  [upgrade head] runs the revisions a database has not had, each with
    its statements in order, in one transaction ([run_migrations_online]). *)

From stdpp Require Import strings.
From S2P Require Import Prelude Models ServiceObservations Ddl.

Open Scope string_scope.

Definition NULL : bool := true.
Definition NOT_NULL : bool := false.

(** ** 20260805_0001: the initial schema *)

Definition OSTYPE : SqlType := ENUM "ostype".
Definition SCANTRIGGER : SqlType := ENUM "scantrigger".
Definition SCANSTATUS : SqlType := ENUM "scanstatus".
Definition SCANTASKSTATUS : SqlType := ENUM "scantaskstatus".
Definition SCANBATCHSTATUS : SqlType := ENUM "scanbatchstatus".
Definition SCANBATCHTYPE : SqlType := ENUM "scanbatchtype".
Definition IMPORTBATCHSTATUS : SqlType := ENUM "importbatchstatus".
Definition IMPORTSTATUS : SqlType := ENUM "importstatus".
Definition IMPORTTESTSTATUS : SqlType := ENUM "importteststatus".

Definition ENUM_TYPES : list (string * list string) := [
    ("ostype", ["LINUX"; "WINDOWS"]);
    ("scantrigger", ["MANUAL"; "SCHEDULED"; "IMPORT"; "BATCH"]);
    ("scanstatus", ["RUNNING"; "SUCCESS"; "FAILED"]);
    ("scantaskstatus", ["PENDING"; "RUNNING"; "SUCCESS"; "FAILED"; "CANCELLED"]);
    ("scanbatchstatus", ["PENDING"; "RUNNING"; "COMPLETED"]);
    ("scanbatchtype", ["ALL"; "CLUSTER"; "IMPORT"; "RETRY"]);
    ("importbatchstatus", ["IMPORTING"; "TESTING"; "COMPLETED"; "FAILED"]);
    ("importstatus", ["IMPORTED"; "SKIPPED"; "ERROR"]);
    ("importteststatus", ["PENDING"; "RUNNING"; "SUCCESS"; "FAILED"; "NOT_APPLICABLE"])
  ].

Definition create_clusters : list Op := [
    create_table "clusters" [
      Col "id" INTEGER NOT_NULL;
      Col "name" (VARCHAR 100) NOT_NULL;
      Col "description" (VARCHAR 500) NULL;
      Col "history_retention_days" INTEGER NULL;
      Col "scan_interval_minutes" INTEGER NOT_NULL;
      Col "scheduled_enabled" BOOLEAN NOT_NULL;
      Col "created_at" TIMESTAMPTZ NOT_NULL;
      Col "updated_at" TIMESTAMPTZ NOT_NULL;
      PrimaryKey ["id"]];
    create_index "ix_clusters_name" "clusters" ["name"] true None
  ].

Definition create_import_batches : list Op := [
    create_table "import_batches" [
      Col "id" INTEGER NOT_NULL;
      Col "filename" (VARCHAR 255) NOT_NULL;
      Col "status" IMPORTBATCHSTATUS NOT_NULL;
      Col "total_rows" INTEGER NOT_NULL;
      Col "imported_rows" INTEGER NOT_NULL;
      Col "skipped_rows" INTEGER NOT_NULL;
      Col "error_rows" INTEGER NOT_NULL;
      Col "test_pending_rows" INTEGER NOT_NULL;
      Col "test_running_rows" INTEGER NOT_NULL;
      Col "test_success_rows" INTEGER NOT_NULL;
      Col "test_failed_rows" INTEGER NOT_NULL;
      Col "created_at" TIMESTAMPTZ NOT_NULL;
      Col "finished_at" TIMESTAMPTZ NULL;
      Col "fatal_error" (VARCHAR 500) NULL;
      Col "scan_batch_id" INTEGER NULL;
      PrimaryKey ["id"]];
    create_index "ix_import_batches_scan_batch_id" "import_batches" ["scan_batch_id"] false None;
    create_index "ix_import_batches_status" "import_batches" ["status"] false None
  ].

Definition create_system_settings : list Op := [
    create_table "system_settings" [
      Col "id" INTEGER NOT_NULL;
      Col "history_retention_days" INTEGER NOT_NULL;
      PrimaryKey ["id"]]
  ].

Definition create_cluster_internal_networks : list Op := [
    create_table "cluster_internal_networks" [
      Col "id" INTEGER NOT_NULL;
      Col "cluster_id" INTEGER NOT_NULL;
      Col "cidr" (VARCHAR 18) NOT_NULL;
      ForeignKeyTo ["cluster_id"] "clusters" ["id"] CASCADE;
      PrimaryKey ["id"];
      Unique "uq_cluster_internal_network_cluster_cidr" ["cluster_id"; "cidr"]];
    create_index "ix_cluster_internal_networks_cluster_id" "cluster_internal_networks" ["cluster_id"] false None
  ].

Definition create_devices : list Op := [
    create_table "devices" [
      Col "id" INTEGER NOT_NULL;
      Col "name" (VARCHAR 100) NOT_NULL;
      Col "host" (VARCHAR 255) NOT_NULL;
      Col "os_type" OSTYPE NOT_NULL;
      Col "port" INTEGER NOT_NULL;
      Col "username" (VARCHAR 255) NOT_NULL;
      Col "encrypted_password" TEXT NOT_NULL;
      Col "cluster_id" INTEGER NULL;
      Col "scan_interval_minutes" INTEGER NOT_NULL;
      Col "scheduled_enabled" BOOLEAN NOT_NULL;
      ColDefault "collection_enabled" BOOLEAN "true" NOT_NULL;
      Col "history_retention_days" INTEGER NULL;
      Col "last_scan_status" SCANSTATUS NULL;
      Col "last_scan_at" TIMESTAMPTZ NULL;
      Col "created_at" TIMESTAMPTZ NOT_NULL;
      Col "updated_at" TIMESTAMPTZ NOT_NULL;
      ForeignKeyTo ["cluster_id"] "clusters" ["id"] SET_NULL;
      PrimaryKey ["id"];
      Unique "uq_device_identity" ["host"; "port"; "username"]];
    create_index "ix_devices_cluster_id" "devices" ["cluster_id"] false None
  ].

Definition create_scan_batches : list Op := [
    create_table "scan_batches" [
      Col "id" INTEGER NOT_NULL;
      Col "batch_type" SCANBATCHTYPE NOT_NULL;
      Col "status" SCANBATCHSTATUS NOT_NULL;
      Col "cluster_id" INTEGER NULL;
      Col "source_import_batch_id" INTEGER NULL;
      Col "total_tasks" INTEGER NOT_NULL;
      Col "pending_tasks" INTEGER NOT_NULL;
      Col "running_tasks" INTEGER NOT_NULL;
      Col "success_tasks" INTEGER NOT_NULL;
      Col "failed_tasks" INTEGER NOT_NULL;
      Col "created_at" TIMESTAMPTZ NOT_NULL;
      Col "finished_at" TIMESTAMPTZ NULL;
      ForeignKeyTo ["cluster_id"] "clusters" ["id"] SET_NULL;
      ForeignKeyTo ["source_import_batch_id"] "import_batches" ["id"] SET_NULL;
      PrimaryKey ["id"]];
    create_index "ix_scan_batches_batch_type" "scan_batches" ["batch_type"] false None;
    create_index "ix_scan_batches_cluster_id" "scan_batches" ["cluster_id"] false None;
    create_index "ix_scan_batches_source_import_batch_id" "scan_batches" ["source_import_batch_id"] true None;
    create_index "ix_scan_batches_status" "scan_batches" ["status"] false None;
    create_foreign_key "fk_import_batches_scan_batch_id_scan_batches" "import_batches" "scan_batches" ["scan_batch_id"] ["id"] SET_NULL
  ].

Definition create_import_row_results : list Op := [
    create_table "import_row_results" [
      Col "id" INTEGER NOT_NULL;
      Col "batch_id" INTEGER NOT_NULL;
      Col "row_number" INTEGER NOT_NULL;
      Col "device_name" (VARCHAR 100) NULL;
      Col "host" (VARCHAR 255) NULL;
      Col "device_id" INTEGER NULL;
      Col "import_status" IMPORTSTATUS NOT_NULL;
      Col "import_message" (VARCHAR 500) NOT_NULL;
      Col "test_status" IMPORTTESTSTATUS NOT_NULL;
      Col "test_message" (VARCHAR 500) NULL;
      Col "test_worker_id" (VARCHAR 36) NULL;
      Col "test_lease_expires_at" TIMESTAMPTZ NULL;
      Col "test_heartbeat_at" TIMESTAMPTZ NULL;
      ColDefault "test_attempt_count" INTEGER "0" NOT_NULL;
      ForeignKeyTo ["batch_id"] "import_batches" ["id"] CASCADE;
      ForeignKeyTo ["device_id"] "devices" ["id"] SET_NULL;
      PrimaryKey ["id"]];
    create_index "ix_import_row_batch_number" "import_row_results" ["batch_id"; "row_number"] false None;
    create_index "ix_import_row_results_test_lease_expires_at" "import_row_results" ["test_lease_expires_at"] false None;
    create_index "ix_import_row_results_test_worker_id" "import_row_results" ["test_worker_id"] false None
  ].

Definition create_scan_runs : list Op := [
    create_table "scan_runs" [
      Col "id" INTEGER NOT_NULL;
      Col "device_id" INTEGER NOT_NULL;
      Col "trigger_type" SCANTRIGGER NOT_NULL;
      Col "status" SCANSTATUS NOT_NULL;
      Col "started_at" TIMESTAMPTZ NOT_NULL;
      Col "finished_at" TIMESTAMPTZ NULL;
      Col "connection_count" INTEGER NOT_NULL;
      Col "warning_message" (VARCHAR 500) NULL;
      Col "error_code" (VARCHAR 64) NULL;
      Col "error_message" (VARCHAR 500) NULL;
      ForeignKeyTo ["device_id"] "devices" ["id"] CASCADE;
      PrimaryKey ["id"]];
    create_index "ix_scan_device_started" "scan_runs" ["device_id"; "started_at"] false None;
    create_index "ix_scan_device_status_started" "scan_runs" ["device_id"; "status"; "started_at"] false None;
    create_index "ix_scan_runs_status" "scan_runs" ["status"] false None
  ].

Definition create_connection_records : list Op := [
    create_table "connection_records" [
      Col "id" INTEGER NOT_NULL;
      Col "scan_run_id" INTEGER NOT_NULL;
      Col "protocol" (VARCHAR 8) NOT_NULL;
      Col "address_family" (VARCHAR 8) NOT_NULL;
      Col "local_ip" (VARCHAR 255) NOT_NULL;
      Col "local_port" INTEGER NOT_NULL;
      Col "remote_ip" (VARCHAR 255) NULL;
      Col "remote_port" INTEGER NULL;
      Col "state" (VARCHAR 32) NULL;
      Col "pid" INTEGER NULL;
      Col "process_name" (VARCHAR 255) NULL;
      Col "remote_hostname" (VARCHAR 255) NULL;
      ForeignKeyTo ["scan_run_id"] "scan_runs" ["id"] CASCADE;
      PrimaryKey ["id"]];
    create_index "ix_connection_history_service" "connection_records" ["scan_run_id"; "remote_ip"; "remote_port"; "protocol"; "process_name"] false None;
    create_index "ix_connection_records_state" "connection_records" ["state"] false None;
    create_index "ix_connection_remote_scan" "connection_records" ["remote_ip"; "scan_run_id"] false None;
    create_index "ix_connection_scan_process" "connection_records" ["scan_run_id"; "process_name"] false None;
    create_index "ix_connection_scan_protocol" "connection_records" ["scan_run_id"; "protocol"] false None;
    create_index "ix_connection_scan_remote" "connection_records" ["scan_run_id"; "remote_ip"] false None
  ].

Definition create_scan_tasks : list Op := [
    create_table "scan_tasks" [
      Col "id" INTEGER NOT_NULL;
      Col "device_id" INTEGER NOT_NULL;
      Col "trigger_type" SCANTRIGGER NOT_NULL;
      Col "priority" INTEGER NOT_NULL;
      Col "status" SCANTASKSTATUS NOT_NULL;
      Col "scan_run_id" INTEGER NULL;
      Col "error_message" (VARCHAR 500) NULL;
      Col "created_at" TIMESTAMPTZ NOT_NULL;
      Col "started_at" TIMESTAMPTZ NULL;
      Col "finished_at" TIMESTAMPTZ NULL;
      Col "worker_id" (VARCHAR 36) NULL;
      Col "lease_expires_at" TIMESTAMPTZ NULL;
      Col "heartbeat_at" TIMESTAMPTZ NULL;
      ColDefault "attempt_count" INTEGER "0" NOT_NULL;
      ForeignKeyTo ["device_id"] "devices" ["id"] CASCADE;
      ForeignKeyTo ["scan_run_id"] "scan_runs" ["id"] SET_NULL;
      PrimaryKey ["id"]];
    create_index "ix_scan_tasks_claim" "scan_tasks" ["status"; "priority"; "created_at"] false None;
    create_index "ix_scan_tasks_device_id" "scan_tasks" ["device_id"] false None;
    create_index "ix_scan_tasks_lease_expires_at" "scan_tasks" ["lease_expires_at"] false None;
    create_index "ix_scan_tasks_priority" "scan_tasks" ["priority"] false None;
    create_index "ix_scan_tasks_scan_run_id" "scan_tasks" ["scan_run_id"] false None;
    create_index "ix_scan_tasks_status" "scan_tasks" ["status"] false None;
    create_index "ix_scan_tasks_worker_id" "scan_tasks" ["worker_id"] false None;
    create_index "uq_scan_tasks_device_active" "scan_tasks" ["device_id"] true (Some "status IN ('PENDING', 'RUNNING')")
  ].

Definition create_scan_batch_items : list Op := [
    create_table "scan_batch_items" [
      Col "id" INTEGER NOT_NULL;
      Col "batch_id" INTEGER NOT_NULL;
      Col "task_id" INTEGER NOT_NULL;
      Col "device_id" INTEGER NOT_NULL;
      Col "status" SCANTASKSTATUS NOT_NULL;
      ForeignKeyTo ["batch_id"] "scan_batches" ["id"] CASCADE;
      ForeignKeyTo ["device_id"] "devices" ["id"] CASCADE;
      ForeignKeyTo ["task_id"] "scan_tasks" ["id"] CASCADE;
      PrimaryKey ["id"];
      Unique "uq_scan_batch_device" ["batch_id"; "device_id"]];
    create_index "ix_scan_batch_items_batch_id" "scan_batch_items" ["batch_id"] false None;
    create_index "ix_scan_batch_items_batch_status" "scan_batch_items" ["batch_id"; "status"] false None;
    create_index "ix_scan_batch_items_device_id" "scan_batch_items" ["device_id"] false None;
    create_index "ix_scan_batch_items_status" "scan_batch_items" ["status"] false None;
    create_index "ix_scan_batch_items_task_id" "scan_batch_items" ["task_id"] false None
  ].

Definition upgrade_0001 : list Op :=
  (map (fun e => create_enum e.1 e.2) ENUM_TYPES ++
   create_clusters ++
   create_import_batches ++
   create_system_settings ++
   create_cluster_internal_networks ++
   create_devices ++
   create_scan_batches ++
   create_import_row_results ++
   create_scan_runs ++
   create_connection_records ++
   create_scan_tasks ++
   create_scan_batch_items)%list.

Definition downgrade_0001 : list Op :=
  ([
    drop_index "ix_scan_batch_items_task_id";
    drop_index "ix_scan_batch_items_status";
    drop_index "ix_scan_batch_items_device_id";
    drop_index "ix_scan_batch_items_batch_status";
    drop_index "ix_scan_batch_items_batch_id";
    drop_table "scan_batch_items";
    drop_index "uq_scan_tasks_device_active";
    drop_index "ix_scan_tasks_worker_id";
    drop_index "ix_scan_tasks_status";
    drop_index "ix_scan_tasks_scan_run_id";
    drop_index "ix_scan_tasks_priority";
    drop_index "ix_scan_tasks_lease_expires_at";
    drop_index "ix_scan_tasks_device_id";
    drop_index "ix_scan_tasks_claim";
    drop_table "scan_tasks";
    drop_index "ix_connection_scan_remote";
    drop_index "ix_connection_scan_protocol";
    drop_index "ix_connection_scan_process";
    drop_index "ix_connection_remote_scan";
    drop_index "ix_connection_records_state";
    drop_index "ix_connection_history_service";
    drop_table "connection_records";
    drop_index "ix_scan_runs_status";
    drop_index "ix_scan_device_status_started";
    drop_index "ix_scan_device_started";
    drop_table "scan_runs";
    drop_index "ix_import_row_results_test_worker_id";
    drop_index "ix_import_row_results_test_lease_expires_at";
    drop_index "ix_import_row_batch_number";
    drop_table "import_row_results";
    drop_index "ix_scan_batches_status";
    drop_index "ix_scan_batches_source_import_batch_id";
    drop_index "ix_scan_batches_cluster_id";
    drop_index "ix_scan_batches_batch_type";
    drop_foreign_key "fk_import_batches_scan_batch_id_scan_batches" "import_batches";
    drop_table "scan_batches";
    drop_index "ix_devices_cluster_id";
    drop_table "devices";
    drop_index "ix_cluster_internal_networks_cluster_id";
    drop_table "cluster_internal_networks";
    drop_table "system_settings";
    drop_index "ix_import_batches_status";
    drop_index "ix_import_batches_scan_batch_id";
    drop_table "import_batches";
    drop_index "ix_clusters_name";
    drop_table "clusters"
  ] ++ map (fun e => drop_enum e.1) (rev ENUM_TYPES))%list.

(** ** 20260807_0002: observations *)

Definition upgrade_0002 : list Op := [
    create_table "connection_service_observations" [
      Col "id" INTEGER NOT_NULL;
      Col "scan_run_id" INTEGER NOT_NULL;
      Col "device_id" INTEGER NOT_NULL;
      Col "started_at" TIMESTAMPTZ NOT_NULL;
      Col "protocol" (VARCHAR 8) NOT_NULL;
      Col "remote_ip" (VARCHAR 255) NOT_NULL;
      Col "remote_port" INTEGER NOT_NULL;
      Col "process_name" (VARCHAR 255) NOT_NULL;
      Col "sample_connection_id" INTEGER NOT_NULL;
      Col "remote_hostname" (VARCHAR 255) NULL;
      Col "local_ips" TEXT NOT_NULL;
      Col "local_ports" TEXT NOT_NULL;
      Col "pids" TEXT NULL;
      ForeignKeyTo ["scan_run_id"] "scan_runs" ["id"] CASCADE;
      ForeignKeyTo ["device_id"] "devices" ["id"] CASCADE;
      PrimaryKey ["id"];
      Unique "uq_observation_scan_service" ["scan_run_id"; "protocol"; "remote_ip"; "remote_port"; "process_name"]];
    create_index "ix_observation_device_started" "connection_service_observations" ["device_id"; "started_at"] false None;
    create_index "ix_observation_remote_started" "connection_service_observations" ["remote_ip"; "started_at"] false None;
    create_index "ix_observation_scan" "connection_service_observations" ["scan_run_id"] false None;
    backfill_observations
  ].

Definition downgrade_0002 : list Op := [
    drop_index "ix_observation_scan";
    drop_index "ix_observation_remote_started";
    drop_index "ix_observation_device_started";
    drop_table "connection_service_observations"
  ].

(** ** 20260810_0003: storage *)

Definition _VACUUMED_TABLES : list string := ["connection_records"; "connection_service_observations"].

Definition _DROPPED_INDEXES : list (string * list string) := [
    ("ix_connection_scan_protocol", ["scan_run_id"; "protocol"]);
    ("ix_connection_scan_remote", ["scan_run_id"; "remote_ip"]);
    ("ix_connection_scan_process", ["scan_run_id"; "process_name"]);
    ("ix_connection_remote_scan", ["remote_ip"; "scan_run_id"]);
    ("ix_connection_records_state", ["state"])
  ].

Definition upgrade_0003 : list Op :=
  (map (fun table => set_storage table
     [("autovacuum_vacuum_scale_factor", "0.02"); ("autovacuum_vacuum_threshold", "50000")]) _VACUUMED_TABLES ++
   map (fun i => drop_index i.1) _DROPPED_INDEXES)%list.

Definition downgrade_0003 : list Op :=
  (map (fun i => create_index i.1 "connection_records" i.2 false None) (rev _DROPPED_INDEXES) ++
   map (fun table => reset_storage table
     ["autovacuum_vacuum_scale_factor"; "autovacuum_vacuum_threshold"]) _VACUUMED_TABLES)%list.

(** ** The chain of revisions *)

Record Revision := mkRevision {
  revision : string;
  down_revision : option string;
  upgrade : list Op;
  downgrade : list Op
}.

Definition revision_0001 : Revision := mkRevision "20260805_0001" None upgrade_0001 downgrade_0001.
Definition revision_0002 : Revision := mkRevision "20260807_0002" (Some "20260805_0001") upgrade_0002 downgrade_0002.
Definition revision_0003 : Revision := mkRevision "20260810_0003" (Some "20260807_0002") upgrade_0003 downgrade_0003.

Definition versions : list Revision := [revision_0001; revision_0002; revision_0003].

(** The head: the revision no other one follows. *)
Definition get_current_head (vs : list Revision) : option string :=
  head (map revision (List.filter (fun r =>
    negb (existsb (fun r' => bool_decide (down_revision r' = Some (revision r))) vs)) vs)).

Record Database := mkDatabase {
  version : option string;
  schema : Schema;
  rows : Db
}.

Definition fresh : Database := mkDatabase None empty_schema empty_db.

(** One revision up or down, if it is the next one. *)
Definition step_up `{PgAggregates} (r : Revision) (x : Database) : option Database :=
  if decide (version x = down_revision r) then
    y ← execute_all (upgrade r) (schema x, rows x);
    Some (mkDatabase (Some (revision r)) y.1 y.2)
  else None.

Definition revision_down `{PgAggregates} (r : Revision) (x : Database) : option Database :=
  if decide (version x = Some (revision r)) then
    y ← execute_all (downgrade r) (schema x, rows x);
    Some (mkDatabase (down_revision r) y.1 y.2)
  else None.

(** The revision that follows a version, and [run_migrations_online] to the head; there
    are as many steps as revisions. *)
Definition next_revision (vs : list Revision) (v : option string) : option Revision :=
  List.find (fun r => bool_decide (down_revision r = v)) vs.

Fixpoint upgrade_steps `{PgAggregates} (fuel : nat) (vs : list Revision) (x : Database) : option Database :=
  match next_revision vs (version x), fuel with
  | None, _ => Some x
  | Some _, O => None
  | Some r, S fuel => y ← step_up r x; upgrade_steps fuel vs y
  end.

Definition upgrade_head `{PgAggregates} (x : Database) : option Database :=
  upgrade_steps (length versions) versions x.

(** [assert_database_current] (src/app/database.py) *)
Definition assert_database_current (x : Database) : bool :=
  bool_decide (version x = get_current_head versions).

Close Scope string_scope.
