(* ===== verification/Metadata.v ===== *)
(** * The schema the models declare (src/app/models.py)

    The mapped classes with their columns and table arguments as the code declares them,
    and the schema that SQLAlchemy derives from them: [Base.metadata], what the migrations
    are compared with ([alembic check]). *)

From stdpp Require Import strings.
From S2P Require Import Prelude Ddl Migrations.

Open Scope string_scope.

(** ** Declarations *)

Inductive ColumnOption :=
| primary_key
| unique
| index
| references (table : string) (ondelete : OnDelete) (name : option string)
| server_default (written : string).

#[export] Instance ColumnOption_eq_dec : EqDecision ColumnOption.
Proof. solve_decision. Defined.

Record MappedColumn := mapped_column {
  mc_name : string;
  mc_type : SqlType;
  mc_nullable : bool;
  mc_options : list ColumnOption
}.

Inductive TableArg :=
| UniqueConstraint (name : string) (columns : list string)
| IndexOn (name : string) (columns : list string) (unique : bool) (postgresql_where : option string).

Record MappedClass := mkClass {
  __tablename__ : string;
  __table_args__ : list TableArg;
  class_columns : list MappedColumn
}.

(** [Enum(OSType)] is a type named by the class in lower case, with the members' names. *)
Definition lower_ascii (a : Ascii.ascii) : Ascii.ascii :=
  let n := Ascii.nat_of_ascii a in
  if bool_decide (65 <= n <= 90)%nat then Ascii.ascii_of_nat (n + 32) else a.

Fixpoint lower (s : string) : string :=
  match s with EmptyString => EmptyString | String a s => String (lower_ascii a) (lower s) end.

Definition Enum (class : string) : SqlType := ENUM (lower class).

(** ** The classes *)

Definition enum_classes : list (string * list string) := [
    ("OSType", ["LINUX"; "WINDOWS"]);
    ("ScanTrigger", ["MANUAL"; "SCHEDULED"; "IMPORT"; "BATCH"]);
    ("ScanStatus", ["RUNNING"; "SUCCESS"; "FAILED"]);
    ("ScanTaskStatus", ["PENDING"; "RUNNING"; "SUCCESS"; "FAILED"; "CANCELLED"]);
    ("ScanBatchStatus", ["PENDING"; "RUNNING"; "COMPLETED"]);
    ("ScanBatchType", ["ALL"; "CLUSTER"; "IMPORT"; "RETRY"]);
    ("ImportBatchStatus", ["IMPORTING"; "TESTING"; "COMPLETED"; "FAILED"]);
    ("ImportStatus", ["IMPORTED"; "SKIPPED"; "ERROR"]);
    ("ImportTestStatus", ["PENDING"; "RUNNING"; "SUCCESS"; "FAILED"; "NOT_APPLICABLE"])
  ].

Definition Cluster_class : MappedClass := mkClass "clusters" [] [
    mapped_column "id" INTEGER NOT_NULL [primary_key];
    mapped_column "name" (VARCHAR 100) NOT_NULL [unique; index];
    mapped_column "description" (VARCHAR 500) NULL [];
    mapped_column "history_retention_days" INTEGER NULL [];
    mapped_column "scan_interval_minutes" INTEGER NOT_NULL [];
    mapped_column "scheduled_enabled" BOOLEAN NOT_NULL [];
    mapped_column "created_at" TIMESTAMPTZ NOT_NULL [];
    mapped_column "updated_at" TIMESTAMPTZ NOT_NULL []
  ].

Definition ClusterInternalNetwork_class : MappedClass := mkClass "cluster_internal_networks" [
    UniqueConstraint "uq_cluster_internal_network_cluster_cidr" ["cluster_id"; "cidr"]
  ] [
    mapped_column "id" INTEGER NOT_NULL [primary_key];
    mapped_column "cluster_id" INTEGER NOT_NULL [references "clusters" CASCADE None; index];
    mapped_column "cidr" (VARCHAR 18) NOT_NULL []
  ].

Definition Device_class : MappedClass := mkClass "devices" [
    UniqueConstraint "uq_device_identity" ["host"; "port"; "username"]
  ] [
    mapped_column "id" INTEGER NOT_NULL [primary_key];
    mapped_column "name" (VARCHAR 100) NOT_NULL [];
    mapped_column "host" (VARCHAR 255) NOT_NULL [];
    mapped_column "os_type" (Enum "OSType") NOT_NULL [];
    mapped_column "port" INTEGER NOT_NULL [];
    mapped_column "username" (VARCHAR 255) NOT_NULL [];
    mapped_column "encrypted_password" TEXT NOT_NULL [];
    mapped_column "cluster_id" INTEGER NULL [references "clusters" SET_NULL None; index];
    mapped_column "scan_interval_minutes" INTEGER NOT_NULL [];
    mapped_column "scheduled_enabled" BOOLEAN NOT_NULL [];
    mapped_column "collection_enabled" BOOLEAN NOT_NULL [server_default "1"];
    mapped_column "history_retention_days" INTEGER NULL [];
    mapped_column "last_scan_status" (Enum "ScanStatus") NULL [];
    mapped_column "last_scan_at" TIMESTAMPTZ NULL [];
    mapped_column "created_at" TIMESTAMPTZ NOT_NULL [];
    mapped_column "updated_at" TIMESTAMPTZ NOT_NULL []
  ].

Definition ScanRun_class : MappedClass := mkClass "scan_runs" [
    IndexOn "ix_scan_device_started" ["device_id"; "started_at"] false None;
    IndexOn "ix_scan_device_status_started" ["device_id"; "status"; "started_at"] false None
  ] [
    mapped_column "id" INTEGER NOT_NULL [primary_key];
    mapped_column "device_id" INTEGER NOT_NULL [references "devices" CASCADE None];
    mapped_column "trigger_type" (Enum "ScanTrigger") NOT_NULL [];
    mapped_column "status" (Enum "ScanStatus") NOT_NULL [index];
    mapped_column "started_at" TIMESTAMPTZ NOT_NULL [];
    mapped_column "finished_at" TIMESTAMPTZ NULL [];
    mapped_column "connection_count" INTEGER NOT_NULL [];
    mapped_column "warning_message" (VARCHAR 500) NULL [];
    mapped_column "error_code" (VARCHAR 64) NULL [];
    mapped_column "error_message" (VARCHAR 500) NULL []
  ].

Definition ScanBatch_class : MappedClass := mkClass "scan_batches" [] [
    mapped_column "id" INTEGER NOT_NULL [primary_key];
    mapped_column "batch_type" (Enum "ScanBatchType") NOT_NULL [index];
    mapped_column "status" (Enum "ScanBatchStatus") NOT_NULL [index];
    mapped_column "cluster_id" INTEGER NULL [references "clusters" SET_NULL None; index];
    mapped_column "source_import_batch_id" INTEGER NULL [references "import_batches" SET_NULL None; unique; index];
    mapped_column "total_tasks" INTEGER NOT_NULL [];
    mapped_column "pending_tasks" INTEGER NOT_NULL [];
    mapped_column "running_tasks" INTEGER NOT_NULL [];
    mapped_column "success_tasks" INTEGER NOT_NULL [];
    mapped_column "failed_tasks" INTEGER NOT_NULL [];
    mapped_column "created_at" TIMESTAMPTZ NOT_NULL [];
    mapped_column "finished_at" TIMESTAMPTZ NULL []
  ].

Definition ScanTask_class : MappedClass := mkClass "scan_tasks" [
    IndexOn "uq_scan_tasks_device_active" ["device_id"] true (Some "status IN ('PENDING', 'RUNNING')");
    IndexOn "ix_scan_tasks_claim" ["status"; "priority"; "created_at"] false None
  ] [
    mapped_column "id" INTEGER NOT_NULL [primary_key];
    mapped_column "device_id" INTEGER NOT_NULL [references "devices" CASCADE None; index];
    mapped_column "trigger_type" (Enum "ScanTrigger") NOT_NULL [];
    mapped_column "priority" INTEGER NOT_NULL [index];
    mapped_column "status" (Enum "ScanTaskStatus") NOT_NULL [index];
    mapped_column "scan_run_id" INTEGER NULL [references "scan_runs" SET_NULL None; index];
    mapped_column "error_message" (VARCHAR 500) NULL [];
    mapped_column "created_at" TIMESTAMPTZ NOT_NULL [];
    mapped_column "started_at" TIMESTAMPTZ NULL [];
    mapped_column "finished_at" TIMESTAMPTZ NULL [];
    mapped_column "worker_id" (VARCHAR 36) NULL [index];
    mapped_column "lease_expires_at" TIMESTAMPTZ NULL [index];
    mapped_column "heartbeat_at" TIMESTAMPTZ NULL [];
    mapped_column "attempt_count" INTEGER NOT_NULL [server_default "0"]
  ].

Definition ScanBatchItem_class : MappedClass := mkClass "scan_batch_items" [
    UniqueConstraint "uq_scan_batch_device" ["batch_id"; "device_id"];
    IndexOn "ix_scan_batch_items_batch_status" ["batch_id"; "status"] false None
  ] [
    mapped_column "id" INTEGER NOT_NULL [primary_key];
    mapped_column "batch_id" INTEGER NOT_NULL [references "scan_batches" CASCADE None; index];
    mapped_column "task_id" INTEGER NOT_NULL [references "scan_tasks" CASCADE None; index];
    mapped_column "device_id" INTEGER NOT_NULL [references "devices" CASCADE None; index];
    mapped_column "status" (Enum "ScanTaskStatus") NOT_NULL [index]
  ].

Definition ConnectionRecord_class : MappedClass := mkClass "connection_records" [
    IndexOn "ix_connection_history_service" ["scan_run_id"; "remote_ip"; "remote_port"; "protocol"; "process_name"] false None
  ] [
    mapped_column "id" INTEGER NOT_NULL [primary_key];
    mapped_column "scan_run_id" INTEGER NOT_NULL [references "scan_runs" CASCADE None];
    mapped_column "protocol" (VARCHAR 8) NOT_NULL [];
    mapped_column "address_family" (VARCHAR 8) NOT_NULL [];
    mapped_column "local_ip" (VARCHAR 255) NOT_NULL [];
    mapped_column "local_port" INTEGER NOT_NULL [];
    mapped_column "remote_ip" (VARCHAR 255) NULL [];
    mapped_column "remote_port" INTEGER NULL [];
    mapped_column "state" (VARCHAR 32) NULL [];
    mapped_column "pid" INTEGER NULL [];
    mapped_column "process_name" (VARCHAR 255) NULL [];
    mapped_column "remote_hostname" (VARCHAR 255) NULL []
  ].

Definition ConnectionServiceObservation_class : MappedClass := mkClass "connection_service_observations" [
    UniqueConstraint "uq_observation_scan_service" ["scan_run_id"; "protocol"; "remote_ip"; "remote_port"; "process_name"];
    IndexOn "ix_observation_device_started" ["device_id"; "started_at"] false None;
    IndexOn "ix_observation_remote_started" ["remote_ip"; "started_at"] false None;
    IndexOn "ix_observation_scan" ["scan_run_id"] false None
  ] [
    mapped_column "id" INTEGER NOT_NULL [primary_key];
    mapped_column "scan_run_id" INTEGER NOT_NULL [references "scan_runs" CASCADE None];
    mapped_column "device_id" INTEGER NOT_NULL [references "devices" CASCADE None];
    mapped_column "started_at" TIMESTAMPTZ NOT_NULL [];
    mapped_column "protocol" (VARCHAR 8) NOT_NULL [];
    mapped_column "remote_ip" (VARCHAR 255) NOT_NULL [];
    mapped_column "remote_port" INTEGER NOT_NULL [];
    mapped_column "process_name" (VARCHAR 255) NOT_NULL [];
    mapped_column "sample_connection_id" INTEGER NOT_NULL [];
    mapped_column "remote_hostname" (VARCHAR 255) NULL [];
    mapped_column "local_ips" TEXT NOT_NULL [];
    mapped_column "local_ports" TEXT NOT_NULL [];
    mapped_column "pids" TEXT NULL []
  ].

Definition SystemSetting_class : MappedClass := mkClass "system_settings" [] [
    mapped_column "id" INTEGER NOT_NULL [primary_key];
    mapped_column "history_retention_days" INTEGER NOT_NULL []
  ].

Definition ImportBatch_class : MappedClass := mkClass "import_batches" [] [
    mapped_column "id" INTEGER NOT_NULL [primary_key];
    mapped_column "filename" (VARCHAR 255) NOT_NULL [];
    mapped_column "status" (Enum "ImportBatchStatus") NOT_NULL [index];
    mapped_column "total_rows" INTEGER NOT_NULL [];
    mapped_column "imported_rows" INTEGER NOT_NULL [];
    mapped_column "skipped_rows" INTEGER NOT_NULL [];
    mapped_column "error_rows" INTEGER NOT_NULL [];
    mapped_column "test_pending_rows" INTEGER NOT_NULL [];
    mapped_column "test_running_rows" INTEGER NOT_NULL [];
    mapped_column "test_success_rows" INTEGER NOT_NULL [];
    mapped_column "test_failed_rows" INTEGER NOT_NULL [];
    mapped_column "created_at" TIMESTAMPTZ NOT_NULL [];
    mapped_column "finished_at" TIMESTAMPTZ NULL [];
    mapped_column "fatal_error" (VARCHAR 500) NULL [];
    mapped_column "scan_batch_id" INTEGER NULL [references "scan_batches" SET_NULL (Some "fk_import_batches_scan_batch_id_scan_batches"); index]
  ].

Definition ImportRowResult_class : MappedClass := mkClass "import_row_results" [
    IndexOn "ix_import_row_batch_number" ["batch_id"; "row_number"] false None
  ] [
    mapped_column "id" INTEGER NOT_NULL [primary_key];
    mapped_column "batch_id" INTEGER NOT_NULL [references "import_batches" CASCADE None];
    mapped_column "row_number" INTEGER NOT_NULL [];
    mapped_column "device_name" (VARCHAR 100) NULL [];
    mapped_column "host" (VARCHAR 255) NULL [];
    mapped_column "device_id" INTEGER NULL [references "devices" SET_NULL None];
    mapped_column "import_status" (Enum "ImportStatus") NOT_NULL [];
    mapped_column "import_message" (VARCHAR 500) NOT_NULL [];
    mapped_column "test_status" (Enum "ImportTestStatus") NOT_NULL [];
    mapped_column "test_message" (VARCHAR 500) NULL [];
    mapped_column "test_worker_id" (VARCHAR 36) NULL [index];
    mapped_column "test_lease_expires_at" TIMESTAMPTZ NULL [index];
    mapped_column "test_heartbeat_at" TIMESTAMPTZ NULL [];
    mapped_column "test_attempt_count" INTEGER NOT_NULL [server_default "0"]
  ].

Definition mapped_classes : list MappedClass :=
  [Cluster_class; ClusterInternalNetwork_class; Device_class; ScanRun_class; ScanBatch_class; ScanTask_class; ScanBatchItem_class; ConnectionRecord_class; ConnectionServiceObservation_class; SystemSetting_class; ImportBatch_class; ImportRowResult_class].

(** ** The metadata *)

Definition has_option (o : ColumnOption) (c : MappedColumn) : bool := existsb (fun o' => bool_decide (o = o')) (mc_options c).

Definition column_default (c : MappedColumn) : option SqlValue :=
  head (omap (fun o => match o with server_default w => read_default (mc_type c) w | _ => None end) (mc_options c)).

(** A foreign key without a name takes the one PostgreSQL gives it. *)
Definition column_references (table : string) (c : MappedColumn) : list (string * ForeignKey) :=
  omap (fun o => match o with
    | references rt od name =>
        Some (default (default_fk_name table [mc_name c]) name, mkForeignKey [mc_name c] rt ["id"] od)
    | _ => None
    end) (mc_options c).

Definition declared_table (c : MappedClass) : Table :=
  mkTable
    (map (fun m => mkColumn (mc_name m) (mc_type m) (mc_nullable m) (column_default m)) (class_columns c))
    (map mc_name (List.filter (has_option primary_key) (class_columns c)))
    (named (concat (map (column_references (__tablename__ c)) (class_columns c))))
    (named (omap (fun a => match a with UniqueConstraint n cs => Some (n, cs) | _ => None end) (__table_args__ c)))
    [].

(** [index=True] is an index named after the table and the column, unique if the column is. *)
Definition declared_indexes (c : MappedClass) : list (string * Index) :=
  (map (fun m => ("ix_" +:+ __tablename__ c +:+ "_" +:+ mc_name m,
        mkIndex (__tablename__ c) [mc_name m] (has_option unique m) None))
    (List.filter (has_option index) (class_columns c)) ++
  omap (fun a => match a with
    | IndexOn n cs u w => Some (n, mkIndex (__tablename__ c) cs u w)
    | _ => None
    end) (__table_args__ c))%list.

Definition metadata : Schema :=
  mkSchema (named (map (fun e => (lower e.1, e.2)) enum_classes))
    (named (map (fun c => (__tablename__ c, declared_table c)) mapped_classes))
    (named (concat (map declared_indexes mapped_classes))).

Close Scope string_scope.
