(* ===== verification/MigrationTheorems.v ===== *)
(** * Theorems on the migrations

    The revisions lead any database of the chain to the schema the models declare, with
    the observations of the scans already recorded; downgrading undoes an upgrade. *)

From stdpp Require Import strings.
From S2P Require Import Prelude Models ServiceObservations ObservationTheorems Ddl Migrations Metadata.

(** The database after the first revisions of the chain, holding these rows. *)
Definition schema_after (n : nat) : Schema :=
  default empty_schema (alter_all (concat (map upgrade (take n versions))) empty_schema).

Definition version_after (n : nat) : option string := last (map revision (take n versions)).

Definition standing (n : nat) (d : Db) : Database := mkDatabase (version_after n) (schema_after n) d.

(** The models say nothing of storage parameters. *)
Definition without_storage (s : Schema) : Schema :=
  s <| tables := map (fun p => (p.1, p.2 <| table_storage := [] |>)) (tables s) |>.

(** ** The schemas of the chain *)

Lemma schema_up_1 : alter_all upgrade_0001 (schema_after 0) = Some (schema_after 1).
Proof. vm_compute. reflexivity. Qed.

Lemma schema_up_2 : alter_all upgrade_0002 (schema_after 1) = Some (schema_after 2).
Proof. vm_compute. reflexivity. Qed.

Lemma schema_up_3 : alter_all upgrade_0003 (schema_after 2) = Some (schema_after 3).
Proof. vm_compute. reflexivity. Qed.

Lemma schema_down_1 : alter_all downgrade_0001 (schema_after 1) = Some (schema_after 0).
Proof. vm_compute. reflexivity. Qed.

Lemma schema_down_2 : alter_all downgrade_0002 (schema_after 2) = Some (schema_after 1).
Proof. vm_compute. reflexivity. Qed.

Lemma schema_down_3 : alter_all downgrade_0003 (schema_after 3) = Some (schema_after 2).
Proof. vm_compute. reflexivity. Qed.

Lemma head_schema_matches : without_storage (schema_after 3) = metadata.
Proof. vm_compute. reflexivity. Qed.

(** ** The rows *)

Definition keeps_rows (o : Op) : bool :=
  match o with drop_table _ | backfill_observations => false | _ => true end.

Section rows.
Context `{PgAggregates}.

Lemma write_all_keeps os d : forallb keeps_rows os = true -> write_all os d = Some d.
Proof.
  induction os as [|o os IH]; cbn; [done|]. rewrite andb_true_iff. intros [Ho Hos].
  destruct o; try done; cbn; by apply IH.
Qed.

Lemma write_all_app os os' d : write_all (os ++ os') d = d' ← write_all os d; write_all os' d'.
Proof. revert d. induction os as [|o os IH]; intros d; cbn; [done|]. destruct (write o d); cbn; [apply IH|done]. Qed.

(** The rows but for the observations. *)
Definition same_rows (d d' : Db) : Prop :=
  d' = d <| observations := observations d' |> <| next_id := next_id d' |> /\
  forall T, T <> T_observations -> next_id d' T = next_id d T.

Lemma same_rows_refl d : same_rows d d.
Proof. split; [by destruct d|done]. Qed.

Lemma same_rows_trans d d' d'' : same_rows d d' -> same_rows d' d'' -> same_rows d d''.
Proof.
  intros [E1 N1] [E2 N2]. split; [rewrite E2, E1; by destruct d|].
  intros T HT. by rewrite N2, N1.
Qed.

Lemma insert_observation_rows o d : same_rows d (insert_observation o d).
Proof.
  unfold insert_observation. destruct (has_observation _ d); [apply same_rows_refl|].
  split; [by destruct d|]. intros T HT. cbn. by rewrite decide_False.
Qed.

Lemma SYNC_SQL_rows lo hi d : same_rows d (_SYNC_SQL lo hi d).
Proof.
  rewrite SYNC_SQL_eq. generalize (sync_observations lo hi d) as os. intros os. revert d.
  induction os as [|o os IH]; intros d; cbn; [apply same_rows_refl|].
  eapply same_rows_trans; [apply insert_observation_rows|apply IH].
Qed.

(** ** What the backfill writes is what the scans would have written *)

Lemma sync_records_sorted lo hi d : StronglySorted (fun p q => p.1 < q.1) (sync_records lo hi d).
Proof.
  unfold sync_records. generalize (sorted_ids_StronglySorted (select_ids (fun _ => in_sync_range lo hi d) (connection_records d))).
  induction (sorted_ids _) as [|i l IH]; cbn; [constructor|]. intros [Hs Hl]%StronglySorted_inv.
  destruct (connection_records d !! i) as [r|]; cbn; [|by apply IH]. constructor; [by apply IH|].
  apply Forall_forall. intros [j r'] (j' & Hj & E)%list_elem_of_omap. cbn.
  destruct (connection_records d !! j'); [|done]. injection E as <- <-. by apply (Forall_forall _ l).
Qed.

Lemma StronglySorted_filter_ {A} (R : A -> A -> Prop) (P : A -> Prop) `{forall x, Decision (P x)} l :
  StronglySorted R l -> StronglySorted R (filter P l).
Proof.
  induction 1 as [|x l _ IH Hl]; [constructor|]. rewrite filter_cons. case_decide; [|done].
  constructor; [done|]. apply Forall_forall. intros y [_ Hy]%list_elem_of_filter. by apply (Forall_forall _ l).
Qed.

(** The records of a key are those of its scan. *)
Lemma key_rows_scan lo hi d k :
  lo <= k.1.1.1.1 < hi ->
  key_rows (sync_records lo hi d) k = key_rows (sync_records k.1.1.1.1 (k.1.1.1.1 + 1) d) k.
Proof.
  intros Hk. apply (StronglySorted_unique_strong (fun p q : Z * ConnectionRecord => p.1 < q.1)).
  - intros x y _ _ ? ?. lia.
  - apply StronglySorted_filter_, sync_records_sorted.
  - apply StronglySorted_filter_, sync_records_sorted.
  - assert (Hnd : forall lo hi, NoDup (key_rows (sync_records lo hi d) k)).
    { intros lo' hi'. apply NoDup_filter. pose proof (sync_records_sorted lo' hi' d) as Hs.
      induction Hs as [|x l _ IH Hl]; constructor; [|done]. intros Hx. rewrite Forall_forall in Hl.
      specialize (Hl x Hx). cbn in Hl. lia. }
    apply NoDup_Permutation; [done..|]. intros [i r]. unfold key_rows.
    rewrite !list_elem_of_filter, !elem_of_sync_records. unfold of_key. rewrite !bool_decide_eq_true. cbn [snd].
    assert (Hr : record_key r = Some k -> conn_scan_run_id r = k.1.1.1.1).
    { unfold record_key. destruct (conn_remote_ip r); [|done]. by intros [= <-]. }
    unfold in_sync_range. destruct (scan_runs d !! conn_scan_run_id r); [|naive_solver].
    rewrite !andb_true_iff, !Z.leb_le, !Z.ltb_lt. split; intros (Hkr & Hi & [[[? ?] ?] ?]); rewrite (Hr Hkr) in *;
      split_and!; try done; lia.
Qed.

Lemma SYNC_SQL_synchronized lo hi d i x :
  obs_wf d -> observations (_SYNC_SQL lo hi d) !! i = Some x -> observations d !! i = None ->
  synchronized (obs_scan_run_id x) d x.
Proof.
  intros Hwf Hx Hn. rewrite SYNC_SQL_eq in Hx.
  destruct (insert_all_spec (sync_observations lo hi d) d Hwf) as (_ & _ & _ & _ & Hi).
  apply Hi in Hx as [Hx|[_ Hx]]; [congruence|]. apply elem_of_sync_observations in Hx as [Hr Hg].
  assert (Hscan : lo <= obs_scan_run_id x < hi /\ recorded (obs_scan_run_id x) (obs_scan_run_id x + 1) d (observation_key x)).
  { destruct Hr as (j & r & Hj & Hin & Hk). pose proof Hk as Hk'. unfold record_key in Hk'.
    destruct (conn_remote_ip r); [|done]. injection Hk' as Hk' _ _ _ _. revert Hin. unfold recorded, in_sync_range.
    destruct (scan_runs d !! conn_scan_run_id r) eqn:Hs; [|done]. rewrite !andb_true_iff, Z.leb_le, Z.ltb_lt.
    intros [[[? ?] ?] ?]. split; [lia|]. exists j, r. rewrite Hs. split_and!; [done| |done].
    rewrite !andb_true_iff, Z.leb_le, Z.ltb_lt. split_and!; try done; lia. }
  destruct Hscan as [Hb Hrec]. split_and!; [done|done|].
  pose proof (key_rows_scan lo hi d (observation_key x) Hb) as E.
  change (observation_key x).1.1.1.1 with (obs_scan_run_id x) in E. by rewrite <- E.
Qed.

Lemma synchronized_same_rows run d d' x : same_rows d d' -> synchronized run d' x -> synchronized run d x.
Proof. intros [E _]. apply synchronized_ext; by rewrite E. Qed.

Lemma backfill_loop_keeps fuel lower max bs d d' :
  obs_wf d -> backfill_loop fuel lower max bs d = Some d' -> observations d ⊆ observations d'.
Proof.
  revert lower d. induction fuel as [|fuel IH]; intros lower d Hwf; cbn; destruct (lower <=? max); try (by intros [= <-]); try done.
  intros E. destruct (SYNC_SQL_spec lower (lower + bs) d Hwf) as (Hwf1 & _ & Hsub & _).
  etrans; [exact Hsub|]. exact (IH _ _ Hwf1 E).
Qed.

Lemma backfill_loop_rows fuel lower max bs d d' :
  obs_wf d -> backfill_loop fuel lower max bs d = Some d' ->
  same_rows d d' /\ forall i x, observations d' !! i = Some x -> observations d !! i = None ->
    synchronized (obs_scan_run_id x) d x.
Proof.
  revert lower d. induction fuel as [|fuel IH]; intros lower d Hwf; cbn; destruct (lower <=? max);
    try (intros [= <-]; split; [apply same_rows_refl|congruence]); try done.
  set (d1 := _SYNC_SQL lower (lower + bs) d). intros E.
  assert (Hwf1 : obs_wf d1) by apply (SYNC_SQL_spec lower (lower + bs) d Hwf).
  assert (Hr1 : same_rows d d1) by apply SYNC_SQL_rows.
  destruct (IH _ _ Hwf1 E) as [Hr2 Hs2]. split; [by eapply same_rows_trans|].
  intros i x Hx Hn. destruct (observations d1 !! i) as [y|] eqn:Hy.
  - assert (y = x) as ->.
    { pose proof (lookup_weaken _ _ _ _ Hy (backfill_loop_keeps fuel (lower + bs) max bs d1 d' Hwf1 E)). congruence. }
    by apply (SYNC_SQL_synchronized lower (lower + bs) d i).
  - eapply synchronized_same_rows; [exact Hr1|by apply (Hs2 i)].
Qed.

(** Whatever the rows, filling an empty table of observations gives each service of each
    successful scan the observation the scan itself would have written. *)
Lemma backfill_exists d :
  obs_wf d ->
  exists d', backfill_service_observations (backfill_fuel d) 2000 d = Some d' /\ obs_wf d' /\ same_rows d d' /\
    observations d ⊆ observations d' /\
    (forall k, observed k d' <-> observed k d \/ recorded_any d k) /\
    (forall i x, observations d' !! i = Some x -> observations d !! i = None -> synchronized (obs_scan_run_id x) d x).
Proof.
  intros Hwf. destruct (backfill_spec (backfill_fuel d) 2000 d Hwf) as (d' & E & Hwf' & _ & Hsub & Hk); [lia| |].
  { intros mn mx Hb. unfold backfill_fuel. rewrite Hb. lia. }
  exists d'. split; [done|]. revert E. unfold backfill_service_observations.
  destruct (scan_id_bounds d) as [[mn mx]|].
  - intros E. destruct (backfill_loop_rows _ _ _ _ _ _ Hwf E). split_and!; done.
  - intros [= <-]. split_and!; try done; [apply same_rows_refl|congruence].
Qed.
End rows.

(** ** The chain *)

Section chain.
Context `{PgAggregates}.

Lemma step_up_run r n d d' :
  down_revision r = version_after n -> Some (revision r) = version_after (S n) ->
  alter_all (upgrade r) (schema_after n) = Some (schema_after (S n)) -> write_all (upgrade r) d = Some d' ->
  step_up r (standing n d) = Some (standing (S n) d').
Proof.
  intros Hv Hr Hs Hd. unfold step_up, standing. cbn [version schema rows]. rewrite decide_True by done.
  rewrite (execute_all_split _ _ _ _ _ Hs Hd). cbn [mbind option_bind fst snd]. rewrite Hr. reflexivity.
Qed.

Lemma step_down_run r n d d' :
  down_revision r = version_after n -> Some (revision r) = version_after (S n) ->
  alter_all (downgrade r) (schema_after (S n)) = Some (schema_after n) -> write_all (downgrade r) d = Some d' ->
  revision_down r (standing (S n) d) = Some (standing n d').
Proof.
  intros Hv Hr Hs Hd. unfold revision_down, standing. cbn [version schema rows]. rewrite decide_True by done.
  rewrite (execute_all_split _ _ _ _ _ Hs Hd). cbn [mbind option_bind fst snd]. rewrite Hv. reflexivity.
Qed.

Lemma up_1 d : step_up revision_0001 (standing 0 d) = Some (standing 1 d).
Proof. apply step_up_run; [reflexivity|reflexivity|exact schema_up_1|]. apply write_all_keeps. vm_compute. reflexivity. Qed.

Lemma up_2 d d' :
  backfill_service_observations (backfill_fuel d) 2000 d = Some d' ->
  step_up revision_0002 (standing 1 d) = Some (standing 2 d').
Proof.
  intros Hd. apply step_up_run; [reflexivity|reflexivity|exact schema_up_2|].
  change (upgrade revision_0002) with (upgrade_0002). unfold upgrade_0002. cbn [write_all write mbind option_bind]. by rewrite Hd.
Qed.

Lemma up_3 d : step_up revision_0003 (standing 2 d) = Some (standing 3 d).
Proof. apply step_up_run; [reflexivity|reflexivity|exact schema_up_3|]. apply write_all_keeps. vm_compute. reflexivity. Qed.

Lemma steps_cons fuel vs x r :
  next_revision vs (version x) = Some r -> upgrade_steps (S fuel) vs x = y ← step_up r x; upgrade_steps fuel vs y.
Proof. intros Hr. cbn [upgrade_steps]. by rewrite Hr. Qed.

(** [alembic upgrade head], from wherever the chain was left. *)
Lemma upgrade_head_from n d d' :
  (n <= 3)%nat ->
  (if decide (n < 2)%nat then backfill_service_observations (backfill_fuel d) 2000 d = Some d' else d' = d) ->
  upgrade_head (standing n d) = Some (standing 3 d').
Proof.
  intros Hn Hd. unfold upgrade_head. change (length versions) with 3%nat.
  assert (H3 : forall fuel d, upgrade_steps fuel versions (standing 3 d) = Some (standing 3 d)) by (by intros []).
  assert (H2 : forall fuel d, upgrade_steps (S fuel) versions (standing 2 d) = Some (standing 3 d)).
  { intros fuel e. rewrite (steps_cons fuel _ _ revision_0003); [|reflexivity]. rewrite up_3. apply H3. }
  assert (H1 : forall fuel, (n < 2)%nat -> upgrade_steps (S (S fuel)) versions (standing 1 d) = Some (standing 3 d')).
  { intros fuel Hlt. rewrite decide_True in Hd by done.
    rewrite (steps_cons (S fuel) _ _ revision_0002); [|reflexivity]. rewrite (up_2 _ _ Hd). apply H2. }
  destruct n as [|[|[|[|n]]]]; [| | | |lia].
  - rewrite (steps_cons 2 _ _ revision_0001); [|reflexivity]. rewrite up_1. apply H1. lia.
  - apply H1. lia.
  - rewrite decide_False in Hd by lia. subst. apply H2.
  - rewrite decide_False in Hd by lia. subst. apply H3.
Qed.

(** A database without rows, its sequences at their start. *)
Definition no_rows (d : Db) : Prop :=
  clusters d = ∅ /\ cluster_internal_networks d = ∅ /\ devices d = ∅ /\ scan_runs d = ∅ /\ scan_batches d = ∅ /\
  scan_tasks d = ∅ /\ scan_batch_items d = ∅ /\ connection_records d = ∅ /\ system_setting d = None /\
  import_batches d = ∅ /\ import_row_results d = ∅ /\ forall T, T <> T_observations -> next_id d T = 1.

Definition rows_down (n : nat) (d d' : Db) : Prop :=
  match n with
  | 0%nat => no_rows d'
  | 1%nat => same_rows d d' /\ observations d' = ∅ /\ next_id d' T_observations = 1
  | _ => d' = d
  end.

Lemma write_down n r d :
  versions !! n = Some r -> exists d', write_all (downgrade r) d = Some d' /\ rows_down n d d'.
Proof.
  destruct n as [|[|[|n]]]; intros [= <-].
  - eexists. split; [vm_compute; reflexivity|]. vm_compute. split_and!; try reflexivity. by intros [].
  - exists (reset_sequence T_observations (d <| observations := ∅ |>)). split; [reflexivity|].
    split; [|by cbn; rewrite ?decide_True]. split; [by destruct d|]. intros T HT. cbn. by rewrite decide_False.
  - exists d. split; [|done]. apply write_all_keeps. vm_compute. reflexivity.
Qed.

(** C23. The migrations and the models agree. From the empty database and from every
    revision of the chain, with whatever rows it holds, [upgrade head] succeeds, statement
    by statement; the version check of the application then passes, and the schema is the
    one the mapped classes declare: types, columns in order, nullability, keys, foreign
    keys with their actions, unique constraints and indexes. The rows stay as they were,
    and a chain left before the observations gets, for each service of each successful
    scan, the observation the scan would have written. *)
Theorem migrations_reach_models n d :
  (n <= 3)%nat -> obs_wf d -> ((n < 2)%nat -> observations d = ∅) ->
  exists y, upgrade_head (standing n d) = Some y /\ assert_database_current y = true /\
    without_storage (schema y) = metadata /\ same_rows d (rows y) /\ observations d ⊆ observations (rows y) /\
    (forall k, observed k (rows y) <-> observed k d \/ ((n < 2)%nat /\ recorded_any d k)) /\
    (forall i x, observations (rows y) !! i = Some x -> observations d !! i = None ->
       synchronized (obs_scan_run_id x) d x).
Proof.
  intros Hn Hwf Hempty. destruct (decide (n < 2)%nat) as [Hlt|Hge].
  - destruct (backfill_exists d Hwf) as (d' & Hd & _ & Hr & Hsub & Hk & Hs).
    exists (standing 3 d'). split; [apply upgrade_head_from; [done|by rewrite decide_True]|].
    split; [reflexivity|]. split; [exact head_schema_matches|]. split_and!; try done.
    intros k. rewrite Hk. naive_solver.
  - exists (standing 3 d). split; [apply upgrade_head_from; [done|by rewrite decide_False]|].
    split; [reflexivity|]. split; [exact head_schema_matches|]. split_and!; try done; [apply same_rows_refl| |].
    + intros k. cbn [rows standing]. naive_solver lia.
    + cbn [rows standing]. congruence.
Qed.

(** A downgrade undoes its upgrade. Each revision can be taken back, statement by
    statement: no table goes while another refers to it and no type while a column uses
    it, and the schema is again the one before the revision, so the version check refuses
    the database. Taking back the storage parameters keeps every row, taking back the
    observations loses the observations only, and the base leaves no row. *)
Theorem downgrade_undoes_upgrade n r d :
  versions !! n = Some r ->
  exists d', revision_down r (standing (S n) d) = Some (standing n d') /\ rows_down n d d' /\
    assert_database_current (standing n d') = false.
Proof.
  intros Hr. destruct (write_down n r d Hr) as (d' & Hd & Hrows). exists d'. split; [|split; [done|]].
  - destruct n as [|[|[|n]]]; revert Hr; intros [= <-]; (apply step_down_run; [reflexivity|reflexivity| |exact Hd]).
    + exact schema_down_1.
    + exact schema_down_2.
    + exact schema_down_3.
  - by destruct n as [|[|[|n]]].
Qed.
End chain.

Lemma migrations_reach_models_witness :
  exists y, @upgrade_head first_occurrences (standing 1 hist_unobserved) = Some y /\
    without_storage (schema y) = metadata /\ observed hist_key (rows y).
Proof.
  destruct (@migrations_reach_models first_occurrences 1 hist_unobserved) as (y & Hy & _ & Hs & _ & _ & Hk & _).
  - lia.
  - exact hist_unobserved_wf.
  - reflexivity.
  - exists y. split; [exact Hy|]. split; [exact Hs|]. apply Hk. right. split; [lia|]. exists 1. eexists _, _.
    split; [vm_compute; reflexivity|]. split; [vm_compute; reflexivity|]. split; vm_compute; reflexivity.
Defined.

Lemma downgrade_undoes_upgrade_witness :
  exists d', @revision_down first_occurrences revision_0002 (standing 2 hist_scanned) = Some (standing 1 d') /\
    observations d' = ∅.
Proof.
  destruct (@downgrade_undoes_upgrade first_occurrences 1 revision_0002 hist_scanned eq_refl) as (d' & H & (_ & Ho & _) & _).
  exists d'. split; [exact H|exact Ho].
Defined.
