(* ===== verification/WorkerPool.v ===== *)
(** * A pool of workers over a queue of leases

    The threads that src/app/services/scan_queue.py and
    src/app/services/import_testing.py run in a process: a dispatcher that claims jobs for
    the free places of an executor, the executions of the jobs, a heartbeat that renews the
    leases of the jobs the process holds, and the shutdown.  What a job does is an
    interface, [Jobs]; a step of the pool is what one thread does between two points where
    another thread, or another process, can act.  Both services are instances
    (ScanWorker.v, ImportWorker.v). *)

From S2P Require Import Prelude PyText Exceptions LeaseSpec.

(** ** Jobs

    [input] is what the world answers in a step: the exception a transaction ends with, if
    any, the process clock, what collectors return.  [holds] are the phases in which the
    process counts the job's identifier as its own. *)

Class Jobs (St Op : Type) (limit : Z) `{Q : LeaseQueue St Op limit} (worker_id : text) := {
  input : Type;
  phase : Type;
  initial : phase;
  holds : phase -> bool;
  ended : phase -> bool;
  rank : phase -> nat;
  claim : input -> Z -> Z -> St -> result exn (list Z) * St;
  renew : input -> Z -> gset Z -> St -> result exn (gset Z) * St;
  advance : input -> Z -> bool -> Z -> phase -> St -> phase * St;
  registers_claims : bool;
  claim_survives : exn -> bool;
  renew_survives : exn -> bool;
  initial_registered : registers_claims = holds initial;
  claim_bounded i now n s ids s' : claim i now n s = (Ok ids, s') -> Z.of_nat (length ids) <= Z.max 0 n;
  claim_step i now n s : (claim i now n s).2 = s \/ exists op, lq_worker op = Some worker_id /\ lq_step now op s (claim i now n s).2;
  renew_step i now ids s : (renew i now ids s).2 = s \/ exists op, lq_worker op = Some worker_id /\ lq_step now op s (renew i now ids s).2;
  advance_step i now l id p s : lq_exec (now, s) (now, (advance i now l id p s).2);
  advance_rank i now l id p s : ended p = false -> (rank (advance i now l id p s).1 < rank p)%nat;
  ended_rank p : rank p = 0%nat -> ended p = true;
  ended_holds p : ended p = true -> holds p = false
}.

Inductive Dispatcher :=
| AtLoopHead
| Measured (available : Z)        (* [available] was computed under the lock *)
| Claimed (ids : list Z)          (* the claim committed *)
| Registered (ids : list Z)       (* and its identifiers are held *)
| DispatcherStopped
| DispatcherDied.

Inductive Heartbeat :=
| BeatWaiting
| BeatSnapshot (ids : gset Z)
| BeatLost (ids : gset Z)         (* the renewal committed and reported these *)
| BeatStopped
| BeatDied.

Inductive Shutdown := Running | Stopping | Joined | Drained.

#[export] Instance Shutdown_eq_dec : EqDecision Shutdown.
Proof. solve_decision. Defined.

Section pool.
Context {St Op : Type} {limit : Z} `{Q : LeaseQueue St Op limit} {worker_id : text} `{J : !Jobs St Op limit worker_id}.
Context (max_workers : Z).

(** [jobs] are the executions ever submitted, by future; [futures] those the dispatcher
    still counts. *)
Record Pool := mkPool {
  clock : Z;
  store : St;
  active_ids : gset Z;
  lost_ids : gset Z;
  jobs : gmap Z (Z * phase);
  futures : gset Z;
  next_job : Z;
  dispatcher : Dispatcher;
  heartbeat : Heartbeat;
  shutdown : Shutdown
}.

#[local] Instance Pool_eta : Eta Pool := fun p =>
  mkPool (clock p) (store p) (active_ids p) (lost_ids p) (jobs p) (futures p) (next_job p)
    (dispatcher p) (heartbeat p) (shutdown p).

(** [start] *)
Definition started (now : Z) (s : St) : Pool := mkPool now s ∅ ∅ ∅ ∅ 0 AtLoopHead BeatWaiting Running.

Inductive event :=
| Tick (d : Z)
| Others (s : St)                 (* another process, or another part of this one *)
| Dispatch (i : input)
| Beat (i : input)
| Exec (job : Z) (i : input)
| Done (job : Z)                  (* [_future_done] *)
| ShutDown.

(** [for id in ids: futures.add(executor.submit(...))] *)
Definition submit (p : Pool) (id : Z) : Pool :=
  p <| jobs := <[next_job p := (id, initial)]> (jobs p) |>
    <| futures := {[next_job p]} ∪ futures p |> <| next_job := next_job p + 1 |>.

(** One pass of [_dispatch_loop], in its parts. *)
Definition dispatch (i : input) (p : Pool) : option Pool :=
  match dispatcher p with
  | AtLoopHead =>
      if decide (shutdown p = Running)
      then Some (p <| dispatcher := Measured (max_workers - Z.of_nat (size (futures p))) |>)
      else Some (p <| dispatcher := DispatcherStopped |>)
  | Measured available =>
      let '(r, s) := claim i (clock p) available (store p) in
      let p := p <| store := s |> in
      match r with
      | Ok ids => Some (p <| dispatcher := Claimed ids |>)
      | Raise e => Some (p <| dispatcher := if claim_survives e then AtLoopHead else DispatcherDied |>)
      end
  | Claimed ids =>
      if registers_claims
      then Some (p <| active_ids := active_ids p ∪ list_to_set ids |> <| lost_ids := lost_ids p ∖ list_to_set ids |>
                   <| dispatcher := Registered ids |>)
      else Some (p <| dispatcher := Registered ids |>)
  | Registered ids => Some (foldl submit p ids <| dispatcher := AtLoopHead |>)
  | DispatcherStopped | DispatcherDied => None
  end.

(** One pass of [_heartbeat_loop], in its parts. *)
Definition beat (i : input) (p : Pool) : option Pool :=
  match heartbeat p with
  | BeatWaiting =>
      if decide (shutdown p = Drained) then Some (p <| heartbeat := BeatStopped |>)
      else if decide (active_ids p = ∅) then Some p
      else Some (p <| heartbeat := BeatSnapshot (active_ids p) |>)
  | BeatSnapshot ids =>
      let '(r, s) := renew i (clock p) ids (store p) in
      let p := p <| store := s |> in
      match r with
      | Ok lost => Some (p <| heartbeat := BeatLost lost |>)
      | Raise e => Some (p <| heartbeat := if renew_survives e then BeatWaiting else BeatDied |>)
      end
  | BeatLost lost =>
      Some (p <| active_ids := active_ids p ∖ lost |> <| lost_ids := lost_ids p ∪ lost |> <| heartbeat := BeatWaiting |>)
  | BeatStopped | BeatDied => None
  end.

(** The identifiers held after a job went from one phase to the next: added when the job
    begins to hold its own, discarded ([_release_active_task]) when it ceases to. *)
Definition held_after (before after : bool) (id : Z) (ids : gset Z) : gset Z :=
  match before, after with
  | false, true => {[id]} ∪ ids
  | true, false => ids ∖ {[id]}
  | _, _ => ids
  end.

Definition lost_after (before after : bool) (id : Z) (ids : gset Z) : gset Z :=
  if before && negb after then ids ∖ {[id]} else ids.

Definition execute (j : Z) (i : input) (p : Pool) : option Pool :=
  match jobs p !! j with
  | None => None
  | Some (id, ph) =>
      if ended ph then None else
      let '(ph', s) := advance i (clock p) (bool_decide (id ∈ lost_ids p)) id ph (store p) in
      Some (p <| store := s |> <| jobs := <[j := (id, ph')]> (jobs p) |>
              <| active_ids := held_after (holds ph) (holds ph') id (active_ids p) |>
              <| lost_ids := lost_after (holds ph) (holds ph') id (lost_ids p) |>)
  end.

Definition all_ended (p : Pool) : bool := bool_decide (map_Forall (fun _ x => ended x.2 = true) (jobs p)).

(** [shutdown]: stop, join the dispatcher, wait for the executor, stop the heartbeat. *)
Definition shut_down (p : Pool) : option Pool :=
  match shutdown p with
  | Running => Some (p <| shutdown := Stopping |>)
  | Stopping => match dispatcher p with
                | DispatcherStopped | DispatcherDied => Some (p <| shutdown := Joined |>)
                | _ => None
                end
  | Joined => if all_ended p then Some (p <| shutdown := Drained |>) else None
  | Drained => None
  end.

Definition step (e : event) (p : Pool) : option Pool :=
  match e with
  | Tick d => if 0 <=? d then Some (p <| clock := clock p + d |>) else None
  | Others s => Some (p <| store := s |>)
  | Dispatch i => dispatch i p
  | Beat i => beat i p
  | Exec j i => execute j i p
  | Done j => match jobs p !! j with
              | Some (_, ph) => if ended ph then Some (p <| futures := futures p ∖ {[j]} |>) else None
              | None => None
              end
  | ShutDown => shut_down p
  end.

Fixpoint run (es : list event) (p : Pool) : option Pool :=
  match es with
  | [] => Some p
  | e :: es => q ← step e p; run es q
  end.
End pool.

Arguments Pool {St Op limit Q worker_id} J.
Arguments event {St Op limit Q worker_id} J.
#[export] Existing Instance Pool_eta.
