(* ===== verification/WorkerPoolTheorems.v ===== *)
(** * What a pool of workers guarantees

    Whatever the other processes do and whatever fails, by invariants of the reachable
    pools: the executor is never overbooked, the heartbeat knows every identifier that is
    in use and outlives its jobs, jobs end, and what the pool does to the store is a
    sequence of the queue's operations. *)

From S2P Require Import Prelude PyText Models Exceptions LeaseSpec WorkerPool.

Section theorems.
Context {St Op : Type} {limit : Z} `{Q : LeaseQueue St Op limit} {worker_id : text} {J : Jobs St Op limit worker_id}.
Context (max_workers : Z).

Abbreviation JPool := (Pool J).
Abbreviation step := (step (J := J) max_workers).
Abbreviation run := (run (J := J) max_workers).

(** Places that are spoken for though nothing was submitted yet. *)
Definition reserved (d : Dispatcher) : Z :=
  match d with
  | Measured n => Z.max 0 n
  | Claimed ids | Registered ids => Z.of_nat (length ids)
  | _ => 0
  end.

Definition over (d : Dispatcher) : Prop := d = DispatcherStopped \/ d = DispatcherDied.

(** The process counts an identifier as its own, or did until another execution of the
    same identifier released it. *)
Definition known (p : JPool) (id : Z) (others : Z -> Prop) : Prop :=
  id ∈ active_ids p ∪ lost_ids p \/ exists j ph, others j /\ jobs p !! j = Some (id, ph).

Record pool_inv (p : JPool) : Prop := {
  inv_ids : ids_below (jobs p) (next_job p);
  inv_unended : forall j id ph, jobs p !! j = Some (id, ph) -> ended ph = false -> j ∈ futures p;
  inv_futures : forall j, j ∈ futures p -> is_Some (jobs p !! j);
  inv_room : Z.of_nat (size (futures p)) + reserved (dispatcher p) <= Z.max 0 max_workers;
  inv_held : forall j id ph, jobs p !! j = Some (id, ph) -> holds ph = true -> known p id (fun k => k <> j);
  inv_registered : forall ids id, dispatcher p = Registered ids -> id ∈ ids -> registers_claims = true -> known p id (fun _ => True);
  inv_joined : shutdown p = Joined \/ shutdown p = Drained -> over (dispatcher p);
  inv_drained : shutdown p = Drained -> map_Forall (fun _ x => ended x.2 = true) (jobs p);
  inv_beat : heartbeat p = BeatStopped -> shutdown p = Drained
}.

Lemma started_inv now s : pool_inv (started now s).
Proof.
  constructor; cbn; try done; try (intros; by simplify_map_eq).
  - rewrite size_empty. lia.
  - by intros [?|?].
Qed.

(** ** Submitting *)

Lemma submit_jobs p id k : jobs (submit p id) !! k = if decide (k = next_job p) then Some (id, initial) else jobs p !! k.
Proof. cbn. case_decide; [subst; apply lookup_insert_eq|by rewrite lookup_insert_ne]. Qed.

Record submitting (ids : list Z) (p : JPool) : Prop := {
  sub_ids : ids_below (jobs p) (next_job p);
  sub_unended : forall j id ph, jobs p !! j = Some (id, ph) -> ended ph = false -> j ∈ futures p;
  sub_futures : forall j, j ∈ futures p -> is_Some (jobs p !! j);
  sub_room : Z.of_nat (size (futures p)) + Z.of_nat (length ids) <= Z.max 0 max_workers;
  sub_held : forall j id ph, jobs p !! j = Some (id, ph) -> holds ph = true -> known p id (fun k => k <> j);
  sub_registered : forall id, id ∈ ids -> registers_claims = true -> known p id (fun _ => True)
}.

Lemma known_submit p id id' (P : Z -> Prop) :
  jobs p !! next_job p = None -> known p id P -> known (submit p id') id P.
Proof.
  intros Hfresh [Ha|(j & ph & Hj & Hl)]; [by left|right]. exists j, ph. split; [done|].
  rewrite submit_jobs, decide_False by congruence. done.
Qed.

Lemma submit_one id ids p : submitting (id :: ids) p -> submitting ids (submit p id).
Proof.
  intros [Hids Hun Hfut Hroom Hheld Hreg]. pose proof (ids_below_fresh _ _ Hids) as Hfresh.
  assert (Hnew : next_job p ∉ futures p) by (intros [x Hx]%Hfut; congruence).
  constructor.
  - cbn. by apply ids_below_insert.
  - intros j i ph. rewrite submit_jobs. case_decide; [intros _ _; subst; cbn; set_solver|].
    intros Hj He. cbn. apply elem_of_union_r. by eapply Hun.
  - intros j. rewrite submit_jobs. case_decide; [by eexists|]. cbn.
    intros [?%elem_of_singleton|?]%elem_of_union; [done|by apply Hfut].
  - cbn. rewrite size_union, size_singleton by set_solver. cbn [length] in Hroom. lia.
  - intros j i ph. rewrite submit_jobs. case_decide as Hj.
    + intros [= <- <-] Hh. rewrite <- initial_registered in Hh.
      destruct (Hreg id) as [Ha|(k & ph' & _ & Hk)]; [set_solver|done|by left|right].
      exists k, ph'. assert (k <> next_job p) by congruence. split; [congruence|].
      by rewrite submit_jobs, decide_False.
    + intros Hl Hh. apply known_submit; [done|]. by eapply Hheld.
  - intros i Hi Hr. apply known_submit; [done|]. apply Hreg; [set_solver|done].
Qed.

Lemma submit_all ids p : submitting ids p -> submitting [] (foldl submit p ids).
Proof. revert p. induction ids as [|id ids IH]; intros p Hp; cbn; [done|]. apply IH. by apply submit_one. Qed.

Lemma submit_frame ids p :
  let q := foldl submit p ids in
  clock q = clock p /\ store q = store p /\ heartbeat q = heartbeat p /\ shutdown q = shutdown p /\ dispatcher q = dispatcher p.
Proof. revert p. induction ids as [|id ids IH]; intros p; cbn; [done|]. apply (IH (submit p id)). Qed.

(** ** Each event preserves the invariant *)

Lemma held_after_covers b a id ids ids' i :
  i ∈ ids ∪ ids' -> i ∈ held_after b a id ids ∪ lost_after b a id ids' \/ (i = id /\ b = true /\ a = false).
Proof. destruct b, a; cbn; [left; set_solver| |left; set_solver..]. destruct (decide (i = id)); [by right|left; set_solver]. Qed.

Lemma held_after_kept b id ids ids' : id ∈ ids ∪ ids' -> id ∈ held_after b true id ids ∪ lost_after b true id ids'.
Proof. destruct b; cbn; set_solver. Qed.

Lemma held_after_new id ids ids' : id ∈ held_after false true id ids ∪ lost_after false true id ids'.
Proof. cbn. set_solver. Qed.

Lemma dispatch_inv i p q : pool_inv p -> dispatch max_workers i p = Some q -> pool_inv q.
Proof.
  intros [Hids Hun Hfut Hroom Hheld Hreg Hj Hd Hb]. unfold dispatch.
  destruct (dispatcher p) as [|n|ids|ids| |] eqn:Ed; cbn [reserved] in Hroom.
  - case_decide as Hs; intros [= <-]; constructor; cbn; try done; try lia.
    + intros [?|?]; congruence.
    + intros _. by left.
  - destruct (claim i (clock p) n (store p)) as [[ids|e] s] eqn:Ec; intros [= <-]; constructor; cbn; try done.
    + apply claim_bounded in Ec. lia.
    + intros Hs. destruct (Hj Hs); congruence.
    + destruct (claim_survives e); cbn; lia.
    + intros ids id. by destruct (claim_survives e).
    + intros Hs. destruct (Hj Hs); congruence.
  - assert (Hno : ~ (shutdown p = Joined \/ shutdown p = Drained)) by (intros Hs; destruct (Hj Hs); congruence).
    destruct registers_claims eqn:Er; intros [= <-]; constructor; cbn; try done; try (by intros ?; destruct Hno).
    + intros j id ph Hl Hh. destruct (Hheld j id ph Hl Hh) as [Ha|Ho]; [left; cbn|right; exact Ho].
      destruct (decide (id ∈ (list_to_set ids : gset Z))); set_solver.
    + intros ids' id [= <-] Hi _. left. cbn. rewrite elem_of_union, elem_of_union, elem_of_list_to_set. auto.
    + intros ids' id _ _. congruence.
  - intros [= <-]. assert (Hno : ~ (shutdown p = Joined \/ shutdown p = Drained)) by (intros Hs; destruct (Hj Hs); congruence).
    destruct (submit_all ids p) as [S1 S2 S3 S4 S5 S6]; [constructor; try done; eauto|].
    destruct (submit_frame ids p) as (_ & _ & Fb & Fs & _). cbn zeta in *.
    constructor; cbn; rewrite ?Fb, ?Fs; try done; by intros ?; destruct Hno; auto.
  - done.
  - done.
Qed.

Lemma beat_inv i p q : pool_inv p -> beat i p = Some q -> pool_inv q.
Proof.
  intros [Hids Hun Hfut Hroom Hheld Hreg Hj Hd Hb]. unfold beat.
  destruct (heartbeat p) as [|ids|ids| |] eqn:Eb; try done.
  - case_decide; [|case_decide]; intros [= <-]; constructor; cbn; try done. by rewrite Eb.
  - destruct (renew i (clock p) ids (store p)) as [[lost|e] s]; intros [= <-]; constructor; cbn; try done; by destruct (renew_survives e).
  - assert (Hu : forall id P, known p id P -> id ∈ active_ids p ∖ ids ∪ (lost_ids p ∪ ids) \/
      exists j ph, P j /\ jobs p !! j = Some (id, ph)).
    { intros id P [Ha|?]; [left|by right]. destruct (decide (id ∈ ids)); set_solver. }
    intros [= <-]; constructor; cbn; try done.
    + intros j id ph Hl Hh. exact (Hu _ _ (Hheld j id ph Hl Hh)).
    + intros l id Hl Hi Hr. exact (Hu _ _ (Hreg l id Hl Hi Hr)).
Qed.

Lemma jobs_replace (p : JPool) j id ph ph' k :
  jobs p !! j = Some (id, ph) ->
  <[j := (id, ph')]> (jobs p) !! k = if decide (k = j) then Some (id, ph') else jobs p !! k.
Proof. intros _. case_decide; [subst; apply lookup_insert_eq|by rewrite lookup_insert_ne]. Qed.

Lemma execute_inv j i p q : pool_inv p -> execute j i p = Some q -> pool_inv q.
Proof.
  intros [Hids Hun Hfut Hroom Hheld Hreg Hj Hd Hb]. unfold execute.
  destruct (jobs p !! j) as [[id ph]|] eqn:El; [|done]. destruct (ended ph) eqn:Ee; [done|].
  destruct (advance i (clock p) _ id ph (store p)) as [ph' s] eqn:Ea. intros [= <-].
  assert (Hlk : forall k, <[j := (id, ph')]> (jobs p) !! k = if decide (k = j) then Some (id, ph') else jobs p !! k)
    by (intros k; by apply (jobs_replace p j id ph)).
  assert (Hk : forall x (P : Z -> Prop), known p x P -> x <> id \/ holds ph' = true \/ P j ->
    x ∈ held_after (holds ph) (holds ph') id (active_ids p) ∪ lost_after (holds ph) (holds ph') id (lost_ids p) \/
    exists k pk, P k /\ <[j := (id, ph')]> (jobs p) !! k = Some (x, pk)).
  { intros x P [Ha|(k & pk & HP & Hl)] Hx.
    - destruct (held_after_covers (holds ph) (holds ph') id _ _ x Ha) as [?|(-> & _ & Hf)]; [by left|right].
      destruct Hx as [?|[?|HPj]]; [done|congruence|]. exists j, ph'. by rewrite Hlk, decide_True.
    - right. destruct (decide (k = j)) as [->|Hne].
      + rewrite El in Hl. injection Hl as <- <-. exists j, ph'. by rewrite Hlk, decide_True.
      + exists k, pk. by rewrite Hlk, decide_False. }
  constructor; cbn; try done.
  - intros k x. rewrite Hlk. destruct (decide (k = j)) as [->|Hkj]; [|exact (Hids k x)]. intros _. exact (Hids j (id, ph) El).
  - intros k x pk. rewrite Hlk. destruct (decide (k = j)) as [->|Hkj]; [|by apply Hun]. intros _ _. by apply (Hun j id ph).
  - intros k Hk'. rewrite Hlk. destruct (decide (k = j)) as [->|Hkj]; [by eexists|by apply Hfut].
  - intros k x pk. rewrite Hlk. destruct (decide (k = j)) as [->|Hkj].
    + intros [= <- <-] Hh. rewrite Hh in *. destruct (holds ph) eqn:Eh.
      * destruct (Hheld j id ph El Eh) as [Ha|Ho]; [left; cbn; by apply (held_after_kept true)|].
        destruct Ho as (k & pk' & Hne & Hl). right. exists k, pk'. split; [done|]. cbn. by rewrite Hlk, decide_False.
      * left. cbn. apply held_after_new.
    + intros Hl Hh. apply Hk; [by eapply Hheld|]. right. right. congruence.
  - intros ids x Hdisp Hi Hr. apply Hk; [by eapply Hreg|]. by right; right.
  - intros Hs k x. rewrite Hlk. destruct (decide (k = j)) as [->|Hkj]; [|exact (Hd Hs k x)]. intros [= <-].
    pose proof (Hd Hs j _ El) as Hen. cbn in Hen. congruence.
Qed.

Lemma shut_down_inv p q : pool_inv p -> shut_down p = Some q -> pool_inv q.
Proof.
  intros [Hids Hun Hfut Hroom Hheld Hreg Hj Hd Hb]. unfold shut_down. destruct (shutdown p) eqn:Es.
  - intros [= <-]; constructor; cbn; try done; [by intros [?|?]|]. intros Hbeat%Hb. congruence.
  - destruct (dispatcher p) eqn:Edp; try done; intros [= <-]; constructor; cbn; rewrite ?Edp; try done;
      try (intros _; unfold over; by auto); intros Hbeat%Hb; congruence.
  - unfold all_ended. case_bool_decide; [|done]. intros [= <-]; constructor; cbn; try done. intros _. apply Hj. by left.
  - done.
Qed.

Lemma pool_step_inv e p q : pool_inv p -> step e p = Some q -> pool_inv q.
Proof.
  intros Hp. destruct e as [d|s|i|i|j i|j|]; cbn.
  - destruct (0 <=? d); [|done]. intros [= <-]. by destruct Hp.
  - intros [= <-]. by destruct Hp.
  - by apply dispatch_inv.
  - by apply beat_inv.
  - by apply execute_inv.
  - destruct (jobs p !! j) as [[id ph]|] eqn:El; [|done]. destruct (ended ph) eqn:Ee; [|done]. intros [= <-].
    destruct Hp as [Hids Hun Hfut Hroom Hheld Hreg Hj Hd Hb]. constructor; cbn; try done.
    + intros k x pk Hl Hn. apply elem_of_difference. split; [by eapply Hun|]. intros ->%elem_of_singleton. congruence.
    + intros k [Hk _]%elem_of_difference. by apply Hfut.
    + pose proof (subseteq_size (futures p ∖ {[j]}) (futures p) ltac:(set_solver)). lia.
  - by apply shut_down_inv.
Qed.

Lemma pool_run_inv es p q : pool_inv p -> run es p = Some q -> pool_inv q.
Proof.
  revert p. induction es as [|e es IH]; intros p Hp; cbn; [by intros [= <-]|].
  destruct (step e p) as [p1|] eqn:E; [|done]. apply IH. by eapply pool_step_inv.
Qed.

(** ** Reachable pools *)

(** The executor is never overbooked and the heartbeat never leaves a job alone: the
    dispatcher counts every execution that has not ended and never counts more than the
    workers; the identifier of an execution that holds its lease is renewed or known to be
    lost, unless another execution of the same identifier released it; and the heartbeat
    stops after the last execution ended and the dispatcher is gone. *)
Lemma reachable_pool es now s q :
  run es (started now s) = Some q ->
  Z.of_nat (size (futures q)) <= Z.max 0 max_workers /\
  (forall j id ph, jobs q !! j = Some (id, ph) -> ended ph = false -> j ∈ futures q) /\
  (forall j id ph, jobs q !! j = Some (id, ph) -> holds ph = true -> known q id (fun k => k <> j)) /\
  (heartbeat q = BeatStopped -> over (dispatcher q) /\ map_Forall (fun _ x => ended x.2 = true) (jobs q)).
Proof.
  intros Hrun. destruct (pool_run_inv es _ q (started_inv now s) Hrun) as [Hids Hun Hfut Hroom Hheld Hreg Hj Hd Hb].
  split; [destruct (dispatcher q); cbn in Hroom; lia|]. split; [done|]. split; [done|].
  intros Hs%Hb. split; [apply Hj; by right|by apply Hd].
Qed.

(** ** Jobs end *)

Definition is_exec (j : Z) (e : event J) : bool := match e with Exec k _ => k =? j | _ => false end.

Lemma submit_keeps ids p j x : ids_below (jobs p) (next_job p) -> jobs p !! j = Some x -> jobs (foldl submit p ids) !! j = Some x.
Proof.
  revert p. induction ids as [|id ids IH]; intros p Hids Hj; cbn; [done|]. apply IH.
  - cbn. by apply ids_below_insert.
  - rewrite submit_jobs, decide_False; [done|]. intros ->. by rewrite (ids_below_fresh _ _ Hids) in Hj.
Qed.

(** A step of the pool leaves a job alone or is one of its own, and those use it up. *)
Lemma step_job e p q j id ph :
  pool_inv p -> step e p = Some q -> jobs p !! j = Some (id, ph) ->
  exists ph', jobs q !! j = Some (id, ph') /\
    if is_exec j e then (rank ph' < rank ph)%nat else ph' = ph.
Proof.
  intros Hinv Hs Hj. destruct e as [d|s|i|i|k i|k|]; cbn in Hs |- *.
  - destruct (0 <=? d); [|done]. injection Hs as <-. by exists ph.
  - injection Hs as <-. by exists ph.
  - exists ph. split; [|done]. unfold dispatch in Hs. destruct (dispatcher p); try done.
    + case_decide; by injection Hs as <-.
    + destruct (claim _ _ _ _) as [[?|?] ?]; by injection Hs as <-.
    + destruct registers_claims; by injection Hs as <-.
    + injection Hs as <-. cbn. apply submit_keeps; [apply Hinv|done].
  - exists ph. split; [|done]. unfold beat in Hs. destruct (heartbeat p); try done.
    + case_decide; [|case_decide]; by injection Hs as <-.
    + destruct (renew _ _ _ _) as [[?|?] ?]; by injection Hs as <-.
    + by injection Hs as <-.
  - unfold execute in Hs. destruct (jobs p !! k) as [[id' pk]|] eqn:Ek; [|done]. destruct (ended pk) eqn:Ee; [done|].
    pose proof (advance_rank i (clock p) (bool_decide (id' ∈ lost_ids p)) id' pk (store p) Ee) as Hr.
    destruct (advance _ _ _ _ _ _) as [pk' s]. injection Hs as <-. cbn.
    destruct (Z.eqb_spec k j) as [->|Hne].
    + rewrite Hj in Ek. injection Ek as <- <-. exists pk'. by rewrite lookup_insert_eq.
    + exists ph. by rewrite lookup_insert_ne.
  - destruct (jobs p !! k) as [[id' pk]|]; [|done]. destruct (ended pk); [|done]. injection Hs as <-. by exists ph.
  - exists ph. split; [|done]. unfold shut_down in Hs. destruct (shutdown p); [| |unfold all_ended in Hs; case_bool_decide|]; try done;
      [|destruct (dispatcher p); try done|]; by injection Hs as <-.
Qed.

Lemma jobs_terminate es p q j id ph :
  pool_inv p -> run es p = Some q -> jobs p !! j = Some (id, ph) ->
  exists ph', jobs q !! j = Some (id, ph') /\ (length (List.filter (is_exec j) es) + rank ph' <= rank ph)%nat.
Proof.
  revert p ph. induction es as [|e es IH]; intros p ph Hinv Hrun Hj; cbn in *.
  { injection Hrun as <-. exists ph. by split. }
  destruct (step e p) as [p1|] eqn:Es; [|done]. cbn in Hrun.
  destruct (step_job e p p1 j id ph Hinv Es Hj) as (ph1 & Hj1 & Hr).
  destruct (IH p1 ph1 (pool_step_inv _ _ _ Hinv Es) Hrun Hj1) as (ph' & Hj' & Hle). exists ph'. split; [done|].
  destruct (is_exec j e); cbn; [lia|by subst].
Qed.

(** ** The pool and the queue *)

(** The other processes, and the requests of this one, do to the store what the queue's
    operations do. *)
Fixpoint respects (es : list (event J)) (p : JPool) : Prop :=
  match es with
  | [] => True
  | e :: es =>
      match e with Others s => lq_exec (clock p, store p) (clock p, s) | _ => True end /\
      match step e p with Some q => respects es q | None => True end
  end.

(** A process that is alone. *)
Lemma respects_alone es p : forallb (fun e : event J => match e with Others _ => false | _ => true end) es = true -> respects es p.
Proof.
  revert p. induction es as [|e es IH]; intros p; cbn; [done|]. rewrite andb_true_iff. intros [He Hes].
  split; [by destruct e|]. destruct (step e p); [by apply IH|done].
Qed.

Lemma lq_exec_trans c1 c2 c3 : lq_exec c1 c2 -> lq_exec c2 c3 -> lq_exec c1 c3.
Proof. induction 1; intros ?; [done|eapply exec_op; eauto|eapply exec_tick; eauto]. Qed.

Lemma one_op now s s' : s' = s \/ (exists op, lq_worker op = Some worker_id /\ lq_step now op s s') -> lq_exec (now, s) (now, s').
Proof. intros [->|(op & _ & Hop)]; [constructor|]. eapply exec_op; [exact Hop|constructor]. Qed.

Lemma step_refines e p q :
  match e with Others s => lq_exec (clock p, store p) (clock p, s) | _ => True end ->
  step e p = Some q -> lq_exec (clock p, store p) (clock q, store q).
Proof.
  intros He Hs. destruct e as [d|s|i|i|j i|j|]; cbn in Hs.
  - destruct (Z.leb_spec 0 d); [|done]. injection Hs as <-. cbn. eapply exec_tick; [|constructor]. lia.
  - by injection Hs as <-.
  - unfold dispatch in Hs. destruct (dispatcher p) as [|n|ids|ids| |]; try done.
    + case_decide; injection Hs as <-; constructor.
    + pose proof (one_op _ _ _ (claim_step i (clock p) n (store p))) as Ho.
      destruct (claim i (clock p) n (store p)) as [[?|?] s]; by injection Hs as <-.
    + destruct registers_claims; injection Hs as <-; constructor.
    + injection Hs as <-. destruct (submit_frame ids p) as (Hc & Hst & _). cbn. rewrite Hc, Hst. constructor.
  - unfold beat in Hs. destruct (heartbeat p) as [|ids|ids| |]; try done.
    + case_decide; [|case_decide]; injection Hs as <-; constructor.
    + pose proof (one_op _ _ _ (renew_step i (clock p) ids (store p))) as Ho.
      destruct (renew i (clock p) ids (store p)) as [[?|?] s]; by injection Hs as <-.
    + injection Hs as <-. constructor.
  - unfold execute in Hs. destruct (jobs p !! j) as [[id ph]|]; [|done]. destruct (ended ph); [done|].
    pose proof (advance_step i (clock p) (bool_decide (id ∈ lost_ids p)) id ph (store p)) as Ho.
    destruct (advance _ _ _ _ _ _) as [ph' s]. by injection Hs as <-.
  - destruct (jobs p !! j) as [[id ph]|]; [|done]. destruct (ended ph); [|done]. injection Hs as <-. constructor.
  - unfold shut_down in Hs. destruct (shutdown p); [| |unfold all_ended in Hs; case_bool_decide|]; try done;
      [|destruct (dispatcher p); try done|]; injection Hs as <-; constructor.
Qed.

Lemma pool_refines es p q :
  respects es p -> run es p = Some q -> lq_exec (clock p, store p) (clock q, store q).
Proof.
  revert p. induction es as [|e es IH]; intros p; cbn; [intros _ [= <-]; constructor|].
  destruct (step e p) as [p1|] eqn:Es; [|done]. intros [He Hr] Hrun.
  eapply lq_exec_trans; [by eapply step_refines|by apply IH].
Qed.

(** ** A dispatcher that died *)

Lemma dead_dispatcher es p q :
  dispatcher p = DispatcherDied -> run es p = Some q -> dispatcher q = DispatcherDied /\ next_job q = next_job p.
Proof.
  revert p. induction es as [|e es IH]; intros p Hp; cbn; [by intros [= <-]|].
  destruct (step e p) as [p1|] eqn:Es; [|done]. cbn.
  assert (H1 : dispatcher p1 = DispatcherDied /\ next_job p1 = next_job p).
  { destruct e as [d|s|i|i|j i|j|]; cbn in Es.
    - destruct (0 <=? d); [|done]. by injection Es as <-.
    - by injection Es as <-.
    - unfold dispatch in Es. by rewrite Hp in Es.
    - unfold beat in Es. destruct (heartbeat p); try done; [case_decide; [|case_decide]; by injection Es as <-| |by injection Es as <-].
      destruct (renew _ _ _ _) as [[?|?] ?]; by injection Es as <-.
    - unfold execute in Es. destruct (jobs p !! j) as [[id ph]|]; [|done]. destruct (ended ph); [done|].
      destruct (advance _ _ _ _ _ _). by injection Es as <-.
    - destruct (jobs p !! j) as [[id ph]|]; [|done]. destruct (ended ph); [|done]. by injection Es as <-.
    - unfold shut_down in Es. rewrite Hp in Es. destruct (shutdown p); [| |destruct (all_ended p)|]; try done; by injection Es as <-. }
  intros Hrun. destruct (IH p1 (proj1 H1) Hrun) as [? ->]. split; [done|apply H1].
Qed.
End theorems.
