(* ===== verification/ScanWorker.v ===== *)
(** * The workers of the scan queue (src/app/services/scan_queue.py)

    What the threads of a [ScanQueueService] do with a claimed task, as an instance of
    WorkerPool.v: [_claim_tasks], [_execute_safely] around [_execute_task], and the renewal
    of [_heartbeat_loop]. *)

From S2P Require Import Prelude PyText Models Exceptions Security Collectors ServiceObservations Scans LeaseSpec TaskLeases ScanQueue ScanLeases WorkerPool.

(** What a step is answered: the exception [PostgresTransactionRunner.run], or the session
    that reads, ends with instead of committing; the process clock; the rows other
    transactions have locked; the devices whose lock another thread holds; and the hosts,
    through the collectors. *)
Record ScanInput := mkScanInput {
  fault : option exn;
  wall : Z;
  locked : gset Z;
  held : gset Z;
  started_at : Z;
  finished_at : Z;
  hosts : OSType -> Collector
}.

(** [transaction_runner.run(operation)] *)
Definition attempt {A} (f : option exn) (m : Tx A) (d : Db) : result exn A * Db :=
  match f with Some e => (Raise e, d) | None => commit m d end.

(** How an execution ends. *)
Inductive Ending :=
| Stored (successful : bool)
| LeaseLost
| ConflictStored
| ConflictUnsaved
| FailureStored
| FailureUnsaved
| Escaped (e : exn).

Inductive ScanPhase :=
| Loading
| Collecting (device_id : Z) (trigger : ScanTrigger)
| Persisting (outcome : ScanOutcome)
| Conflicted (outcome : ScanOutcome)
| Failing
| ScanEnded (how : Ending).

Definition scan_holds (p : ScanPhase) : bool :=
  match p with Failing | ScanEnded _ => false | _ => true end.

Definition scan_ended (p : ScanPhase) : bool := match p with ScanEnded _ => true | _ => false end.

Definition scan_rank (p : ScanPhase) : nat :=
  match p with
  | Loading => 5 | Collecting _ _ => 4 | Persisting _ => 3 | Conflicted _ => 2 | Failing => 1 | ScanEnded _ => 0
  end.

(** The handlers of [_execute_safely]: a lost lease is logged, everything else is recorded
    as a failure of the task. *)
Definition scan_handled (e : exn) : ScanPhase :=
  match e with TaskLeaseLost _ => ScanEnded LeaseLost | _ => Failing end.

Section worker.
Context `{UnicodeCase, PgAggregates} (queue_size max_workers lease_seconds : Z).
Context (decrypt : text -> result exn text) (worker_id : text).

(** [_claim_tasks] up to its commit *)
Definition _claim_tasks (i : ScanInput) (now n : Z) (d : Db) : result exn (list Z) * Db :=
  match fault i with
  | Some e => (Raise e, d)
  | None => let '(ids, d) := claim_scan_tasks worker_id n max_workers lease_seconds now (wall i) (locked i) d in (Ok ids, d)
  end.

(** The renewal of [_heartbeat_loop] *)
Definition renew_leases (i : ScanInput) (now : Z) (ids : gset Z) (d : Db) : result exn (gset Z) * Db :=
  match fault i with
  | Some e => (Raise e, d)
  | None => let '(lost, d) := renew_scan_leases worker_id ids lease_seconds now d in (Ok lost, d)
  end.

(** One step of an execution; [lost] is whether [_raise_if_lease_lost] finds the task
    among the lost ones. *)
Definition execute_step (i : ScanInput) (now : Z) (lost : bool) (task_id : Z) (p : ScanPhase) (d : Db) : ScanPhase * Db :=
  match p with
  | Loading =>
      match fault i with
      | Some e => (scan_handled e, d)
      | None => match owned_task worker_id now task_id d with
                | None => (scan_handled (TaskLeaseLost task_id), d)
                | Some t => (Collecting (task_device_id t) (task_trigger_type t), d)
                end
      end
  | Collecting device_id trigger =>
      match fault i with
      | Some e => (scan_handled e, d)
      | None => match collect decrypt (hosts i) (held i) d device_id trigger (started_at i) (finished_at i) with
                | Raise e => (scan_handled e, d)
                | Ok outcome => if lost then (scan_handled (TaskLeaseLost task_id), d) else (Persisting outcome, d)
                end
      end
  | Persisting outcome =>
      match attempt (fault i) (_persist_outcome worker_id task_id outcome now (wall i)) d with
      | (Ok successful, d) => (ScanEnded (Stored successful), d)
      | (Raise TransactionConflict, d) => (Conflicted outcome, d)
      | (Raise e, d) => (scan_handled e, d)
      end
  | Conflicted outcome =>
      match attempt (fault i) (_record_transaction_conflict worker_id task_id outcome now (wall i)) d with
      | (Ok _, d) => (ScanEnded ConflictStored, d)
      | (Raise DatabaseUnavailable, d) | (Raise TransactionConflict, d) => (ScanEnded ConflictUnsaved, d)
      | (Raise e, d) => (scan_handled e, d)
      end
  | Failing =>
      match attempt (fault i) (_fail_unexpected_task worker_id task_id now (wall i)) d with
      | (Ok _, d) => (ScanEnded FailureStored, d)
      | (Raise (TaskLeaseLost _), d) => (ScanEnded LeaseLost, d)
      | (Raise DatabaseUnavailable, d) | (Raise TransactionConflict, d) => (ScanEnded FailureUnsaved, d)
      | (Raise e, d) => (ScanEnded (Escaped e), d)
      end
  | ScanEnded _ => (p, d)
  end.

(** ** The laws of the interface *)

Lemma attempt_cases {A} f (m : Tx A) d r d' :
  attempt f m d = (r, d') -> match r with Ok a => f = None /\ m d = Ok (a, d') | Raise e => d' = d end.
Proof.
  unfold attempt, commit. destruct f as [e|]; [by intros [= <- <-]|].
  destruct (m d) as [[a d1]|e] eqn:E; by intros [= <- <-].
Qed.

Lemma scan_handled_rank e : (scan_rank (scan_handled e) <= 1)%nat.
Proof. destruct e; cbn; lia. Qed.

Lemma execute_step_rank i now l id p d :
  scan_ended p = false -> (scan_rank (execute_step i now l id p d).1 < scan_rank p)%nat.
Proof.
  destruct p as [|dev trig|o|o| |how]; intros Hp; try done; cbn [execute_step scan_rank].
  - destruct (fault i) as [e|]; [pose proof (scan_handled_rank e); cbn; lia|]. destruct (owned_task _ _ _ _); cbn; lia.
  - destruct (fault i) as [e|]; [pose proof (scan_handled_rank e); cbn; lia|].
    destruct (collect _ _ _ _ _ _ _ _) as [o|e]; [destruct l; cbn; lia|]. pose proof (scan_handled_rank e). cbn. lia.
  - destruct (attempt _ _ _) as [[b|e] d']; [cbn; lia|]. pose proof (scan_handled_rank e). destruct e; cbn in *; lia.
  - destruct (attempt _ _ _) as [[b|e] d']; [cbn; lia|]. destruct e; cbn in *; lia.
  - destruct (attempt _ _ _) as [[b|e] d']; [cbn; lia|]. destruct e; cbn; lia.
Qed.

(** What a step writes is the commit of one of the three settling transactions. *)
Definition settles (i : ScanInput) (now task_id : Z) (p : ScanPhase) (d : Db) (how : Ending) (d' : Db) : Prop :=
  match how with
  | Stored b => exists o, p = Persisting o /\ _persist_outcome worker_id task_id o now (wall i) d = Ok (b, d')
  | ConflictStored => exists o b, p = Conflicted o /\ _record_transaction_conflict worker_id task_id o now (wall i) d = Ok (b, d')
  | FailureStored => p = Failing /\ _fail_unexpected_task worker_id task_id now (wall i) d = Ok ((), d')
  | LeaseLost | ConflictUnsaved | FailureUnsaved | Escaped _ => d' = d
  end.

Lemma scan_handled_settles i now id p d e : match scan_handled e with ScanEnded how => settles i now id p d how d | _ => True end.
Proof. by destruct e. Qed.

Lemma execute_step_settles i now l id p d :
  scan_ended p = false ->
  match execute_step i now l id p d with
  | (ScanEnded how, d') => settles i now id p d how d'
  | (_, d') => d' = d
  end.
Proof.
  assert (Hh : forall e p, match (scan_handled e, d) with (ScanEnded how, d') => settles i now id p d how d' | (_, d') => d' = d end)
    by (intros [] q; done).
  destruct p as [|dev trig|o|o| |how]; intros Hp; try done; cbn [execute_step].
  - destruct (fault i) as [e|]; [apply Hh|]. by destruct (owned_task _ _ _ _).
  - destruct (fault i) as [e|]; [apply Hh|]. destruct (collect _ _ _ _ _ _ _ _) as [o|e]; [by destruct l|apply Hh].
  - destruct (attempt _ _ _) as [[b|e] d'] eqn:E; apply attempt_cases in E.
    + destruct E as [_ E]. cbn. eauto.
    + subst. destruct e; done.
  - destruct (attempt _ _ _) as [[b|e] d'] eqn:E; apply attempt_cases in E.
    + destruct E as [_ E]. cbn. eauto.
    + subst. destruct e; done.
  - destruct (attempt _ _ _) as [[[]|e] d'] eqn:E; apply attempt_cases in E.
    + destruct E as [_ E]. cbn. eauto.
    + subst. destruct e; done.
Qed.

Lemma claim_scan_tasks_bounded n ls now w l d :
  Z.of_nat (length (claim_scan_tasks worker_id n max_workers ls now w l d).1) <= Z.max 0 n.
Proof.
  destruct (decide (0 < n)) as [Hn|Hn].
  - rewrite claim_scan_tasks_eq by done. cbn [fst]. rewrite length_fmap.
    pose proof (claimed_tasks_length n max_workers now l (after_reset now l d).2) as Hl.
    unfold claim_limit in Hl. lia.
  - unfold claim_scan_tasks. destruct (Z.leb_spec n 0); [|lia]. cbn. lia.
Qed.

(** A transaction of the queue as one of its operations. *)
Lemma op_commit op now w l d : queue_step queue_size max_workers now op d (commit (queue_tx queue_size max_workers op now w l) d).2.
Proof. by exists w, l. Qed.

Lemma drop_commits {A} (m : Tx A) d a d' : m d = Ok (a, d') -> (commit (drop m) d).2 = d'.
Proof. intros E. unfold commit, drop, tx_bind. by rewrite E. Qed.

Lemma settles_step i now id p d how d' :
  settles i now id p d how d' ->
  d' = d \/ exists op, queue_op_worker op = Some worker_id /\ queue_step queue_size max_workers now op d d'.
Proof.
  destruct how; cbn; try (by left).
  - intros (o & _ & E). right. exists (Op_persist worker_id id o). split; [done|]. exists (wall i), ∅. by apply (drop_commits _ _ _ _ E).
  - intros (o & b & _ & E). right. exists (Op_conflict worker_id id o). split; [done|]. exists (wall i), ∅. by apply (drop_commits _ _ _ _ E).
  - intros [_ E]. right. exists (Op_fail worker_id id). split; [done|]. exists (wall i), ∅. cbn. unfold commit. by rewrite E.
Qed.

(** The workers of the scan queue. *)
#[export] Program Instance scan_jobs : Jobs Db queue_op max_workers (Q := scan_lease_queue queue_size max_workers) worker_id := {
  input := ScanInput;
  phase := ScanPhase;
  initial := Loading;
  holds := scan_holds;
  ended := scan_ended;
  rank := scan_rank;
  claim := _claim_tasks;
  renew := renew_leases;
  advance := execute_step;
  registers_claims := true;
  claim_survives := fun _ => false;
  renew_survives := fun _ => true
}.
Next Obligation. done. Qed.
Next Obligation.
  intros i now n d ids d'. unfold _claim_tasks. destruct (fault i); [done|].
  pose proof (claim_scan_tasks_bounded n lease_seconds now (wall i) (locked i) d) as Hb.
  destruct (claim_scan_tasks _ _ _ _ _ _ _ _) as [ids' d1]. by intros [= <- <-].
Qed.
Next Obligation.
  intros i now n d. unfold _claim_tasks. destruct (fault i); [by left|]. right.
  exists (Op_claim worker_id n lease_seconds). split; [done|]. exists (wall i), (locked i). cbn.
  by destruct (claim_scan_tasks _ _ _ _ _ _ _ _).
Qed.
Next Obligation.
  intros i now ids d. unfold renew_leases. destruct (fault i); [by left|]. right.
  exists (Op_renew worker_id ids lease_seconds). split; [done|]. exists (wall i), (locked i). cbn.
  by destruct (renew_scan_leases _ _ _ _ _).
Qed.
Next Obligation.
  intros i now l id p d. destruct (scan_ended p) eqn:Ep; [destruct p; try done; constructor|].
  pose proof (execute_step_settles i now l id p d Ep) as Hs. destruct (execute_step i now l id p d) as [p' d']. cbn.
  destruct p'; try (subst; constructor). apply settles_step in Hs as [->|(op & _ & Hop)]; [constructor|].
  eapply exec_op; [exact Hop|constructor].
Qed.
Next Obligation. intros i now l id p d. apply execute_step_rank. Qed.
Next Obligation. by intros []. Qed.
Next Obligation. by intros []. Qed.
End worker.
