(* ===== verification/ScanWorkerTheorems.v ===== *)
(** * What the workers of the scan queue guarantee

    One execution against whatever the database, the hosts and the other processes answer,
    and the pool of executions as part of the queue of all processes. *)

From S2P Require Import Prelude PyText Models Exceptions Security Collectors ServiceObservations Scans LeaseSpec TaskLeases ScanQueue ScanLeases ScanTheorems WorkerPool WorkerPoolTheorems ScanWorker.

(** What one step of an execution meets: the answers, the database's clock, whether the
    heartbeat reported the lease lost, and the database as it is by then. *)
Record Moment := mkMoment {
  m_input : ScanInput;
  m_now : Z;
  m_lost : bool;
  m_store : Db
}.

Section execution.
Context `{UnicodeCase, PgAggregates} (max_workers lease_seconds : Z).
Context (decrypt : text -> result exn text) (worker_id : text).

(** An execution on its own: the moments of its steps, what it wrote (the database before
    and after each commit), and where it stands. *)
Fixpoint execution (task_id : Z) (ms : list Moment) (p : ScanPhase) : list (Db * Db) * ScanPhase :=
  match ms with
  | [] => ([], p)
  | m :: ms =>
      if scan_ended p then ([], p) else
      let '(p', d') := execute_step decrypt worker_id (m_input m) (m_now m) (m_lost m) task_id p (m_store m) in
      let '(ws, q) := execution task_id ms p' in
      (match p' with
       | ScanEnded (Stored _) | ScanEnded ConflictStored | ScanEnded FailureStored => (m_store m, d') :: ws
       | _ => ws
       end, q)
  end.

Lemma execution_ended task_id ms how : execution task_id ms (ScanEnded how) = ([], ScanEnded how).
Proof. by destruct ms. Qed.

(** The commit an ending stands for. *)
Definition wrote (task_id : Z) (how : Ending) (ws : list (Db * Db)) : Prop :=
  match how with
  | Stored b => exists o now wall d d', ws = [(d, d')] /\ is_Some (owned_task worker_id now task_id d) /\
      _persist_outcome worker_id task_id o now wall d = Ok (b, d')
  | ConflictStored => exists o b now wall d d', ws = [(d, d')] /\ is_Some (owned_task worker_id now task_id d) /\
      _record_transaction_conflict worker_id task_id o now wall d = Ok (b, d')
  | FailureStored => exists now wall d d', ws = [(d, d')] /\ is_Some (owned_task worker_id now task_id d) /\
      _fail_unexpected_task worker_id task_id now wall d = Ok ((), d')
  | _ => ws = []
  end.

Lemma persist_owned task_id o now wl d r : _persist_outcome worker_id task_id o now wl d = Ok r -> is_Some (owned_task worker_id now task_id d).
Proof. unfold _persist_outcome. by destruct (owned_task _ _ _ _). Qed.

Lemma fail_owned task_id now wl d r : _fail_unexpected_task worker_id task_id now wl d = Ok r -> is_Some (owned_task worker_id now task_id d).
Proof. unfold _fail_unexpected_task. by destruct (owned_task _ _ _ _). Qed.

Lemma settles_wrote i now task_id p d how d' :
  settles worker_id i now task_id p d how d' ->
  wrote task_id how (match how with Stored _ | ConflictStored | FailureStored => [(d, d')] | _ => [] end).
Proof.
  destruct how; cbn; try done.
  - intros (o & _ & E). exists o, now, (wall i), d, d'. split_and!; [done|by eapply persist_owned|done].
  - intros (o & b & _ & E). exists o, b, now, (wall i), d, d'. split_and!; [done|by eapply persist_owned|done].
  - intros [_ E]. exists now, (wall i), d, d'. split_and!; [done|by eapply fail_owned|done].
Qed.

Lemma execution_ends task_id ms p :
  (scan_rank p <= length ms)%nat -> scan_ended p = false ->
  exists how ws, execution task_id ms p = (ws, ScanEnded how) /\ wrote task_id how ws.
Proof.
  revert p. induction ms as [|m ms IH]; intros p Hlen Hp; [destruct p; cbn in *; try done; lia|].
  cbn [execution]. rewrite Hp.
  pose proof (execute_step_rank decrypt worker_id (m_input m) (m_now m) (m_lost m) task_id p (m_store m) Hp) as Hr.
  pose proof (execute_step_settles decrypt worker_id (m_input m) (m_now m) (m_lost m) task_id p (m_store m) Hp) as Hs.
  destruct (execute_step _ _ _ _ _ _ _ _) as [p' d']. cbn [fst] in Hr. cbn [length] in Hlen.
  destruct (scan_ended p') eqn:Ep.
  - destruct p' as [| | | | |how]; try done. rewrite execution_ended. apply settles_wrote in Hs.
    exists how. eexists. split; [reflexivity|]. by destruct how.
  - destruct (IH p') as (how & ws & -> & Hw); [lia|done|]. exists how, ws. split; [|done]. by destruct p'.
Qed.

(** C7. An execution of a scan task ends, and settles the task at most once. Whatever
    the database answers, whatever it raises, whatever the hosts do and whenever the lease
    is lost, after at most five steps the execution has ended; it committed nothing, or
    exactly one of the scan's result, the note that its result met a conflict, and the note
    of an internal error, each at a moment when the task was running, this process's, and
    under a live lease. *)
Theorem scan_execution_settles_once task_id ms :
  (5 <= length ms)%nat ->
  exists how ws, execution task_id ms Loading = (ws, ScanEnded how) /\ wrote task_id how ws.
Proof. intros Hlen. by apply execution_ends. Qed.

(** C8. Nothing stands in the way of a healthy scan. When no transaction fails, the task
    is still this process's when it is loaded and when the result is stored, the device is
    there with collection enabled, is not being scanned by another thread, and the
    heartbeat reported nothing lost, the execution stores what the collector reported,
    and calls it successful exactly when the collector was. *)
Theorem healthy_scan_is_stored task_id m1 m2 m3 t device :
  fault (m_input m1) = None -> fault (m_input m2) = None -> fault (m_input m3) = None ->
  owned_task worker_id (m_now m1) task_id (m_store m1) = Some t ->
  devices (m_store m2) !! task_device_id t = Some device -> device_collection_enabled device = true ->
  task_device_id t ∉ held (m_input m2) -> m_lost m2 = false ->
  is_Some (owned_task worker_id (m_now m3) task_id (m_store m3)) -> is_Some (devices (m_store m3) !! task_device_id t) ->
  exists o d', collect decrypt (hosts (m_input m2)) (held (m_input m2)) (m_store m2) (task_device_id t) (task_trigger_type t)
      (started_at (m_input m2)) (finished_at (m_input m2)) = Ok o /\
    execution task_id [m1; m2; m3] Loading =
      ([(m_store m3, d')], ScanEnded (Stored (bool_decide (outcome_status o = SCAN_SUCCESS)))) /\
    _persist_outcome worker_id task_id o (m_now m3) (wall (m_input m3)) (m_store m3) =
      Ok (bool_decide (outcome_status o = SCAN_SUCCESS), d').
Proof.
  intros F1 F2 F3 Ho Hd He Hh Hl [t3 Ho3] [dev3 Hd3].
  set (o := collect_target decrypt (hosts (m_input m2))
    (mkScanTarget (task_device_id t) (device_os_type device) (device_host device) (device_port device)
       (device_username device) (device_encrypted_password device)) (task_device_id t) (task_trigger_type t)
    (started_at (m_input m2)) (finished_at (m_input m2))).
  assert (Hc : collect decrypt (hosts (m_input m2)) (held (m_input m2)) (m_store m2) (task_device_id t) (task_trigger_type t)
      (started_at (m_input m2)) (finished_at (m_input m2)) = Ok o).
  { unfold collect, lock_for. rewrite decide_False by done. unfold _load_target. by rewrite Hd, He. }
  assert (Hod : outcome_device_id o = task_device_id t).
  { unfold o, collect_target. destruct (decrypt _) as [pw|[]]; try done. by destruct (collector_collect _ _ _) as [|[]]. }
  assert (Hp : exists d', _persist_outcome worker_id task_id o (m_now m3) (wall (m_input m3)) (m_store m3) =
      Ok (bool_decide (outcome_status o = SCAN_SUCCESS), d')).
  { unfold _persist_outcome. rewrite Ho3. unfold tx_bind at 1, add_scan_outcome at 1. rewrite Hod, Hd3. cbn.
    unfold outcome_task_status. destruct (decide (outcome_status o = SCAN_SUCCESS)) as [->|Hne]; cbn; eexists; try done.
    by rewrite bool_decide_false. }
  destruct Hp as [d' Hp]. exists o, d'. split; [done|]. split; [|done].
  cbn [execution scan_ended execute_step]. rewrite F1, Ho. cbn [execution scan_ended execute_step]. rewrite F2, Hc, Hl.
  cbn [execution scan_ended execute_step]. unfold attempt, commit. by rewrite F3, Hp.
Qed.
End execution.

(** ** The pool *)

Section pool.
Context `{UnicodeCase, PgAggregates} (queue_size max_workers lease_seconds : Z).
Context (decrypt : text -> result exn text) (worker_id : text).

Definition ScanJobs : Jobs Db queue_op max_workers (Q := scan_lease_queue queue_size max_workers) worker_id :=
  scan_jobs queue_size max_workers lease_seconds decrypt worker_id.

End pool.

(** ** A concrete process

    Device 1 has a task; "w1" has two workers and leases of 90 seconds. *)

Definition quiet : Collector :=
  mkCollector (fun _ _ => Ok (mkCollection [] None)) (fun _ _ => Ok ()).

Definition answer (f : option exn) (busy : gset Z) : ScanInput := mkScanInput f 0 ∅ busy 0 0 (fun _ => quiet).

Definition demo_jobs := @ScanJobs ascii_only first_occurrences 3 2 90 (fun pw => Ok pw) (u "w1").

Definition worker_store : Db := demo_run [(5 * second, Op_enqueue 1 TRIGGER_MANUAL PRIORITY_MANUAL None)].

Definition worker_pool (es : list (event demo_jobs)) : option (Pool demo_jobs) :=
  run 2 es (started (10 * second) worker_store).

(** One pass of the dispatcher. *)
Definition a_claim : list (event demo_jobs) := repeat (Dispatch (J := demo_jobs) (answer None ∅)) 4.

Definition a_scan : list (event demo_jobs) :=
  a_claim ++ [Exec (J := demo_jobs) 0 (answer None ∅); Exec (J := demo_jobs) 0 (answer None ∅);
              Exec (J := demo_jobs) 0 (answer None ∅); Done (J := demo_jobs) 0].

Definition task_status_of (p : option (Pool demo_jobs)) (i : Z) : option (ScanTaskStatus * list (Z * bool)) :=
  p ← p; t ← scan_tasks (store p) !! i;
  Some (task_status t, (fun x => (x.1, scan_ended x.2)) <$> (map_to_list (jobs p)).*2).

Example a_scan_succeeds : task_status_of (worker_pool a_scan) 1 = Some (TASK_SUCCESS, [(1, true)]).
Proof. vm_compute. reflexivity. Qed.

(** The heartbeat cannot reach the database for longer than the lease; the dispatcher of
    the same process then takes the task again. The new execution cannot lock the device,
    which the first one is still scanning, and records an internal error, and the result
    of the first one is discarded, though the scan succeeded. *)
Definition a_reclaim : list (event demo_jobs) :=
  a_claim ++ [Exec (J := demo_jobs) 0 (answer None ∅);
    Beat (J := demo_jobs) (answer None ∅); Beat (J := demo_jobs) (answer (Some DatabaseUnavailable) ∅);
    Tick (J := demo_jobs) (100 * second)] ++ a_claim ++
  [Exec (J := demo_jobs) 1 (answer None ∅); Exec (J := demo_jobs) 1 (answer None {[1]});
   Exec (J := demo_jobs) 1 (answer None {[1]});
   Exec (J := demo_jobs) 0 (answer None ∅); Exec (J := demo_jobs) 0 (answer None ∅)].

Definition ending_of (p : option (Pool demo_jobs)) (j : Z) : option ScanPhase := p ← p; snd <$> jobs p !! j.

Lemma reclaimed_scan_fails :
  ending_of (worker_pool a_reclaim) 0 = Some (ScanEnded LeaseLost) /\
  ending_of (worker_pool a_reclaim) 1 = Some (ScanEnded FailureStored) /\
  (fst <$> task_status_of (worker_pool a_reclaim) 1) = Some TASK_FAILED.
Proof. split_and!; vm_compute; reflexivity. Qed.

(** One claim that cannot reach the database ends the dispatcher, and nothing is claimed
    any more. *)
Lemma failed_claim_stops_scans es q :
  worker_pool ([Dispatch (J := demo_jobs) (answer None ∅);
                Dispatch (J := demo_jobs) (answer (Some DatabaseUnavailable) ∅)] ++ es) = Some q ->
  dispatcher q = DispatcherDied /\ next_job q = 0.
Proof.
  unfold worker_pool. cbn [app run]. intros Hq.
  destruct (step _ _ _) as [p1|] eqn:E1 in Hq; [|done]. cbn [mbind option_bind] in Hq.
  destruct (step _ _ _) as [p2|] eqn:E2 in Hq; [|done]. cbn [mbind option_bind] in Hq.
  injection E1 as <-. injection E2 as <-. apply (dead_dispatcher 2) in Hq; [exact Hq|reflexivity].
Qed.

(** ** The guarantees on the concrete process *)

Lemma worker_store_inv : queue_inv worker_store.
Proof. apply demo_run_inv; [repeat constructor|]. by intros p ->%list_elem_of_singleton. Qed.


Definition demo_moment (now : Z) (d : Db) : Moment := mkMoment (answer None ∅) (now * second) false d.

Definition claimed_store : Db := (commit (@queue_tx ascii_only first_occurrences 3 2 (Op_claim (u "w1") 2 90) (10 * second) 0 ∅) worker_store).2.

Lemma scan_execution_settles_once_witness :
  exists how ws, @execution ascii_only first_occurrences (fun pw => Ok pw) (u "w1") 1
    (repeat (demo_moment 20 claimed_store) 5) Loading = (ws, ScanEnded how).
Proof.
  destruct (@scan_execution_settles_once ascii_only first_occurrences (fun pw => Ok pw) (u "w1") 1
    (repeat (demo_moment 20 claimed_store) 5)) as (how & ws & E & _).
  - cbn. lia.
  - exists how, ws. exact E.
Defined.

Lemma healthy_scan_is_stored_witness :
  exists d', @execution ascii_only first_occurrences (fun pw => Ok pw) (u "w1") 1
    [demo_moment 20 claimed_store; demo_moment 21 claimed_store; demo_moment 22 claimed_store] Loading =
    ([(claimed_store, d')], ScanEnded (Stored true)).
Proof.
  destruct (@healthy_scan_is_stored ascii_only first_occurrences (fun pw => Ok pw) (u "w1") 1
    (demo_moment 20 claimed_store) (demo_moment 21 claimed_store) (demo_moment 22 claimed_store)
    (demo_task claimed_store 1) (demo_device true)) as (o & d' & Ho & E & _).
  - reflexivity.
  - reflexivity.
  - reflexivity.
  - vm_compute. reflexivity.
  - vm_compute. reflexivity.
  - reflexivity.
  - apply not_elem_of_empty.
  - reflexivity.
  - eexists. vm_compute. reflexivity.
  - eexists. vm_compute. reflexivity.
  - exists d'. assert (Hs : outcome_status o = SCAN_SUCCESS).
    { vm_compute in Ho. injection Ho as <-. reflexivity. }
    rewrite Hs in E. exact E.
Defined.
