(* ===== verification/ImportWorker.v ===== *)
(** * The workers of the import tests (src/app/services/import_testing.py)

    What the threads of an [ImportTestService] do with a claimed row, as an instance of
    WorkerPool.v: [_claim], [test_row] and the renewal of [_heartbeat_loop]. *)

From S2P Require Import Prelude PyText Models Exceptions Security LeaseSpec TaskLeases Collectors ImportTestLeases ImportTesting ImportTheorems WorkerPool WorkerPoolTheorems ScanWorker.

(** ** The queue the workers share

    The operations of the queue, the claim of one row that [test_row] repeats when it
    records an internal failure, and whatever leaves the leases alone, such as the batch of
    scans that the completion callback creates. *)

Inductive test_op :=
| T_queue (op : import_op)
| T_claim_row (w : text) (row_id lease_seconds : Z)
| T_elsewhere.

Definition test_op_worker (op : test_op) : option text :=
  match op with T_queue op => import_op_worker op | T_claim_row w _ _ => Some w | T_elsewhere => None end.

Definition test_op_step (limit now : Z) (op : test_op) (d d' : Db) : Prop :=
  match op with
  | T_queue op => import_step limit now op d d'
  | T_claim_row w row ls => exists wall, d' = _claim_specific w limit ls now wall row d
  | T_elsewhere => test_leases d' = test_leases d /\ (import_inv d -> import_inv d')
  end.

Lemma test_op_step_inv limit now op d d' : import_inv d -> test_op_step limit now op d d' -> import_inv d'.
Proof.
  intros Hinv. destruct op; cbn; [by apply import_step_inv| |naive_solver].
  intros [wl ->]. by apply claim_specific_inv.
Qed.

Lemma test_op_step_refines limit now op d d' :
  import_inv d -> test_op_step limit now op d d' ->
  exists ops, lease_steps limit now (test_leases d) ops (test_leases d') /\
    Forall (fun o => op_worker o = None \/ op_worker o = test_op_worker op) ops.
Proof.
  intros Hinv. destruct op; cbn; [by apply import_step_refines| |].
  - intros [wl ->]. apply claim_specific_refines.
  - intros [-> _]. exists []. split; constructor.
Qed.

#[export] Instance test_lease_queue limit : LeaseQueue Db test_op limit := {
  lq_view := test_leases;
  lq_inv := import_inv;
  lq_worker := test_op_worker;
  lq_step := test_op_step limit;
  lq_step_inv := test_op_step_inv limit;
  lq_refines := test_op_step_refines limit
}.

(** ** An execution *)

Record TestInput := mkTestInput {
  test_fault : option exn;
  test_wall : Z;
  test_locked : gset Z;
  test_hosts : OSType -> Collector;
  callback : result exn ()          (* how [batch_completed_callback] ends *)
}.

Inductive TestEnding :=
| TestSaved (completed : option Z)
| TestLeaseLost
| TestDatabaseFailed
| TestFailureSaved
| TestEscaped (e : exn).

Inductive TestPhase :=
| Starting
| LoadingRow
| Testing (target : option ImportTestTarget)
| SavingResult (success : bool) (message : text)    (* the status is SUCCESS or FAILED *)
| CallingBack (batch_id : Z)
| InternalFailure (e : exn)
| SavingFailure (e : exn)
| TestEnded (how : TestEnding).

Definition test_holds (p : TestPhase) : bool := match p with Starting | TestEnded _ => false | _ => true end.

Definition test_ended (p : TestPhase) : bool := match p with TestEnded _ => true | _ => false end.

Definition test_rank (p : TestPhase) : nat :=
  match p with
  | Starting => 7 | LoadingRow => 6 | Testing _ => 5 | SavingResult _ _ => 4 | CallingBack _ => 3
  | InternalFailure _ => 2 | SavingFailure _ => 1 | TestEnded _ => 0
  end.

(** The handlers of [test_row]. *)
Definition test_handled (e : exn) : TestPhase :=
  match e with
  | ImportTestLeaseLost _ => TestEnded TestLeaseLost
  | DatabaseUnavailable | TransactionConflict => TestEnded TestDatabaseFailed
  | _ => InternalFailure e
  end.

(** What ends the handler of an internal failure. *)
Definition failure_handled (e : exn) : TestPhase :=
  match e with ImportTestLeaseLost _ => TestEnded TestLeaseLost | _ => TestEnded (TestEscaped e) end.

(** The message of an internal failure. *)
Definition failure_message (e : exn) : text := u "连接测试内部异常：" ++ safe_error_message (exn_message e) [].

Section worker.
Context (limit lease_seconds : Z) (decrypt : text -> result exn text) (worker_id : text).

Definition claim_rows (i : TestInput) (now n : Z) (d : Db) : result exn (list Z) * Db :=
  if n <=? 0 then (Ok [], d) else
  match test_fault i with
  | Some e => (Raise e, d)
  | None => let '(ids, d) := _claim worker_id n limit lease_seconds now (test_wall i) (test_locked i) d in (Ok ids, d)
  end.

Definition renew_rows (i : TestInput) (now : Z) (ids : gset Z) (d : Db) : result exn (gset Z) * Db :=
  match test_fault i with
  | Some e => (Raise e, d)
  | None => let '(lost, d) := renew_import_test_leases worker_id ids lease_seconds now d in (Ok lost, d)
  end.

(** One step of [test_row]; [lost] is whether the row is among the lost ones. *)
Definition test_step (i : TestInput) (now : Z) (lost : bool) (row_id : Z) (p : TestPhase) (d : Db) : TestPhase * Db :=
  match p with
  | Starting => (LoadingRow, d)
  | LoadingRow =>
      match attempt (test_fault i) (_load_target worker_id limit lease_seconds now (test_wall i) row_id) d with
      | (Ok target, d) => (Testing target, d)
      | (Raise e, d) => (test_handled e, d)
      end
  | Testing target =>
      let outcome := _test_target decrypt (test_hosts i) target in
      if lost then (test_handled (ImportTestLeaseLost row_id), d) 
      else (SavingResult (bool_decide (test_outcome_status outcome = TEST_SUCCESS)) (test_outcome_message outcome), d)
  | SavingResult success message =>
      match attempt (test_fault i) (_save_result worker_id row_id (mkTestOutcome (outcome_status success) message) now (test_wall i)) d with
      | (Ok None, d) => (TestEnded (TestSaved None), d)
      | (Ok (Some b), d) => (CallingBack b, d)
      | (Raise e, d) => (test_handled e, d)
      end
  | CallingBack b =>
      match callback i with
      | Ok _ => (TestEnded (TestSaved (Some b)), d)
      | Raise e => (test_handled e, d)
      end
  | InternalFailure e =>
      match test_fault i with
      | Some e' => (failure_handled e', d)
      | None => (SavingFailure e, _claim_specific worker_id limit lease_seconds now (test_wall i) row_id d)
      end
  | SavingFailure e =>
      match attempt (test_fault i) (_save_result worker_id row_id
              (mkTestOutcome TEST_FAILED (failure_message e)) now (test_wall i)) d with
      | (Ok _, d) => (TestEnded TestFailureSaved, d)
      | (Raise e', d) => (failure_handled e', d)
      end
  | TestEnded _ => (p, d)
  end.

Lemma test_handled_rank e : (test_rank (test_handled e) <= 2)%nat.
Proof. destruct e; cbn; lia. Qed.

Lemma failure_handled_rank e : test_rank (failure_handled e) = 0%nat.
Proof. by destruct e. Qed.

Lemma test_step_rank i now l id p d :
  test_ended p = false -> (test_rank (test_step i now l id p d).1 < test_rank p)%nat.
Proof.
  destruct p as [| |t|ok msg|b|e|e|how]; intros Hp; try done; cbn [test_step test_rank fst].
  - cbn. lia.
  - destruct (attempt _ _ _) as [[t|e] d']; [cbn; lia|]. pose proof (test_handled_rank e). cbn. lia.
  - destruct l; cbn; lia.
  - destruct (attempt _ _ _) as [[[b|]|e] d']; [cbn; lia..|]. pose proof (test_handled_rank e). cbn. lia.
  - destruct (callback i) as [|e]; [cbn; lia|]. pose proof (test_handled_rank e). cbn. lia.
  - destruct (test_fault i) as [e'|]; [|cbn; lia]. pose proof (failure_handled_rank e'). cbn. lia.
  - destruct (attempt _ _ _) as [[b|e'] d']; [cbn; lia|]. pose proof (failure_handled_rank e'). cbn. lia.
Qed.

(** Saving a result is an operation of the queue. *)
Lemma save_result_op now wl id ok msg d r d' :
  _save_result worker_id id (mkTestOutcome (outcome_status ok) msg) now wl d = Ok (r, d') ->
  test_op_step limit now (T_queue (Test_save worker_id id ok msg)) d d'.
Proof.
  intros E. exists wl, ∅. cbn [import_tx]. unfold commit, tx_bind. unfold _save_result in E.
  cbn [test_outcome_status test_outcome_message] in E. rewrite E. by destruct r.
Qed.

(** What a step does to the store is one operation of the queue. *)
Lemma test_step_op i now l id p d :
  (test_step i now l id p d).2 = d \/
  exists op, test_op_worker op = Some worker_id /\ test_op_step limit now op d (test_step i now l id p d).2.
Proof.
  destruct p as [| |t|ok msg|b|e|e|how]; cbn [test_step].
  - by left.
  - destruct (attempt _ _ _) as [[t|e] d'] eqn:E; apply attempt_cases in E; [|by left; subst]. right.
    destruct E as [_ E]. exists (T_queue (Test_load worker_id id lease_seconds)). split; [done|]. exists (test_wall i), ∅.
    cbn. unfold commit, tx_bind. by rewrite E.
  - left. by destruct l.
  - destruct (attempt _ _ _) as [[r|e] d'] eqn:E; apply attempt_cases in E; [|by left; subst]. right.
    destruct E as [_ E]. exists (T_queue (Test_save worker_id id ok msg)). split; [done|].
    destruct r; exact (save_result_op now _ id ok msg d _ d' E).
  - left. by destruct (callback i).
  - destruct (test_fault i); [by left|]. right. exists (T_claim_row worker_id id lease_seconds). split; [done|]. by exists (test_wall i).
  - destruct (attempt _ _ _) as [[r|e'] d'] eqn:E; apply attempt_cases in E; [|by left; subst]. right.
    destruct E as [_ E]. set (msg := failure_message e) in *. clearbody msg.
    exists (T_queue (Test_save worker_id id false msg)). split; [done|]. exact (save_result_op now _ id false msg d r d' E).
  - by left.
Qed.

Lemma claim_rows_bounded i now n d ids d' : claim_rows i now n d = (Ok ids, d') -> Z.of_nat (length ids) <= Z.max 0 n.
Proof.
  unfold claim_rows, _claim. destruct (Z.leb_spec n 0) as [|Hn]; [intros [= <- _]; cbn; lia|]. destruct (test_fault i); [done|].
  destruct (Z.leb_spec n 0); [lia|].
  rewrite claim_import_tests_eq by done. cbv zeta. intros [= <- _]. unfold claimed_test_ids.
  rewrite length_take. lia.
Qed.

(** The workers of the import tests. *)
#[export] Program Instance test_jobs : Jobs Db test_op limit (Q := test_lease_queue limit) worker_id := {
  input := TestInput;
  phase := TestPhase;
  initial := Starting;
  holds := test_holds;
  ended := test_ended;
  rank := test_rank;
  claim := claim_rows;
  renew := renew_rows;
  advance := test_step;
  registers_claims := false;
  claim_survives := fun e => bool_decide (e = DatabaseUnavailable \/ e = TransactionConflict);
  renew_survives := fun e => bool_decide (e = DatabaseUnavailable \/ e = TransactionConflict)
}.
Next Obligation. done. Qed.
Next Obligation. exact claim_rows_bounded. Qed.
Next Obligation.
  intros i now n d. unfold claim_rows. destruct (n <=? 0); [by left|]. destruct (test_fault i); [by left|]. right.
  exists (T_queue (Test_claim worker_id n lease_seconds)). split; [done|]. exists (test_wall i), (test_locked i). cbn.
  by destruct (_claim _ _ _ _ _ _ _ _).
Qed.
Next Obligation.
  intros i now ids d. unfold renew_rows. destruct (test_fault i); [by left|]. right.
  exists (T_queue (Test_renew worker_id ids lease_seconds)). split; [done|]. exists (test_wall i), (test_locked i). cbn.
  by destruct (renew_import_test_leases _ _ _ _ _).
Qed.
Next Obligation.
  intros i now l id p d. cbn. destruct (test_step_op i now l id p d) as [->|(op & _ & Hop)]; [constructor|].
  eapply exec_op; [exact Hop|constructor].
Qed.
Next Obligation. intros i now l id p d. apply test_step_rank. Qed.
Next Obligation. by intros []. Qed.
Next Obligation. by intros []. Qed.
End worker.

Section pool.
Context (max_workers limit lease_seconds : Z) (decrypt : text -> result exn text) (worker_id : text).

Definition TestJobs : Jobs Db test_op limit (Q := test_lease_queue limit) worker_id :=
  test_jobs limit lease_seconds decrypt worker_id.

(** C15. A process of import-test workers among others. Whatever its threads do in
    whatever order and however their transactions fail, while others work on the rows: the
    batches of imports stay consistent with their rows, no more than the global limit of
    tests hold a lease, and this process has never more tests under way than it has
    workers; the row of every test under way is renewed or marked lost unless another
    execution of the row released it; the dispatcher survives a database that cannot be
    reached; and the shutdown stops the heartbeat only after the last test has ended. *)
Theorem import_workers_safe es now d (q : Pool TestJobs) :
  import_inv d -> active_tests now d <= limit ->
  respects (J := TestJobs) max_workers es (started now d) -> run (J := TestJobs) max_workers es (started now d) = Some q ->
  import_inv (store q) /\ active_tests (clock q) (store q) <= limit /\
  Z.of_nat (size (filter (fun x => test_ended x.2.2 = false) (jobs q))) <= Z.max 0 max_workers /\
  (forall j id ph, jobs q !! j = Some (id, ph) -> test_holds ph = true ->
     id ∈ active_ids q ∪ lost_ids q \/ exists k ph', k <> j /\ jobs q !! k = Some (id, ph')) /\
  (forall i q', dispatch (J := TestJobs) max_workers i q = Some q' ->
     test_fault i = Some DatabaseUnavailable \/ test_fault i = Some TransactionConflict \/ test_fault i = None ->
     dispatcher q' <> DispatcherDied) /\
  (heartbeat q = BeatStopped -> over (dispatcher q) /\ map_Forall (fun _ x => test_ended x.2 = true) (jobs q)).
Proof.
  intros Hinv Hlim Hresp Hrun. pose proof (pool_refines max_workers es _ q Hresp Hrun) as Hexec.
  destruct (reachable_pool max_workers es now d q Hrun) as (Hroom & Hun & Hheld & Hbeat).
  split; [exact (lq_exec_inv _ _ Hexec Hinv)|]. split.
  { rewrite <- running_count_tests in *. exact (lq_exec_bounded _ _ Hexec Hinv Hlim). }
  split; [|split; [exact Hheld|split; [|exact Hbeat]]].
  - etrans; [|exact Hroom]. apply inj_le. rewrite <- (size_dom (D := gset Z)). apply subseteq_size.
    intros j [[id ph] Hj]%elem_of_dom. apply map_lookup_filter_Some in Hj as [Hj He]. by apply (Hun j id ph).
  - intros i q' Hd Hf. unfold dispatch in Hd. destruct (dispatcher q) as [|n|ids|ids| |]; try done.
    + case_decide; by injection Hd as <-.
    + cbn [claim TestJobs test_jobs] in Hd. unfold claim_rows in Hd.
      destruct (n <=? 0); [by injection Hd as <-|].
      destruct Hf as [Hf|[Hf|Hf]]; rewrite Hf in Hd; [by injection Hd as <-|by injection Hd as <-|].
      destruct (_claim _ _ _ _ _ _ _ _). by injection Hd as <-.
    + by injection Hd as <-.
    + by injection Hd as <-.
Qed.
End pool.

(** ** A concrete process

    The import of ImportTheorems.v, tested by "w1" with two workers. *)

Definition demo_test_jobs := TestJobs 2 90 (fun pw => Ok pw) (u "w1").

Definition test_answer : TestInput := mkTestInput None 0 ∅ demo_collectors (Ok ()).

Definition test_pool (es : list (event demo_test_jobs)) : option (Pool demo_test_jobs) :=
  run 2 es (started (10 * second) demo_tests).

Definition test_claim : list (event demo_test_jobs) := repeat (Dispatch (J := demo_test_jobs) test_answer) 4.

Definition one_test (j : Z) : event demo_test_jobs := Exec (J := demo_test_jobs) j test_answer.

Definition a_test : list (event demo_test_jobs) := test_claim ++ repeat (one_test 0) 4.

(** The heartbeat reads the identifiers under way, the test ends, and only then does the
    renewal run: it reports the row lost, and the identifier, released before, stays among
    the lost ones. *)
Definition a_late_beat : list (event demo_test_jobs) :=
  test_claim ++ repeat (one_test 0) 3 ++ [Beat (J := demo_test_jobs) test_answer; one_test 0;
    Beat (J := demo_test_jobs) test_answer; Beat (J := demo_test_jobs) test_answer].

Definition test_state (p : option (Pool demo_test_jobs)) : option (option TestPhase * bool * bool) :=
  p ← p; Some (snd <$> jobs p !! 0, bool_decide (1 ∈ active_ids p), bool_decide (1 ∈ lost_ids p)).

Example a_test_runs : test_state (test_pool a_test) = Some (Some (TestEnded (TestSaved None)), false, false).
Proof. vm_compute. reflexivity. Qed.

Lemma late_beat_keeps_row_lost : test_state (test_pool a_late_beat) = Some (Some (TestEnded (TestSaved None)), false, true).
Proof. vm_compute. reflexivity. Qed.

Lemma import_workers_safe_witness :
  exists q, test_pool a_test = Some q /\ import_inv (store q) /\ active_tests (clock q) (store q) <= 2.
Proof.
  destruct (test_pool a_test) as [q|] eqn:E; [|pose proof a_test_runs as Hs; rewrite E in Hs; discriminate Hs].
  exists q. split; [reflexivity|].
  destruct (import_workers_safe 2 2 90 (fun pw => Ok pw) (u "w1") a_test (10 * second) demo_tests q) as (Hinv & Hlim & _).
  - exact demo_tests_inv.
  - vm_compute. discriminate.
  - apply respects_alone. reflexivity.
  - exact E.
  - split; [exact Hinv|exact Hlim].
Defined.
