(* ===== verification/PostgresLeader.v ===== *)
(** * Leader election (src/app/services/postgres_leader.py)

    Several processes run a [PostgresLeaderElector] on one advisory lock.  The server
    grants the lock to a session and takes it back when the session ends, which a process
    learns with its next statement.  A step is one statement or one callback of
    [_run]; a statement can fail although the session lives, before the server executed
    it or after. *)

From S2P Require Import Prelude PyText Models Exceptions Scheduler.

Definition SCHEDULER_LEADER_LOCK_KEY : Z := 740003.

(** Where [_run] is. *)
Inductive LeaderPhase :=
| LoopHead                        (* [while not stop_event.is_set()] *)
| Connected (session : Z)         (* before [pg_try_advisory_lock] *)
| Acquired (session : Z)          (* before [on_acquired] *)
| Leading (session : Z)           (* in the loop of pings *)
| Closing (session : Z) (acquired : bool)   (* the finally block: unlock and close *)
| Reporting                       (* the finally block: before [on_lost] *)
| Retrying                        (* the wait at the end of the loop *)
| Finished
| Died.                           (* [on_lost] raised: the thread is gone *)

Inductive StatementReply := Replied | NotExecuted | ReplyLost.

#[export] Instance StatementReply_eq_dec : EqDecision StatementReply.
Proof. solve_decision. Defined.

Section election.
Context {P I : Type} (on_acquired on_lost : I -> P -> bool * P) (on_request : I -> P -> P).

(** [process] is what the callbacks and the requests of the process work on, with [false] for a callback that raises;
    [calls] counts the callbacks, [on_acquired] and [on_lost], so far. *)
Record Elector := mkElector {
  leader_phase : LeaderPhase;
  stop_requested : bool;
  process : P;
  calls : Z * Z
}.

#[local] Instance Elector_eta : Eta Elector := fun e => mkElector (leader_phase e) (stop_requested e) (process e) (calls e).

(** The server: the sessions that live and the one that holds the lock. *)
Record Election := mkElection {
  sessions : gset Z;
  holder : option Z;
  next_session : Z;
  electors : gmap Z Elector
}.

#[local] Instance Election_eta : Eta Election := fun w => mkElection (sessions w) (holder w) (next_session w) (electors w).

Inductive LeaderEvent :=
| Connect (e : Z) (succeeds : bool)
| TryLock (e : Z) (r : StatementReply)
| CallAcquired (e : Z) (i : I)
| Ping (e : Z) (r : StatementReply)
| Unlock (e : Z) (r : StatementReply)
| CallLost (e : Z) (i : I)
| Wait (e : Z)
| Request (e : Z) (i : I)         (* a request, on the process of [e] *)
| RequestStop (e : Z)             (* [shutdown] *)
| SessionEnds (session : Z).      (* the network, the server or an administrator *)

Definition start_election (ps : gmap Z P) : Election :=
  mkElection ∅ None 0 ((fun p => mkElector LoopHead false p (0, 0)) <$> ps).

Definition put_elector (e : Z) (x : Elector) (w : Election) : Election := w <| electors := <[e := x]> (electors w) |>.

Definition to_phase (e : Z) (x : Elector) (p : LeaderPhase) (w : Election) : Election :=
  put_elector e (x <| leader_phase := p |>) w.

(** The session is no longer used; the server forgets its lock. *)
Definition end_session (s : Z) (w : Election) : Election :=
  w <| sessions := sessions w ∖ {[s]} |> <| holder := if decide (holder w = Some s) then None else holder w |>.

Definition grant (s : Z) (w : Election) : Election := w <| holder := Some s |>.

Definition elect (ev : LeaderEvent) (w : Election) : option Election :=
  match ev with
  | Connect e succeeds =>
      x ← electors w !! e;
      match leader_phase x with
      | LoopHead =>
          if stop_requested x then Some (to_phase e x Finished w)
          else if succeeds then
            let s := next_session w in
            Some (to_phase e x (Connected s) w <| sessions := {[s]} ∪ sessions w |> <| next_session := s + 1 |>)
          else Some (to_phase e x Retrying w)
      | _ => None
      end
  | TryLock e r =>
      x ← electors w !! e;
      match leader_phase x with
      | Connected s =>
          if decide (s ∈ sessions w) then
            match r, holder w with
            | Replied, None => Some (to_phase e x (Acquired s) (grant s w))
            | Replied, Some _ => Some (to_phase e x Retrying (end_session s w))
            | ReplyLost, None => Some (to_phase e x (Closing s false) (grant s w))
            | _, _ => Some (to_phase e x (Closing s false) w)
            end
          else Some (to_phase e x (Closing s false) w)
      | _ => None
      end
  | CallAcquired e i =>
      x ← electors w !! e;
      match leader_phase x with
      | Acquired s =>
          let '(ok, p) := on_acquired i (process x) in
          Some (put_elector e (mkElector (if ok then Leading s else Closing s true) (stop_requested x) p
                                 ((calls x).1 + 1, (calls x).2)) w)
      | _ => None
      end
  | Ping e r =>
      x ← electors w !! e;
      match leader_phase x with
      | Leading s =>
          if stop_requested x then Some (to_phase e x (Closing s true) w)
          else if decide (s ∈ sessions w /\ r = Replied) then Some w
          else Some (to_phase e x (Closing s true) w)
      | _ => None
      end
  | Unlock e r =>
      x ← electors w !! e;
      match leader_phase x with
      | Closing s acquired =>
          Some (to_phase e x (if acquired then Reporting else Retrying)
                  (if decide (r = NotExecuted) then w else end_session s w))
      | _ => None
      end
  | CallLost e i =>
      x ← electors w !! e;
      match leader_phase x with
      | Reporting =>
          let '(ok, p) := on_lost i (process x) in
          Some (put_elector e (mkElector (if ok then Retrying else Died) (stop_requested x) p
                                 ((calls x).1, (calls x).2 + 1)) w)
      | _ => None
      end
  | Wait e =>
      x ← electors w !! e;
      match leader_phase x with Retrying => Some (to_phase e x LoopHead w) | _ => None end
  | Request e i => x ← electors w !! e; Some (put_elector e (x <| process := on_request i (process x) |>) w)
  | RequestStop e => x ← electors w !! e; Some (put_elector e (x <| stop_requested := true |>) w)
  | SessionEnds s => Some (end_session s w)
  end.

Fixpoint elect_all (evs : list LeaderEvent) (w : Election) : option Election :=
  match evs with
  | [] => Some w
  | ev :: evs => w1 ← elect ev w; elect_all evs w1
  end.

(** ** The invariant *)

(** The session an elector uses. *)
Definition session_of (p : LeaderPhase) : option Z :=
  match p with Connected s | Acquired s | Leading s | Closing s _ => Some s | _ => None end.

(** The phases in which the session holds the lock, if it lives. *)
Definition locks (p : LeaderPhase) : option Z :=
  match p with Acquired s | Leading s | Closing s true => Some s | _ => None end.

(** Between the two callbacks. *)
Definition in_charge (p : LeaderPhase) : bool :=
  match p with Leading _ | Closing _ true | Reporting => true | _ => false end.

(** [on_acquired] is called first, and the callbacks alternate. *)
Definition calls_ok (x : Elector) : Prop :=
  (calls x).1 = (calls x).2 + (if in_charge (leader_phase x) then 1 else 0).

Record election_inv (w : Election) : Prop := {
  used_below : forall e x s, electors w !! e = Some x -> session_of (leader_phase x) = Some s -> s < next_session w;
  used_once : forall e e' x x' s, electors w !! e = Some x -> electors w !! e' = Some x' ->
    session_of (leader_phase x) = Some s -> session_of (leader_phase x') = Some s -> e = e';
  lock_held : forall e x s, electors w !! e = Some x -> locks (leader_phase x) = Some s -> s ∈ sessions w -> holder w = Some s;
  holder_lives : forall s, holder w = Some s -> s ∈ sessions w;
  sessions_below : forall s, s ∈ sessions w -> s < next_session w;
  calls_alternate : forall e x, electors w !! e = Some x -> calls_ok x
}.

Lemma start_inv ps : election_inv (start_election ps).
Proof.
  assert (Hl : forall e x, electors (start_election ps) !! e = Some x -> leader_phase x = LoopHead /\ calls x = (0, 0)).
  { intros e x. cbn. rewrite lookup_fmap. by intros (q & _ & ->)%fmap_Some. }
  constructor; cbn [sessions holder next_session]; try done.
  - intros e x t He. destruct (Hl e x He) as [-> _]. done.
  - intros e e' x x' t He _ Hs. destruct (Hl e x He) as [Hp _]. by rewrite Hp in Hs.
  - intros e x He. destruct (Hl e x He) as [Hp Hc]. unfold calls_ok. by rewrite Hp, Hc.
Qed.

(** One elector changes, with the session it had or none, and the lock as it was. *)
Lemma inv_elector e x x' w :
  electors w !! e = Some x -> election_inv w ->
  (forall s, session_of (leader_phase x') = Some s -> session_of (leader_phase x) = Some s) ->
  (forall s, locks (leader_phase x') = Some s -> s ∈ sessions w -> holder w = Some s) -> calls_ok x' ->
  election_inv (put_elector e x' w).
Proof.
  intros He [H1 H2 H3 H4 H5 H6] Hs Hl Hc. constructor; cbn; try done.
  - intros k y t [[<- <-]|[_ Hk]]%lookup_insert_Some; [intros Ht; apply (H1 e x); auto|by apply (H1 k)].
  - intros k k' y y' t [[<- <-]|[Hk Hy]]%lookup_insert_Some [[<- <-]|[Hk' Hy']]%lookup_insert_Some Ht Ht'; try done.
    + by apply (H2 e k' x y' t He Hy'); auto.
    + by apply (H2 k e y x t Hy He); auto.
    + by apply (H2 k k' y y' t).
  - intros k y t [[<- <-]|[_ Hk]]%lookup_insert_Some; [apply Hl|by apply (H3 k)].
  - intros k y [[<- <-]|[_ Hk]]%lookup_insert_Some; [done|by apply (H6 k)].
Qed.

Lemma inv_end_session s w : election_inv w -> election_inv (end_session s w).
Proof.
  intros [H1 H2 H3 H4 H5 H6]. constructor; cbn; try done.
  - intros e x t He Ht [Hin Hne]%elem_of_difference. rewrite decide_False; [by eapply H3|].
    intros Hh. rewrite (H3 e x t He Ht Hin) in Hh. injection Hh as ->. set_solver.
  - intros t. case_decide as Hd; [done|]. intros Hh. apply elem_of_difference. split; [by apply H4|].
    intros ->%elem_of_singleton. by destruct Hd.
  - intros t [Ht _]%elem_of_difference. by apply H5.
Qed.

Lemma inv_connect e x w :
  electors w !! e = Some x -> leader_phase x = LoopHead -> election_inv w ->
  election_inv (to_phase e x (Connected (next_session w)) w <| sessions := {[next_session w]} ∪ sessions w |>
                  <| next_session := next_session w + 1 |>).
Proof.
  intros He Ep [H1 H2 H3 H4 H5 H6].
  assert (Hnew : forall k y t, electors w !! k = Some y -> session_of (leader_phase y) = Some t -> t <> next_session w)
    by (intros k y t Hk Ht; specialize (H1 k y t Hk Ht); lia).
  constructor; cbn.
  - intros k y t [[<- <-]|[_ Hk]]%lookup_insert_Some; [intros [= <-]; lia|]. intros Ht. specialize (H1 k y t Hk Ht). lia.
  - intros k k' y y' t [[<- <-]|[Hk Hy]]%lookup_insert_Some [[<- <-]|[Hk' Hy']]%lookup_insert_Some Ht Ht'; try done.
    + injection Ht as <-. by destruct (Hnew k' y' _ Hy' Ht').
    + injection Ht' as <-. by destruct (Hnew k y _ Hy Ht).
    + by apply (H2 k k' y y' t).
  - intros k y t [[<- <-]|[_ Hk]]%lookup_insert_Some; [done|]. intros Ht [->%elem_of_singleton|Hin]%elem_of_union; [|by apply (H3 k y)].
    destruct (Hnew k y (next_session w) Hk); [|done]. destruct (leader_phase y) as [|a|a|a|a []| | | |]; try done.
  - intros t Ht%H4. set_solver.
  - intros t [->%elem_of_singleton|Ht%H5]%elem_of_union; lia.
  - intros k y [[<- <-]|[_ Hk]]%lookup_insert_Some; [|by apply (H6 k)]. specialize (H6 e x He). unfold calls_ok in *. by rewrite Ep in H6.
Qed.

(** The lock is free: no session of an elector that relies on it lives. *)
Lemma inv_grant t w : t ∈ sessions w -> holder w = None -> election_inv w -> election_inv (grant t w).
Proof.
  intros Hin Hnone [H1 H2 H3 H4 H5 H6]. constructor; cbn; try done.
  - intros k y r Hk Ht Hr. specialize (H3 k y r Hk Ht Hr). congruence.
  - by intros r [= <-].
Qed.

Lemma elect_inv ev w w' : election_inv w -> elect ev w = Some w' -> election_inv w'.
Proof.
  intros Hinv. destruct ev as [e ok|e r|e i|e r|e r|e i|e|e i|e|t]; cbn;
    try (destruct (electors w !! e) as [x|] eqn:He; cbn; [|done]); try (pose proof (calls_alternate w Hinv e x He) as Hc; unfold calls_ok in Hc).
  - destruct (leader_phase x) eqn:Ep; try done. destruct (stop_requested x); [|destruct ok]; intros [= <-].
    + by apply (inv_elector e x).
    + by apply inv_connect.
    + by apply (inv_elector e x).
  - destruct (leader_phase x) as [|s| | | | | | |] eqn:Ep; try done.
    assert (Hto : forall wa p, electors wa = electors w -> election_inv wa -> p = Retrying \/ p = Closing s false \/ (p = Acquired s /\ holder wa = Some s) ->
      election_inv (to_phase e x p wa)).
    { intros wa p Hwa Hi Hp. apply (inv_elector e x); rewrite ?Hwa, ?Ep; try done; destruct Hp as [->|[->|[-> Hh]]]; cbn; try done.
      by intros t [= <-]. }
    case_decide as Hin; [destruct r, (holder w) as [h|] eqn:Eh|]; intros [= <-]; apply Hto;
      first [done | by apply inv_end_session | by apply inv_grant | auto].
  - destruct (leader_phase x) eqn:Ep; try done. destruct (on_acquired i (process x)) as [ok q]. intros [= <-].
    apply (inv_elector e x); try done; rewrite ?Ep; [by destruct ok| |].
    + destruct ok; intros t Ht; apply (lock_held w Hinv e x t He); by rewrite Ep.
    + unfold calls_ok. cbn in *. destruct ok; cbn; lia.
  - destruct (leader_phase x) eqn:Ep; try done.
    assert (Hcl : election_inv (to_phase e x (Closing session true) w)).
    { apply (inv_elector e x); try done; rewrite ?Ep; [done|]. intros t Ht. apply (lock_held w Hinv e x t He). by rewrite Ep. }
    destruct (stop_requested x); [|case_decide]; by intros [= <-].
  - destruct (leader_phase x) eqn:Ep; try done. intros [= <-].
    assert (Hx : electors (if decide (r = NotExecuted) then w else end_session session w) !! e = Some x) by (by case_decide).
    apply (inv_elector e x _ _ Hx); [case_decide; [done|by apply inv_end_session]|by destruct acquired..|].
    unfold calls_ok. cbn in *. by destruct acquired.
  - destruct (leader_phase x) eqn:Ep; try done. destruct (on_lost i (process x)) as [ok q]. intros [= <-].
    apply (inv_elector e x); try done; rewrite ?Ep; [by destruct ok..|]. unfold calls_ok. cbn in *. destruct ok; cbn; lia.
  - destruct (leader_phase x) eqn:Ep; try done. intros [= <-]. by apply (inv_elector e x).
  - intros [= <-]. apply (inv_elector e x); try done. intros t Ht. by apply (lock_held w Hinv e x t He).
  - intros [= <-]. apply (inv_elector e x); try done. intros t Ht. by apply (lock_held w Hinv e x t He).
  - intros [= <-]. by apply inv_end_session.
Qed.

Lemma elect_all_inv evs w w' : election_inv w -> elect_all evs w = Some w' -> election_inv w'.
Proof.
  revert w. induction evs as [|ev evs IH]; intros w Hw; cbn; [by intros [= <-]|].
  destruct (elect ev w) as [w1|] eqn:E; [|done]. apply IH. by eapply elect_inv.
Qed.
End election.

#[export] Existing Instance Elector_eta.
#[export] Existing Instance Election_eta.

Section theorems.
Context {P I : Type} (on_acquired on_lost : I -> P -> bool * P) (on_request : I -> P -> P).

#[local] Abbreviation all := (elect_all on_acquired on_lost on_request).

Lemma reachable_inv ps evs w : all evs (start_election ps) = Some w -> election_inv w.
Proof. apply elect_all_inv, start_inv. Qed.

(** Advisory-lock leadership: in every election that processes can reach, with
    sessions that end and statements that fail at any point, two electors between the
    acquisition and the release of the lock whose sessions live are the same elector,
    the server's holder is that session, and every elector called [on_lost] exactly once
    for each [on_acquired] it called, but for the term it is in. *)
Theorem one_leader ps evs w :
  all evs (start_election ps) = Some w ->
  (forall e e' x x' s s', electors w !! e = Some x -> electors w !! e' = Some x' ->
     locks (leader_phase x) = Some s -> locks (leader_phase x') = Some s' ->
     s ∈ sessions w -> s' ∈ sessions w -> e = e' /\ holder w = Some s) /\
  (forall e x, electors w !! e = Some x -> (calls x).1 = (calls x).2 + (if in_charge (leader_phase x) then 1 else 0)).
Proof.
  intros Hw. apply reachable_inv in Hw as Hinv. split; [|apply (calls_alternate w Hinv)].
  intros e e' x x' s s' He He' Hl Hl' Hs Hs'.
  pose proof (lock_held w Hinv e x s He Hl Hs) as H1. pose proof (lock_held w Hinv e' x' s' He' Hl' Hs') as H2.
  rewrite H1 in H2. injection H2 as <-. split; [|done].
  assert (Hu : forall p, locks p = Some s -> session_of p = Some s)
    by (intros p; by destruct p as [| | | |? []| | | |]).
  apply (used_once w Hinv e e' x x' s); auto.
Qed.

Lemma lookup_put (e : Z) (x : Elector (P := P)) w : electors (put_elector e x w) !! e = Some x.
Proof. apply lookup_insert_eq. Qed.

Lemma lookup_end_session (e s : Z) (w : Election (P := P)) : electors (end_session s w) = electors w.
Proof. done. Qed.

(** A term ends: the unlock, answered or not, and then the callback. *)
Lemma term_closes e x s i r w :
  electors w !! e = Some x -> leader_phase x = Closing s true ->
  exists w' x', all [Unlock e r; CallLost e i] w = Some w' /\ electors w' !! e = Some x' /\
    leader_phase x' = (if (on_lost i (process x)).1 then Retrying else Died) /\
    process x' = (on_lost i (process x)).2 /\ calls x' = ((calls x).1, (calls x).2 + 1).
Proof.
  intros He Ep. destruct (on_lost i (process x)) as [ok p] eqn:El.
  eexists _, _. split; [|split; [apply lookup_put|]].
  - cbn. rewrite He. cbn. rewrite Ep. cbn. rewrite lookup_insert_eq. cbn. rewrite El. reflexivity.
  - cbn. done.
Qed.

(** Leadership moves on: from every state, an elector that leads on a session that
    ended is, after its next ping and the statements of its finally block, answered or
    not, out of charge with [on_lost] called once on its process; and when the lock is
    free, an elector at the head of its loop that is not stopped leads after one connection,
    one statement and one [on_acquired] that does not raise, with the lock held by its
    session. *)
Theorem leadership_passes w e x :
  election_inv w -> electors w !! e = Some x ->
  (forall s i r r', leader_phase x = Leading s -> s ∉ sessions w ->
     exists w' x', all [Ping e r; Unlock e r'; CallLost e i] w = Some w' /\ electors w' !! e = Some x' /\
       in_charge (leader_phase x') = false /\ process x' = (on_lost i (process x)).2 /\
       (calls x').1 = (calls x').2) /\
  (forall i, leader_phase x = LoopHead -> stop_requested x = false -> holder w = None -> (on_acquired i (process x)).1 = true ->
     exists w' x' s, all [Connect e true; TryLock e Replied; CallAcquired e i] w = Some w' /\ electors w' !! e = Some x' /\
       leader_phase x' = Leading s /\ s ∈ sessions w' /\ holder w' = Some s /\
       process x' = (on_acquired i (process x)).2).
Proof.
  intros Hinv He. pose proof (calls_alternate w Hinv e x He) as Hc. unfold calls_ok in Hc. split.
  - intros s i r r' Ep Hs. rewrite Ep in Hc. cbn in Hc.
    assert (Hp : elect on_acquired on_lost on_request (Ping e r) w = Some (to_phase e x (Closing s true) w)).
    { cbn. rewrite He. cbn. rewrite Ep. destruct (stop_requested x); [done|]. by rewrite decide_False by tauto. }
    destruct (term_closes e (x <| leader_phase := Closing s true |>) s i r' (to_phase e x (Closing s true) w)) as (w' & x' & Hw' & Hx' & Hph & Hpr & Hcs);
      [apply lookup_put|done|].
    exists w', x'. split; [|split; [done|]].
    + change (elect on_acquired on_lost on_request (Ping e r) w ≫= all [Unlock e r'; CallLost e i] = Some w'). by rewrite Hp.
    + rewrite Hph, Hpr, Hcs. cbn. split; [by destruct (on_lost i (process x)) as [[] ?]|]. split; [done|lia].
  - intros i Ep Est Hnone Hok. set (s := next_session w). destruct (on_acquired i (process x)) as [ok q] eqn:E. cbn in Hok. subst ok.
    eexists _, _, s. split; [|split; [apply lookup_put|]].
    + cbn. rewrite He. cbn. rewrite Ep, Est. cbn. rewrite lookup_insert_eq. cbn.
      rewrite decide_True by set_solver. rewrite Hnone. cbn. rewrite lookup_insert_eq. cbn. rewrite E. reflexivity.
    + cbn. repeat split; try done. set_solver.
Qed.
End theorems.

(** ** The schedulers *)

(** What reaches the service: the rows [_become_leader] reads, if it can, and what a
    request of the process asks of the scheduler: [sync_device] or [remove_device]. *)
Record SchedulerInput := mkSchedulerInput {
  devices_read : option Db;
  requested : option (Z * option Device)
}.

Section schedulers.
Context {S : Type} `{BackgroundScheduler S} `{!SchedulerLaws S}.

(** [_become_leader], which raises when the devices cannot be read: the scheduler runs by then. *)
Definition take_over (i : SchedulerInput) (s : S) : bool * S :=
  if running s then (true, s)
  else match devices_read i with
       | Some d => (true, _become_leader d s)
       | None => (false, start_jobs (add_job history_job PurgeJob s))
       end.

Definition step_down (i : SchedulerInput) (s : S) : bool * S := (true, _lose_leadership s).

Definition handle_request (i : SchedulerInput) (s : S) : S :=
  match requested i with
  | Some (device_id, Some device) => sync_device device_id device s
  | Some (device_id, None) => remove_device device_id s
  | None => s
  end.

Definition elect_schedulers := elect_all take_over step_down handle_request.

Lemma running_take_over i (s : S) : running (take_over i s).2 = true.
Proof.
  unfold take_over. destruct (running s) eqn:E; [done|]. destruct (devices_read i) as [d|]; cbn [snd]; [|apply running_start].
  unfold _become_leader. rewrite E. destruct (get_job_sync_all (devices d) (start_jobs (add_job history_job PurgeJob s))) as [-> _].
  apply running_start.
Qed.

Lemma running_request i (s : S) : running (handle_request i s) = running s.
Proof.
  unfold handle_request. destruct (requested i) as [[k [device|]]|]; [apply running_sync|apply running_remove_device|done].
Qed.

Lemma running_step_down i (s : S) : running (step_down i s).2 = false.
Proof. unfold step_down, _lose_leadership. cbn. destruct (running s) eqn:E; [apply running_new|done]. Qed.

(** A scheduler runs exactly between its process's callbacks. *)
Definition run_in_charge (w : Election (P := S)) : Prop :=
  forall e x, electors w !! e = Some x -> running (process x) = in_charge (leader_phase x).

Lemma run_put e x w : running (process x) = in_charge (leader_phase x) -> run_in_charge w -> run_in_charge (put_elector e x w).
Proof. intros Hx Hw k y. cbn. intros [[<- <-]|[_ Hk]]%lookup_insert_Some; [done|by apply (Hw k)]. Qed.

Lemma run_step ev w w' : run_in_charge w -> elect take_over step_down handle_request ev w = Some w' -> run_in_charge w'.
Proof.
  intros Hw. destruct ev as [e ok|e r|e i|e r|e r|e i|e|e i|e|t]; cbn;
    try (destruct (electors w !! e) as [x|] eqn:He; cbn; [|done]); try (pose proof (Hw e x He) as Hx);
    try (destruct (leader_phase x) eqn:Ep; try done); try (cbn in Hx); unfold to_phase.
  all: repeat lazymatch goal with
       | |- context [if ?b then _ else _] => destruct b
       | |- context [match ?r with Replied => _ | _ => _ end] => destruct r
       | |- context [match ?h with Some _ => _ | None => _ end] => destruct h
       end; try discriminate.
  all: try (intros [= <-]; first [done | apply run_put; [cbn; rewrite ?running_request, ?Ep; done|done]]).
  - destruct (take_over i (process x)) as [ok q] eqn:E. intros [= <-]. pose proof (running_take_over i (process x)) as Hr.
    rewrite E in Hr. apply run_put; [by destruct ok|done].
  - intros [= <-]. apply run_put; [|done]. cbn. apply (running_step_down i).
Qed.

Lemma run_all evs w w' : run_in_charge w -> elect_schedulers evs w = Some w' -> run_in_charge w'.
Proof.
  revert w. induction evs as [|ev evs IH]; intros w Hw; cbn; [by intros [= <-]|].
  destruct (elect take_over step_down handle_request ev w) as [w1|] eqn:E; [|done]. apply IH. by eapply run_step.
Qed.

Lemma start_run ps : map_Forall (fun _ s => running s = false) ps -> run_in_charge (start_election ps).
Proof. intros Hps e x. cbn. rewrite lookup_fmap. intros (q & Hq & ->)%fmap_Some. apply (Hps e q Hq). Qed.

(** C16. One scheduler fires: in every election of processes whose schedulers start
    stopped, whatever requests do to them, a process's APScheduler runs exactly between
    its two callbacks, and two processes whose schedulers run and whose database sessions
    live are the same process. *)
Theorem one_scheduler ps evs w :
  map_Forall (fun _ s => running s = false) ps -> elect_schedulers evs (start_election ps) = Some w ->
  (forall e x, electors w !! e = Some x -> running (process x) = in_charge (leader_phase x)) /\
  (forall e e' x x' s s', electors w !! e = Some x -> electors w !! e' = Some x' ->
     running (process x) = true -> running (process x') = true ->
     session_of (leader_phase x) = Some s -> session_of (leader_phase x') = Some s' ->
     s ∈ sessions w -> s' ∈ sessions w -> e = e').
Proof.
  intros Hps Hw. pose proof (run_all evs _ w (start_run ps Hps) Hw) as Hrun. split; [exact Hrun|].
  apply reachable_inv in Hw as Hinv.
  intros e e' x x' s s' He He' Hr Hr' Hs Hs' Hin Hin'. rewrite (Hrun e x He) in Hr. rewrite (Hrun e' x' He') in Hr'.
  assert (Hlk : forall (p : LeaderPhase) t, in_charge p = true -> session_of p = Some t -> locks p = Some t)
    by (intros p t; by destruct p as [| | | |? []| | | |]).
  pose proof (lock_held w Hinv e x s He (Hlk _ _ Hr Hs) Hin) as H1.
  pose proof (lock_held w Hinv e' x' s' He' (Hlk _ _ Hr' Hs') Hin') as H2. rewrite H1 in H2. injection H2 as <-.
  by apply (used_once w Hinv e e' x x' s).
Qed.
End schedulers.

(** ** Two processes *)

Definition two_processes : gmap Z MapScheduler := {[1 := new_scheduler; 2 := new_scheduler]}.

Definition idle_input : SchedulerInput := mkSchedulerInput (Some empty_db) None.

(** The first leads; its session ends and the second takes over. *)
Definition failover : list LeaderEvent :=
  [Connect 1 true; Connect 2 true; TryLock 1 Replied; TryLock 2 Replied; CallAcquired 1 idle_input;
   SessionEnds 0; Wait 2; Connect 2 true; TryLock 2 Replied; CallAcquired 2 idle_input].

Definition after_failover : Election (P := MapScheduler) :=
  default (start_election ∅) (elect_schedulers failover (start_election two_processes)).

Example failover_runs : elect_schedulers failover (start_election two_processes) = Some after_failover.
Proof. vm_compute. reflexivity. Qed.

Lemma two_stopped : map_Forall (fun _ s => running s = false) two_processes.
Proof. by apply map_Forall_insert_2; [|apply map_Forall_singleton]. Qed.

Lemma one_scheduler_witness :
  exists x y, electors after_failover !! 1 = Some x /\ electors after_failover !! 2 = Some y /\
    running (process x) = in_charge (leader_phase x) /\ running (process y) = in_charge (leader_phase y).
Proof.
  destruct (one_scheduler two_processes failover after_failover two_stopped failover_runs) as [Hrun _].
  eexists _, _. split; [vm_compute; reflexivity|]. split; [vm_compute; reflexivity|].
  split; [apply (Hrun 1)|apply (Hrun 2)]; vm_compute; reflexivity.
Defined.

Definition failed_over_leader : Elector (P := MapScheduler) :=
  mkElector (Leading 0) false (_become_leader empty_db new_scheduler) (1, 0).

Lemma leadership_passes_witness :
  exists w' x', elect_schedulers [Ping 1 NotExecuted; Unlock 1 NotExecuted; CallLost 1 idle_input] after_failover = Some w' /\
    electors w' !! 1 = Some x' /\ in_charge (leader_phase x') = false /\
    process x' = (step_down idle_input (_become_leader empty_db new_scheduler)).2 /\ (calls x').1 = (calls x').2.
Proof.
  apply (leadership_passes take_over step_down handle_request after_failover 1 failed_over_leader
    (reachable_inv _ _ _ _ _ _ failover_runs) ltac:(vm_compute; reflexivity)) with (s := 0); [reflexivity|].
  apply (bool_decide_unpack _). vm_compute. exact I.
Defined.

(** The lock is released before [on_lost]: on a shutdown, a second process starts its
    scheduler while the first's still runs. *)
Definition handover : list LeaderEvent :=
  [Connect 1 true; TryLock 1 Replied; CallAcquired 1 idle_input; RequestStop 1; Ping 1 Replied; Unlock 1 Replied;
   Connect 2 true; TryLock 2 Replied; CallAcquired 2 idle_input].

Lemma handover_runs_two_schedulers :
  exists w x y, elect_schedulers handover (start_election two_processes) = Some w /\
    electors w !! 1 = Some x /\ electors w !! 2 = Some y /\ running (process x) = true /\ running (process y) = true.
Proof. eexists _, _, _. split; [vm_compute; reflexivity|]. split_and!; reflexivity. Qed.
