(* ===== verification/Notifications.v ===== *)
(** * Topology notifications (src/app/services/postgres_notifications.py)

    A transaction that changes what the topology shows notifies [topology_changed] when it
    commits; the server queues the notification for every session that listens.  A process
    listens on a connection of its own and calls back, which clears its cache
    (TopologyCache.v), for every notification it receives.  A step is one statement, one
    pass of [connection.notifies] or one callback of [_run].

    A notification has no payload here; in the model it carries its number, which no code
    reads. *)

From S2P Require Import Prelude PyText.

Definition TOPOLOGY_CHANNEL : text := u "topology_changed".

Inductive ListenerPhase :=
| ListenerHead                              (* [while not stop_event.is_set()] *)
| Opened (session : Z)                      (* before [LISTEN] *)
| Receiving (session : Z)                   (* before [connection.notifies] *)
| Delivering (session : Z) (batch : list Z) (* [for _notification in ...] *)
| ListenerRetry                             (* [_stop_event.wait(retry_seconds)] *)
| ListenerDone.

(** [listens_since] is how many notifications had been committed when the session began to
    listen, [cleared_at] how many when the last callback ran. *)
Record Listener := mkListener {
  listener_phase : ListenerPhase;
  listener_stop : bool;
  listens_since : Z;
  cleared_at : Z
}.

#[export] Instance Listener_eta : Eta Listener := fun l =>
  mkListener (listener_phase l) (listener_stop l) (listens_since l) (cleared_at l).

(** The server's queues, by session, and the processes. *)
Record Channel := mkChannel {
  committed : Z;
  queues : gmap Z (list Z);
  next_listener_session : Z;
  listeners : gmap Z Listener
}.

#[export] Instance Channel_eta : Eta Channel := fun c =>
  mkChannel (committed c) (queues c) (next_listener_session c) (listeners c).

Inductive ChannelEvent :=
| CommitNotified                       (* a transaction that called [notify_topology_changed] *)
| OpenSession (p : Z) (succeeds : bool)
| StartListening (p : Z) (succeeds : bool)
| Receive (p : Z) (n : nat)            (* [notifies(timeout=1.0, stop_after=1)] yields [n] *)
| CallBack (p : Z) (succeeds : bool)
| ListenerWaited (p : Z)
| StopListener (p : Z)                 (* [shutdown] *)
| ListenerSessionEnds (session : Z).

Definition quiet_channel (ps : list Z) : Channel :=
  mkChannel 0 ∅ 0 (list_to_map ((fun p => (p, mkListener ListenerHead false 0 0)) <$> ps)).

Definition put_listener (p : Z) (l : Listener) (c : Channel) : Channel := c <| listeners := <[p := l]> (listeners c) |>.

Definition to_listener_phase (p : Z) (l : Listener) (ph : ListenerPhase) (c : Channel) : Channel :=
  put_listener p (l <| listener_phase := ph |>) c.

(** The session ends or is closed, and its queue with it. *)
Definition close_session (s : Z) (c : Channel) : Channel := c <| queues := delete s (queues c) |>.

(** [pg_notify] at commit. *)
Definition queue_notification (c : Channel) : Channel :=
  c <| committed := committed c + 1 |> <| queues := (fun q => q ++ [committed c + 1]) <$> queues c |>.

Definition channel_step (ev : ChannelEvent) (c : Channel) : option Channel :=
  match ev with
  | CommitNotified => Some (queue_notification c)
  | OpenSession p succeeds =>
      l ← listeners c !! p;
      match listener_phase l with
      | ListenerHead =>
          if listener_stop l then Some (to_listener_phase p l ListenerDone c)
          else if succeeds then
            Some (to_listener_phase p l (Opened (next_listener_session c)) c
                    <| next_listener_session := next_listener_session c + 1 |>)
          else Some (to_listener_phase p l ListenerRetry c)
      | _ => None
      end
  | StartListening p succeeds =>
      l ← listeners c !! p;
      match listener_phase l with
      | Opened s =>
          if succeeds then
            Some (put_listener p (l <| listener_phase := Receiving s |> <| listens_since := committed c |>)
                    (c <| queues := <[s := []]> (queues c) |>))
          else Some (to_listener_phase p l ListenerRetry c)
      | _ => None
      end
  | Receive p n =>
      l ← listeners c !! p;
      match listener_phase l with
      | Receiving s =>
          if listener_stop l then Some (to_listener_phase p l ListenerDone (close_session s c))
          else match queues c !! s with
               | None => Some (to_listener_phase p l ListenerRetry c)
               | Some q =>
                   Some (to_listener_phase p l (Delivering s (take n q)) (c <| queues := <[s := drop n q]> (queues c) |>))
               end
      | _ => None
      end
  | CallBack p succeeds =>
      l ← listeners c !! p;
      match listener_phase l with
      | Delivering s [] => Some (to_listener_phase p l (Receiving s) c)
      | Delivering s (_ :: batch) =>
          if succeeds then
            Some (put_listener p (l <| listener_phase := Delivering s batch |> <| cleared_at := committed c |>) c)
          else Some (to_listener_phase p l ListenerRetry (close_session s c))
      | _ => None
      end
  | ListenerWaited p =>
      l ← listeners c !! p;
      match listener_phase l with ListenerRetry => Some (to_listener_phase p l ListenerHead c) | _ => None end
  | StopListener p => l ← listeners c !! p; Some (put_listener p (l <| listener_stop := true |>) c)
  | ListenerSessionEnds s => Some (close_session s c)
  end.

Fixpoint channel_run (evs : list ChannelEvent) (c : Channel) : option Channel :=
  match evs with
  | [] => Some c
  | ev :: evs => c1 ← channel_step ev c; channel_run evs c1
  end.

(** ** The invariant *)

Definition listening_on (ph : ListenerPhase) : option Z :=
  match ph with Opened s | Receiving s | Delivering s _ => Some s | _ => None end.

(** Received and not yet called back for. *)
Definition in_hand (ph : ListenerPhase) : list Z := match ph with Delivering _ batch => batch | _ => [] end.

(** The queue of the session the process listens on. *)
Definition queue_of (c : Channel) (l : Listener) : option (list Z) :=
  match listener_phase l with Receiving s | Delivering s _ => queues c !! s | _ => None end.

Definition nothing_missed (c : Channel) (l : Listener) : Prop :=
  forall q v, queue_of c l = Some q -> listens_since l < v <= committed c -> v <= cleared_at l \/ v ∈ in_hand (listener_phase l) ++ q.

Record channel_inv (c : Channel) : Prop := {
  listener_below : forall p l s, listeners c !! p = Some l -> listening_on (listener_phase l) = Some s -> s < next_listener_session c;
  listener_once : forall p p' l l' s, listeners c !! p = Some l -> listeners c !! p' = Some l' ->
    listening_on (listener_phase l) = Some s -> listening_on (listener_phase l') = Some s -> p = p';
  cleared_below : forall p l, listeners c !! p = Some l -> cleared_at l <= committed c;
  none_missed : forall p l, listeners c !! p = Some l -> nothing_missed c l
}.

Lemma lookup_quiet ps p l : listeners (quiet_channel ps) !! p = Some l -> l = mkListener ListenerHead false 0 0.
Proof. intros Hl. apply elem_of_list_to_map_2 in Hl. apply list_elem_of_fmap in Hl as (q & [= _ ->] & _). done. Qed.

Lemma quiet_inv ps : channel_inv (quiet_channel ps).
Proof.
  constructor.
  - intros p l s ->%lookup_quiet. done.
  - intros p p' l l' s ->%lookup_quiet. done.
  - intros p l ->%lookup_quiet. done.
  - intros p l ->%lookup_quiet. done.
Qed.

(** One process moves; the queues of the others are what they were. *)
Lemma channel_put p l l' c c' :
  listeners c !! p = Some l -> channel_inv c ->
  committed c' = committed c -> listeners c' = <[p := l']> (listeners c) -> next_listener_session c <= next_listener_session c' ->
  (forall s, listening_on (listener_phase l') = Some s ->
     listening_on (listener_phase l) = Some s \/ (next_listener_session c <= s < next_listener_session c')) ->
  (forall s q, queues c' !! s = Some q -> queues c !! s = Some q \/ listening_on (listener_phase l) = Some s) ->
  cleared_at l' <= committed c -> nothing_missed c' l' -> channel_inv c'.
Proof.
  intros Hp [H1 H2 H3 H4] Ec El Hn Hs Hq Hcl Hm.
  assert (Hfresh : forall k y s, listeners c !! k = Some y -> listening_on (listener_phase y) = Some s -> s < next_listener_session c) by exact H1.
  assert (Hother : forall k y s, k <> p -> listeners c !! k = Some y -> listening_on (listener_phase y) = Some s ->
    listening_on (listener_phase l') <> Some s).
  { intros k y s Hk Hy Hls Hl'. destruct (Hs s Hl') as [Hl|Hnew]; [by apply Hk, (H2 k p y l s)|].
    specialize (Hfresh k y s Hy Hls). lia. }
  constructor; rewrite El.
  - intros k y s [[<- <-]|[Hk Hy]]%lookup_insert_Some Hls.
    + destruct (Hs s Hls) as [Hl|]; [|lia]. specialize (H1 p l s Hp Hl). lia.
    + specialize (H1 k y s Hy Hls). lia.
  - intros k k' y y' s [[<- <-]|[Hk Hy]]%lookup_insert_Some [[<- <-]|[Hk' Hy']]%lookup_insert_Some Hls Hls'; try done.
    + by destruct (Hother k' y' s (not_eq_sym Hk') Hy' Hls').
    + by destruct (Hother k y s (not_eq_sym Hk) Hy Hls).
    + by apply (H2 k k' y y' s).
  - rewrite Ec. intros k y [[<- <-]|[Hk Hy]]%lookup_insert_Some; [done|by apply (H3 k)].
  - intros k y [[<- <-]|[Hk Hy]]%lookup_insert_Some; [done|]. intros q v Hqy Hv. rewrite Ec in Hv. apply (H4 k y Hy q v); [|done].
    unfold queue_of in *. destruct (listener_phase y) as [|s|s|s b| |] eqn:Ey; try done;
      (destruct (Hq s q Hqy) as [|Hls]; [done|]); destruct (Hk); symmetry; apply (H2 k p y l s); try done; by rewrite Ey.
Qed.

Lemma channel_closed s c : channel_inv c -> channel_inv (close_session s c).
Proof.
  intros [H1 H2 H3 H4]. constructor; try done. intros p l Hl q v Hq. apply (H4 p l Hl). unfold queue_of in *. cbn in Hq.
  destruct (listener_phase l); try done; by apply lookup_delete_Some in Hq as [_ Hq].
Qed.

Lemma channel_notified c : channel_inv c -> channel_inv (queue_notification c).
Proof.
  intros [H1 H2 H3 H4]. constructor; try done.
  - intros p l Hl. specialize (H3 p l Hl). cbn. lia.
  - intros p l Hl q v Hq Hv. cbn in Hv.
    assert (Hq' : exists q0, queue_of c l = Some q0 /\ q = q0 ++ [committed c + 1]).
    { unfold queue_of in *. cbn in Hq. destruct (listener_phase l); try done; rewrite lookup_fmap in Hq;
        apply fmap_Some in Hq as (q0 & Hq0 & ->); eauto. }
    destruct Hq' as (q0 & Hq0 & ->). destruct (decide (v = committed c + 1)) as [->|Hne]; [right; set_solver|].
    destruct (H4 p l Hl q0 v Hq0); [lia|by left|right; set_solver].
Qed.

(** The process listens no longer. *)
Lemma channel_leaves p l ph c :
  listeners c !! p = Some l -> listening_on ph = None -> channel_inv c -> channel_inv (to_listener_phase p l ph c).
Proof.
  intros Hp Hph Hinv. pose proof (cleared_below c Hinv p l Hp) as Hc.
  eapply channel_put; try done; cbn; rewrite ?Hph; try done; [by left|].
  intros q v. unfold queue_of. cbn. by destruct ph.
Qed.

Lemma channel_step_inv ev c c' : channel_inv c -> channel_step ev c = Some c' -> channel_inv c'.
Proof.
  intros Hinv. destruct ev as [|p ok|p ok|p n|p ok|p|p|s]; cbn;
    try (destruct (listeners c !! p) as [l|] eqn:Hp; cbn; [|done]);
    try (pose proof (cleared_below c Hinv p l Hp) as Hc; pose proof (none_missed c Hinv p l Hp) as Hm).
  - intros [= <-]. by apply channel_notified.
  - destruct (listener_phase l) eqn:El; try done. destruct (listener_stop l); [|destruct ok]; intros [= <-]; try by apply channel_leaves.
    eapply channel_put; try done; cbn; try lia; try (by left). intros s [= <-]. right. lia.
  - destruct (listener_phase l) as [|s| | | |] eqn:El; try done. destruct ok; intros [= <-]; [|by apply channel_leaves].
    eapply channel_put; try done; cbn; rewrite ?El; try (by left); try lia.
    + intros t q [[<- _]|[_ Hq]]%lookup_insert_Some; [by right|by left].
    + intros q v _ Hv. cbn in Hv. lia.
  - destruct (listener_phase l) as [| |s| | |] eqn:El; try done.
    destruct (listener_stop l); [intros [= <-]|destruct (queues c !! s) as [q|] eqn:Eq; intros [= <-]].
    + apply channel_leaves; [done..|by apply channel_closed].
    + eapply channel_put; try done; cbn; rewrite ?El; try (by left).
      * intros t q' [[<- _]|[_ Hq']]%lookup_insert_Some; [by right|by left].
      * intros q' v. unfold queue_of. cbn. rewrite lookup_insert_eq. intros [= <-] Hv.
        rewrite take_drop. unfold nothing_missed, queue_of in Hm. rewrite El in Hm. by apply Hm.
    + by apply channel_leaves.
  - destruct (listener_phase l) as [| | |s b| |] eqn:El; try done. unfold nothing_missed, queue_of in Hm. rewrite El in Hm.
    destruct b as [|v0 b]; [intros [= <-]|destruct ok; intros [= <-]].
    + eapply channel_put; try done; cbn; rewrite ?El; try (by left).
    + eapply channel_put; try done; cbn; rewrite ?El; try (by left). intros q v Hq Hv. cbn in Hv. left. cbn. lia.
    + apply channel_leaves; [done..|by apply channel_closed].
  - destruct (listener_phase l) eqn:El; try done. intros [= <-]. by apply channel_leaves.
  - intros [= <-]. eapply channel_put; try done; cbn; by left.
  - intros [= <-]. by apply channel_closed.
Qed.

Lemma channel_run_inv evs c c' : channel_inv c -> channel_run evs c = Some c' -> channel_inv c'.
Proof.
  revert c. induction evs as [|ev evs IH]; intros c Hc; cbn; [by intros [= <-]|].
  destruct (channel_step ev c) as [c1|] eqn:E; [|done]. cbn. apply IH. by apply (channel_step_inv ev c).
Qed.

(** A batch is called back for, one by one. *)
Lemma batch_drains p s b l c :
  listeners c !! p = Some l -> listener_phase l = Delivering s b ->
  exists c' l', channel_run (repeat (CallBack p true) (S (length b))) c = Some c' /\ listeners c' !! p = Some l' /\
    listener_phase l' = Receiving s /\ listener_stop l' = listener_stop l /\
    queues c' = queues c /\ committed c' = committed c /\
    cleared_at l' = (if b is [] then cleared_at l else committed c).
Proof.
  revert l c. induction b as [|v b IH]; intros l c Hp El.
  - eexists _, _. cbn. rewrite Hp. cbn. rewrite El. split; [done|]. cbn. by rewrite lookup_insert_eq.
  - destruct (IH (l <| listener_phase := Delivering s b |> <| cleared_at := committed c |>)
      (put_listener p (l <| listener_phase := Delivering s b |> <| cleared_at := committed c |>) c)) as (c' & l' & Hr & Hl & Hph & Hst & Hq & Hco & Hcl);
      [apply lookup_insert_eq|done|].
    exists c', l'. split; [|split_and!; try done; cbn in *; by destruct b].
    change (channel_step (CallBack p true) c ≫= channel_run (repeat (CallBack p true) (S (length b))) = Some c').
    cbn [channel_step]. rewrite Hp. cbn [mbind option_bind]. rewrite El. exact Hr.
Qed.

(** C18. Invalidation by notification.  In every history of commits, sessions that end and
    callbacks that fail, a process that waits for notifications on a session with an empty
    queue has called back after every commit that notified since the session began to
    listen; and from every state in which it waits, whatever has been queued, one pass of
    [notifies] and one callback for each notification received bring it there, the last
    callback after every commit there was. *)
Theorem notifications_clear_caches ps evs c p l s q :
  channel_run evs (quiet_channel ps) = Some c -> listeners c !! p = Some l ->
  listener_phase l = Receiving s -> queues c !! s = Some q ->
  (q = [] -> forall v, listens_since l < v <= committed c -> v <= cleared_at l) /\
  (listener_stop l = false ->
   exists c' l', channel_run (Receive p (length q) :: repeat (CallBack p true) (S (length q))) c = Some c' /\
     listeners c' !! p = Some l' /\ listener_phase l' = Receiving s /\ queues c' !! s = Some [] /\
     committed c' = committed c /\ cleared_at l' = (if q is [] then cleared_at l else committed c)).
Proof.
  intros Hrun Hp El Hq. pose proof (channel_run_inv evs _ c (quiet_inv ps) Hrun) as Hinv. split.
  - intros -> v Hv. pose proof (none_missed c Hinv p l Hp) as Hm. unfold nothing_missed, queue_of in Hm. rewrite El in Hm.
    destruct (Hm [] v Hq Hv) as [|Hin]; [done|]. by apply not_elem_of_nil in Hin.
  - intros Hst. set (c1 := to_listener_phase p l (Delivering s (take (length q) q)) (c <| queues := <[s := drop (length q) q]> (queues c) |>)).
    destruct (batch_drains p s (take (length q) q) (l <| listener_phase := Delivering s (take (length q) q) |>) c1)
      as (c' & l' & Hr & Hl & Hph & _ & Hqs & Hco & Hcl); [apply lookup_insert_eq|done|].
    rewrite firstn_all in Hr, Hcl. exists c', l'. split; [|split_and!; try done].
    + change (channel_step (Receive p (length q)) c ≫= channel_run (repeat (CallBack p true) (S (length q))) = Some c').
      assert (Hs : channel_step (Receive p (length q)) c = Some c1) by (cbn; rewrite Hp; cbn; rewrite El, Hst, Hq; reflexivity).
      rewrite Hs. exact Hr.
    + rewrite Hqs. unfold c1. cbn. by rewrite lookup_insert_eq, skipn_all.
Qed.

(** ** One process *)

(** It listens, and two transactions notify. *)
Definition two_commits : list ChannelEvent := [OpenSession 1 true; StartListening 1 true; CommitNotified; CommitNotified].

Lemma notifications_clear_caches_witness :
  exists c c' l', channel_run two_commits (quiet_channel [1]) = Some c /\
    channel_run (Receive 1 2 :: repeat (CallBack 1 true) 3) c = Some c' /\ listeners c' !! 1 = Some l' /\ cleared_at l' = 2.
Proof.
  eexists. destruct (notifications_clear_caches [1] two_commits _ 1 _ 0 [1; 2] eq_refl eq_refl eq_refl eq_refl) as [_ H].
  destruct (H eq_refl) as (c' & l' & Hr & Hl & _ & _ & _ & Hc). exists c', l'. split; [reflexivity|]. split; [exact Hr|]. by split.
Defined.

(** A commit while the process reconnects is never called back for: its cache keeps what it
    has until it expires. *)
Lemma reconnect_misses_commits :
  exists c l, channel_run (two_commits ++ [Receive 1 2; CallBack 1 true; CallBack 1 true; CallBack 1 true;
      ListenerSessionEnds 0; CommitNotified; Receive 1 0; ListenerWaited 1; OpenSession 1 true; StartListening 1 true]) (quiet_channel [1]) = Some c /\
    listeners c !! 1 = Some l /\ queues c !! 1 = Some [] /\ committed c = 3 /\ cleared_at l = 2.
Proof. eexists _, _. split; [vm_compute; reflexivity|]. split_and!; vm_compute; reflexivity. Qed.
