(* ===== verification/Config.v ===== *)
(** * Settings, preflight and logs (src/app/config.py, runtime.py, preflight.py, logging_config.py)

    What a deployment may configure, the budget of database connections that is checked
    before the web processes start, and where the log goes.  [make_url] is SQLAlchemy's; its [drivername] is a
    parameter ([None] when the URL does not parse). *)

From S2P Require Import Prelude PyText Exceptions Security.

Record Settings := mkSettings {
  app_secret_key : text;
  database_url : text;
  host : text;
  port : Z;
  history_retention_days : Z;
  raw_retention_days : Z;
  remote_timeout_seconds : Z;
  scheduler_enabled : bool;
  import_test_max_workers : Z;
  scan_max_workers : Z;
  scan_queue_size : Z;
  scan_jitter_seconds : Z;
  web_workers : option Z;
  db_pool_size : Z;
  db_max_overflow : Z;
  db_pool_timeout_seconds : Z;
  db_pool_recycle_seconds : Z;
  scan_lease_seconds : Z;
  task_heartbeat_seconds : Z;
  log_level : text;
  log_dir : text;
  log_max_bytes : Z;
  log_backup_count : Z;
  log_to_console : bool
}.

#[export] Instance Settings_eta : Eta Settings := fun s =>
  mkSettings (app_secret_key s) (database_url s) (host s) (port s) (history_retention_days s) (raw_retention_days s)
    (remote_timeout_seconds s) (scheduler_enabled s) (import_test_max_workers s) (scan_max_workers s) (scan_queue_size s)
    (scan_jitter_seconds s) (web_workers s) (db_pool_size s) (db_max_overflow s) (db_pool_timeout_seconds s)
    (db_pool_recycle_seconds s) (scan_lease_seconds s) (task_heartbeat_seconds s) (log_level s) (log_dir s)
    (log_max_bytes s) (log_backup_count s) (log_to_console s).

(** The defaults of the fields that have one. *)
Definition default_settings (key url : text) : Settings :=
  mkSettings key url (u "127.0.0.1") 8000 7 2 15 true 20 30 2000 300 None 3 2 30 1800 90 15
    (u "INFO") (u "logs") (10 * 1024 * 1024) 5 true.

(** [Field(ge=lo, le=hi)] *)
Definition within (lo hi x : Z) : bool := (lo <=? x) && (x <=? hi).

Definition fields_ok (s : Settings) : bool :=
  (44 <=? Z.of_nat (length (app_secret_key s))) && within 1 65535 (port s) &&
  within 1 3650 (history_retention_days s) && within 1 3650 (raw_retention_days s) &&
  within 1 120 (remote_timeout_seconds s) && within 1 200 (import_test_max_workers s) &&
  within 1 200 (scan_max_workers s) && within 1 100000 (scan_queue_size s) && within 0 86400 (scan_jitter_seconds s) &&
  match web_workers s with Some n => within 1 64 n | None => true end &&
  within 1 50 (db_pool_size s) && within 0 50 (db_max_overflow s) && within 1 300 (db_pool_timeout_seconds s) &&
  within 60 86400 (db_pool_recycle_seconds s) && within 30 600 (scan_lease_seconds s) &&
  within 5 120 (task_heartbeat_seconds s) && within (1024 * 1024) (1024 * 1024 * 1024) (log_max_bytes s) &&
  within 1 100 (log_backup_count s).

Definition log_levels : list text := [u "DEBUG"; u "INFO"; u "WARNING"; u "ERROR"; u "CRITICAL"].

Definition normalize_log_level `{UnicodeCase} (value : text) : option text :=
  let normalized := upper (strip value) in
  if decide (normalized ∈ log_levels) then Some normalized else None.

Definition require_postgresql_psycopg (drivername : text -> option text) (value : text) : bool :=
  bool_decide (drivername value = Some (u "postgresql+psycopg")).

Definition heartbeat_precedes_lease (s : Settings) : bool := task_heartbeat_seconds s * 2 <? scan_lease_seconds s.

(** [Settings(...)]: the settings, or a validation error.  The model validator runs on
    fields that are valid. *)
Definition load_settings `{UnicodeCase} (drivername : text -> option text) (s : Settings) : option Settings :=
  if fields_ok s && require_postgresql_psycopg drivername (database_url s) then
    level ← normalize_log_level (log_level s);
    if heartbeat_precedes_lease s then Some (s <| log_level := level |>) else None
  else None.

(** ** The number of web processes *)

Definition resolve_web_workers (configured : option Z) (cpu_count : option Z) : Z :=
  match configured with
  | Some n => n
  | None => Z.min (Z.max (match cpu_count with Some n => if n =? 0 then 1 else n | None => 1 end) 1) 8
  end.

(** ** The preflight *)

Record PostgreSQLLimits := mkPostgreSQLLimits {
  server_version : text;
  max_connections : Z
}.

Record PreflightReport := mkPreflightReport {
  report_server_version : text;
  report_workers : Z;
  requested_connections : Z;
  available_connections : Z
}.

(** [server_version.split(".", 1)[0]] *)
Definition major_version (v : text) : text := hd [] (split_on 46%N v).

(** [limits] and [current] are what the server answers, or the exception. *)
Definition run_preflight (s : Settings) (workers : Z) (limits : result exn PostgreSQLLimits) (current : bool) :
    result exn PreflightReport :=
  if workers <? 1 then Raise (ValueError (u "workers must be positive"))
  else
    limits ← limits;
    if negb (bool_decide (major_version (server_version limits) = u "15")) then Raise (OtherError (u "仅支持 PostgreSQL 15"))
    else if negb current then Raise (OtherError (u "数据库结构未升级，请先执行 alembic upgrade head"))
    else
      let requested := workers * (db_pool_size s + db_max_overflow s + 2) in
      let available := Z.max (max_connections limits - 10) 0 in
      if requested >? available
      then Raise (OtherError (u "连接数预算超限：需要 " ++ str_of_Z requested ++ u "，可用 " ++ str_of_Z available))
      else Ok (mkPreflightReport (server_version limits) workers requested available).

(** ** Logs

    Handlers are where a log record goes; a managed one was made by [configure_logging].
    Files are opened, rotated and written by the logging module. *)

Inductive Sink :=
| Console
| LogFile (log_dir filename : text)
| OtherSink (n : Z).

Inductive LogFormat := LOG_FORMAT | ACCESS_LOG_FORMAT | OTHER_FORMAT (n : Z).

Inductive LogFilter := SecretRedactingFilter | OtherFilter (n : Z).

#[export] Instance Sink_eq_dec : EqDecision Sink.
Proof. solve_decision. Defined.

#[export] Instance LogFilter_eq_dec : EqDecision LogFilter.
Proof. solve_decision. Defined.

Record Handler := mkHandler {
  sink : Sink;
  format : LogFormat;
  rotation : option (Z * Z);          (* maxBytes and backupCount *)
  filters : list LogFilter;
  managed : bool
}.

#[export] Instance Handler_eta : Eta Handler := fun h =>
  mkHandler (sink h) (format h) (rotation h) (filters h) (managed h).

Record Logger := mkLogger {
  logger_level : option Z;            (* None: NOTSET *)
  propagate : bool;
  handlers : list Handler
}.

#[export] Instance Logger_eta : Eta Logger := fun l => mkLogger (logger_level l) (propagate l) (handlers l).

(** The loggers the function touches, and the handlers it has closed. *)
Record Logging := mkLogging {
  root : Logger;
  uvicorn : Logger;
  uvicorn_error : Logger;
  uvicorn_access : Logger;
  closed : list Handler
}.

Definition APP_LOG_FILENAME : text := u "app.log".
Definition ACCESS_LOG_FILENAME : text := u "access.log".

Definition _build_file_handler (s : Settings) (filename : text) (fmt : LogFormat) : Handler :=
  mkHandler (LogFile (log_dir s) filename) fmt (Some (log_max_bytes s, log_backup_count s)) [SecretRedactingFilter] true.

(** The logger without them, and the handlers closed. *)
Definition _drop_managed_handlers (remove_all : bool) (l : Logger) : Logger * list Handler :=
  (l <| handlers := filter (fun h => negb (remove_all || managed h) = true) (handlers l) |>,
   filter (fun h => remove_all || managed h = true) (handlers l)).

Definition redacting (h : Handler) : Handler :=
  if decide (SecretRedactingFilter ∈ filters h) then h else h <| filters := filters h ++ [SecretRedactingFilter] |>.

(** [setLevel] takes the name of a level. *)
Definition level_number (name : text) : Z :=
  if decide (name = u "DEBUG") then 10 else if decide (name = u "INFO") then 20 else
  if decide (name = u "WARNING") then 30 else if decide (name = u "ERROR") then 40 else 50.

Definition console_handlers (s : Settings) : list Handler :=
  if log_to_console s then [mkHandler Console LOG_FORMAT None [SecretRedactingFilter] true] else [].

Definition configure_logging (s : Settings) (g : Logging) : Logging :=
  let '(r, closed_root) := _drop_managed_handlers false (root g) in
  let r := r <| logger_level := Some (level_number (log_level s)) |>
             <| handlers := (redacting <$> handlers r) ++ console_handlers s ++
                              [_build_file_handler s APP_LOG_FILENAME LOG_FORMAT] |> in
  let '(uv, closed_uv) := _drop_managed_handlers true (uvicorn g) in
  let '(err, closed_err) := _drop_managed_handlers true (uvicorn_error g) in
  let '(acc, closed_acc) := _drop_managed_handlers true (uvicorn_access g) in
  mkLogging r (uv <| propagate := true |>) (err <| propagate := true |>)
    (acc <| propagate := false |>
         <| handlers := handlers acc ++ [_build_file_handler s ACCESS_LOG_FILENAME ACCESS_LOG_FORMAT] ++ console_handlers s |>)
    (closed g ++ closed_root ++ closed_uv ++ closed_err ++ closed_acc).

(** What becomes of a record: Python's [Logger.handle].  A filter that rejects ends the
    handler; what an earlier one wrote into the record stays.  [other] are the filters of
    others, which accept or reject.  A traceback is appended by the formatter. *)
Section emit.
Context (other : Z -> text -> bool).

Fixpoint run_filters (fs : list LogFilter) (message : text) : bool * text :=
  match fs with
  | [] => (true, message)
  | SecretRedactingFilter :: fs => run_filters fs (redact_log message)
  | OtherFilter n :: fs => if other n message then run_filters fs message else (false, message)
  end.

Record Line := mkLine { line_sink : Sink; line_message : text; line_traceback : option text }.

Fixpoint call_handlers (hs : list Handler) (message : text) (traceback : option text) : list Line :=
  match hs with
  | [] => []
  | h :: hs =>
      let '(accepted, message) := run_filters (filters h) message in
      (if accepted then [mkLine (sink h) message traceback] else []) ++ call_handlers hs message traceback
  end.

Inductive LoggerName := Application | Uvicorn | UvicornError | UvicornAccess.

(** A logger and its ancestors; the application's loggers have no settings of their own. *)
Definition ancestry (g : Logging) (name : LoggerName) : list Logger :=
  match name with
  | Application => [root g]
  | Uvicorn => [uvicorn g; root g]
  | UvicornError => [uvicorn_error g; uvicorn g; root g]
  | UvicornAccess => [uvicorn_access g; uvicorn g; root g]
  end.

Fixpoint reached (ls : list Logger) : list Handler :=
  match ls with
  | [] => []
  | l :: ls => handlers l ++ if propagate l then reached ls else []
  end.

Definition effective_level (ls : list Logger) : Z := default 0 (head (omap (M:=list) logger_level ls)).

Definition log (g : Logging) (name : LoggerName) (levelno : Z) (message : text) (traceback : option text) : list Line :=
  let ls := ancestry g name in
  if effective_level ls <=? levelno then call_handlers (reached ls) message traceback else [].
End emit.

(** ** What they guarantee *)

Lemma within_spec lo hi x : within lo hi x = true <-> lo <= x <= hi.
Proof. unfold within. lia. Qed.

Lemma load_settings_Some `{UnicodeCase} drivername s s' :
  load_settings drivername s = Some s' ->
  fields_ok s = true /\ drivername (database_url s) = Some (u "postgresql+psycopg") /\
  normalize_log_level (log_level s) = Some (log_level s') /\ heartbeat_precedes_lease s = true /\
  s' = s <| log_level := log_level s' |>.
Proof.
  unfold load_settings. destruct (fields_ok s); [|done]. cbn [andb].
  destruct (require_postgresql_psycopg drivername (database_url s)) eqn:Eu; [|done]. apply bool_decide_eq_true in Eu.
  destruct (normalize_log_level (log_level s)) as [level|]; [|done]. cbn [mbind option_bind].
  destruct (heartbeat_precedes_lease s); [|done]. by intros [= <-].
Qed.

Lemma workers_bounded s cpu :
  match web_workers s with Some n => within 1 64 n | None => true end = true -> 1 <= resolve_web_workers (web_workers s) cpu <= 64.
Proof.
  unfold resolve_web_workers. destruct (web_workers s) as [n|]; [by intros ?%within_spec|]. intros _.
  destruct cpu as [n|]; [destruct (n =? 0)|]; lia.
Qed.

(** The connections of one process: those of its pool, and the listener's own. *)
Record Usage := mkUsage {
  pooled : Z;
  listening : bool
}.

Definition connections_used (l : list Usage) : Z := foldr Z.add 0 ((fun x => pooled x + if listening x then 1 else 0) <$> l).

Lemma used_bound s l :
  Forall (fun x => pooled x <= db_pool_size s + db_max_overflow s) l ->
  connections_used l <= Z.of_nat (length l) * (db_pool_size s + db_max_overflow s + 1).
Proof.
  unfold connections_used. induction 1 as [|x l Hx _ IH]; cbn [foldr fmap list_fmap length]; [lia|].
  rewrite Nat2Z.inj_succ. destruct (listening x); lia.
Qed.

(** C30. The preflight keeps the connections within the server's.  Settings that load give
    between 1 and 64 web processes, a lease longer than two heartbeats, and a pool that
    is not empty; and when the preflight accepts them for that many processes, the server
    is a PostgreSQL 15 at the head revision, and whatever each process has open, of its
    pool and for its listener, ten of the server's connections and one for every process
    stay free. *)
Theorem preflight_budget_kept `{UnicodeCase} drivername raw s cpu limits current r usage :
  load_settings drivername raw = Some s ->
  run_preflight s (resolve_web_workers (web_workers s) cpu) (Ok limits) current = Ok r ->
  Z.of_nat (length usage) = resolve_web_workers (web_workers s) cpu ->
  Forall (fun x => 0 <= pooled x <= db_pool_size s + db_max_overflow s) usage ->
  1 <= report_workers r <= 64 /\ 2 * task_heartbeat_seconds s < scan_lease_seconds s /\ 1 <= db_pool_size s /\
  major_version (server_version limits) = u "15" /\ current = true /\
  connections_used usage + report_workers r + 10 <= max_connections limits.
Proof.
  intros (Hf & _ & _ & Hh & ->)%load_settings_Some Hr Hlen Hu. set (w := resolve_web_workers _ cpu) in *.
  assert (Hw : 1 <= w <= 64) by (apply workers_bounded; unfold fields_ok in Hf; cbn in *; by repeat (apply andb_prop in Hf as [Hf ?])).
  assert (Hp : 1 <= db_pool_size raw /\ 0 <= db_max_overflow raw) by (unfold fields_ok in Hf; rewrite !andb_true_iff, !within_spec in Hf; lia).
  apply Z.ltb_lt in Hh. unfold run_preflight in Hr. destruct (w <? 1); [done|]. cbn [mbind result_bind] in Hr.
  destruct (bool_decide _) eqn:Em; [|done]. apply bool_decide_eq_true in Em. destruct current; [|done]. cbn [negb] in Hr.
  destruct (_ >? _) eqn:Eb; [done|]. injection Hr as <-. cbn [report_workers] in *.
  assert (Hb : connections_used usage <= w * (db_pool_size raw + db_max_overflow raw + 1)).
  { rewrite <- Hlen. apply used_bound. eapply Forall_impl; [exact Hu|]. cbn. lia. }
  cbn in Eb, Hh. rewrite Z.gtb_ltb in Eb. apply Z.ltb_ge in Eb. split_and!; cbn; try done; try lia.
Qed.

Definition demo_url (value : text) : option text := Some (u "postgresql+psycopg").

Definition demo_settings : Settings := default_settings (repeat 65%N 44) (u "postgresql+psycopg://db/atlas").

Lemma preflight_budget_kept_witness :
  connections_used (repeat (mkUsage 5 true) 8) + 8 + 10 <= 100.
Proof.
  destruct (preflight_budget_kept (H := ascii_only) demo_url demo_settings demo_settings (Some 16)
    (mkPostgreSQLLimits (u "15.4") 100) true (mkPreflightReport (u "15.4") 8 56 90) (repeat (mkUsage 5 true) 8))
    as (_ & _ & _ & _ & _ & Hb); [vm_compute; reflexivity..| |exact Hb].
  repeat constructor; vm_compute; intros [=].
Defined.

(** ** What reaches the logs *)

Section logs.
Context (other : Z -> text -> bool).

(** [m] is the message, whether a handler has redacted it already or not. *)
Definition same_record (message m : text) : Prop := m = message \/ m = redact_log message.

Lemma same_record_redacted message m : same_record message m -> redact_log m = redact_log message.
Proof. intros [->| ->]; [done|apply redact_log_idempotent]. Qed.

Lemma run_filters_redacted fs message b m' :
  run_filters other fs (redact_log message) = (b, m') -> m' = redact_log message.
Proof.
  induction fs as [|[|n] fs IH]; cbn; [by intros [= _ <-]|by rewrite redact_log_idempotent|].
  case_match; [done|by intros [= _ <-]].
Qed.

Lemma run_filters_spec fs message m :
  SecretRedactingFilter ∈ fs -> same_record message m ->
  let r := run_filters other fs m in same_record message r.2 /\ (r.1 = true -> r.2 = redact_log message).
Proof.
  induction fs as [|[|n] fs IH]; [set_solver| |]; intros Hin Hm; cbn.
  - rewrite (same_record_redacted _ _ Hm). destruct (run_filters other fs (redact_log message)) as [b m'] eqn:E.
    apply run_filters_redacted in E as ->. by split; [right|].
  - case_match; [|by split]. apply IH; [|done]. by apply elem_of_cons in Hin as [[=]|].
Qed.

(** Handlers that redact write the redacted message, in whatever state they get it. *)
Lemma call_handlers_redacted hs message m tb :
  Forall (fun h => SecretRedactingFilter ∈ filters h) hs -> same_record message m ->
  Forall (fun l => line_message l = redact_log message /\ line_traceback l = tb) (call_handlers other hs m tb).
Proof.
  intros Hhs. revert m. induction Hhs as [|h hs Hh _ IH]; intros m Hm; cbn; [constructor|].
  pose proof (run_filters_spec _ _ _ Hh Hm) as [Hm' Ha]. destruct (run_filters _ _ _) as [[] m']; cbn in *.
  - constructor; [by split; [apply Ha|]|by apply IH].
  - by apply IH.
Qed.

Definition lines_at (k : Sink) (ls : list Line) : nat := length (filter (fun l => line_sink l = k) ls).

(** A handler with no filter but ours writes every record. *)
Lemma lines_at_call k hs m tb :
  Forall (fun h => sink h = k -> filters h = [SecretRedactingFilter]) hs ->
  lines_at k (call_handlers other hs m tb) = length (filter (fun h => sink h = k) hs).
Proof.
  intros Hhs. revert m. unfold lines_at. induction Hhs as [|h hs Hh _ IH]; intros m; [done|].
  cbn [call_handlers]. rewrite filter_cons. destruct (decide (sink h = k)) as [E|E].
  - rewrite (Hh E). cbn [run_filters app]. rewrite filter_cons_True by done. cbn [length]. by rewrite IH.
  - destruct (run_filters other (filters h) m) as [[] m']; cbn [app]; [rewrite filter_cons_False by done|]; apply IH.
Qed.

(** The handlers of others, at the root: they write to sinks of their own. *)
Definition foreign (g : Logging) : list Handler := filter (fun h => negb (managed h) = true) (handlers (root g)).
Definition foreign_apart (g : Logging) : Prop := Forall (fun h => exists n, sink h = OtherSink n) (foreign g).

Lemma redacting_redacts h : SecretRedactingFilter ∈ filters (redacting h).
Proof. unfold redacting. case_decide; [done|]. cbn. set_solver. Qed.

Lemma redacting_sink h : sink (redacting h) = sink h.
Proof. unfold redacting. by case_decide. Qed.

Definition general_handlers (s : Settings) (g : Logging) : list Handler :=
  (redacting <$> foreign g) ++ console_handlers s ++ [_build_file_handler s APP_LOG_FILENAME LOG_FORMAT].

Definition access_handlers (s : Settings) : list Handler :=
  _build_file_handler s ACCESS_LOG_FILENAME ACCESS_LOG_FORMAT :: console_handlers s.

Lemma drop_all (l : list Handler) : filter (fun h => negb (true || managed h) = true) l = [].
Proof. by induction l. Qed.

Lemma reached_configured s g name :
  reached (ancestry (configure_logging s g) name) =
    match name with UvicornAccess => access_handlers s | _ => general_handlers s g end.
Proof.
  destruct name; cbn -[general_handlers access_handlers]; rewrite ?drop_all, ?app_nil_r; unfold general_handlers, access_handlers, foreign;
    destruct (propagate (root g)); by rewrite ?app_nil_r.
Qed.

Lemma managed_redact s : Forall (fun h => filters h = [SecretRedactingFilter]) (console_handlers s).
Proof. unfold console_handlers. destruct (log_to_console s); by repeat constructor. Qed.

Lemma general_redacts s g : Forall (fun h => SecretRedactingFilter ∈ filters h) (general_handlers s g).
Proof.
  unfold general_handlers. rewrite !Forall_app, Forall_fmap. split_and!.
  - apply Forall_forall. intros h _. apply redacting_redacts.
  - eapply Forall_impl; [apply managed_redact|]. intros h ->. set_solver.
  - repeat constructor.
Qed.

Lemma access_redacts s : Forall (fun h => SecretRedactingFilter ∈ filters h) (access_handlers s).
Proof.
  constructor; [cbn; set_solver|]. eapply Forall_impl; [apply managed_redact|]. intros h ->. set_solver.
Qed.

Lemma count_foreign k l :
  Forall (fun h => exists n, sink h = OtherSink n) l -> (forall n, k <> OtherSink n) ->
  filter (fun h => sink h = k) (redacting <$> l) = [].
Proof.
  intros Hl Hk. induction Hl as [|h l [n Hn] _ IH]; [done|]. cbn [fmap list_fmap].
  rewrite filter_cons_False by (rewrite redacting_sink, Hn; intros E; by apply (Hk n)). exact IH.
Qed.

(** The sinks of the handlers, each counted. *)
Lemma sinks_of_files s fmt filename :
  let hs := [_build_file_handler s filename fmt] in
  length (filter (fun h => sink h = LogFile (log_dir s) filename) hs) = 1%nat /\
  length (filter (fun h => sink h = Console) hs) = 0%nat /\
  forall other_file, filename <> other_file -> length (filter (fun h => sink h = LogFile (log_dir s) other_file) hs) = 0%nat.
Proof.
  cbn zeta. rewrite !filter_cons. cbn [sink _build_file_handler]. rewrite decide_True by done. split_and!; [done|done|].
  intros f Hf. rewrite filter_cons_False by (cbn; intros E; apply Hf; congruence). done.
Qed.

Lemma sinks_of_console s :
  length (filter (fun h => sink h = Console) (console_handlers s)) = (if log_to_console s then 1 else 0)%nat /\
  forall filename, length (filter (fun h => sink h = LogFile (log_dir s) filename) (console_handlers s)) = 0%nat.
Proof. unfold console_handlers. by destruct (log_to_console s). Qed.

Lemma sinks_general s g : foreign_apart g ->
  length (filter (fun h => sink h = LogFile (log_dir s) APP_LOG_FILENAME) (general_handlers s g)) = 1%nat /\
  length (filter (fun h => sink h = LogFile (log_dir s) ACCESS_LOG_FILENAME) (general_handlers s g)) = 0%nat /\
  length (filter (fun h => sink h = Console) (general_handlers s g)) = (if log_to_console s then 1 else 0)%nat.
Proof.
  intros Hg. unfold general_handlers. rewrite !filter_app, !(count_foreign _ (foreign g) Hg) by done. cbn [app].
  rewrite !length_app. destruct (sinks_of_console s) as [Hc Hf], (sinks_of_files s LOG_FORMAT APP_LOG_FILENAME) as (H1 & H2 & H3).
  rewrite !Hf, Hc, H1, H2, H3 by done. by destruct (log_to_console s).
Qed.

Lemma sinks_access s :
  length (filter (fun h => sink h = LogFile (log_dir s) APP_LOG_FILENAME) (access_handlers s)) = 0%nat /\
  length (filter (fun h => sink h = LogFile (log_dir s) ACCESS_LOG_FILENAME) (access_handlers s)) = 1%nat /\
  length (filter (fun h => sink h = Console) (access_handlers s)) = (if log_to_console s then 1 else 0)%nat.
Proof.
  change (access_handlers s) with ([_build_file_handler s ACCESS_LOG_FILENAME ACCESS_LOG_FORMAT] ++ console_handlers s).
  rewrite !filter_app, !length_app.
  destruct (sinks_of_console s) as [Hc Hf], (sinks_of_files s ACCESS_LOG_FORMAT ACCESS_LOG_FILENAME) as (H1 & H2 & H3).
  by rewrite !Hf, Hc, H1, H2, H3.
Qed.

(** Where a record goes.  After [configure_logging], whatever handlers the embedding program
    has given the root logger, and whatever was configured before: everything the
    application's loggers and those of uvicorn write carries the redacted message; a
    record that is enabled is one line of app.log, an access record one line of
    access.log instead, and one line of the console when that is switched on. *)
Theorem records_redacted_once s g name levelno message tb :
  foreign_apart g ->
  let g' := configure_logging s g in
  let lines := log other g' name levelno message tb in
  let access := match name with UvicornAccess => true | _ => false end in
  Forall (fun l => line_message l = redact_log message) lines /\
  (effective_level (ancestry g' name) <= levelno ->
     lines_at (LogFile (log_dir s) APP_LOG_FILENAME) lines = (if access then 0 else 1)%nat /\
     lines_at (LogFile (log_dir s) ACCESS_LOG_FILENAME) lines = (if access then 1 else 0)%nat /\
     lines_at Console lines = (if log_to_console s then 1 else 0)%nat).
Proof.
  intros Hg g' lines access. subst lines g'. unfold log. rewrite reached_configured.
  set (hs := match name with UvicornAccess => _ | _ => _ end).
  assert (Hred : Forall (fun h => SecretRedactingFilter ∈ filters h) hs)
    by (subst hs; destruct name; first [apply access_redacts|apply general_redacts]).
  destruct (Z.leb_spec (effective_level (ancestry (configure_logging s g) name)) levelno) as [Hl|Hl]; [|split; [constructor|lia]].
  split. { eapply Forall_impl; [apply call_handlers_redacted; [exact Hred|by left]|]. by intros l [? _]. }
  intros _. assert (Hown : forall k, (forall n, k <> OtherSink n) -> Forall (fun h => sink h = k -> filters h = [SecretRedactingFilter]) hs).
  { intros k Hk. assert (Hm : Forall (fun h => sink h = k -> filters h = [SecretRedactingFilter]) (console_handlers s))
      by (eapply Forall_impl; [apply managed_redact|]; done).
    assert (Hf : Forall (fun h => sink h = k -> filters h = [SecretRedactingFilter]) (general_handlers s g)).
    { unfold general_handlers. rewrite !Forall_app, Forall_fmap. split_and!; [|done|by repeat constructor].
      eapply Forall_impl; [exact Hg|]. intros h [n Hn]. cbn. rewrite redacting_sink, Hn. intros E. by destruct (Hk n). }
    subst hs. destruct name; try exact Hf. by constructor. }
  rewrite !lines_at_call by by apply Hown. subst hs access.
  destruct (sinks_general s g Hg) as (?&?&?), (sinks_access s) as (?&?&?). by destruct name.
Qed.
End logs.

Lemma root_configured s g :
  root (configure_logging s g) = mkLogger (Some (level_number (log_level s))) (propagate (root g)) (general_handlers s g).
Proof. reflexivity. Qed.

Lemma redacting_again l :
  Forall (fun h => managed h = false) l ->
  filter (fun h => negb (managed h) = true) (redacting <$> l) = redacting <$> l /\
  redacting <$> (redacting <$> l) = redacting <$> l.
Proof.
  induction 1 as [|h l Hh _ [IH1 IH2]]; [done|]. cbn [fmap list_fmap].
  assert (Hm : managed (redacting h) = false) by (unfold redacting; by case_decide).
  rewrite filter_cons_True by by rewrite Hm. split; [by rewrite IH1|]. f_equal; [|exact IH2].
  unfold redacting at 1. by rewrite decide_True by apply redacting_redacts.
Qed.

Lemma foreign_not_managed g : Forall (fun h => managed h = false) (foreign g).
Proof. apply Forall_forall. intros h [Hh _]%list_elem_of_filter. by apply negb_true_iff in Hh. Qed.

Lemma foreign_configured s g : foreign (configure_logging s g) = redacting <$> foreign g.
Proof.
  unfold foreign at 1. rewrite root_configured. cbn [handlers]. unfold general_handlers. rewrite !filter_app.
  rewrite (proj1 (redacting_again _ (foreign_not_managed g))).
  unfold console_handlers. destruct (log_to_console s); by rewrite ?app_nil_r.
Qed.

(** Configuring again is configuring once: no handler is doubled, whatever the settings of
    the first time were. *)
Lemma configure_again s s' g :
  let once := configure_logging s' g in let twice := configure_logging s' (configure_logging s g) in
  root twice = root once /\ uvicorn twice = uvicorn once /\ uvicorn_error twice = uvicorn_error once /\
  uvicorn_access twice = uvicorn_access once.
Proof.
  cbv zeta. split.
  - rewrite !root_configured. cbn [propagate]. f_equal. unfold general_handlers. rewrite foreign_configured. f_equal.
    apply redacting_again, foreign_not_managed.
  - cbn -[_build_file_handler console_handlers]. by rewrite !drop_all.
Qed.

Definition no_logger : Logger := mkLogger None true [].

(** A handler of a test runner, with a filter of its own, and the handlers of uvicorn. *)
Definition embedded_logging : Logging :=
  mkLogging (mkLogger (Some 30) true [mkHandler (OtherSink 1) (OTHER_FORMAT 1) None [OtherFilter 1] false])
    (mkLogger (Some 20) false [mkHandler (OtherSink 2) (OTHER_FORMAT 2) None [] false]) no_logger
    (mkLogger (Some 20) false [mkHandler (OtherSink 3) (OTHER_FORMAT 3) None [] false]) [].

Lemma records_redacted_once_witness :
  let lines := log (fun _ _ => true) (configure_logging demo_settings embedded_logging) Application 20 (u "password=x") None in
  lines_at (LogFile (u "logs") APP_LOG_FILENAME) lines = 1%nat /\ lines_at Console lines = 1%nat.
Proof.
  destruct (records_redacted_once (fun _ _ => true) demo_settings embedded_logging Application 20 (u "password=x") None) as (_ & H).
  { repeat constructor. by exists 1. }
  destruct H as (H1 & _ & H3); [vm_compute; intros [=]|]. by split.
Defined.

(** The filter rewrites the message only: a traceback is written as it is. *)
Lemma traceback_not_filtered :
  log (fun _ _ => true) (configure_logging demo_settings embedded_logging) UvicornAccess 40 (u "failed") (Some (u "ValueError: password=x")) =
    [mkLine (LogFile (u "logs") ACCESS_LOG_FILENAME) (u "failed") (Some (u "ValueError: password=x"));
     mkLine Console (u "failed") (Some (u "ValueError: password=x"))].
Proof. vm_compute. reflexivity. Qed.
