(* ===== verification/Startup.v ===== *)
(** * Start and stop of a web process (src/app/main.py)

    [create_app] builds the services from the settings; the lifespan of the application
    checks the migrations, initializes the settings row and starts the services, and stops
    them in its finally block.  Several processes start on one database.  A step is one
    statement or one call of the lifespan. *)

From S2P Require Import Prelude PyText Models Exceptions DatabaseTransactions Migrations Config.

(** What [create_app] passes on. *)
Record AppState := mkAppState {
  max_concurrent_transactions : Z;
  collector_timeout : Z;
  cache_ttl_seconds : Z;
  scan_workers : Z;
  scan_capacity : Z;
  import_workers : Z;
  import_global_limit : Z;
  lease_seconds : Z;
  heartbeat_seconds : Z;
  scheduler : option (Z * Z)          (* jitter and raw retention, when enabled *)
}.

Definition create_app (s : Settings) : AppState :=
  mkAppState (db_pool_size s + db_max_overflow s) (remote_timeout_seconds s) 300 (scan_max_workers s) (scan_queue_size s)
    (import_test_max_workers s) (import_test_max_workers s) (scan_lease_seconds s) (task_heartbeat_seconds s)
    (if scheduler_enabled s then Some (scan_jitter_seconds s, raw_retention_days s) else None).

Inductive LifePhase :=
| CheckingMigration
| ReadingSettings (attempt : nat)
| WritingSettings (attempt : nat)      (* the row was not there *)
| StartingScans
| StartingTests
| StartingScheduler
| StartingListener
| Serving
| StoppingScheduler
| StoppingTests
| StoppingScans
| StoppingListener
| DisposingEngine
| Closed
| StartupFailed (e : raised).

Record App := mkApp {
  life : LifePhase;
  migration_current : bool;
  scans_on : bool;
  tests_on : bool;
  scheduler_on : bool;
  listener_on : bool;
  engine_open : bool
}.

#[export] Instance App_eta : Eta App := fun a =>
  mkApp (life a) (migration_current a) (scans_on a) (tests_on a) (scheduler_on a) (listener_on a) (engine_open a).

(** [retry_delays] of the runner that [create_app] makes: three retries. *)
Definition startup_retries : nat := 3.

(** An attempt of [initialize_settings] ends with an exception. *)
Definition settings_failed (attempt : nat) (e : raised) : LifePhase :=
  if retryable e && (attempt <? startup_retries)%nat then ReadingSettings (S attempt) else StartupFailed (classify e).

(** The unique violation of a second row 1. *)
Definition duplicate_row : raised := DBAPIError false (Some (u "23505")).

(** What [assert_database_current] raises. *)
Definition not_current : raised := Raised (OtherError (u "数据库结构未升级，请先执行 alembic upgrade head")).

(** A step of the lifespan; [fault] is the exception a database statement ends with. *)
Definition life_step (s : Settings) (fault : option raised) (a : App) (x : Database) : option (App * Database) :=
  let next p := Some (a <| life := p |>, x) in
  match life a with
  | CheckingMigration =>
      match fault with
      | Some e => next (StartupFailed e)
      | None =>
          if assert_database_current x
          then Some (a <| life := ReadingSettings 0 |> <| migration_current := true |>, x)
          else next (StartupFailed not_current)
      end
  | ReadingSettings n =>
      match fault with
      | Some e => next (settings_failed n e)
      | None => match system_setting (rows x) with
                | None => next (WritingSettings n)
                | Some _ => next StartingScans
                end
      end
  | WritingSettings n =>
      match fault, system_setting (rows x) with
      | Some e, _ => next (settings_failed n e)
      | None, Some _ => next (settings_failed n duplicate_row)
      | None, None =>
          Some (a <| life := StartingScans |>,
                mkDatabase (version x) (schema x) (rows x <| system_setting := Some (history_retention_days s) |>))
      end
  | StartingScans => Some (a <| life := StartingTests |> <| scans_on := true |>, x)
  | StartingTests => Some (a <| life := StartingScheduler |> <| tests_on := true |>, x)
  | StartingScheduler => Some (a <| life := StartingListener |> <| scheduler_on := scheduler_enabled s |>, x)
  | StartingListener => Some (a <| life := Serving |> <| listener_on := true |>, x)
  | Serving => next StoppingScheduler            (* the server leaves the context *)
  | StoppingScheduler => Some (a <| life := StoppingTests |> <| scheduler_on := false |>, x)
  | StoppingTests => Some (a <| life := StoppingScans |> <| tests_on := false |>, x)
  | StoppingScans => Some (a <| life := StoppingListener |> <| scans_on := false |>, x)
  | StoppingListener => Some (a <| life := DisposingEngine |> <| listener_on := false |>, x)
  | DisposingEngine => Some (a <| life := Closed |> <| engine_open := false |>, x)
  | Closed | StartupFailed _ => None
  end.

(** The processes on one database, and what others do to it: nothing takes the settings row
    away. *)
Record World := mkWorld {
  database : Database;
  apps : gmap Z App
}.

Inductive LifeEvent :=
| LifeStep (p : Z) (fault : option raised)
| Elsewhere (x : Database).

Definition keeps_settings (x y : Database) : bool :=
  match system_setting (rows x) with Some _ => bool_decide (is_Some (system_setting (rows y))) | None => true end.

Definition world_step (s : Settings) (ev : LifeEvent) (w : World) : option World :=
  match ev with
  | LifeStep p fault =>
      a ← apps w !! p;
      r ← life_step s fault a (database w);
      Some (mkWorld r.2 (<[p := r.1]> (apps w)))
  | Elsewhere x => if keeps_settings (database w) x then Some (mkWorld x (apps w)) else None
  end.

Fixpoint world_run (s : Settings) (evs : list LifeEvent) (w : World) : option World :=
  match evs with
  | [] => Some w
  | ev :: evs => w1 ← world_step s ev w; world_run s evs w1
  end.

Definition starting : App := mkApp CheckingMigration false false false false false true.

Definition booting (x : Database) (ps : list Z) : World := mkWorld x (list_to_map ((fun p => (p, starting)) <$> ps)).

(** [GET /api/health] (src/app/routes/api.py): the database answers and the migrations were
    current when the process started. *)
Definition health (a : App) (answers : bool) : result (Z * text) () :=
  if answers && migration_current a then Ok () else Raise (503, u "数据库不可用").

(** ** The invariant *)

(** The services that run in a phase: scans, tests, scheduler, listener. *)
Definition services_of (s : Settings) (p : LifePhase) : bool * bool * bool * bool :=
  match p with
  | StartingTests => (true, false, false, false)
  | StartingScheduler => (true, true, false, false)
  | StartingListener => (true, true, scheduler_enabled s, false)
  | Serving | StoppingScheduler => (true, true, scheduler_enabled s, true)
  | StoppingTests => (true, true, false, true)
  | StoppingScans => (true, false, false, true)
  | StoppingListener => (false, false, false, true)
  | _ => (false, false, false, false)
  end.

Definition services (a : App) : bool * bool * bool * bool := (scans_on a, tests_on a, scheduler_on a, listener_on a).

Definition checked (p : LifePhase) : bool := match p with CheckingMigration | StartupFailed _ => false | _ => true end.

Definition initialized (p : LifePhase) : bool :=
  match p with CheckingMigration | ReadingSettings _ | WritingSettings _ | StartupFailed _ => false | _ => true end.

Record app_ok (s : Settings) (x : Database) (a : App) : Prop := {
  services_ok : services a = services_of s (life a);
  checked_ok : checked (life a) = true -> migration_current a = true;
  initialized_ok : initialized (life a) = true -> is_Some (system_setting (rows x));
  engine_ok : engine_open a = match life a with Closed => false | _ => true end
}.

Lemma app_ok_elsewhere s x y a : app_ok s x a -> (is_Some (system_setting (rows x)) -> is_Some (system_setting (rows y))) -> app_ok s y a.
Proof. intros [H1 H2 H3 H4] Hk. constructor; auto. Qed.

Lemma life_step_keeps s fault a x a' x' :
  life_step s fault a x = Some (a', x') -> is_Some (system_setting (rows x)) -> is_Some (system_setting (rows x')).
Proof.
  unfold life_step. cbv zeta. destruct (life a); intros E Hx;
    repeat match type of E with context [match ?t with _ => _ end] => destruct t eqn:? end;
    try discriminate; injection E as _ <-; first [done|by eexists].
Qed.

Lemma settings_failed_spec n e :
  settings_failed n e = ReadingSettings (S n) \/ settings_failed n e = StartupFailed (classify e).
Proof. unfold settings_failed. destruct (_ && _); auto. Qed.

Lemma life_step_ok s fault a x a' x' : app_ok s x a -> life_step s fault a x = Some (a', x') -> app_ok s x' a'.
Proof.
  destruct a as [p mc sc te sd li en]. intros [H1 H2 H3 H4]. cbn in H1, H2, H3, H4. unfold life_step. cbv zeta. cbn [life].
  destruct p; intros E.
  all: repeat match type of E with
       | context [settings_failed ?n ?e] => let Hf := fresh in destruct (settings_failed_spec n e) as [Hf|Hf]; rewrite Hf in E
       | context [match ?t with _ => _ end] => destruct t eqn:?
       end; try discriminate; injection E as <- <-.
  all: injection H1 as -> -> -> ->; rewrite H4; constructor; cbn [life migration_current scans_on tests_on scheduler_on listener_on engine_open services services_of checked initialized set_field]; first [done|eauto|by eexists].
Qed.

Lemma world_step_ok s ev w w' :
  world_step s ev w = Some w' -> map_Forall (fun _ a => app_ok s (database w) a) (apps w) ->
  map_Forall (fun _ a => app_ok s (database w') a) (apps w').
Proof.
  intros E Hw. destruct ev as [p fault|x]; cbn in E.
  - destruct (apps w !! p) as [a|] eqn:Ha; [|done]. cbn in E.
    destruct (life_step s fault a (database w)) as [[a' x']|] eqn:El; [|done]. injection E as <-. cbn.
    intros k b [[<- <-]|[_ Hk]]%lookup_insert_Some; [by eapply life_step_ok; [apply (Hw p)|]|].
    eapply app_ok_elsewhere; [by apply (Hw k)|]. by eapply life_step_keeps.
  - destruct (keeps_settings (database w) x) eqn:Ek; [|done]. injection E as <-. intros k b Hk. cbn.
    eapply app_ok_elsewhere; [by apply (Hw k)|]. intros [y Hy]. unfold keeps_settings in Ek. rewrite Hy in Ek.
    by apply bool_decide_eq_true in Ek.
Qed.

Lemma world_run_ok s evs w w' :
  world_run s evs w = Some w' -> map_Forall (fun _ a => app_ok s (database w) a) (apps w) ->
  map_Forall (fun _ a => app_ok s (database w') a) (apps w').
Proof.
  revert w. induction evs as [|ev evs IH]; intros w; cbn; [by intros [= <-]|].
  destruct (world_step s ev w) as [w1|] eqn:E; [|done]. intros Hrun Hw. by apply (IH w1), (world_step_ok s ev w).
Qed.

Lemma booting_ok s x ps : map_Forall (fun _ a => app_ok s x a) (apps (booting x ps)).
Proof.
  intros p a Ha. apply elem_of_list_to_map_2 in Ha. apply list_elem_of_fmap in Ha as (q & [= _ ->] & _). done.
Qed.


(** ** Two processes on a new database *)

Definition migrated : Database := mkDatabase (get_current_head versions) (schema fresh) empty_db.

Definition two_start (evs : list (Z * option raised)) : option World :=
  world_run demo_settings ((fun e => LifeStep e.1 e.2) <$> evs) (booting migrated [1; 2]).

(** One after the other. *)
Definition in_turn : list (Z * option raised) := repeat (1, None) 7 ++ repeat (2, None) 6.

Definition lives (w : option World) : list (option LifePhase) := match w with Some w => [life <$> apps w !! 1; life <$> apps w !! 2] | None => [] end.

Example in_turn_serves : lives (two_start in_turn) = [Some Serving; Some Serving].
Proof. vm_compute. reflexivity. Qed.

(** Both read that there is no settings row; the second to write it fails to start. *)
Lemma first_start_race :
  lives (two_start [(1, None); (2, None); (1, None); (2, None); (1, None); (2, None)]) =
  [Some StartingScans; Some (StartupFailed duplicate_row)].
Proof. vm_compute. reflexivity. Qed.

