(* ===== verification/UrlEncode.v ===== *)
(** * Query strings

    [urllib.parse.urlencode] of texts, and how a query string is read back: split at
    ampersands and at the first equals sign, plus signs and percent escapes undone, and the
    bytes read as UTF-8 ([PyText.utf8_decode]; what the reader does to bytes that are no
    UTF-8 is left out). *)

From S2P Require Import Prelude PyText IpAddress.

#[local] Open Scope N_scope.

(** [str.encode("utf-8")] of one character *)
Definition utf8_char (c : N) : list N :=
  if c <? 128 then [c]
  else if c <? 2048 then [192 + c / 64; 128 + c mod 64]
  else if c <? 65536 then [224 + c / 4096; 128 + (c / 64) mod 64; 128 + c mod 64]
  else [240 + c / 262144; 128 + (c / 4096) mod 64; 128 + (c / 64) mod 64; 128 + c mod 64].

Definition utf8_encode (s : text) : list N := flat_map utf8_char s.

(** Letters, digits and [_.-~]. *)
Definition url_safe (b : N) : bool :=
  ((48 <=? b) && (b <=? 57)) || ((65 <=? b) && (b <=? 90)) || ((97 <=? b) && (b <=? 122)) ||
  (b =? 95) || (b =? 46) || (b =? 45) || (b =? 126).

Definition hex_digit (n : N) : N := if n <? 10 then 48 + n else 55 + n.

Definition quote_byte (b : N) : text :=
  if url_safe b then [b] else if b =? 32 then [43] else [37; hex_digit (b / 16); hex_digit (b mod 16)].

Definition quote_plus (s : text) : text := flat_map quote_byte (utf8_encode s).

Definition urlencode (params : list (text * text)) : text :=
  join 38 ((fun p => quote_plus p.1 ++ 61 :: quote_plus p.2) <$> params).

(** ** Reading *)

Definition unhex (c : N) : option N :=
  if (48 <=? c) && (c <=? 57) then Some (c - 48)
  else if (65 <=? c) && (c <=? 70) then Some (c - 55)
  else if (97 <=? c) && (c <=? 102) then Some (c - 87)
  else None.

Fixpoint unquote_bytes (s : text) : list N :=
  match s with
  | [] => []
  | c :: rest =>
      if c =? 43 then 32 :: unquote_bytes rest
      else if c =? 37 then
        match rest with
        | h :: l :: rest' =>
            match unhex h, unhex l with
            | Some x, Some y => (16 * x + y) :: unquote_bytes rest'
            | _, _ => 37 :: unquote_bytes rest
            end
        | _ => 37 :: unquote_bytes rest
        end
      else utf8_char c ++ unquote_bytes rest
  end.

Definition unquote_plus (s : text) : text := utf8_decode (unquote_bytes s).

(** A pair without an equals sign has an empty value. *)
Fixpoint split_pair (s : text) : text * text :=
  match s with
  | [] => ([], [])
  | c :: rest => if c =? 61 then ([], rest) else let '(k, v) := split_pair rest in (c :: k, v)
  end.

Definition parse_qsl (query : text) : list (text * text) :=
  (fun pair => let '(k, v) := split_pair pair in (unquote_plus k, unquote_plus v)) <$>
    filter (fun pair => pair <> []) (split_on 38 query).

(** ** The round trip *)

(** A code point.  (Python refuses to encode surrogates, which no text read from a request holds.) *)
Definition code_point (c : N) : Prop := c < 1114112.

Lemma land_mask x k b : x < 2 ^ k -> N.land (b * 2 ^ k + x) (N.ones k) = x.
Proof. intros Hx. rewrite N.land_ones, N.add_comm, N.Div0.mod_add. by apply N.mod_small. Qed.

Lemma cont_byte x : x < 64 -> cont (128 + x) = x.
Proof. intros Hx. apply (land_mask x 6 2). exact Hx. Qed.

Lemma utf8_char_decode c s : code_point c -> utf8_decode (utf8_char c ++ s) = c :: utf8_decode s.
Proof.
  unfold code_point, utf8_char. intros Hc.
  pose proof (N.div_mod c 64 ltac:(lia)) as H0. pose proof (N.mod_lt c 64 ltac:(lia)) as L0.
  destruct (N.ltb_spec c 128) as [H|H]; cbn [app utf8_decode].
  { destruct (N.ltb_spec c 192); [done|lia]. }
  destruct (N.ltb_spec c 2048) as [H2|H2]; cbn [app utf8_decode].
  { assert (Hb : c / 64 < 32) by (apply N.Div0.div_lt_upper_bound; lia).
    destruct (N.ltb_spec (192 + c / 64) 192); [lia|]. destruct (N.ltb_spec (192 + c / 64) 224); [|lia].
    rewrite cont_byte by done. rewrite (land_mask (c / 64) 5 6 Hb : N.land (192 + c / 64) 31 = c / 64). f_equal. lia. }
  assert (E1 : c / 4096 = c / 64 / 64) by (rewrite N.Div0.div_div; done).
  pose proof (N.div_mod (c / 64) 64 ltac:(lia)) as H1. pose proof (N.mod_lt (c / 64) 64 ltac:(lia)) as L1.
  destruct (N.ltb_spec c 65536) as [H3|H3]; cbn [app utf8_decode].
  { assert (Hb : c / 4096 < 16) by (apply N.Div0.div_lt_upper_bound; lia).
    destruct (N.ltb_spec (224 + c / 4096) 192); [lia|]. destruct (N.ltb_spec (224 + c / 4096) 224); [lia|].
    destruct (N.ltb_spec (224 + c / 4096) 240); [|lia].
    rewrite !cont_byte by done. rewrite (land_mask (c / 4096) 4 14 Hb : N.land (224 + c / 4096) 15 = c / 4096). f_equal. lia. }
  assert (E2 : c / 262144 = c / 4096 / 64) by (rewrite N.Div0.div_div; done).
  pose proof (N.div_mod (c / 4096) 64 ltac:(lia)) as H4. pose proof (N.mod_lt (c / 4096) 64 ltac:(lia)) as L4.
  assert (Hb : c / 262144 < 8) by (apply N.Div0.div_lt_upper_bound; lia).
  destruct (N.ltb_spec (240 + c / 262144) 192); [lia|]. destruct (N.ltb_spec (240 + c / 262144) 224); [lia|].
  destruct (N.ltb_spec (240 + c / 262144) 240); [lia|].
  rewrite !cont_byte by done. rewrite (land_mask (c / 262144) 3 30 Hb : N.land (240 + c / 262144) 7 = c / 262144). f_equal. lia.
Qed.

Lemma utf8_roundtrip s : Forall code_point s -> utf8_decode (utf8_encode s) = s.
Proof. induction 1 as [|c s Hc _ IH]; cbn [utf8_encode flat_map]; [done|]. rewrite utf8_char_decode by done. by f_equal. Qed.

Lemma utf8_bytes s : Forall code_point s -> Forall (fun b => b < 256) (utf8_encode s).
Proof.
  induction 1 as [|c s Hc _ IH]; cbn [utf8_encode flat_map]; [constructor|]. apply Forall_app. split; [|exact IH].
  unfold utf8_char, code_point in *.
  assert (Hm : forall x, 128 + x mod 64 < 256) by (intros x; pose proof (N.mod_lt x 64 ltac:(lia)); lia).
  destruct (N.ltb_spec c 128); [repeat constructor; lia|].
  destruct (N.ltb_spec c 2048); [|destruct (N.ltb_spec c 65536)]; repeat constructor; try apply Hm.
  - assert (c / 64 < 32) by (apply N.Div0.div_lt_upper_bound; lia). lia.
  - assert (c / 4096 < 16) by (apply N.Div0.div_lt_upper_bound; lia). lia.
  - assert (c / 262144 < 8) by (apply N.Div0.div_lt_upper_bound; lia). lia.
Qed.

Lemma unhex_digit n : n < 16 -> unhex (hex_digit n) = Some n.
Proof.
  intros Hn. unfold hex_digit, unhex. destruct (N.ltb_spec n 10).
  - destruct (N.leb_spec 48 (48 + n)), (N.leb_spec (48 + n) 57); try lia. cbn [andb]. f_equal. lia.
  - destruct (N.leb_spec (55 + n) 57); [lia|]. rewrite andb_false_r.
    destruct (N.leb_spec 65 (55 + n)), (N.leb_spec (55 + n) 70); try lia. cbn [andb]. f_equal. lia.
Qed.

Lemma url_safe_bounds b : url_safe b = true -> b < 128 /\ b <> 38 /\ b <> 61.
Proof. unfold url_safe. rewrite !orb_true_iff, !andb_true_iff, !N.leb_le, !N.eqb_eq. lia. Qed.

Lemma unquote_byte b s : b < 256 -> unquote_bytes (quote_byte b ++ s) = b :: unquote_bytes s.
Proof.
  intros Hb. unfold quote_byte. destruct (url_safe b) eqn:Es; [|destruct (N.eqb_spec b 32) as [->|]; [done|]]; cbn [app unquote_bytes].
  - destruct (N.eqb_spec b 43) as [->|]; [done|]. destruct (N.eqb_spec b 37) as [->|]; [done|].
    apply url_safe_bounds in Es as [? _]. unfold utf8_char. destruct (N.ltb_spec b 128); [done|lia].
  - assert (b / 16 < 16) by (apply N.Div0.div_lt_upper_bound; lia). pose proof (N.mod_lt b 16 ltac:(lia)).
    rewrite !unhex_digit by done. f_equal. pose proof (N.div_mod b 16). lia.
Qed.

Lemma unquote_quote s : Forall code_point s -> unquote_plus (quote_plus s) = s.
Proof.
  intros Hs. unfold unquote_plus, quote_plus.
  assert (Hb : forall bs, Forall (fun b => b < 256) bs -> unquote_bytes (flat_map quote_byte bs) = bs).
  { induction 1 as [|b bs Hb _ IH]; cbn [flat_map]; [done|]. rewrite unquote_byte by done. by f_equal. }
  rewrite Hb by (by apply utf8_bytes). by apply utf8_roundtrip.
Qed.

(** What a quoted text holds. *)
Lemma quoted_chars s c : Forall code_point s -> c ∈ quote_plus s -> c <> 38 /\ c <> 61.
Proof.
  intros Hs%utf8_bytes. unfold quote_plus. induction Hs as [|b bs Hb _ IH]; cbn [flat_map]; [by intros ?%not_elem_of_nil|].
  intros [Hin|Hin]%elem_of_app; [|by apply IH]. unfold quote_byte in Hin. destruct (url_safe b) eqn:Es.
  - apply list_elem_of_singleton in Hin as ->. by apply url_safe_bounds in Es as [_ ?].
  - destruct (N.eqb_spec b 32); [apply list_elem_of_singleton in Hin as ->; lia|].
    assert (Hd : forall m, m < 16 -> hex_digit m <> 38 /\ hex_digit m <> 61) by (intros m Hm; unfold hex_digit; destruct (N.ltb_spec m 10); lia).
    assert (b / 16 < 16) by (apply N.Div0.div_lt_upper_bound; lia). pose proof (N.mod_lt b 16 ltac:(lia)).
    rewrite !elem_of_cons in Hin. destruct Hin as [->|[->|[->|Hin]]]; [lia|by apply Hd..|by apply not_elem_of_nil in Hin].
Qed.

Lemma split_pair_app k v : 61 ∉ k -> split_pair (k ++ 61 :: v) = (k, v).
Proof.
  induction k as [|c k IH]; intros Hk; cbn; [done|]. apply not_elem_of_cons in Hk as [Hc Hk].
  destruct (N.eqb_spec c 61); [done|]. by rewrite IH.
Qed.

Definition scalars (p : text * text) : Prop := Forall code_point p.1 /\ Forall code_point p.2.

(** A query string is read as it was written. *)
Lemma parse_urlencode params : params <> [] -> Forall scalars params -> parse_qsl (urlencode params) = params.
Proof.
  intros Hne Hs. unfold parse_qsl, urlencode. rewrite split_join; [|by destruct params|].
  - induction Hs as [|[k v] ps [Hk Hv] Hps IH]; [done|]. cbn [fmap list_fmap]. rewrite filter_cons_True by (by destruct (quote_plus _)).
    cbn [fst snd] in *. cbn [fmap list_fmap]. rewrite split_pair_app by (intros Hin; by apply (quoted_chars k) in Hin as [_ ?]).
    rewrite !unquote_quote by done. f_equal. destruct ps as [|p ps]; [done|]. by apply IH.
  - apply Forall_fmap. eapply Forall_impl; [exact Hs|]. intros [k v] [Hk Hv]. cbn. rewrite elem_of_app, elem_of_cons.
    intros [Hin|[?|Hin]]; [by apply (quoted_chars k) in Hin as [? _]|done|by apply (quoted_chars v) in Hin as [? _]].
Qed.
