(* ===== verification/Pages.v ===== *)
(** * Pages (src/app/routes/pages.py)

    What the pages show, as the context their templates are rendered with, and the redirect
    of the device page to its normalized address.  Templates are not modelled. *)

From S2P Require Import Prelude PyText PyDict Models Exceptions DeviceListing TopologyHistory Topology Schemas Api Registry ApiReads UrlEncode.

Record Dashboard := mkDashboard {
  dash_devices : list (Z * Device);
  device_count : Z;
  healthy_count : Z;
  active_connections : Z;
  failed_count : Z;
  recent_scans : list (Z * ScanRun)
}.

Record DevicesContext := mkDevicesContext {
  device_page : DevicePage;
  page_clusters : list (Z * Cluster);
  system_retention_days : Z
}.

Inductive PageAnswer :=
| Rendered (context : DevicesContext)
| RedirectResponse (url : text).

Section pages.
Context `{PgOrder, Collation}.

(** [ORDER BY name] *)
Definition devices_by_name (d : Db) : list (Z * Device) := order_by (fun p => device_name p.2) (map_to_list (devices d)).
Definition clusters_by_name (d : Db) : list (Z * Cluster) := order_by (fun p => cluster_name p.2) (map_to_list (clusters d)).

Definition successful_scans (d : Db) : list (Z * ScanRun) :=
  newest_first run_started_at (where_ (fun _ r => bool_decide (run_status r = SCAN_SUCCESS)) (scan_runs d)).

(** [latest_by_device.setdefault(scan.device_id, scan)] *)
Definition latest_by_device (scans : list (Z * ScanRun)) : list (Z * ScanRun) :=
  foldl (fun latest scan =>
    match dict_get (run_device_id scan.2) latest with
    | Some _ => latest
    | None => latest ++ [(run_device_id scan.2, scan.2)]
    end) [] scans.

Definition dashboard (d : Db) : Dashboard :=
  let devices := devices_by_name d in
  mkDashboard devices (Z.of_nat (length devices))
    (Z.of_nat (length (filter (fun p => device_last_scan_status p.2 = Some SCAN_SUCCESS) devices)))
    (foldr Z.add 0 ((fun p => run_connection_count p.2) <$> latest_by_device (successful_scans d)))
    (count_where (fun _ r => bool_decide (run_status r = SCAN_FAILED)) (scan_runs d))
    (take 8 (newest_first run_started_at (scan_runs d))).

(** [topology_page]: the devices that can be collected from, and the clusters. *)
Definition topology_page (d : Db) : list (Z * Device) * list (Z * Cluster) :=
  (order_by (fun p => device_name p.2) (map_to_list (where_ (fun _ x => device_collection_enabled x) (devices d))), clusters_by_name d).

Definition history_page (d : Db) : list (Z * Device) * list (Z * ScanRun) :=
  (devices_by_name d, take 100 (newest_first run_started_at (scan_runs d))).

Definition settings_page (d : Db) : Z := _system_retention_days d.

(** The parameters of the redirect, without an empty query. *)
Definition redirect_params (p : DevicePage) : list (text * text) :=
  (if query p is [] then [] else [(u "q", query p)]) ++
  [(u "page", str_of_Z (page p)); (u "page_size", str_of_Z (page_size p))].

Definition redirect_url (p : DevicePage) : text := u "/devices?" ++ urlencode (redirect_params p).

Definition devices_page (q : text) (page_ page_size_ : Z) (d : Db) : result failure PageAnswer :=
  if negb (sized 0 255 q && at_least 1 page_) then Raise Unprocessable
  else if negb (bool_decide (page_size_ ∈ ALLOWED_PAGE_SIZES)) then Raise (HTTPException 422 (u "每页数量仅支持 20、50、100"))
  else
    match list_device_page d q page_ page_size_ with
    | Raise e => Raise (unhandled e)
    | Ok p =>
        if negb (page_ =? page p) || negb (bool_decide (q = query p)) then Ok (RedirectResponse (redirect_url p))
        else Ok (Rendered (mkDevicesContext p (clusters_by_name d) (_system_retention_days d)))
    end.

(** ** Following the redirect *)

(** The request a browser sends for an address: the query string parsed, parameters that
    are missing at their defaults, integers read from their digits. *)
Definition param (name : text) (params : list (text * text)) : option text := dict_get name params.

Definition int_param `{UnicodeDigits} (name : text) (default : Z) (params : list (text * text)) : option Z :=
  match param name params with Some v => py_int v | None => Some default end.

Definition follow `{UnicodeDigits} (url : text) (d : Db) : option (result failure PageAnswer) :=
  rest ← strip_prefix (u "/devices?") url;
  let params := parse_qsl rest in
  page_ ← int_param (u "page") 1 params;
  size ← int_param (u "page_size") 20 params;
  Some (devices_page (default [] (param (u "q") params)) page_ size d).
End pages.

(** ** The redirect *)

Lemma code_points_ascii s : forallb (fun c => N.ltb c 128) s = true -> Forall code_point s.
Proof.
  intros Hs. apply forallb_forall in Hs as Hall || rewrite forallb_forall in Hs. apply Forall_forall. intros c Hc.
  apply list_elem_of_In in Hc. specialize (Hs c Hc). apply N.ltb_lt in Hs. unfold code_point. lia.
Qed.

Lemma code_points_digits n : Forall code_point (str_of_N n).
Proof.
  destruct (str_of_N_spec n) as (_ & Hall & _). eapply Forall_impl; [exact Hall|]. intros c Hc%is_digit_bounds. unfold code_point. lia.
Qed.

Lemma code_points_strip q : Forall code_point q -> Forall code_point (strip q).
Proof.
  intros Hq. assert (Hl : forall t, Forall code_point t -> Forall code_point (lstrip t)).
  { intros t Ht. destruct (lstrip_spec t) as (p & Hp & _). rewrite Hp in Ht. by apply Forall_app in Ht as [_ ?]. }
  unfold strip, rstrip. apply Forall_rev, Hl, Forall_rev, Hl, Hq.
Qed.

Lemma str_of_pos z : 0 <= z -> str_of_Z z = str_of_N (Z.to_N z).
Proof. intros Hz. unfold str_of_Z. destruct (Z.ltb_spec z 0); [lia|done]. Qed.

Section redirect.
Context `{PgOrder, Collation, UnicodeDigits} (d : Db).

(** The page it stands for, asked for by its own number and query. *)
Lemma list_page_again q k s p :
  list_device_page d q k s = Ok p ->
  list_device_page d (query p) (page p) s = Ok p /\ 1 <= page p /\ query p = strip q /\ page_size p = s /\ s ∈ ALLOWED_PAGE_SIZES.
Proof.
  unfold list_device_page at 1. destruct (Z.ltb_spec k 1) as [|Hk]; [done|].
  destruct (bool_decide (s ∈ ALLOWED_PAGE_SIZES)) eqn:Es; cbn [negb]; [|done]. cbv zeta.
  set (n := count_where _ _). set (t := if negb (n =? 0) then ceil_div n s else 0).
  set (r := if negb (t =? 0) then Z.min k t else 1). intros [= <-]. cbn [query page page_size].
  apply bool_decide_eq_true in Es as Hin. pose proof (allowed_page_size s Hin) as Hpos.
  assert (Ht : 0 <= t).
  { unfold t. destruct (Z.eqb_spec n 0) as [|Hn]; cbn [negb]; [lia|].
    pose proof (count_where_nonneg (fun _ x => device_matches (strip q) x) (devices d)). fold n in H.
    unfold ceil_div. apply Z.div_pos; lia. }
  assert (Hr : 1 <= r) by (unfold r; destruct (Z.eqb_spec t 0); cbn [negb]; lia).
  split_and!; try done. unfold list_device_page. destruct (Z.ltb_spec r 1); [lia|]. rewrite Es. cbn [negb]. cbv zeta.
  rewrite strip_idempotent. fold n. fold t.
  assert (Er : (if negb (t =? 0) then Z.min r t else 1) = r) by (unfold r; destruct (Z.eqb_spec t 0); cbn [negb]; lia).
  by rewrite Er.
Qed.

Lemma redirect_params_ok p : Forall code_point (query p) -> 0 <= page p -> 0 <= page_size p -> Forall scalars (redirect_params p).
Proof.
  intros Hq Hp Hs. unfold redirect_params. apply Forall_app. split.
  - destruct (query p) as [|c q]; [constructor|]. apply Forall_singleton. split; [by apply code_points_ascii|exact Hq].
  - rewrite !str_of_pos by done. apply Forall_cons. split; [|apply Forall_singleton];
      (split; [by apply code_points_ascii|apply code_points_digits]).
Qed.

(** The parameters of the redirect, as a request reads them. *)
Lemma read_query p : default [] (param (u "q") (redirect_params p)) = query p.
Proof.
  unfold param, redirect_params. destruct (query p) as [|c q]; cbn [app dict_get].
  - rewrite !decide_False by (vm_compute; discriminate). done.
  - by rewrite decide_True.
Qed.

Lemma read_page p : 0 <= page p -> int_param (u "page") 1 (redirect_params p) = Some (page p).
Proof.
  intros Hp. unfold int_param, param, redirect_params.
  assert (E : dict_get (u "page") ((if query p is [] then [] else [(u "q", query p)]) ++
    [(u "page", str_of_Z (page p)); (u "page_size", str_of_Z (page_size p))]) = Some (str_of_Z (page p))).
  { destruct (query p); cbn [app dict_get]; [by rewrite decide_True|].
    rewrite decide_False by (vm_compute; discriminate). by rewrite decide_True. }
  rewrite E, str_of_pos by done. rewrite py_int_str. f_equal. lia.
Qed.

Lemma read_page_size p : 0 <= page_size p -> int_param (u "page_size") 20 (redirect_params p) = Some (page_size p).
Proof.
  intros Hp. unfold int_param, param, redirect_params.
  assert (E : dict_get (u "page_size") ((if query p is [] then [] else [(u "q", query p)]) ++
    [(u "page", str_of_Z (page p)); (u "page_size", str_of_Z (page_size p))]) = Some (str_of_Z (page_size p))).
  { destruct (query p); cbn [app dict_get]; rewrite !(decide_False (P := u "page_size" = _)) by (vm_compute; discriminate);
      by rewrite decide_True. }
  rewrite E, str_of_pos by done. rewrite py_int_str. f_equal. lia.
Qed.

Lemma devices_page_cases q k s a :
  devices_page q k s d = Ok a ->
  sized 0 255 q = true /\ exists p, list_device_page d q k s = Ok p /\
    a = (if negb (k =? page p) || negb (bool_decide (q = query p)) then RedirectResponse (redirect_url p)
         else Rendered (mkDevicesContext p (clusters_by_name d) (_system_retention_days d))).
Proof.
  unfold devices_page. destruct (sized 0 255 q); cbn [andb negb]; [|done]. destruct (at_least 1 k); cbn [negb]; [|done].
  destruct (negb _); [done|]. destruct (list_device_page d q k s) as [p|e]; [|done].
  intros Ha. split; [done|]. exists p. split; [done|]. by destruct (_ || _); injection Ha as <-.
Qed.

(** C39. The device page redirects at most once, and to the page it stands for.  When a
    request for the devices is answered with a redirect, the address of the redirect, read
    back as a request on the same database, is answered with a page and no redirect: the
    page of the query stripped of its spaces with the number the original was clamped to,
    whatever characters the query has. *)
Theorem devices_page_redirects_once q k s url :
  Forall code_point q -> devices_page q k s d = Ok (RedirectResponse url) ->
  exists context, follow url d = Some (Ok (Rendered context)) /\
    list_device_page d q k s = Ok (device_page context) /\ query (device_page context) = strip q.
Proof.
  intros Hq (Hsize & p & Hp & Ha)%devices_page_cases. destruct (_ || _) in Ha; [injection Ha as ->|done].
  destruct (list_page_again q k s p Hp) as (Hagain & Hpage & Hquery & Hps & Hin). pose proof (allowed_page_size s Hin) as Hpos.
  set (context := mkDevicesContext p (clusters_by_name d) (_system_retention_days d)). exists context. split; [|by split].
  unfold follow, redirect_url. rewrite strip_prefix_app. cbn [mbind option_bind]. rewrite parse_urlencode.
  - rewrite read_page, read_page_size, read_query by lia. cbn [mbind option_bind]. f_equal.
    unfold devices_page. rewrite Hps, Hagain.
    assert (Hs : sized 0 255 (query p) = true).
    { rewrite Hquery. unfold sized in *. pose proof (strip_length q). lia. }
    rewrite Hs. unfold at_least. destruct (Z.leb_spec 1 (page p)); [|lia]. rewrite bool_decide_true by done.
    rewrite Z.eqb_refl, bool_decide_true by done. reflexivity.
  - unfold redirect_params. by destruct (query p).
  - apply redirect_params_ok; [rewrite Hquery; by apply code_points_strip|lia..].
Qed.
End redirect.

Definition long_query : text := u " wéb ".

Definition page_db : Db :=
  empty_db <| devices := list_to_map [(1, named_device (u "wéb-2")); (2, named_device (u "db-1")); (3, named_device (u "wéb-1"))] |>.

Definition demo_redirect : text := u "/devices?q=w%C3%A9b&page=1&page_size=20".

Lemma devices_page_redirects_once_witness :
  @devices_page as_listed codepoint_le long_query 9 20 page_db = Ok (RedirectResponse demo_redirect) /\
  exists context, @follow as_listed codepoint_le no_unicode_digits demo_redirect page_db = Some (Ok (Rendered context)) /\
    query (device_page context) = u "wéb".
Proof.
  assert (E : @devices_page as_listed codepoint_le long_query 9 20 page_db = Ok (RedirectResponse demo_redirect)) by (vm_compute; reflexivity).
  split; [exact E|].
  destruct (@devices_page_redirects_once as_listed codepoint_le no_unicode_digits page_db long_query 9 20 demo_redirect) as (context & Hf & _ & Hq).
  - unfold code_point. repeat constructor.
  - exact E.
  - exists context. split; [exact Hf|]. rewrite Hq. vm_compute. reflexivity.
Defined.

(** ** The dashboard *)

Section dashboard.
Context `{PgOrder, Collation} (d : Db).

(** Every device of the scans once, with one of its latest. *)
Record latest_ok (scans latest : list (Z * ScanRun)) : Prop := {
  latest_once : NoDup latest.*1;
  latest_devices i : i ∈ latest.*1 <-> exists k r, (k, r) ∈ scans /\ run_device_id r = i;
  latest_newest i r : (i, r) ∈ latest -> (exists k, (k, r) ∈ scans) /\ run_device_id r = i /\
    forall k' r', (k', r') ∈ scans -> run_device_id r' = i -> run_started_at r' <= run_started_at r
}.

Lemma latest_by_device_ok scans : StronglySorted (newest run_started_at) scans -> latest_ok scans (latest_by_device scans).
Proof.
  induction scans as [|[k r] scans IH] using rev_ind; intros Hs.
  - constructor; cbn; [constructor| |by intros i r ?%not_elem_of_nil].
    intros i. split; [by intros ?%not_elem_of_nil|by intros (? & ? & ?%not_elem_of_nil & _)].
  - assert (Hle : forall k' r', (k', r') ∈ scans -> run_started_at r <= run_started_at r').
    { intros k' r' Hin. apply (StronglySorted_app_1_elem_of _ _ _ (k', r') (k, r) Hs Hin). set_solver. }
    apply StronglySorted_app_1_l in Hs as Hs1. specialize (IH Hs1). destruct IH as [H1 H2 H3].
    unfold latest_by_device. rewrite foldl_snoc. fold (latest_by_device scans). cbn [snd].
    destruct (dict_get (run_device_id r) (latest_by_device scans)) as [r0|] eqn:E.
    + assert (Hin : run_device_id r ∈ (latest_by_device scans).*1) by (apply dict_get_keys; by rewrite E).
      constructor; [done| |].
      * intros i. rewrite H2. split; [intros (k' & r' & Hr & Hi); exists k', r'; set_solver|].
        intros (k' & r' & [Hr|[=-> ->]%list_elem_of_singleton]%elem_of_app & Hi); [eauto|]. subst i. by apply H2.
      * intros i q Hq. destruct (H3 i q Hq) as ((k' & Hk') & Hi & Hmax). split; [exists k'; set_solver|]. split; [done|].
        intros k2 r2 [Hr|[=-> ->]%list_elem_of_singleton]%elem_of_app Hi2; [by apply (Hmax k2)|]. by apply (Hle k').
    + apply dict_get_None in E. constructor.
      * rewrite fmap_app. apply NoDup_app. split_and!; [done| |apply NoDup_singleton].
        intros i Hi Hi'. apply list_elem_of_singleton in Hi'. cbn in Hi'. by subst i.
      * intros i. rewrite fmap_app, elem_of_app, H2. cbn. rewrite list_elem_of_singleton. split.
        -- intros [(k' & r' & Hr & Hi)| ->]; [exists k', r'; set_solver|]. exists k, r. set_solver.
        -- intros (k' & r' & [Hr|[=-> ->]%list_elem_of_singleton]%elem_of_app & Hi); [left; eauto|by right].
      * intros i q [Hq|[=-> ->]%list_elem_of_singleton]%elem_of_app.
        -- destruct (H3 i q Hq) as ((k' & Hk') & Hi & Hmax). split; [exists k'; set_solver|]. split; [done|].
           intros k2 r2 [Hr|[=-> ->]%list_elem_of_singleton]%elem_of_app Hi2; [by apply (Hmax k2)|]. by apply (Hle k').
        -- split; [exists k; set_solver|]. split; [done|].
           intros k2 r2 [Hr|[=-> ->]%list_elem_of_singleton]%elem_of_app Hi2; [|lia].
           destruct E. apply H2. by exists k2, r2.
Qed.

(** The dashboard adds up the connections of one successful scan per device, a latest one. *)
Lemma dashboard_counts_latest :
  exists latest, latest_ok (map_to_list (where_ (fun _ r => bool_decide (run_status r = SCAN_SUCCESS)) (scan_runs d))) latest /\
    active_connections (dashboard d) = foldr Z.add 0 ((fun p => run_connection_count p.2) <$> latest) /\
    healthy_count (dashboard d) <= device_count (dashboard d) /\ device_count (dashboard d) = Z.of_nat (size (devices d)) /\
    (length (recent_scans (dashboard d)) <= 8)%nat.
Proof.
  set (rows := where_ _ (scan_runs d)). exists (latest_by_device (successful_scans d)). split; [|split_and!].
  - assert (Hp : successful_scans d ≡ₚ map_to_list rows).
    { unfold successful_scans, newest_first. etrans; [apply merge_sort_Permutation|]. etrans; [apply pg_order_Permutation|]. reflexivity. }
    assert (Hs : StronglySorted (newest run_started_at) (successful_scans d)).
    { apply Sorted_StronglySorted; [intros x y z; unfold newest; lia|]. apply Sorted_merge_sort. intros x y. unfold newest. lia. }
    destruct (latest_by_device_ok _ Hs) as [H1 H2 H3]. constructor; [done| |].
    + intros i. rewrite H2. split; intros (k & r & Hr & Hi); exists k, r; [by rewrite <- Hp|by rewrite Hp].
    + intros i r Hr. destruct (H3 i r Hr) as ((k & Hk) & Hi & Hmax). split; [exists k; by rewrite <- Hp|]. split; [done|].
      intros k' r' Hr' Hi'. apply (Hmax k'); [by rewrite Hp|done].
  - done.
  - cbn. apply inj_le, length_filter.
  - cbn. f_equal. unfold devices_by_name, order_by. rewrite (Permutation_length (merge_sort_Permutation _ _)), (Permutation_length (pg_order_Permutation _)). apply length_map_to_list.
  - cbn. rewrite length_take. lia.
Qed.
End dashboard.
